(* ===== verification/_CoqProject ===== *)
-Q . S2P
Prelude.v
Engine.v
Hsr.v
NodeTable.v
Supervision.v
Role.v
Pattern.v
Node.v
PrpPath.v
HsrPath.v
Dispatch.v
Redundancy.v
Ring.v
Peers.v
Runtime.v
Threads.v
Goroutines.v
Interleave.v
Ber.v
Iec.v
GooseFrame.v
Trafficgen.v
Session.v
Report.v
Ping.v
EndToEnd.v
RingBuf.v
ConfigLoad.v
Iface.v
Daemon.v
Devices.v
Capture.v
Npcap.v
Tui.v
Screen.v
Console.v
