(* ===== verification/Prelude.v ===== *)
(** * prp-sim: a verification development of the PRP / HSR RedBox

    ** The program

    prp-sim is a user-space RedBox for IEC 62439-3 redundancy.  A node has two
    redundancy ports (LAN A, LAN B: two PRP networks, or the two ports of an
    HSR ring) and an interlink (a SAN, a coupled PRP LAN, or a second ring).
    Read loops put received frames into one buffer; a single worker takes them
    out and runs [handleFrame], which dispatches by EtherType, port and role.
    On the PRP side a SAN frame gets a 6-byte trailer (RCT) with a per-source
    sequence number and is sent on both LANs; receivers drop the second copy by
    a table of (source, number) pairs.  On the HSR side a frame gets an HSR tag
    and circulates on the ring.  Supervision frames announce live nodes.
    The daemon ([cmd/prpd]) loads a configuration, opens raw sockets and shows
    counters and log lines on a console.  A second program ([cmd/trafficgen])
    sends IEC 61850 GOOSE or Sampled Values frames into the network as a SAN
    and measures loss and duplication where they come out.

    ** Files

    - [Prelude]: Go run-time model ([go]: return or panic), machine integers
      with their wrap-around, byte strings, tactics ([zb], [zlia],
      [guard_true], [len_lia]), the hint databases [go_db], [len_db].
    - [Engine] (internal/engine/engine.go): Ethernet accessors, sequence
      manager, RCT codec.
    - [Hsr] (internal/engine/hsr.go): HSR tag codec and rewriting.
    - [NodeTable] (internal/nodetable): the duplicate table; Go's unspecified
      map order is the class [MapRange]; a specification by histories
      ([last_accept], [remembered]) and the refinement; retention under load.
    - [Supervision] (internal/supervision): life-check frames.
    - [Role] (internal/prp/role.go), [Pattern] (multicast filter patterns of
      internal/prp/prp.go and internal/config/config.go).
    - [Node] (internal/prp/prp.go, hsr.go): the node record, the state and
      panic monad [M], filters, counters, clean-up.  The class [Env] stands
      for the sockets ([write_ok], an oracle that sees all earlier writes) and
      [net.InterfaceByName]; [n_sent] records every frame handed to a port.
    - [PrpPath], [HsrPath]: the frame handlers, each with a pure description
      of its result and the equation that the handler computes it
      ([handleIncomingPRPFrame_eq] and the like).
    - [Dispatch]: [handleFrame], [SendSupervisionFrame], the step function of
      a node, exact panic conditions, the node invariant [node_ok].
    - [Redundancy]: PRP between two RedBoxes; [Ring]: HSR rings and couplings;
      [Peers]: what a node remembers of other nodes, as histories.
    - [Runtime]: [Start], the read loops, buffer, worker, timers and [Stop] as
      a transition system [sys_step] with its reachable states.
    - [Threads]: programs of labelled actions, pools of goroutines, mutexes,
      data races, deadlocks and the Go runtime's aborts on concurrent map
      accesses, for any program; [Goroutines]: the handlers, the timer, the
      ticker, [Snapshot], the end of [Start] and [Stop] as such programs, with
      every access to a shared field and every Lock and Unlock ([handleFrameP]
      and the like; [handleFrameP_alone] and the like: run alone they are the
      handlers); [Interleave]: what holds in every interleaving of them.
    - [Ber] (internal/iec/ber.go), [Iec] (goose.go, sv.go, utc.go): tag-length-
      value encoding, the two application PDUs and their time stamps.
    - [GooseFrame], [Trafficgen], [Session] (cmd/trafficgen/main.go): frame
      assembly and parsing, addresses on the command line; the sending loop
      and the statistics; the command line and the receiving session;
      [Report]: the final report with its percentiles; [Ping]: ping mode.
    - [EndToEnd]: the generator's frames through the RedBoxes of [Redundancy].
    - [RingBuf] (internal/tui/ringbuf.go): the log buffer; [Tui]
      (internal/tui/prpd.go, cmd/prpd/main.go): what the console shows of the
      node; [Screen] (internal/tui/prpd.go, tui.go): the whole frame, with log
      lines cut to runes; [Console] (cmd/prpd/main.go): the display goroutine
      next to the running daemon and the end of [main], write by write, with a
      small terminal that interprets the bytes.
    - [ConfigLoad] (internal/config/config.go, cmd/prpd/main.go): [Load] and
      the step from the file's configuration to the node's.  The class [Host]
      stands for files, environment, YAML, SHA-256, addresses and durations.
    - [Iface] (internal/iface/iface.go, cmd/trafficgen/socket_linux.go): every
      function as a computation over the history of system calls, with the
      class [Kernel] for the answers; restoring stripped VLAN tags.
    - [Daemon] (cmd/prpd/main.go, internal/prp/prp.go): [main] from the
      configuration file to the running daemon, with the system calls of
      [Start] and [Stop]; [start_refines] ties it to [Runtime.Start].
    - [Devices] (cmd/trafficgen/socket_windows.go): device selection and the
      socket over a capture handle, with the class [Pcap] for the library;
      [Capture]: the walk over the library's device list in C memory;
      [Npcap]: loading the library (class [Loader]) and opening a device
      (class [Wpcap]).

    ** What the theorems show

    - Codecs: round trips of the RCT, the HSR tag and both supervision
      dialects, exact acceptance conditions, behaviour on oversized frames.
    - Duplicate table: it refines a memory of accepted frames; no false
      duplicates even after overflow; eviction takes an oldest entry.
    - Peers: the table of live peers is exactly the history of supervision
      frames and clean-ups, and nodes whose announcements get through in time
      stay in it; ring members and SANs likewise, with the entries that are
      kept too long.
    - Data path: exactly-once delivery across two PRP RedBoxes and around an
      HSR ring for every arrival order, loss or repetition of copies;
      at-most-once under arbitrary interleaved traffic; only fresh, correctly
      routed, foreign frames reach the SAN; no reinjection into the PRP
      network a frame came from; numbers preserved across a coupling; one
      injection by a QuadBox; VLAN, multicast and proxy filters.
    - Robustness: exactly which frames make the handler panic; invariants of
      every reachable state of the daemon; bounded buffer; start-up cleans up;
      shutdown stops reading; no descriptor leaks, no use of a closed handle.
    - Concurrency: under every interleaving the node invariant holds, live
      duplicates stay dropped and there is no deadlock; the data races are on
      exactly the three fields named in [Interleave.races_only], and the
      process ends only there: [interleaved_invariant] says how, [seen_abort],
      [drops_abort] and [timer_panic] are runs that end so.
    - The daemon: how [main] ends, which descriptors it holds then, and that
      [Stop] closes exactly these.
    - Encodings: GOOSE, SV and TLV round trips inside padded frames and dirty
      buffers; time stamps up to 60 ns; exactly which PDUs make the parsers
      panic; termination of the walk over a PDU.
    - Composition: a GOOSE frame crosses two RedBoxes and is recognised once;
      what the generator's receiver reports equals what happened to the
      stream that its command line sent.
    - Set-up and display: which configurations are accepted and what an
      accepted one guarantees the node; the log buffer refines keeping the
      newest lines of the whole output, and the console shows its end; every
      frame drawn shows a state the daemon reached, and the terminal is on the
      alternate screen exactly while the display goroutine has it; no drop is
      hidden from the console; what the final report says.

    ** Modelling choices and bounds

    Integers are [Z] with [u8], [u16], [u64], [i16], [i64] where Go wraps.
    Slicing and indexing return [Panic] out of range.  One handled event reads
    one clock value [now], given as an argument.  Three loops have fuel.
    The VLAN loop of [GetEtherType] advances four bytes per round and has one
    more unit than the frame has bytes; [GetEtherType_ret] shows that it never
    runs out.  The walk over TLVs ([walkTLV]) consumes at least two bytes per
    round and gets one unit per byte; [walkTLV_total] shows that this is the
    result of the loop.  The walk over C memory ([findDevices]) takes fuel
    because pointers may form a cycle; for a well-formed list enough fuel
    gives the result ([findDevices_reads]).  Positive float64 values are
    mantissa and exponent with rounding to nearest.  Loops of the generator are given the sequence of what
    they observe (stop channel, clock, receptions).  A slice that may be
    extended to its capacity is given as the buffer behind it ([ParseSVAPDU],
    [parseFrame]).  A nil map and an empty map are one value.

    In [Runtime], [Daemon] and [Console] a handled frame, a clean-up, an
    announcement and a [Snapshot] act on the node atomically.  [Goroutines]
    and [Interleave] drop this: there a step is one access to one field.  A
    map write is two steps, between which the map is marked as being written;
    a lookup, a step of an iteration or the start of another write that meets
    the mark ends the process, as in the Go runtime, whose check is best
    effort: an overlap it misses is undefined behaviour and not modelled.  Its
    check and its setting of the mark are one step here.  An operation of the
    duplicate table or on [ringMembers] under its mutex is one map write.  An
    iteration tries every key that was there at its start and may try others.
    Memory is sequentially consistent, which Go promises only for programs
    without data races.  [readLoop]'s goroutines use channels and sockets
    only.

    ** Not modelled

    What is logged where (log lines are arbitrary byte strings), the printing
    of durations, the pace of the generator's sending, the delivery of
    signals (they may come at any time), and the [SetClock] hooks of the
    tests (a clock value is an argument).  YAML, SHA-256, address and duration
    parsing, the kernel, the capture library and the system's loader are
    parameters. *)

From stdpp Require Export base gmap strings list numbers pretty.
From Stdlib Require Export Ascii.

(** ** Scopes and notations *)

Declare Scope go_scope.
Delimit Scope go_scope with go.
Global Open Scope go_scope.
Global Open Scope Z_scope.

Abbreviation bytes := (list Z) (only parsing).

(** ** Go computations

    A Go function that indexes or slices can panic, and an unrecovered panic
    kills the daemon.  [go A] is the result of running such a function:
    [Ret a] when it returns [a], [Panic] when the run time aborts it. *)

Inductive go (A : Type) : Type :=
| Ret (a : A)
| Panic.
Arguments Ret {A} a.
Arguments Panic {A}.

Definition go_bind {A B} (m : go A) (k : A → go B) : go B :=
  match m with Ret a => k a | Panic => Panic end.

Notation "'let!' x := m 'in' k" := (go_bind m (fun x => k))
  (at level 10, x pattern, m at level 100, k at level 200,
   format "'[v' 'let!'  x  :=  m  'in' '/' k ']'") : go_scope.

(** Go's [(value, error)] pairs: a value with a nil error, or an error. *)
Inductive result (E A : Type) : Type :=
| Ok (a : A)
| Err (e : E).
Arguments Ok {E A} a.
Arguments Err {E A} e.

(** ** Machine integers: [Z] with the wrap-around written out *)

Definition u8 (x : Z) : Z := x mod 256.
Definition u16 (x : Z) : Z := x mod 65536.
Definition u32 (x : Z) : Z := x mod 4294967296.
Definition u64 (x : Z) : Z := x mod 18446744073709551616.

(** Two's complement reading of the low [16] ([64]) bits. *)
Definition i16 (x : Z) : Z := (x + 32768) mod 65536 - 32768.
Definition i64 (x : Z) : Z :=
  (x + 9223372036854775808) mod 18446744073709551616 - 9223372036854775808.

Definition is_u16 (x : Z) : Prop := 0 <= x < 65536.
Definition is_byte (b : Z) : Prop := 0 <= b < 256.
Definition bytes_ok (f : bytes) : Prop := Forall is_byte f.

(** ** Instants and durations

    [time.Time] is an instant in nanoseconds, [time.Duration] an [int64]
    number of nanoseconds: [Time.Sub] saturates and
    [time.Duration(ms) * time.Millisecond] wraps. *)

Definition maxDuration : Z := 9223372036854775807.
Definition minDuration : Z := -9223372036854775808.

Definition time_Sub (a b : Z) : Z := Z.max minDuration (Z.min maxDuration (a - b)).
Definition Milliseconds (ms : Z) : Z := i64 (i64 ms * 1000000).

(** ** Slices of bytes *)

(** [len(s)] *)
Definition glen {A} (s : list A) : Z := Z.of_nat (length s).

(** [s[i]] *)
Definition idx (s : bytes) (i : Z) : go Z :=
  if (0 <=? i) && (i <? glen s) then Ret (s !!! Z.to_nat i) else Panic.

Definition sub {A} (s : list A) (lo hi : Z) : list A :=
  take (Z.to_nat (hi - lo)) (drop (Z.to_nat lo) s).

(** [s[lo:hi]], for a slice whose capacity is its length *)
Definition slice {A} (s : list A) (lo hi : Z) : go (list A) :=
  if (0 <=? lo) && (lo <=? hi) && (hi <=? glen s) then Ret (sub s lo hi) else Panic.

(** [make([]byte, n)] *)
Definition zeros (n : Z) : bytes := replicate (Z.to_nat n) 0.

(** [copy(dst, src)] into a fresh slot of [n] bytes. *)
Definition slot (n : Z) (src : bytes) : bytes :=
  let m := take (Z.to_nat n) src in m ++ zeros (n - glen m).

(** [binary.BigEndian.Uint16] of the two bytes at [off] *)
Definition w16 (s : bytes) (off : Z) : Z :=
  Z.lor (Z.shiftl (s !!! Z.to_nat off) 8) (s !!! Z.to_nat (off + 1)).

(** [binary.BigEndian.Uint16(s[off:off+2])] *)
Definition be16 (s : bytes) (off : Z) : go Z :=
  let! b := slice s off (off + 2) in
  Ret (w16 b 0).

(** The two bytes [binary.BigEndian.PutUint16] stores for [v]. *)
Definition PutUint16 (v : Z) : bytes := [u8 (Z.shiftr v 8); u8 v].

(** [binary.BigEndian.PutUint16(s[off:off+2], v)] on a copy of [s] *)
Definition put16 (s : bytes) (off v : Z) : go bytes :=
  let! _ := slice s off (off + 2) in
  Ret (take (Z.to_nat off) s ++ PutUint16 v ++ drop (Z.to_nat (off + 2)) s).

(** ** Text: [fmt.Sprintf] verbs the program uses *)

Definition hexdigit (d : Z) : ascii :=
  default "0"%char (String.get (Z.to_nat d) "0123456789abcdef").

(** ["%02x"] of a byte *)
Definition hex2 (b : Z) : string :=
  String (hexdigit (b / 16)) (String (hexdigit (b mod 16)) EmptyString).

(** ["%02x:%02x:%02x:%02x:%02x:%02x"] *)
Definition mac_string (a b c d e f : Z) : string :=
  (hex2 a +:+ ":" +:+ hex2 b +:+ ":" +:+ hex2 c +:+ ":" +:+
   hex2 d +:+ ":" +:+ hex2 e +:+ ":" +:+ hex2 f)%string.

(** ** Automation *)

Create HintDb go_db.

Ltac zb :=
  repeat match goal with
  | H : (_ && _)%bool = true |- _ => apply andb_true_iff in H as [? ?]
  | H : (_ || _)%bool = false |- _ => apply orb_false_iff in H as [? ?]
  | H : (_ <=? _) = true |- _ => apply Z.leb_le in H
  | H : (_ <=? _) = false |- _ => apply Z.leb_gt in H
  | H : (_ <? _) = true |- _ => apply Z.ltb_lt in H
  | H : (_ <? _) = false |- _ => apply Z.ltb_ge in H
  | H : (_ >? _) = true |- _ => apply Z.gtb_lt in H
  | H : (_ =? _) = true |- _ => apply Z.eqb_eq in H
  | H : (_ =? _) = false |- _ => apply Z.eqb_neq in H
  end.

(** Decide the boolean guards of the goal by arithmetic. *)
Ltac guard_true b := replace b with true by (symmetry; lia).
Ltac guard_false b := replace b with false by (symmetry; lia).

(** Linear arithmetic with division and remainder by constants. *)
Ltac zlia := Z.to_euclidean_division_equations; lia.

Lemma length_PutUint16 v : length (PutUint16 v) = 2%nat.
Proof. reflexivity. Qed.

(** Arithmetic over the lengths of composed byte strings. *)
Create Rewrite HintDb len_db.
#[export] Hint Rewrite @length_app @length_take @length_drop @length_replicate
  @length_cons @length_nil length_PutUint16 : len_db.
Ltac len_simpl := unfold glen, zeros in *; autorewrite with len_db in *; cbn [length] in *.
Ltac len_lia := len_simpl; lia.

(** ** Lemmas *)

Lemma glen_nonneg {A} (s : list A) : 0 <= glen s.
Proof. unfold glen. lia. Qed.

Lemma glen_app {A} (s t : list A) : glen (s ++ t) = glen s + glen t.
Proof. len_lia. Qed.

Lemma glen_zeros n : 0 <= n → glen (zeros n) = n.
Proof. intros. unfold glen, zeros. rewrite length_replicate. lia. Qed.

Lemma glen_PutUint16 v : glen (PutUint16 v) = 2.
Proof. reflexivity. Qed.

Lemma glen_sub {A} (s : list A) lo hi :
  0 <= lo → lo <= hi → hi <= glen s → glen (sub s lo hi) = hi - lo.
Proof. intros. unfold sub. len_lia. Qed.

Lemma idx_ok s i : 0 <= i < glen s → idx s i = Ret (s !!! Z.to_nat i).
Proof. intros. unfold idx. by guard_true ((0 <=? i) && (i <? glen s)). Qed.

Lemma slice_ok {A} (s : list A) lo hi :
  0 <= lo → lo <= hi → hi <= glen s → slice s lo hi = Ret (sub s lo hi).
Proof.
  intros. unfold slice.
  by guard_true ((0 <=? lo) && (lo <=? hi) && (hi <=? glen s)).
Qed.

Lemma slice_panic {A} (s : list A) lo hi : glen s < hi → slice s lo hi = Panic.
Proof.
  intros. unfold slice.
  by guard_false ((0 <=? lo) && (lo <=? hi) && (hi <=? glen s)).
Qed.

Lemma sub_total (s : bytes) lo hi k :
  0 <= lo → 0 <= k → k < hi - lo →
  sub s lo hi !!! Z.to_nat k = s !!! Z.to_nat (lo + k).
Proof.
  intros. unfold sub.
  rewrite !list_lookup_total_alt, lookup_take_lt, lookup_drop by lia.
  by replace (Z.to_nat lo + Z.to_nat k)%nat with (Z.to_nat (lo + k)) by lia.
Qed.

Lemma be16_ok s off : 0 <= off → off + 2 <= glen s → be16 s off = Ret (w16 s off).
Proof.
  intros. unfold be16. rewrite slice_ok by lia. cbn. f_equal. unfold w16.
  rewrite !sub_total by lia. by rewrite Z.add_0_r, Z.add_0_l.
Qed.

Lemma be16_panic s off : glen s < off + 2 → be16 s off = Panic.
Proof. intros. unfold be16. by rewrite slice_panic. Qed.

Lemma total_app_r (s t : bytes) i :
  glen s <= i → (s ++ t) !!! Z.to_nat i = t !!! Z.to_nat (i - glen s).
Proof.
  intros. unfold glen in *. rewrite lookup_total_app_r by lia. f_equal. lia.
Qed.

Lemma total_app_l (s t : bytes) i :
  0 <= i < glen s → (s ++ t) !!! Z.to_nat i = s !!! Z.to_nat i.
Proof. intros. unfold glen in *. rewrite lookup_total_app_l by lia. done. Qed.

Lemma w16_app_r s t off : glen s <= off → w16 (s ++ t) off = w16 t (off - glen s).
Proof.
  intros. unfold w16. rewrite !total_app_r by lia.
  by replace (off + 1 - glen s) with (off - glen s + 1) by lia.
Qed.

Lemma w16_app_l s t off : 0 <= off → off + 2 <= glen s → w16 (s ++ t) off = w16 s off.
Proof. intros. unfold w16. by rewrite !total_app_l by lia. Qed.

Lemma sub_app_l {A} (s t : list A) n : n = glen s → sub (s ++ t) 0 n = s.
Proof. intros ->. unfold sub. rewrite drop_0. apply take_app_length'. len_lia. Qed.

Lemma sub_app_r {A} (s t : list A) lo hi :
  0 <= lo → lo = glen s → hi = glen s + glen t → sub (s ++ t) lo hi = t.
Proof.
  intros. unfold sub. rewrite drop_app_length' by len_lia.
  apply take_ge. len_lia.
Qed.

Lemma sub_all {A} (s : list A) hi : hi = glen s → sub s 0 hi = s.
Proof. intros ->. unfold sub. rewrite drop_0. apply take_ge. len_lia. Qed.

Lemma sub_sub {A} (s : list A) a b c d :
  0 <= a → 0 <= c → c <= d → d <= b - a →
  sub (sub s a b) c d = sub s (a + c) (a + d).
Proof.
  intros. unfold sub. rewrite skipn_firstn_comm, take_take, drop_drop.
  f_equal; [lia|]. f_equal. lia.
Qed.

Lemma sub_app_split {A} (s : list A) a b c :
  0 <= a → a <= b → b <= c → sub s a b ++ sub s b c = sub s a c.
Proof.
  intros. unfold sub.
  replace (Z.to_nat (c - a)) with (Z.to_nat (b - a) + Z.to_nat (c - b))%nat by lia.
  rewrite <-take_take_drop, drop_drop. do 3 f_equal. lia.
Qed.

Lemma slice_app_l {A} (s t : list A) n : n = glen s → slice (s ++ t) 0 n = Ret s.
Proof.
  intros ->. pose proof (glen_nonneg s). pose proof (glen_nonneg t).
  rewrite slice_ok by (rewrite ?glen_app; lia). by rewrite sub_app_l.
Qed.

(** *** Bit fields as arithmetic *)

Lemma land_mod x k : 0 <= k → Z.land x (Z.ones k) = x mod 2 ^ k.
Proof. apply Z.land_ones. Qed.

Lemma land_0x0FFF x : Z.land x 0x0FFF = x mod 4096.
Proof. apply (Z.land_ones x 12). lia. Qed.

Lemma land_0x0F x : Z.land x 0x0F = x mod 16.
Proof. apply (Z.land_ones x 4). lia. Qed.

Lemma land_1 x : Z.land x 1 = x mod 2.
Proof. apply (Z.land_ones x 1). lia. Qed.

Lemma lor_shiftl_add a b k :
  0 <= k → 0 <= b < 2 ^ k → Z.lor (Z.shiftl a k) b = a * 2 ^ k + b.
Proof.
  intros Hk Hb. rewrite <-Z.shiftl_mul_pow2 by lia.
  assert (Hl : Z.land (Z.shiftl a k) b = 0);
    [|by rewrite Z.add_nocarry_lxor, Z.lxor_lor].
  apply Z.bits_inj'; intros n Hn; rewrite Z.land_spec, Z.bits_0.
  destruct (Z.ltb_spec n k); [by rewrite Z.shiftl_spec_low|].
  rewrite andb_false_iff; right. rewrite <-(Z.mod_small b (2 ^ k)) by lia.
  by apply Z.mod_pow2_bits_high.
Qed.

Lemma testbit_small b k n : 0 <= b < 2 ^ k → 0 <= k → k <= n → Z.testbit b n = false.
Proof.
  intros. rewrite <-(Z.mod_small b (2 ^ k)) by lia. by apply Z.mod_pow2_bits_high.
Qed.

(** Bitwise operations act separately on a high and a low field. *)
Lemma fields_testbit a b k n :
  0 <= k → 0 <= b < 2 ^ k → 0 <= n →
  Z.testbit (a * 2 ^ k + b) n = if n <? k then Z.testbit b n else Z.testbit a (n - k).
Proof.
  intros Hk Hb Hn. rewrite <-lor_shiftl_add, Z.lor_spec by lia.
  destruct (Z.ltb_spec n k).
  - by rewrite Z.shiftl_spec_low.
  - rewrite Z.shiftl_spec_high, (testbit_small b k n) by lia. apply orb_false_r.
Qed.

Lemma land_small b d k : 0 <= k → 0 <= b < 2 ^ k → 0 <= d → 0 <= Z.land b d < 2 ^ k.
Proof.
  intros Hk Hb Hd. split; [apply Z.land_nonneg; lia|].
  pose proof (Z.land_ones (Z.land b d) k Hk) as H.
  rewrite <-Z.land_assoc, (Z.land_comm d), Z.land_assoc, Z.land_ones, (Z.mod_small b) in H by lia.
  rewrite H. apply Z.mod_pos_bound. lia.
Qed.

Lemma lor_small b d k : 0 <= k → 0 <= b < 2 ^ k → 0 <= d < 2 ^ k → 0 <= Z.lor b d < 2 ^ k.
Proof.
  intros Hk Hb Hd. split; [apply Z.lor_nonneg; lia|].
  pose proof (Z.land_ones (Z.lor b d) k Hk) as H.
  rewrite Z.land_lor_distr_l, !Z.land_ones, (Z.mod_small b), (Z.mod_small d) in H by lia.
  rewrite H. apply Z.mod_pos_bound. lia.
Qed.

Lemma land_fields a b c d k :
  0 <= k → 0 <= b < 2 ^ k → 0 <= d < 2 ^ k →
  Z.land (a * 2 ^ k + b) (c * 2 ^ k + d) = Z.land a c * 2 ^ k + Z.land b d.
Proof.
  intros Hk Hb Hd. pose proof (land_small b d k Hk Hb ltac:(lia)).
  apply Z.bits_inj'; intros n Hn.
  rewrite Z.land_spec, !fields_testbit, !Z.land_spec by lia. by destruct (n <? k).
Qed.

Lemma lor_fields a b c d k :
  0 <= k → 0 <= b < 2 ^ k → 0 <= d < 2 ^ k →
  Z.lor (a * 2 ^ k + b) (c * 2 ^ k + d) = Z.lor a c * 2 ^ k + Z.lor b d.
Proof.
  intros Hk Hb Hd. pose proof (lor_small b d k Hk Hb Hd).
  apply Z.bits_inj'; intros n Hn.
  rewrite Z.lor_spec, !fields_testbit, !Z.lor_spec by lia. by destruct (n <? k).
Qed.

Lemma shiftr_8 x : Z.shiftr x 8 = x / 256.
Proof. by rewrite Z.shiftr_div_pow2. Qed.

Lemma shiftr_12 x : Z.shiftr x 12 = x / 4096.
Proof. by rewrite Z.shiftr_div_pow2. Qed.

Lemma is_u16_u16 x : is_u16 (u16 x).
Proof. unfold is_u16, u16. apply Z.mod_pos_bound. lia. Qed.

Lemma u16_small x : is_u16 x → u16 x = x.
Proof. intros. by apply Z.mod_small. Qed.

Lemma is_byte_u8 x : is_byte (u8 x).
Proof. unfold is_byte, u8. apply Z.mod_pos_bound. lia. Qed.

Lemma bytes_ok_PutUint16 v : bytes_ok (PutUint16 v).
Proof. repeat constructor; apply is_byte_u8. Qed.

Lemma w16_eq s off :
  is_byte (s !!! Z.to_nat (off + 1)) →
  w16 s off = s !!! Z.to_nat off * 256 + s !!! Z.to_nat (off + 1).
Proof. intros. unfold w16. by rewrite lor_shiftl_add by (unfold is_byte in *; lia). Qed.

Lemma w16_PutUint16 v t : is_u16 v → w16 (PutUint16 v ++ t) 0 = v.
Proof.
  intros Hv. unfold is_u16 in Hv.
  rewrite w16_eq by apply is_byte_u8.
  change (u8 (Z.shiftr v 8) * 256 + u8 v = v).
  unfold u8. rewrite shiftr_8. zlia.
Qed.

Lemma bytes_ok_total s i : bytes_ok s → is_byte (s !!! i).
Proof.
  intros Hs. rewrite list_lookup_total_alt.
  destruct (s !! i) eqn:E; cbn; [|unfold is_byte; lia].
  by apply (Forall_lookup_1 _ _ _ _ Hs E).
Qed.

Lemma is_u16_w16 s off : bytes_ok s → is_u16 (w16 s off).
Proof.
  intros Hs. rewrite w16_eq by by apply bytes_ok_total.
  pose proof (bytes_ok_total s (Z.to_nat off) Hs).
  pose proof (bytes_ok_total s (Z.to_nat (off + 1)) Hs).
  unfold is_byte, is_u16 in *. lia.
Qed.

Lemma bytes_ok_app s t : bytes_ok (s ++ t) ↔ bytes_ok s ∧ bytes_ok t.
Proof. apply Forall_app. Qed.

Lemma bytes_ok_zeros n : bytes_ok (zeros n).
Proof. apply Forall_replicate. unfold is_byte. lia. Qed.

Lemma bytes_ok_sub s lo hi : bytes_ok s → bytes_ok (sub s lo hi).
Proof. intros. by apply Forall_take, Forall_drop. Qed.

#[export] Hint Resolve is_u16_u16 is_byte_u8 bytes_ok_PutUint16 bytes_ok_total
  is_u16_w16 bytes_ok_zeros bytes_ok_sub glen_nonneg : go_db.

Lemma glen_slot n src : 0 <= n → glen (slot n src) = n.
Proof. intros. unfold slot. rewrite glen_app, glen_zeros; [lia|]. len_lia. Qed.

Lemma bytes_ok_slot n src : bytes_ok src → bytes_ok (slot n src).
Proof. intros. unfold slot. apply bytes_ok_app. split; [by apply Forall_take|auto with go_db]. Qed.

Lemma slot_full n src : glen src = n → slot n src = src.
Proof.
  intros Hn. unfold slot. rewrite take_ge by (unfold glen in *; lia).
  replace (n - glen src) with 0 by lia. apply app_nil_r.
Qed.

(** A two-byte window of a byte string is the encoding of the word read there. *)
Lemma PutUint16_w16 s off :
  bytes_ok s → 0 <= off → off + 2 <= glen s →
  PutUint16 (w16 s off) = sub s off (off + 2).
Proof.
  intros Hs H0 H1.
  pose proof (bytes_ok_total s (Z.to_nat off) Hs) as Ha.
  pose proof (bytes_ok_total s (Z.to_nat (off + 1)) Hs) as Hb.
  unfold PutUint16. rewrite w16_eq by done. unfold is_byte, u8 in *.
  rewrite shiftr_8. unfold sub. replace (Z.to_nat (off + 2 - off)) with 2%nat by lia.
  rewrite (drop_S s (s !!! Z.to_nat off) (Z.to_nat off)).
  2:{ apply list_lookup_lookup_total_lt. len_lia. }
  rewrite (drop_S s (s !!! Z.to_nat (off + 1)) (S (Z.to_nat off))).
  2:{ replace (S (Z.to_nat off)) with (Z.to_nat (off + 1)) by lia.
      apply list_lookup_lookup_total_lt. len_lia. }
  cbn. f_equal; [zlia|]. f_equal. zlia.
Qed.

(** *** Overwriting a word *)

(** [s] with the 16-bit word at [off] replaced by [v]. *)
Definition splice16 (s : bytes) (off v : Z) : bytes :=
  take (Z.to_nat off) s ++ PutUint16 v ++ drop (Z.to_nat (off + 2)) s.

Lemma put16_ok s off v :
  0 <= off → off + 2 <= glen s → put16 s off v = Ret (splice16 s off v).
Proof. intros. unfold put16. by rewrite slice_ok by lia. Qed.

Section splice.
Context (s : bytes) (off v : Z) (Hoff : 0 <= off) (Hlen : off + 2 <= glen s).

Lemma glen_splice16 : glen (splice16 s off v) = glen s.
Proof using Hoff Hlen. unfold splice16. rewrite !glen_app, glen_PutUint16. len_lia. Qed.

Lemma glen_take_off : glen (take (Z.to_nat off) s) = off.
Proof using Hoff Hlen. len_lia. Qed.

Lemma splice16_word : is_u16 v → w16 (splice16 s off v) off = v.
Proof using Hoff Hlen.
  intros Hv. unfold splice16. rewrite w16_app_r by (rewrite glen_take_off; lia).
  rewrite glen_take_off, Z.sub_diag. by apply w16_PutUint16.
Qed.

Lemma splice16_sub_before lo hi :
  0 <= lo → lo <= hi → hi <= off → sub (splice16 s off v) lo hi = sub s lo hi.
Proof using Hoff Hlen.
  intros. unfold splice16, sub.
  rewrite drop_app_le by len_lia.
  rewrite take_app_le by len_lia.
  rewrite skipn_firstn_comm, take_take. f_equal. len_lia.
Qed.

Lemma splice16_drop_after lo :
  off + 2 <= lo → drop (Z.to_nat lo) (splice16 s off v) = drop (Z.to_nat lo) s.
Proof using Hoff Hlen.
  intros. unfold splice16. rewrite app_assoc.
  rewrite drop_app_ge by len_lia.
  rewrite drop_drop. f_equal. len_lia.
Qed.

Lemma splice16_sub_after lo hi :
  off + 2 <= lo → sub (splice16 s off v) lo hi = sub s lo hi.
Proof using Hoff Hlen. intros. unfold sub. by rewrite splice16_drop_after. Qed.
End splice.

(** A word is determined by the two-byte window it is read from. *)
Lemma w16_sub s t i :
  0 <= i → sub s i (i + 2) = sub t i (i + 2) → w16 s i = w16 t i.
Proof.
  intros Hi Heq. unfold w16.
  pose proof (sub_total s i (i + 2) 0 ltac:(lia) ltac:(lia) ltac:(lia)) as H1.
  pose proof (sub_total t i (i + 2) 0 ltac:(lia) ltac:(lia) ltac:(lia)) as H2.
  pose proof (sub_total s i (i + 2) 1 ltac:(lia) ltac:(lia) ltac:(lia)) as H3.
  pose proof (sub_total t i (i + 2) 1 ltac:(lia) ltac:(lia) ltac:(lia)) as H4.
  rewrite Z.add_0_r in *. rewrite <-H1, <-H2, <-H3, <-H4. by rewrite Heq.
Qed.

(** *** MAC addresses as text *)

Lemma hexdigit_inj a b : 0 <= a < 16 → 0 <= b < 16 → hexdigit a = hexdigit b → a = b.
Proof.
  intros Ha Hb.
  assert (H : forallb (fun a => forallb (fun b =>
      implb (Ascii.eqb (hexdigit a) (hexdigit b)) (a =? b)) (seqZ 0 16)) (seqZ 0 16) = true)
    by (vm_compute; reflexivity).
  rewrite forallb_forall in H. specialize (H a).
  rewrite forallb_forall in H. intros Heq.
  assert (Hin : ∀ x, 0 <= x < 16 → In x (seqZ 0 16))
    by (intros; apply list_elem_of_In, elem_of_seqZ; lia).
  specialize (H (Hin a Ha) b (Hin b Hb)).
  rewrite Heq, Ascii.eqb_refl in H. cbn in H. by apply Z.eqb_eq.
Qed.

Lemma hex2_inj a b : is_byte a → is_byte b → hex2 a = hex2 b → a = b.
Proof.
  unfold is_byte, hex2. intros Ha Hb [= H1 H2].
  apply hexdigit_inj in H1; [|zlia..]. apply hexdigit_inj in H2; [|zlia..]. zlia.
Qed.

(** The textual MAC identifies the six bytes it prints. *)
Lemma mac_string_inj a b c d e f a' b' c' d' e' f' :
  is_byte a → is_byte b → is_byte c → is_byte d → is_byte e → is_byte f →
  is_byte a' → is_byte b' → is_byte c' → is_byte d' → is_byte e' → is_byte f' →
  mac_string a b c d e f = mac_string a' b' c' d' e' f' →
  a = a' ∧ b = b' ∧ c = c' ∧ d = d' ∧ e = e' ∧ f = f'.
Proof.
  intros ???? ???? ???? Heq. unfold mac_string in Heq. cbn [String.append hex2] in Heq.
  injection Heq as ???????? ????.
  repeat split; apply hex2_inj; unfold hex2; congruence.
Qed.

(** ** Text *)

(** [strings.Join] *)
Fixpoint Join (sep : string) (l : list string) : string :=
  match l with
  | [] => ""
  | [s] => s
  | s :: l => (s +:+ sep +:+ Join sep l)%string
  end.

(** ** Characters a text does not contain *)

Fixpoint lacks (c : ascii) (s : string) : Prop :=
  match s with
  | EmptyString => True
  | String c' s => c' ≠ c ∧ lacks c s
  end.

Lemma lacks_app c a b : lacks c (a +:+ b)%string ↔ lacks c a ∧ lacks c b.
Proof.
  induction a as [|c' a IH]; [cbn; tauto|].
  change (c' ≠ c ∧ lacks c (a +:+ b)%string ↔ (c' ≠ c ∧ lacks c a) ∧ lacks c b). rewrite IH. tauto.
Qed.

Lemma not_lacks_app c a b : ¬ lacks c (a +:+ String c b)%string.
Proof. by intros [_ [? _]]%lacks_app. Qed.

Lemma lacks_Join c sep l : lacks c sep → Forall (lacks c) l → lacks c (Join sep l).
Proof.
  intros Hs. induction 1 as [|s l Hx Hl IH]; [done|]. destruct l as [|s' l]; [done|].
  change (lacks c (s +:+ sep +:+ Join sep (s' :: l))%string). rewrite !lacks_app. done.
Qed.

(** The characters of a decimal number. *)
Definition numeral (c : ascii) : bool := existsb (Ascii.eqb c) (String.list_ascii_of_string "0123456789-").

Lemma pretty_N_char_numeral x : numeral (pretty_N_char x) = true.
Proof. unfold pretty_N_char. by repeat case_match. Qed.

Lemma pretty_N_go_lacks c x s : numeral c = false → lacks c s → lacks c (pretty_N_go x s).
Proof.
  intros Hc. revert s. induction (N.lt_wf_0 x) as [x _ IH]; intros s Hs.
  destruct (decide (x = 0)%N) as [->|Hx]; [by rewrite pretty_N_go_0|].
  rewrite pretty_N_go_step by lia. apply IH; [apply N.div_lt; lia|].
  split; [|done]. intros He. pose proof (pretty_N_char_numeral (x mod 10)) as Hn. congruence.
Qed.

Lemma pretty_Z_lacks c (z : Z) : numeral c = false → lacks c (pretty z).
Proof.
  intros Hc. destruct z; cbn.
  - split; [|done]. by intros <-.
  - by apply (pretty_N_go_lacks c _ ""%string).
  - split; [by intros <-|]. by apply (pretty_N_go_lacks c _ ""%string).
Qed.
