(* ===== verification/Engine.v ===== *)
(** * Engine: frame classification, RCT trailer, sequence numbers

    Models [src/internal/engine/engine.go]: the per-source sequence manager,
    the Ethernet/VLAN accessors and the 6-byte PRP redundancy control
    trailer.  Accessors keep Go's bounds checks ([go]), so the theorems also
    say which calls can panic. *)

From S2P Require Import Prelude.

(** ** Constants *)

Definition RCTLen : Z := 6.
Definition PRPSuffix : Z := 0x88FB.
Definition ethMinLen : Z := 60.
Definition vlanEthMinLen : Z := 64.

(** ** Sequence numbers *)

Record SequenceManager := mkSequenceManager {
  start : Z;
  seqs : gmap string Z;
}.

Definition NewSequenceManagerWithStart (st : Z) : SequenceManager :=
  mkSequenceManager st ∅.

Definition NewSequenceManager : SequenceManager := NewSequenceManagerWithStart 0.

(** [Next]: the number for this frame and the advanced manager. *)
Definition Next (s : SequenceManager) (srcMAC : string) : Z * SequenceManager :=
  let seq := match seqs s !! srcMAC with Some q => q | None => start s end in
  (seq, mkSequenceManager (start s) (<[srcMAC := u16 (seq + 1)]> (seqs s))).

Definition Reset (s : SequenceManager) (srcMAC : string) : SequenceManager :=
  mkSequenceManager (start s) (delete srcMAC (seqs s)).

(** A run of [Next] calls, one per source in the list. *)
Fixpoint nexts (s : SequenceManager) (macs : list string) : list Z :=
  match macs with
  | [] => []
  | m :: ms => let '(q, s') := Next s m in q :: nexts s' ms
  end.

(** ** Ethernet accessors *)

Definition is_tpid (et : Z) : bool := (et =? 0x8100) || (et =? 0x88a8).

Definition IsVLANFrame (frame : bytes) : go bool :=
  if glen frame <? 14 then Ret false
  else let! et := be16 frame 12 in Ret (is_tpid et).

(** [GetVLANID]: the VLAN ID and whether a tag is present. *)
Definition GetVLANID (frame : bytes) : go (Z * bool) :=
  let! v := IsVLANFrame frame in
  if negb v then Ret (0, false)
  else let! tci := be16 frame 14 in Ret (Z.land tci 0x0FFF, true).

Definition IsMulticastMAC (frame : bytes) : go bool :=
  if glen frame >? 0 then let! b := idx frame 0 in Ret (Z.land b 0x01 =? 1)
  else Ret false.

Definition mac_at (frame : bytes) (off : Z) : go string :=
  let! a := idx frame off in let! b := idx frame (off + 1) in let! c := idx frame (off + 2) in
  let! d := idx frame (off + 3) in let! e := idx frame (off + 4) in let! f := idx frame (off + 5) in
  Ret (mac_string a b c d e f).

Definition GetSrcMAC (frame : bytes) : go string :=
  if glen frame <? 12 then Ret EmptyString else mac_at frame 6.

Definition GetDstMAC (frame : bytes) : go string :=
  if glen frame <? 6 then Ret EmptyString else mac_at frame 0.

(** The [for] loop of [GetEtherType]; every round skips a 4-byte VLAN header,
    so a frame of [n] bytes is left after at most [n] rounds. *)
Fixpoint GetEtherType_loop (fuel : nat) (frame : bytes) (off : Z) : go Z :=
  match fuel with
  | O => Panic
  | S fuel =>
      if glen frame <? off + 2 then Ret 0
      else
        let! et := be16 frame off in
        if is_tpid et then
          let off := off + 4 in
          if glen frame <? off + 2 then Ret 0
          else GetEtherType_loop fuel frame off
        else Ret et
  end.

Definition GetEtherType (frame : bytes) : go Z :=
  GetEtherType_loop (S (length frame)) frame 12.

Definition IsSupervisionFrame (frame : bytes) : go bool :=
  let! et := GetEtherType frame in Ret (et =? 0x88fb).

(** ** The redundancy control trailer *)

Definition EncodeRCT (frame : bytes) (seq lanID : Z) : go bytes :=
  let! vlan := IsVLANFrame frame in
  let minSize := if vlan then vlanEthMinLen else ethMinLen in
  let padded := frame ++ zeros (Z.max (glen frame) minSize - glen frame) in
  let lsdu := glen padded + RCTLen - 14 in
  let lsdu := if vlan then lsdu - 4 else lsdu in
  let wireLanID := Z.lor (u16 (Z.land lanID 0x0F)) 0xA in
  let packed := Z.lor (u16 (Z.shiftl wireLanID 12)) (Z.land (u16 lsdu) 0x0FFF) in
  let rct := PutUint16 seq ++ PutUint16 packed ++ PutUint16 PRPSuffix in
  Ret (padded ++ rct).

Inductive rct_error :=
| FrameTooShortForRCT (n : Z)
| MissingPRPSuffix
| LSDUSizeMismatch (stored actual : Z).

(** [DecodeRCT] returns [(lanID, seq, payload)] or its error. *)
Definition DecodeRCT (frame : bytes) : go (result rct_error (Z * Z * bytes)) :=
  if glen frame <? 14 + RCTLen then Ret (Err (FrameTooShortForRCT (glen frame)))
  else
    let off := glen frame - RCTLen in
    let! suffix := be16 frame (off + 4) in
    if negb (suffix =? PRPSuffix) then Ret (Err MissingPRPSuffix)
    else
      let! seq := be16 frame off in
      let! packed := be16 frame (off + 2) in
      let wireLanID := Z.land (Z.shiftr packed 12) 0x0F in
      let lanID := Z.land wireLanID 0x01 in
      let storedLSDU := Z.land packed 0x0FFF in
      let! vlan := IsVLANFrame frame in
      let expected := glen frame - 14 in
      let expected := if vlan then expected - 4 else expected in
      if negb (storedLSDU =? expected)
      then Ret (Err (LSDUSizeMismatch storedLSDU expected))
      else
        let! payload := slice frame 0 off in
        Ret (Ok (lanID, seq, payload)).

Definition IsPRPFrame (frame : bytes) : go bool :=
  let! r := DecodeRCT frame in
  match r with
  | Err _ => Ret false
  | Ok (lanID, _, _) => Ret ((lanID =? 0) || (lanID =? 1))
  end.

(** ** Reference definitions

    The same notions without bounds checks, used to state what the accessors
    and the codec compute. *)

Definition is_vlan (f : bytes) : bool := negb (glen f <? 14) && is_tpid (w16 f 12).

(** Length of the Ethernet header, VLAN tag included. *)
Definition hdr_len (f : bytes) : Z := if is_vlan f then 18 else 14.

Definition min_len (f : bytes) : Z := if is_vlan f then vlanEthMinLen else ethMinLen.

(** The frame padded to the minimum Ethernet size. *)
Definition pad (f : bytes) : bytes := f ++ zeros (Z.max (glen f) (min_len f) - glen f).

(** The LSDU size of the trailed frame. *)
Definition lsdu (f : bytes) : Z := glen (pad f) + RCTLen - hdr_len f.

Definition mac_of (f : bytes) (off : Z) : string :=
  mac_string (f !!! Z.to_nat off) (f !!! Z.to_nat (off + 1)) (f !!! Z.to_nat (off + 2))
    (f !!! Z.to_nat (off + 3)) (f !!! Z.to_nat (off + 4)) (f !!! Z.to_nat (off + 5)).

(** The EtherType behind the VLAN tags, [None] when the frame ends first. *)
Fixpoint et_scan (fuel : nat) (f : bytes) (off : Z) : option Z :=
  match fuel with
  | O => None
  | S fuel =>
      if glen f <? off + 2 then None
      else if is_tpid (w16 f off) then et_scan fuel f (off + 4) else Some (w16 f off)
  end.

Definition ethertype (f : bytes) : option Z := et_scan (S (length f)) f 12.

(** The packed LAN-ID / LSDU word of the trailer. *)
Definition rct_word (lan size : Z) : Z := (10 + lan) * 4096 + size mod 4096.

Definition rct (seq lan size : Z) : bytes :=
  PutUint16 seq ++ PutUint16 (rct_word lan size) ++ PutUint16 PRPSuffix.

(** The trailed frame. *)
Definition trailed (f : bytes) (seq lan : Z) : bytes := pad f ++ rct seq lan (lsdu f).

(** ** Accessors never panic on the frames the dispatcher lets through *)

Lemma IsVLANFrame_ret f : IsVLANFrame f = Ret (is_vlan f).
Proof.
  unfold IsVLANFrame, is_vlan. destruct (Z.ltb_spec (glen f) 14); [done|].
  by rewrite be16_ok by lia.
Qed.

Lemma mac_at_ret f off : 0 <= off → off + 6 <= glen f → mac_at f off = Ret (mac_of f off).
Proof. intros. unfold mac_at. by rewrite !idx_ok by lia. Qed.

Lemma GetSrcMAC_ret f : 12 <= glen f → GetSrcMAC f = Ret (mac_of f 6).
Proof.
  intros. unfold GetSrcMAC. guard_false (glen f <? 12). by rewrite mac_at_ret by lia.
Qed.

Lemma GetDstMAC_ret f : 6 <= glen f → GetDstMAC f = Ret (mac_of f 0).
Proof.
  intros. unfold GetDstMAC. guard_false (glen f <? 6). by rewrite mac_at_ret by lia.
Qed.

Lemma IsMulticastMAC_ret f :
  0 < glen f → IsMulticastMAC f = Ret (Z.land (f !!! 0%nat) 1 =? 1).
Proof.
  intros. unfold IsMulticastMAC. guard_true (glen f >? 0). by rewrite idx_ok by lia.
Qed.

Lemma is_vlan_app f t : 14 <= glen f → is_vlan (f ++ t) = is_vlan f.
Proof.
  intros. pose proof (glen_nonneg t). unfold is_vlan.
  rewrite w16_app_l by lia. f_equal. rewrite glen_app. lia.
Qed.

Lemma hdr_len_app f t : 14 <= glen f → hdr_len (f ++ t) = hdr_len f.
Proof. intros. unfold hdr_len. by rewrite is_vlan_app. Qed.

Lemma mac_of_app f t off :
  0 <= off → off + 6 <= glen f → mac_of (f ++ t) off = mac_of f off.
Proof. intros. unfold mac_of. by rewrite !total_app_l by lia. Qed.

Lemma glen_pad f : glen (pad f) = Z.max (glen f) (min_len f).
Proof. unfold pad. rewrite glen_app, glen_zeros by lia. lia. Qed.

Lemma lsdu_eq f : lsdu f = Z.max (glen f) (min_len f) + RCTLen - hdr_len f.
Proof. unfold lsdu. by rewrite glen_pad. Qed.

Lemma min_len_bounds f : 60 <= min_len f <= 64.
Proof. unfold min_len, vlanEthMinLen, ethMinLen. destruct is_vlan; lia. Qed.

Lemma hdr_len_bounds f : 14 <= hdr_len f <= 18.
Proof. unfold hdr_len. destruct is_vlan; lia. Qed.

Lemma glen_rct seq lan size : glen (rct seq lan size) = 6.
Proof. reflexivity. Qed.

Lemma glen_trailed f seq lan : glen (trailed f seq lan) = glen (pad f) + 6.
Proof. unfold trailed. by rewrite glen_app, glen_rct. Qed.

Lemma bytes_ok_pad f : bytes_ok f → bytes_ok (pad f).
Proof. intros. apply bytes_ok_app. auto with go_db. Qed.

Lemma bytes_ok_rct seq lan size : bytes_ok (rct seq lan size).
Proof. unfold rct. rewrite !bytes_ok_app. auto with go_db. Qed.

Lemma bytes_ok_trailed f seq lan : bytes_ok f → bytes_ok (trailed f seq lan).
Proof. intros. apply bytes_ok_app. auto using bytes_ok_pad, bytes_ok_rct. Qed.

#[export] Hint Resolve bytes_ok_pad bytes_ok_trailed : go_db.

Lemma is_u16_rct_word lan size : lan = 0 ∨ lan = 1 → is_u16 (rct_word lan size).
Proof. unfold is_u16, rct_word. zlia. Qed.

(** The bit expression of the source is the arithmetic word. *)
Lemma rct_word_bits lan size :
  lan = 0 ∨ lan = 1 →
  Z.lor (u16 (Z.shiftl (Z.lor (u16 (Z.land lan 0x0F)) 0xA) 12)) (Z.land (u16 size) 0x0FFF)
  = rct_word lan size.
Proof.
  intros Hlan. unfold rct_word. rewrite land_0x0FFF.
  assert (Hs : u16 size mod 4096 = size mod 4096) by (unfold u16; zlia). rewrite Hs.
  pose proof (Z.mod_pos_bound size 4096).
  destruct Hlan as [->| ->].
  - change (u16 (Z.shiftl (Z.lor (u16 (Z.land 0 0x0F)) 0xA) 12)) with (Z.shiftl 10 12).
    rewrite lor_shiftl_add by lia. lia.
  - change (u16 (Z.shiftl (Z.lor (u16 (Z.land 1 0x0F)) 0xA) 12)) with (Z.shiftl 11 12).
    rewrite lor_shiftl_add by lia. lia.
Qed.

Lemma EncodeRCT_ret f seq lan :
  lan = 0 ∨ lan = 1 → EncodeRCT f seq lan = Ret (trailed f seq lan).
Proof.
  intros Hlan. unfold EncodeRCT. rewrite IsVLANFrame_ret. cbn.
  change (if is_vlan f then vlanEthMinLen else ethMinLen) with (min_len f).
  fold (pad f). rewrite rct_word_bits by done.
  replace (if is_vlan f then glen (pad f) + RCTLen - 14 - 4 else glen (pad f) + RCTLen - 14)
    with (lsdu f); [done|].
  unfold lsdu, hdr_len. destruct (is_vlan f); lia.
Qed.

(** The three words of a trailer, read at the end of any frame. *)
Lemma trailer_words p seq lan size :
  is_u16 seq → lan = 0 ∨ lan = 1 →
  w16 (p ++ rct seq lan size) (glen p) = seq ∧
  w16 (p ++ rct seq lan size) (glen p + 2) = rct_word lan size ∧
  w16 (p ++ rct seq lan size) (glen p + 4) = PRPSuffix.
Proof.
  intros Hseq Hlan. pose proof (is_u16_rct_word lan size Hlan).
  unfold rct. repeat split; rewrite w16_app_r by lia.
  - rewrite Z.sub_diag. by apply w16_PutUint16.
  - replace (glen p + 2 - glen p) with 2 by lia.
    change (w16 (PutUint16 (rct_word lan size) ++ PutUint16 PRPSuffix) 0 = rct_word lan size).
    by apply w16_PutUint16.
  - by replace (glen p + 4 - glen p) with 4 by lia.
Qed.

(** [DecodeRCT] on its accepting and rejecting inputs, without the reads. *)
Lemma DecodeRCT_ret f :
  14 + RCTLen <= glen f →
  DecodeRCT f =
    let off := glen f - RCTLen in
    let packed := w16 f (off + 2) in
    if negb (w16 f (off + 4) =? PRPSuffix) then Ret (Err MissingPRPSuffix)
    else if negb (packed mod 4096 =? glen f - hdr_len f)
    then Ret (Err (LSDUSizeMismatch (packed mod 4096) (glen f - hdr_len f)))
    else Ret (Ok (packed / 4096 mod 2, w16 f off, sub f 0 off)).
Proof.
  intros Hl. unfold DecodeRCT. guard_false (glen f <? 14 + RCTLen).
  unfold RCTLen in *. cbn zeta.
  rewrite !be16_ok by lia. cbn [go_bind].
  destruct (negb _); [done|].
  rewrite IsVLANFrame_ret. cbn [go_bind].
  rewrite land_0x0FFF, land_0x0F, land_1, shiftr_12, slice_ok by lia.
  replace (if is_vlan f then glen f - 14 - 4 else glen f - 14) with (glen f - hdr_len f)
    by (unfold hdr_len; destruct (is_vlan f); lia).
  replace (w16 f (glen f - 6 + 2) / 4096 mod 16 mod 2)
    with (w16 f (glen f - 6 + 2) / 4096 mod 2) by zlia.
  by destruct (negb _).
Qed.

(** What decoding the padded, trailed frame yields: the fields when the LSDU
    size fits its 12 bits, an LSDU error otherwise. *)
Lemma decode_trailed f seq lan :
  14 <= glen f → is_u16 seq → lan = 0 ∨ lan = 1 →
  DecodeRCT (trailed f seq lan) =
    if lsdu f <? 4096 then Ret (Ok (lan, seq, pad f))
    else Ret (Err (LSDUSizeMismatch (lsdu f mod 4096) (lsdu f))).
Proof.
  intros Hf Hseq Hlan.
  pose proof (min_len_bounds f). pose proof (hdr_len_bounds f).
  pose proof (glen_pad f). pose proof (glen_trailed f seq lan) as Hg.
  destruct (trailer_words (pad f) seq lan (lsdu f) Hseq Hlan) as (Hw1 & Hw2 & Hw3).
  fold (trailed f seq lan) in Hw1, Hw2, Hw3.
  assert (Hl : glen (trailed f seq lan) - hdr_len (trailed f seq lan) = lsdu f).
  { unfold trailed. rewrite hdr_len_app by lia. unfold pad at 2.
    rewrite hdr_len_app by lia. fold (trailed f seq lan). unfold lsdu, RCTLen. lia. }
  rewrite DecodeRCT_ret by (unfold RCTLen; lia). cbn zeta. rewrite Hl.
  unfold RCTLen. replace (glen (trailed f seq lan) - 6) with (glen (pad f)) by lia.
  rewrite Hw1, Hw2, Hw3, Z.eqb_refl. cbn [negb].
  assert (0 <= lsdu f) by (unfold lsdu, RCTLen; lia).
  assert (Hm : rct_word lan (lsdu f) mod 4096 = lsdu f mod 4096) by (unfold rct_word; zlia).
  assert (Hd : rct_word lan (lsdu f) / 4096 mod 2 = lan) by (unfold rct_word; zlia).
  rewrite Hm, Hd. destruct (Z.ltb_spec (lsdu f) 4096) as [Hs|Hs].
  - rewrite Z.mod_small, Z.eqb_refl by lia. cbn [negb].
    unfold trailed. by rewrite sub_app_l.
  - assert (Hne : lsdu f mod 4096 ≠ lsdu f) by zlia.
    by rewrite (proj2 (Z.eqb_neq _ _) Hne).
Qed.

Lemma DecodeRCT_total f : ∃ r, DecodeRCT f = Ret r.
Proof.
  destruct (Z.ltb_spec (glen f) (14 + RCTLen)).
  - unfold DecodeRCT. guard_true (glen f <? 14 + RCTLen). eauto.
  - rewrite DecodeRCT_ret by lia. cbn zeta. repeat destruct (negb _); eauto.
Qed.

(** The LAN ID a successful decode reports is 0 or 1. *)
Lemma DecodeRCT_lan f lan seq p : DecodeRCT f = Ret (Ok (lan, seq, p)) → lan = 0 ∨ lan = 1.
Proof.
  intros H. destruct (Z.ltb_spec (glen f) (14 + RCTLen)) as [Hl|Hl].
  - unfold DecodeRCT in H. by replace (glen f <? 14 + RCTLen) with true in H by lia.
  - rewrite DecodeRCT_ret in H by lia. cbn zeta in H.
    repeat destruct (negb _); simplify_eq. zlia.
Qed.

Lemma IsPRPFrame_ok f lan seq p :
  DecodeRCT f = Ret (Ok (lan, seq, p)) → IsPRPFrame f = Ret true.
Proof.
  intros H. unfold IsPRPFrame. rewrite H. cbn.
  destruct (DecodeRCT_lan _ _ _ _ H) as [->| ->]; done.
Qed.

Lemma IsPRPFrame_err f e : DecodeRCT f = Ret (Err e) → IsPRPFrame f = Ret false.
Proof. intros H. unfold IsPRPFrame. by rewrite H. Qed.

Lemma DecodeRCT_iff (f : bytes) (lan seq : Z) (p : bytes) :
  DecodeRCT f = Ret (Ok (lan, seq, p)) ↔
    20 <= glen f ∧
    w16 f (glen f - 2) = PRPSuffix ∧
    w16 f (glen f - 4) mod 4096 = glen f - hdr_len f ∧
    lan = w16 f (glen f - 4) / 4096 mod 2 ∧
    seq = w16 f (glen f - 6) ∧
    p = sub f 0 (glen f - 6).
Proof.
  destruct (Z.ltb_spec (glen f) (14 + RCTLen)) as [Hl|Hl].
  - unfold DecodeRCT. guard_true (glen f <? 14 + RCTLen). unfold RCTLen in *.
    split; [done|lia].
  - rewrite DecodeRCT_ret by lia. cbn zeta. unfold RCTLen in *.
    replace (glen f - 6 + 4) with (glen f - 2) by lia.
    replace (glen f - 6 + 2) with (glen f - 4) by lia.
    destruct (Z.eqb_spec (w16 f (glen f - 2)) PRPSuffix); cbn [negb];
      [|split; [done|tauto]].
    destruct (Z.eqb_spec (w16 f (glen f - 4) mod 4096) (glen f - hdr_len f)); cbn [negb];
      [|split; [done|tauto]].
    split; [by intros [= <- <- <-]|by intros (_ & _ & _ & -> & -> & ->)].
Qed.

(** ** EtherType lookup *)

Lemma GetEtherType_loop_ret fuel f off :
  0 <= off → glen f - off < 4 * Z.of_nat fuel → (0 < fuel)%nat →
  GetEtherType_loop fuel f off = Ret (default 0 (et_scan fuel f off)).
Proof.
  revert off. induction fuel as [|fuel IH]; intros off H0 Hf Hp; [lia|].
  cbn [GetEtherType_loop et_scan].
  destruct (Z.ltb_spec (glen f) (off + 2)); [done|].
  rewrite be16_ok by lia. cbn [go_bind]. destruct (is_tpid (w16 f off)); [|done].
  destruct (Z.ltb_spec (glen f) (off + 4 + 2)) as [Hs|Hs]; [|apply IH; lia].
  destruct fuel; cbn [et_scan]; [done|]. by guard_true (glen f <? off + 4 + 2).
Qed.

Lemma GetEtherType_ret f : GetEtherType f = Ret (default 0 (ethertype f)).
Proof. apply GetEtherType_loop_ret; unfold glen; lia. Qed.

Lemma et_scan_app fuel fuel' f t off et :
  (fuel ≤ fuel')%nat → 0 <= off →
  et_scan fuel f off = Some et → et_scan fuel' (f ++ t) off = Some et.
Proof.
  revert fuel' off. induction fuel as [|fuel IH]; intros fuel' off Hle H0 H; [done|].
  destruct fuel' as [|fuel']; [lia|]. cbn [et_scan] in *. pose proof (glen_nonneg t).
  destruct (Z.ltb_spec (glen f) (off + 2)); [done|].
  rewrite glen_app. guard_false (glen f + glen t <? off + 2).
  rewrite w16_app_l by lia. destruct (is_tpid _); [|done].
  apply IH; [lia|lia|done].
Qed.

(** Bytes after the EtherType do not change the classification. *)
Lemma ethertype_app f t et : ethertype f = Some et → ethertype (f ++ t) = Some et.
Proof. apply et_scan_app; [rewrite length_app|]; lia. Qed.

Lemma ethertype_untagged f :
  14 <= glen f → is_tpid (w16 f 12) = false → ethertype f = Some (w16 f 12).
Proof.
  intros Hl Hw. unfold ethertype. cbn [et_scan].
  guard_false (glen f <? 12 + 2). by rewrite Hw.
Qed.

Lemma ethertype_trailed f seq lan et :
  ethertype f = Some et → ethertype (trailed f seq lan) = Some et.
Proof. intros. unfold trailed, pad. by repeat apply ethertype_app. Qed.

(** ** Sequence numbers *)

Fixpoint count (m : string) (ms : list string) : Z :=
  match ms with
  | [] => 0
  | x :: xs => (if bool_decide (x = m) then 1 else 0) + count m xs
  end.

(** The number the manager will hand out next for [m]. *)
Definition next_of (s : SequenceManager) (m : string) : Z :=
  match seqs s !! m with Some q => q | None => start s end.

Lemma next_of_Next s m m' :
  next_of (Next s m).2 m' = if bool_decide (m = m') then u16 (next_of s m + 1) else next_of s m'.
Proof.
  unfold next_of, Next; cbn. rewrite lookup_insert.
  case_decide; case_bool_decide; done.
Qed.

Lemma nexts_cons s m ms : nexts s (m :: ms) = (Next s m).1 :: nexts (Next s m).2 ms.
Proof. done. Qed.

Lemma Next_fst s m : (Next s m).1 = next_of s m.
Proof. done. Qed.

Lemma nexts_lookup s ms i m q :
  is_u16 (next_of s m) → ms !! i = Some m → nexts s ms !! i = Some q →
  q = u16 (next_of s m + count m (take i ms)).
Proof.
  revert s i. induction ms as [|x xs IH]; intros s i Hu Hm Hq; [done|].
  rewrite nexts_cons, Next_fst in Hq.
  destruct i as [|i]; cbn [lookup list_lookup] in Hm, Hq.
  - simplify_eq. change (count m (take 0 (m :: xs))) with 0.
    rewrite Z.add_0_r. symmetry. by apply u16_small.
  - pose proof (next_of_Next s x m) as Hn.
    rewrite (IH (Next s x).2 i); [|rewrite Hn; case_bool_decide; auto using is_u16_u16|done..].
    rewrite Hn. cbn [take count]. unfold u16. case_bool_decide; subst; [|f_equal; lia].
    rewrite Zplus_mod_idemp_l. f_equal. lia.
Qed.

Lemma length_nexts s ms : length (nexts s ms) = length ms.
Proof. revert s. induction ms as [|m ms IH]; intros s; cbn; auto. Qed.

(** A stack of VLAN tags as it appears on the wire. *)
Fixpoint vlan_tags (ts : list (Z * Z)) : bytes :=
  match ts with
  | [] => []
  | (tpid, tci) :: ts => PutUint16 tpid ++ PutUint16 tci ++ vlan_tags ts
  end.

Lemma is_tpid_u16 x : is_tpid x = true → is_u16 x.
Proof. unfold is_tpid, is_u16. lia. Qed.

Lemma et_scan_tags fuel p ts et rest :
  Forall (fun t => is_tpid t.1 = true) ts → is_u16 et → is_tpid et = false →
  (length ts < fuel)%nat →
  et_scan fuel (p ++ vlan_tags ts ++ PutUint16 et ++ rest) (glen p) = Some et.
Proof.
  intros Hts Het Hnt. revert fuel p.
  induction Hts as [|[tpid tci] ts Htp Hts IH]; intros fuel p Hfuel.
  - destruct fuel as [|fuel]; [cbn in *; lia|]. cbn [et_scan vlan_tags app].
    pose proof (glen_nonneg rest).
    rewrite !glen_app, glen_PutUint16. guard_false (glen p + (2 + glen rest) <? glen p + 2).
    rewrite w16_app_r by lia. rewrite Z.sub_diag, w16_PutUint16 by done. by rewrite Hnt.
  - destruct fuel as [|fuel]; [cbn in *; lia|]. cbn [et_scan vlan_tags fst] in *.
    specialize (IH fuel (p ++ PutUint16 tpid ++ PutUint16 tci)).
    rewrite <-!app_assoc in *. set (tl := vlan_tags ts ++ PutUint16 et ++ rest) in *.
    pose proof (glen_nonneg tl). rewrite !glen_app, !glen_PutUint16 in *.
    guard_false (glen p + (2 + (2 + glen tl)) <? glen p + 2).
    rewrite w16_app_r, Z.sub_diag, w16_PutUint16 by auto using is_tpid_u16, Z.le_refl.
    rewrite Htp. apply IH. cbn in *. lia.
Qed.

Lemma length_vlan_tags ts : length (vlan_tags ts) = (4 * length ts)%nat.
Proof. induction ts as [|[] ts IH]; cbn in *; lia. Qed.

(** ** Properties *)

(** C27: RCT round trip.  For a frame of at least an Ethernet header whose
    LSDU size fits the 12-bit field, decoding the encoded frame gives back
    the LAN ID, the sequence number and the frame padded with zeros to the
    minimum Ethernet size, on both LANs. *)
Theorem rct_roundtrip (f : bytes) (seq lan : Z) :
  14 <= glen f → glen f + RCTLen - hdr_len f < 4096 → is_u16 seq → lan = 0 ∨ lan = 1 →
  ∃ enc k, EncodeRCT f seq lan = Ret enc ∧
           glen (f ++ zeros k) = Z.max (glen f) (min_len f) ∧
           DecodeRCT enc = Ret (Ok (lan, seq, f ++ zeros k)).
Proof.
  intros Hf Hs Hseq Hlan. exists (trailed f seq lan).
  exists (Z.max (glen f) (min_len f) - glen f). fold (pad f).
  split; [by apply EncodeRCT_ret|]. split; [apply glen_pad|].
  rewrite decode_trailed by done. rewrite lsdu_eq.
  pose proof (min_len_bounds f). pose proof (hdr_len_bounds f).
  unfold RCTLen in *. by guard_true (Z.max (glen f) (min_len f) + 6 - hdr_len f <? 4096).
Qed.

Lemma rct_roundtrip_witness :
  ∃ enc k, EncodeRCT (zeros 42) 7 1 = Ret enc ∧
           glen (zeros 42 ++ zeros k) = Z.max (glen (zeros 42)) (min_len (zeros 42)) ∧
           DecodeRCT enc = Ret (Ok (1, 7, zeros 42 ++ zeros k)).
Proof.
  apply rct_roundtrip; [vm_compute; discriminate|reflexivity|split; lia|right; reflexivity].
Defined.

(** Oversized frames are rejected, never misread.  When the LSDU size of
    a frame overflows its 12-bit field, the encoder stores it modulo 4096 and
    the decoder reports the mismatch instead of accepting the frame. *)
Theorem rct_oversize_rejected (f : bytes) (seq lan : Z) :
  14 <= glen f → 4096 <= glen f + RCTLen - hdr_len f → is_u16 seq → lan = 0 ∨ lan = 1 →
  let size := glen f + RCTLen - hdr_len f in
  ∃ enc, EncodeRCT f seq lan = Ret enc ∧
         DecodeRCT enc = Ret (Err (LSDUSizeMismatch (size mod 4096) size)).
Proof.
  intros Hf Hs Hseq Hlan size. exists (trailed f seq lan). split; [by apply EncodeRCT_ret|].
  rewrite decode_trailed by done.
  assert (Hl : lsdu f = size).
  { pose proof (min_len_bounds f). pose proof (hdr_len_bounds f).
    subst size. rewrite lsdu_eq. unfold RCTLen in *. lia. }
  rewrite Hl. guard_false (size <? 4096). done.
Qed.

Lemma rct_oversize_rejected_witness :
  ∃ enc, EncodeRCT (zeros 5000) 7 0 = Ret enc ∧
         DecodeRCT enc = Ret (Err (LSDUSizeMismatch 896 4992)).
Proof.
  apply (rct_oversize_rejected (zeros 5000) 7 0);
    [vm_compute; discriminate|vm_compute; discriminate|split; lia|left; reflexivity].
Defined.

(** Exact acceptance condition of the receiver.  [DecodeRCT] never panics,
    and it accepts a frame with fields (lan, seq, payload) exactly when the
    frame has at least 20 bytes, ends in 0x88FB, stores its own LSDU size, and
    the fields are those of the trailer and of the frame without it. *)
Theorem DecodeRCT_accepts_iff (f : bytes) (lan seq : Z) (p : bytes) :
  DecodeRCT f = Ret (Ok (lan, seq, p)) ↔
    20 <= glen f ∧
    w16 f (glen f - 2) = PRPSuffix ∧
    w16 f (glen f - 4) mod 4096 = glen f - hdr_len f ∧
    lan = w16 f (glen f - 4) / 4096 mod 2 ∧
    seq = w16 f (glen f - 6) ∧
    p = sub f 0 (glen f - 6).
Proof. apply DecodeRCT_iff. Qed.

(** Re-encoding an accepted frame reproduces it bit for bit: when the
    receiver accepts a frame with the PRP wire LAN nibble (0xA or 0xB) whose
    payload already has the minimum size, encoding the payload with the
    decoded fields gives the received frame. *)
Theorem rct_reencode (f : bytes) (lan seq : Z) (p : bytes) :
  bytes_ok f → DecodeRCT f = Ret (Ok (lan, seq, p)) →
  w16 f (glen f - 4) / 4096 = 10 + lan → min_len p <= glen p →
  EncodeRCT p seq lan = Ret f.
Proof.
  intros Hb Hd Hn Hm. pose proof (DecodeRCT_lan _ _ _ _ Hd) as Hlan.
  apply DecodeRCT_iff in Hd as (Hl & Hs & Hz & _ & -> & ->).
  rewrite EncodeRCT_ret by done. f_equal.
  assert (Hf : f = sub f 0 (glen f - 6) ++ sub f (glen f - 6) (glen f)).
  { rewrite sub_app_split by lia. by rewrite sub_all. }
  set (p := sub f 0 (glen f - 6)) in *.
  assert (Hp : glen p = glen f - 6) by (unfold p; rewrite glen_sub; lia).
  assert (Hh : hdr_len f = hdr_len p).
  { rewrite <-(hdr_len_app p (sub f (glen f - 6) (glen f))) by lia. by rewrite <-Hf. }
  assert (Hpad : pad p = p).
  { unfold pad. replace (Z.max (glen p) (min_len p) - glen p) with 0 by lia. apply app_nil_r. }
  assert (Hw : rct_word lan (lsdu p) = w16 f (glen f - 4)).
  { unfold rct_word, lsdu. rewrite Hpad, Hp. unfold RCTLen.
    replace (glen f - 6 + 6 - hdr_len p) with (glen f - hdr_len f) by lia. zlia. }
  unfold trailed. rewrite Hpad. transitivity (p ++ sub f (glen f - 6) (glen f)); [|done].
  f_equal. unfold rct. rewrite Hw, <-Hs, !PutUint16_w16 by (done || lia).
  replace (glen f - 6 + 2) with (glen f - 4) by lia.
  replace (glen f - 4 + 2) with (glen f - 2) by lia.
  replace (glen f - 2 + 2) with (glen f) by lia.
  by rewrite !sub_app_split by lia.
Qed.

Lemma rct_reencode_witness :
  EncodeRCT (zeros 60) 9 1 = Ret (trailed (zeros 60) 9 1).
Proof.
  apply (rct_reencode (trailed (zeros 60) 9 1) 1 9 (zeros 60));
    [repeat constructor; discriminate|reflexivity|reflexivity|vm_compute; discriminate].
Defined.

(** EtherType classification skips any stack of 802.1Q / 802.1ad tags: on
    two MAC addresses, any number of tags and an EtherType, [GetEtherType]
    terminates without a panic and returns that EtherType. *)
Theorem GetEtherType_vlan_stack (macs : bytes) (ts : list (Z * Z)) (et : Z) (rest : bytes) :
  glen macs = 12 → Forall (fun t => is_tpid t.1 = true) ts →
  is_u16 et → is_tpid et = false →
  GetEtherType (macs ++ vlan_tags ts ++ PutUint16 et ++ rest) = Ret et.
Proof.
  intros Hm Hts Het Hnt. rewrite GetEtherType_ret. unfold ethertype. rewrite <-Hm.
  rewrite et_scan_tags by (rewrite ?length_app, ?length_vlan_tags; done || lia). done.
Qed.

Lemma GetEtherType_vlan_stack_witness :
  GetEtherType (zeros 12 ++ vlan_tags [(0x88a8, 5); (0x8100, 0x8000)] ++ PutUint16 0x88b8 ++ [1])
  = Ret 0x88b8.
Proof.
  apply GetEtherType_vlan_stack;
    [reflexivity|repeat constructor|split; lia|reflexivity].
Defined.

(** Sequence numbers.  In any interleaving of sources, the k-th frame of a
    source gets the number start + k modulo 2^16: numbering is per source and
    consecutive, and the 16-bit wrap-around is the only repetition. *)
Theorem nexts_numbering (st : Z) (ms : list string) (i : nat) (m : string) :
  is_u16 st → ms !! i = Some m →
  nexts (NewSequenceManagerWithStart st) ms !! i = Some (u16 (st + count m (take i ms))).
Proof.
  intros Hst Hm. destruct (nexts (NewSequenceManagerWithStart st) ms !! i) as [q|] eqn:Hq.
  - f_equal. by apply (nexts_lookup (NewSequenceManagerWithStart st) ms i m q).
  - apply lookup_ge_None in Hq. rewrite length_nexts in Hq.
    apply lookup_lt_Some in Hm. lia.
Qed.

Lemma nexts_numbering_witness :
  nexts (NewSequenceManagerWithStart 65535) ["a"; "b"; "a"]%string !! 2%nat = Some 0.
Proof.
  rewrite (nexts_numbering 65535 _ 2 "a"%string); [reflexivity|split; lia|reflexivity].
Defined.

Lemma count_take_mono m ms i j :
  (i < j)%nat → ms !! i = Some m → count m (take i ms) < count m (take j ms).
Proof.
  revert i j. induction ms as [|x xs IH]; intros i j Hij Hm; [done|].
  destruct j as [|j]; [lia|]. destruct i as [|i]; cbn [lookup list_lookup] in Hm.
  - simplify_eq. cbn [take count]. rewrite bool_decide_true by done.
    assert (∀ l, 0 <= count m l) by (intros l; induction l; cbn; [|case_bool_decide]; lia).
    specialize (H (take j xs)). lia.
  - cbn [take count]. specialize (IH i j ltac:(lia) Hm). lia.
Qed.

(** No reuse inside the 16-bit window: two different frames of one source
    get different sequence numbers unless at least 2^16 frames of that source
    lie between them. *)
Theorem nexts_no_reuse (st : Z) (ms : list string) (i j : nat) (m : string) :
  is_u16 st → (i < j)%nat → ms !! i = Some m → ms !! j = Some m →
  count m (take j ms) - count m (take i ms) < 65536 →
  nexts (NewSequenceManagerWithStart st) ms !! i ≠ nexts (NewSequenceManagerWithStart st) ms !! j.
Proof.
  intros Hst Hij Hi Hj Hw. pose proof (count_take_mono m ms i j Hij Hi).
  assert (∀ k q, ms !! k = Some m → nexts (NewSequenceManagerWithStart st) ms !! k = Some q →
                 q = u16 (st + count m (take k ms))) as Hspec.
  { intros k q Hk Hq. by apply (nexts_lookup (NewSequenceManagerWithStart st) ms k m q). }
  destruct (lookup_lt_is_Some_2 (nexts (NewSequenceManagerWithStart st) ms) i) as [qi Hqi];
    [rewrite length_nexts; by apply lookup_lt_Some in Hi|].
  destruct (lookup_lt_is_Some_2 (nexts (NewSequenceManagerWithStart st) ms) j) as [qj Hqj];
    [rewrite length_nexts; by apply lookup_lt_Some in Hj|].
  rewrite Hqi, Hqj, (Hspec i qi Hi Hqi), (Hspec j qj Hj Hqj). intros [= Heq].
  unfold u16 in Heq. zlia.
Qed.

Lemma nexts_no_reuse_witness :
  nexts (NewSequenceManagerWithStart 65535) ["a"; "b"; "a"]%string !! 0%nat
  ≠ nexts (NewSequenceManagerWithStart 65535) ["a"; "b"; "a"]%string !! 2%nat.
Proof.
  apply (nexts_no_reuse 65535 _ 0 2 "a"%string);
    [split; lia|lia|reflexivity|reflexivity|reflexivity].
Defined.
