(* ===== verification/Hsr.v ===== *)
(** * Hsr: the HSR tag

    Models [src/internal/engine/hsr.go]: building, parsing, rewriting and
    stripping the 6-byte HSR tag (EtherType 0x892F) that follows the MAC
    addresses and at most one VLAN tag. *)

From S2P Require Import Prelude Engine.

Definition HSREtherType : Z := 0x892f.
Definition HSRTagLen : Z := 6.

Inductive hsr_error :=
| FrameTooShort (n : Z)
| FrameTooShortForVLAN (n : Z)
| NotAnHSRFrame (et : Z)
| FrameTooShortForTag (n : Z)
| LSDUOutOfRange (lsdu n : Z).

(** ** Operations *)

Definition EncodeHSR (payload : bytes) (path seq encapProto : Z) : bytes :=
  let lsdu := HSRTagLen + glen payload in
  let word := Z.lor (u16 (Z.shiftl (u16 (Z.land path 0x0F)) 12)) (Z.land (u16 lsdu) 0x0FFF) in
  let tag := PutUint16 word ++ PutUint16 seq ++ PutUint16 encapProto in
  PutUint16 HSREtherType ++ tag ++ payload.

Definition hsrTagOffset (frame : bytes) : go (result hsr_error Z) :=
  if glen frame <? 14 then Ret (Err (FrameTooShort (glen frame)))
  else
    let! et := be16 frame 12 in
    if is_tpid et then
      if glen frame <? 18 then Ret (Err (FrameTooShortForVLAN (glen frame)))
      else
        let! et := be16 frame 16 in
        if negb (et =? HSREtherType) then Ret (Err (NotAnHSRFrame et)) else Ret (Ok (16 + 2))
    else
      if negb (et =? HSREtherType) then Ret (Err (NotAnHSRFrame et)) else Ret (Ok (12 + 2)).

(** [DecodeHSR] returns [(path, seq, encapProto, payload)] or its error. *)
Definition DecodeHSR (frame : bytes) : go (result hsr_error (Z * Z * Z * bytes)) :=
  let! r := hsrTagOffset frame in
  match r with
  | Err e => Ret (Err e)
  | Ok off =>
      if glen frame <? off + HSRTagLen then Ret (Err (FrameTooShortForTag (glen frame)))
      else
        let! word := be16 frame off in
        let path := Z.shiftr word 12 in
        let lsdu := Z.land word 0x0FFF in
        let! seq := be16 frame (off + 2) in
        let! encapProto := be16 frame (off + 4) in
        if (lsdu <? HSRTagLen) || (off + lsdu >? glen frame)
        then Ret (Err (LSDUOutOfRange lsdu (glen frame)))
        else
          let! payload := slice frame (off + HSRTagLen) (off + lsdu) in
          Ret (Ok (path, seq, encapProto, payload))
  end.

Definition IsHSRFrame (frame : bytes) : go bool :=
  let! et := GetEtherType frame in Ret (et =? HSREtherType).

Definition RewriteHSRPath (frame : bytes) (path : Z) : go (result hsr_error bytes) :=
  let! r := hsrTagOffset frame in
  match r with
  | Err e => Ret (Err e)
  | Ok off =>
      if glen frame <? off + HSRTagLen then Ret (Err (FrameTooShortForTag (glen frame)))
      else
        let! word := be16 frame off in
        let word := Z.lor (Z.land word 0x0FFF) (u16 (Z.shiftl (u16 (Z.land path 0x0F)) 12)) in
        let! out := put16 frame off word in
        Ret (Ok out)
  end.

Definition RewriteHSRPathLane (frame : bytes) (laneA : bool) : go (result hsr_error bytes) :=
  let! r := hsrTagOffset frame in
  match r with
  | Err e => Ret (Err e)
  | Ok off =>
      if glen frame <? off + HSRTagLen then Ret (Err (FrameTooShortForTag (glen frame)))
      else
        let! word := be16 frame off in
        let lane := if negb laneA then 1 else 0 in
        let word := Z.lor (Z.land word 0xEFFF) (u16 (Z.shiftl lane 12)) in
        let! out := put16 frame off word in
        Ret (Ok out)
  end.

Definition StripHSR (frame : bytes) : go (result hsr_error bytes) :=
  let! r := hsrTagOffset frame in
  match r with
  | Err e => Ret (Err e)
  | Ok off =>
      let! d := DecodeHSR frame in
      match d with
      | Err e => Ret (Err e)
      | Ok (_, _, encap, payload) =>
          let! macs := slice frame 0 12 in
          let! tag := (if off >? 14 then slice frame 12 (off - 2) else Ret []) in
          Ret (Ok (macs ++ tag ++ [u8 (Z.shiftr encap 8); u8 encap] ++ payload))
      end
  end.

(** ** Reference definitions *)

(** Where the tag starts, when the frame is an HSR frame. *)
Definition tag_off (f : bytes) : Z := if is_tpid (w16 f 12) then 18 else 14.

(** A frame whose EtherType field, after at most one VLAN tag, is 0x892F and
    which is long enough to hold the tag. *)
Definition hsr_tagged (f : bytes) : Prop :=
  tag_off f + HSRTagLen <= glen f ∧ w16 f (tag_off f - 2) = HSREtherType.

Definition tag_word (f : bytes) : Z := w16 f (tag_off f).
Definition tag_path (f : bytes) : Z := tag_word f / 4096.
Definition tag_lsdu (f : bytes) : Z := tag_word f mod 4096.
Definition tag_seq (f : bytes) : Z := w16 f (tag_off f + 2).
Definition tag_proto (f : bytes) : Z := w16 f (tag_off f + 4).
Definition tag_payload (f : bytes) : bytes :=
  sub f (tag_off f + HSRTagLen) (tag_off f + tag_lsdu f).

(** The bytes before the HSR EtherType: two MAC addresses and at most one
    VLAN tag. *)
Definition valid_pre (pre : bytes) : Prop :=
  glen pre = 12 ∨ (glen pre = 16 ∧ is_tpid (w16 pre 12) = true).

Definition hsr_word (path size : Z) : Z := path mod 16 * 4096 + size mod 4096.

(** ** Lemmas *)

Lemma hsr_tagged_bounds f : hsr_tagged f → 20 <= glen f ∧ 14 <= tag_off f <= 18.
Proof. unfold hsr_tagged, tag_off, HSRTagLen. destruct is_tpid; lia. Qed.

Lemma is_tpid_hsr : is_tpid HSREtherType = false.
Proof. reflexivity. Qed.

Lemma hsrTagOffset_tagged f : hsr_tagged f → hsrTagOffset f = Ret (Ok (tag_off f)).
Proof.
  intros [Hl Hw]. unfold hsrTagOffset, tag_off, HSRTagLen in *.
  destruct (is_tpid (w16 f 12)) eqn:E.
  - guard_false (glen f <? 14). rewrite be16_ok by lia. cbn [go_bind]. rewrite E.
    guard_false (glen f <? 18). rewrite be16_ok by lia. cbn [go_bind].
    change (18 - 2) with 16 in Hw. by rewrite Hw.
  - guard_false (glen f <? 14). rewrite be16_ok by lia. cbn [go_bind]. rewrite E.
    change (14 - 2) with 12 in Hw. by rewrite Hw.
Qed.

Lemma hsrTagOffset_Ok f off :
  hsrTagOffset f = Ret (Ok off) →
  off = tag_off f ∧ off <= glen f ∧ w16 f (tag_off f - 2) = HSREtherType.
Proof.
  unfold hsrTagOffset, tag_off. destruct (Z.ltb_spec (glen f) 14); [done|].
  rewrite be16_ok by lia. cbn [go_bind]. destruct (is_tpid (w16 f 12)) eqn:E.
  - destruct (Z.ltb_spec (glen f) 18); [done|]. rewrite be16_ok by lia. cbn [go_bind].
    destruct (Z.eqb_spec (w16 f 16) HSREtherType); [|done]. intros [= <-]. done.
  - destruct (Z.eqb_spec (w16 f 12) HSREtherType); [|done]. intros [= <-]. done.
Qed.

Lemma hsrTagOffset_total f : ∃ r, hsrTagOffset f = Ret r.
Proof.
  unfold hsrTagOffset. destruct (Z.ltb_spec (glen f) 14); [eauto|].
  rewrite be16_ok by lia. cbn [go_bind]. destruct is_tpid.
  - destruct (Z.ltb_spec (glen f) 18); [eauto|]. rewrite be16_ok by lia. cbn [go_bind].
    destruct (negb _); eauto.
  - destruct (negb _); eauto.
Qed.

Lemma DecodeHSR_tagged f :
  hsr_tagged f →
  DecodeHSR f =
    if (tag_lsdu f <? HSRTagLen) || (tag_off f + tag_lsdu f >? glen f)
    then Ret (Err (LSDUOutOfRange (tag_lsdu f) (glen f)))
    else Ret (Ok (tag_path f, tag_seq f, tag_proto f, tag_payload f)).
Proof.
  intros Ht. pose proof (hsr_tagged_bounds f Ht). pose proof Ht as [Hl _].
  unfold DecodeHSR. rewrite hsrTagOffset_tagged by done. cbn [go_bind].
  guard_false (glen f <? tag_off f + HSRTagLen). unfold HSRTagLen in *.
  rewrite !be16_ok by lia. cbn [go_bind].
  rewrite shiftr_12, land_0x0FFF. fold (tag_word f). fold (tag_path f) (tag_lsdu f).
  destruct ((tag_lsdu f <? 6) || _) eqn:E; [done|]. apply orb_false_iff in E as [E1 E2].
  by rewrite slice_ok by lia.
Qed.

(** Acceptance: the exact frames [DecodeHSR] reads, and what it reads. *)
Lemma DecodeHSR_iff f path seq et pl :
  DecodeHSR f = Ret (Ok (path, seq, et, pl)) ↔
    hsr_tagged f ∧ HSRTagLen <= tag_lsdu f ∧ tag_off f + tag_lsdu f <= glen f ∧
    path = tag_path f ∧ seq = tag_seq f ∧ et = tag_proto f ∧ pl = tag_payload f.
Proof.
  split.
  - intros H. assert (Ht : hsr_tagged f).
    { unfold DecodeHSR in H. destruct (hsrTagOffset f) as [[off|e]|] eqn:E; try done.
      apply hsrTagOffset_Ok in E as (-> & _ & Hw). cbn [go_bind] in H.
      destruct (Z.ltb_spec (glen f) (tag_off f + HSRTagLen)); [done|]. by split. }
    rewrite DecodeHSR_tagged in H by done. destruct (_ || _) eqn:E; [done|].
    apply orb_false_iff in E as [E1 E2]. simplify_eq. split_and!; first [done|lia].
  - intros (Ht & H1 & H2 & -> & -> & -> & ->). rewrite DecodeHSR_tagged by done.
    by guard_false ((tag_lsdu f <? HSRTagLen) || (tag_off f + tag_lsdu f >? glen f)).
Qed.

Lemma DecodeHSR_total f : ∃ r, DecodeHSR f = Ret r.
Proof.
  destruct (hsrTagOffset_total f) as [[off|e] Hr].
  - destruct (Z.ltb_spec (glen f) (off + HSRTagLen)) as [Hs|Hs].
    + unfold DecodeHSR. rewrite Hr. cbn [go_bind]. guard_true (glen f <? off + HSRTagLen). eauto.
    + apply hsrTagOffset_Ok in Hr as (-> & _ & Hw).
      rewrite DecodeHSR_tagged by done. destruct (_ || _); eauto.
  - unfold DecodeHSR. rewrite Hr. cbn. eauto.
Qed.

(** *** Frames built by [EncodeHSR] *)

Lemma is_u16_hsr_word path size : is_u16 (hsr_word path size).
Proof. unfold is_u16, hsr_word. zlia. Qed.

Lemma EncodeHSR_eq payload path seq et :
  EncodeHSR payload path seq et =
    PutUint16 HSREtherType ++ PutUint16 (hsr_word path (HSRTagLen + glen payload)) ++
    PutUint16 seq ++ PutUint16 et ++ payload.
Proof.
  unfold EncodeHSR, hsr_word. rewrite land_0x0FFF, land_0x0F.
  assert (Hp : u16 (path mod 16) = path mod 16) by (unfold u16; zlia). rewrite Hp.
  set (n := HSRTagLen + glen payload).
  assert (Hn : u16 n mod 4096 = n mod 4096) by (unfold u16; zlia). rewrite Hn.
  assert (Hs : u16 (Z.shiftl (path mod 16) 12) = Z.shiftl (path mod 16) 12).
  { rewrite Z.shiftl_mul_pow2 by lia. unfold u16. zlia. }
  rewrite Hs, lor_shiftl_add by zlia.
  by rewrite <-!app_assoc.
Qed.

Lemma glen_EncodeHSR payload path seq et : glen (EncodeHSR payload path seq et) = 8 + glen payload.
Proof. rewrite EncodeHSR_eq, !glen_app, !glen_PutUint16. lia. Qed.

Lemma bytes_ok_EncodeHSR payload path seq et :
  bytes_ok payload → bytes_ok (EncodeHSR payload path seq et).
Proof. intros. rewrite EncodeHSR_eq, !bytes_ok_app. auto with go_db. Qed.

#[export] Hint Resolve bytes_ok_EncodeHSR : go_db.

Section encoded.
Context (pre payload trail : bytes) (path seq et : Z).
Context (Hpre : valid_pre pre) (Hseq : is_u16 seq) (Het : is_u16 et).

Let f := pre ++ EncodeHSR payload path seq et ++ trail.

Lemma encoded_split :
  f = pre ++ PutUint16 HSREtherType ++ PutUint16 (hsr_word path (HSRTagLen + glen payload)) ++
      PutUint16 seq ++ PutUint16 et ++ payload ++ trail.
Proof using. unfold f. by rewrite EncodeHSR_eq, <-!app_assoc. Qed.

Lemma encoded_words :
  w16 f (glen pre) = HSREtherType ∧
  w16 f (glen pre + 2) = hsr_word path (HSRTagLen + glen payload) ∧
  w16 f (glen pre + 4) = seq ∧ w16 f (glen pre + 6) = et.
Proof using Hseq Het.
  rewrite encoded_split.
  repeat split; rewrite w16_app_r by lia.
  - by rewrite Z.sub_diag.
  - replace (glen pre + 2 - glen pre) with 2 by lia.
    change (w16 (PutUint16 (hsr_word path (HSRTagLen + glen payload)) ++
      PutUint16 seq ++ PutUint16 et ++ payload ++ trail) 0 = hsr_word path (HSRTagLen + glen payload)).
    apply w16_PutUint16, is_u16_hsr_word.
  - replace (glen pre + 4 - glen pre) with 4 by lia.
    change (w16 (PutUint16 seq ++ PutUint16 et ++ payload ++ trail) 0 = seq).
    by apply w16_PutUint16.
  - replace (glen pre + 6 - glen pre) with 6 by lia.
    change (w16 (PutUint16 et ++ payload ++ trail) 0 = et).
    by apply w16_PutUint16.
Qed.

Lemma encoded_glen : glen f = glen pre + 8 + glen payload + glen trail.
Proof using. unfold f. rewrite !glen_app, glen_EncodeHSR. lia. Qed.

Lemma encoded_off : tag_off f = glen pre + 2.
Proof using Hpre.
  unfold tag_off. destruct Hpre as [H12|[H16 Ht]].
  - replace 12 with (glen pre). rewrite encoded_split, w16_app_r, Z.sub_diag by lia.
    rewrite w16_PutUint16 by (unfold is_u16, HSREtherType; lia). rewrite is_tpid_hsr. lia.
  - unfold f. rewrite w16_app_l by lia. rewrite Ht. lia.
Qed.

Lemma encoded_tagged : hsr_tagged f.
Proof using Hpre Hseq Het.
  unfold hsr_tagged. rewrite encoded_off, encoded_glen. unfold HSRTagLen.
  pose proof (glen_nonneg payload). pose proof (glen_nonneg trail). split; [lia|].
  replace (glen pre + 2 - 2) with (glen pre) by lia. apply encoded_words.
Qed.

Lemma encoded_fields :
  HSRTagLen + glen payload < 4096 →
  tag_path f = path mod 16 ∧ tag_lsdu f = HSRTagLen + glen payload ∧
  tag_seq f = seq ∧ tag_proto f = et ∧ tag_payload f = payload.
Proof using Hpre Hseq Het.
  intros Hs. destruct encoded_words as (_ & Hw & Hq & He).
  pose proof (glen_nonneg payload). pose proof (glen_nonneg trail).
  pose proof (glen_nonneg pre).
  assert (Hl : tag_lsdu f = HSRTagLen + glen payload).
  { unfold tag_lsdu, tag_word. rewrite encoded_off, Hw. unfold hsr_word, HSRTagLen in *. zlia. }
  split_and!; [|done|..].
  - unfold tag_path, tag_word. rewrite encoded_off, Hw. unfold hsr_word. zlia.
  - unfold tag_seq. rewrite encoded_off. by replace (glen pre + 2 + 2) with (glen pre + 4) by lia.
  - unfold tag_proto. rewrite encoded_off. by replace (glen pre + 2 + 4) with (glen pre + 6) by lia.
  - unfold tag_payload. rewrite Hl, encoded_off. unfold HSRTagLen in *.
    assert (Hsp : f = (pre ++ PutUint16 HSREtherType ++ PutUint16 (hsr_word path (6 + glen payload))
                       ++ PutUint16 seq ++ PutUint16 et) ++ payload ++ trail)
      by (rewrite encoded_split; by rewrite <-!app_assoc).
    rewrite Hsp. unfold sub. rewrite drop_app_length' by len_lia.
    rewrite take_app_length' by len_lia. done.
Qed.
End encoded.

Lemma DecodeHSR_encoded pre payload trail path seq et :
  valid_pre pre → is_u16 seq → is_u16 et → HSRTagLen + glen payload < 4096 →
  DecodeHSR (pre ++ EncodeHSR payload path seq et ++ trail) =
    Ret (Ok (path mod 16, seq, et, payload)).
Proof.
  intros Hpre Hseq Het Hs.
  pose proof (encoded_fields pre payload trail path seq et Hpre Hseq Het Hs) as (?&Hl&?&?&?).
  pose proof (glen_nonneg payload). pose proof (glen_nonneg trail).
  apply DecodeHSR_iff. rewrite Hl, encoded_glen, encoded_off by done. unfold HSRTagLen in *.
  split_and!; try done; [by apply encoded_tagged|lia|lia].
Qed.

(** What [StripHSR] returns for a decodable frame. *)
Lemma StripHSR_decoded f path seq et pl :
  DecodeHSR f = Ret (Ok (path, seq, et, pl)) →
  StripHSR f = Ret (Ok (sub f 0 (tag_off f - 2) ++ PutUint16 et ++ pl)).
Proof.
  intros Hd. pose proof Hd as Hd'. apply DecodeHSR_iff in Hd' as (Ht & _).
  pose proof (hsr_tagged_bounds f Ht). unfold StripHSR.
  rewrite hsrTagOffset_tagged, Hd by done. cbn [go_bind].
  rewrite slice_ok by lia. cbn [go_bind].
  assert (Ho : tag_off f = 14 ∨ tag_off f = 18) by (unfold tag_off; destruct is_tpid; lia).
  destruct Ho as [Ho|Ho]; rewrite Ho in *.
  - done.
  - cbn [go_bind]. change (18 >? 14) with true. cbv iota.
    rewrite slice_ok by lia. cbn [go_bind]. rewrite app_assoc, sub_app_split by lia. done.
Qed.

Lemma StripHSR_encoded pre payload trail path seq et :
  valid_pre pre → is_u16 seq → is_u16 et → HSRTagLen + glen payload < 4096 →
  StripHSR (pre ++ EncodeHSR payload path seq et ++ trail) = Ret (Ok (pre ++ PutUint16 et ++ payload)).
Proof.
  intros. erewrite StripHSR_decoded by by apply DecodeHSR_encoded.
  rewrite encoded_off by done. by rewrite sub_app_l by lia.
Qed.

(** *** Rewriting the tag word *)

(** [f] with the tag word replaced. *)
Definition retag (f : bytes) (w : Z) : bytes := splice16 f (tag_off f) w.

Section retag.
Context (f : bytes) (w : Z) (Ht : hsr_tagged f) (Hw : is_u16 w).

Lemma retag_bounds : 14 <= tag_off f ∧ tag_off f + 6 <= glen f.
Proof using Ht. destruct Ht. unfold tag_off, HSRTagLen in *. destruct is_tpid; lia. Qed.

Lemma glen_retag : glen (retag f w) = glen f.
Proof using Ht. pose proof retag_bounds. apply glen_splice16; lia. Qed.

Lemma retag_w16_before i : 0 <= i → i + 2 <= tag_off f → w16 (retag f w) i = w16 f i.
Proof using Ht.
  intros. pose proof retag_bounds. apply w16_sub; [lia|]. apply splice16_sub_before; lia.
Qed.

Lemma retag_w16_after i : tag_off f + 2 <= i → w16 (retag f w) i = w16 f i.
Proof using Ht.
  intros. pose proof retag_bounds. apply w16_sub; [lia|]. apply splice16_sub_after; lia.
Qed.

Lemma retag_off : tag_off (retag f w) = tag_off f.
Proof using Ht. pose proof retag_bounds. unfold tag_off at 1. by rewrite retag_w16_before by lia. Qed.

Lemma retag_tagged : hsr_tagged (retag f w).
Proof using Ht.
  pose proof retag_bounds. destruct Ht. unfold hsr_tagged.
  rewrite retag_off, glen_retag, retag_w16_before by lia. done.
Qed.

Lemma retag_word : tag_word (retag f w) = w.
Proof using Ht Hw.
  pose proof retag_bounds. unfold tag_word. rewrite retag_off. apply splice16_word; done || lia.
Qed.

Lemma retag_macs hi : 0 <= hi → hi <= tag_off f → sub (retag f w) 0 hi = sub f 0 hi.
Proof using Ht. intros. pose proof retag_bounds. apply splice16_sub_before; lia. Qed.

(** Only the path nibble changes when the new word keeps the LSDU size. *)
Lemma DecodeHSR_retag path seq et pl :
  w mod 4096 = tag_lsdu f →
  DecodeHSR f = Ret (Ok (path, seq, et, pl)) →
  DecodeHSR (retag f w) = Ret (Ok (w / 4096, seq, et, pl)).
Proof using Ht Hw.
  intros Hm Hd. pose proof retag_bounds.
  apply DecodeHSR_iff in Hd as (_ & H1 & H2 & -> & -> & -> & ->).
  assert (Hl : tag_lsdu (retag f w) = tag_lsdu f) by (unfold tag_lsdu; by rewrite retag_word).
  apply DecodeHSR_iff. rewrite Hl, retag_off, glen_retag.
  split_and!; try done.
  - apply retag_tagged.
  - unfold tag_path. by rewrite retag_word.
  - unfold tag_seq. by rewrite retag_off, retag_w16_after by lia.
  - unfold tag_proto. by rewrite retag_off, retag_w16_after by lia.
  - unfold tag_payload. rewrite Hl, retag_off. symmetry. apply splice16_sub_after; unfold HSRTagLen; lia.
Qed.

Lemma bytes_ok_retag : bytes_ok f → bytes_ok (retag f w).
Proof using.
  intros. unfold retag, splice16. rewrite !bytes_ok_app. split_and!.
  - by apply Forall_take.
  - apply bytes_ok_PutUint16.
  - by apply Forall_drop.
Qed.
End retag.

#[export] Hint Resolve bytes_ok_retag : go_db.

(** The tag word after setting the whole path nibble. *)
Definition path_word (w path : Z) : Z := path mod 16 * 4096 + w mod 4096.

(** The tag word after setting the lane bit. *)
Definition lane_word (w lane : Z) : Z := (w / 8192 * 2 + lane) * 4096 + w mod 4096.

Lemma RewriteHSRPath_tagged f path :
  hsr_tagged f → RewriteHSRPath f path = Ret (Ok (retag f (path_word (tag_word f) path))).
Proof.
  intros Ht. pose proof (retag_bounds f Ht). pose proof (hsrTagOffset_tagged f Ht) as Ho.
  unfold RewriteHSRPath. rewrite Ho. cbn [go_bind]. unfold HSRTagLen.
  guard_false (glen f <? tag_off f + 6).
  rewrite be16_ok by lia. cbn [go_bind]. rewrite put16_ok by lia. cbn [go_bind].
  unfold retag. do 2 f_equal. fold (tag_word f). unfold path_word.
  rewrite land_0x0FFF, land_0x0F.
  assert (Hs : u16 (Z.shiftl (u16 (path mod 16)) 12) = Z.shiftl (path mod 16) 12).
  { rewrite !Z.shiftl_mul_pow2 by lia. unfold u16. zlia. }
  rewrite Hs, Z.lor_comm, lor_shiftl_add by zlia. done.
Qed.

Lemma land_14 a : 0 <= a < 16 → Z.land a 14 = 2 * (a / 2).
Proof.
  intros Ha. assert (Hin : a ∈ seqZ 0 16) by (apply elem_of_seqZ; lia).
  revert Hin. change (seqZ 0 16) with [0;1;2;3;4;5;6;7;8;9;10;11;12;13;14;15].
  rewrite !elem_of_cons. intros Hin. repeat destruct Hin as [->|Hin]; try reflexivity.
  by apply elem_of_nil in Hin.
Qed.

Lemma lane_word_bits w lane :
  is_u16 w → lane = 0 ∨ lane = 1 →
  Z.lor (Z.land w 0xEFFF) (u16 (Z.shiftl lane 12)) = lane_word w lane.
Proof.
  intros Hw Hlane. unfold is_u16 in Hw.
  assert (Hs : w = w / 4096 * 2 ^ 12 + w mod 4096) by zlia. rewrite Hs at 1.
  change 0xEFFF with (14 * 2 ^ 12 + 4095).
  rewrite land_fields, land_14 by (change (2 ^ 12) with 4096; zlia).
  rewrite land_0x0FFF, Z.mod_mod by lia.
  assert (Hl : u16 (Z.shiftl lane 12) = lane * 2 ^ 12 + 0)
    by (destruct Hlane as [->| ->]; reflexivity).
  rewrite Hl, lor_fields, Z.lor_0_r by (change (2 ^ 12) with 4096; zlia).
  unfold lane_word. rewrite (Z.mul_comm 2), <-(Z.shiftl_mul_pow2 _ 1) by lia.
  rewrite lor_shiftl_add by lia. change (2 ^ 12) with 4096. change (2 ^ 1) with 2.
  zlia.
Qed.

Lemma is_u16_lane_word w lane : is_u16 w → lane = 0 ∨ lane = 1 → is_u16 (lane_word w lane).
Proof. unfold is_u16, lane_word. zlia. Qed.

Lemma is_u16_path_word w path : is_u16 (path_word w path).
Proof. unfold is_u16, path_word. zlia. Qed.

(** Egress lane: 0 on LAN A, 1 on LAN B. *)
Definition lane_of (laneA : bool) : Z := if laneA then 0 else 1.

Lemma RewriteHSRPathLane_tagged f laneA :
  hsr_tagged f → bytes_ok f →
  RewriteHSRPathLane f laneA = Ret (Ok (retag f (lane_word (tag_word f) (lane_of laneA)))).
Proof.
  intros Ht Hb. pose proof (retag_bounds f Ht). pose proof (hsrTagOffset_tagged f Ht) as Ho.
  unfold RewriteHSRPathLane. rewrite Ho. cbn [go_bind]. unfold HSRTagLen.
  guard_false (glen f <? tag_off f + 6).
  rewrite be16_ok by lia. cbn [go_bind]. rewrite put16_ok by lia. cbn [go_bind].
  replace (if negb laneA then 1 else 0) with (lane_of laneA) by by destruct laneA.
  rewrite lane_word_bits; [done|by apply is_u16_w16|destruct laneA; auto].
Qed.

Lemma lane_word_mod w lane : lane_word w lane mod 4096 = w mod 4096.
Proof. unfold lane_word. zlia. Qed.

Lemma lane_word_div w lane : lane_word w lane / 4096 = 2 * (w / 4096 / 2) + lane.
Proof. unfold lane_word. zlia. Qed.

(** ** Properties *)

(** C28: HSR tag round trip.  Behind two MAC addresses and at most one VLAN
    tag, decoding a frame built by [EncodeHSR] gives back the 4-bit path, the
    sequence number, the encapsulated EtherType and exactly the payload: any
    trailing wire padding is cut off by the LSDU size. *)
Theorem hsr_roundtrip (pre payload padding : bytes) (path seq et : Z) :
  valid_pre pre → 0 <= path < 16 → is_u16 seq → is_u16 et → HSRTagLen + glen payload < 4096 →
  DecodeHSR (pre ++ EncodeHSR payload path seq et ++ padding) = Ret (Ok (path, seq, et, payload)).
Proof. intros ? Hp ???. rewrite DecodeHSR_encoded by done. by rewrite (Z.mod_small path) by lia. Qed.

Lemma hsr_roundtrip_witness :
  DecodeHSR (zeros 12 ++ [0x81; 0; 0x80; 5] ++ EncodeHSR [1; 2; 3] 5 77 0x0800 ++ zeros 20)
  = Ret (Ok (5, 77, 0x0800, [1; 2; 3])).
Proof.
  rewrite app_assoc. apply hsr_roundtrip;
    [right; split; reflexivity|lia|split; lia|split; lia|reflexivity].
Defined.

(** Stripping undoes tagging.  The frame recovered by [StripHSR] from an
    encoded frame, padding included, is the original frame: MAC addresses,
    VLAN tag if any, the encapsulated EtherType and the payload. *)
Theorem strip_encode_original (pre payload padding : bytes) (path seq et : Z) :
  valid_pre pre → is_u16 seq → is_u16 et → HSRTagLen + glen payload < 4096 →
  StripHSR (pre ++ EncodeHSR payload path seq et ++ padding)
  = Ret (Ok (pre ++ PutUint16 et ++ payload)).
Proof. apply StripHSR_encoded. Qed.

Lemma strip_encode_original_witness :
  StripHSR (zeros 12 ++ EncodeHSR [1; 2; 3] 5 77 0x0800 ++ zeros 20)
  = Ret (Ok (zeros 12 ++ [8; 0] ++ [1; 2; 3])).
Proof.
  apply (strip_encode_original (zeros 12));
    [left; reflexivity|split; lia|split; lia|reflexivity].
Defined.

(** C29: Ring forwarding changes the lane bit and nothing else.  On a frame a
    ring node accepts, [RewriteHSRPathLane] succeeds; the rewritten frame has
    the same length and the same bytes up to the tag, decodes to the same
    sequence number, EtherType and payload, keeps the three NetId bits of the
    path and carries the egress lane in its low bit. *)
Theorem lane_rewrite_preserves (f : bytes) (laneA : bool) (path seq et : Z) (pl : bytes) :
  bytes_ok f → DecodeHSR f = Ret (Ok (path, seq, et, pl)) →
  ∃ f', RewriteHSRPathLane f laneA = Ret (Ok f') ∧
        glen f' = glen f ∧ bytes_ok f' ∧
        sub f' 0 (tag_off f) = sub f 0 (tag_off f) ∧
        DecodeHSR f' = Ret (Ok (2 * (path / 2) + lane_of laneA, seq, et, pl)) ∧
        StripHSR f' = StripHSR f.
Proof.
  intros Hb Hd. pose proof Hd as Hd'. apply DecodeHSR_iff in Hd' as (Ht & _ & _ & -> & _).
  set (w := lane_word (tag_word f) (lane_of laneA)).
  assert (Hw : is_u16 w) by (apply is_u16_lane_word; [by apply is_u16_w16|destruct laneA; auto]).
  pose proof (retag_bounds f Ht).
  assert (Hd2 : DecodeHSR (retag f w) = Ret (Ok (2 * (tag_path f / 2) + lane_of laneA, seq, et, pl))).
  { rewrite (DecodeHSR_retag f w Ht Hw (tag_path f) seq et pl); [|apply lane_word_mod|done].
    unfold w. by rewrite lane_word_div. }
  exists (retag f w). split_and!.
  - by apply RewriteHSRPathLane_tagged.
  - by apply glen_retag.
  - auto with go_db.
  - apply retag_macs; [done|lia|lia].
  - done.
  - erewrite !StripHSR_decoded by done. rewrite retag_off by done. by rewrite retag_macs by (done || lia).
Qed.

Lemma lane_rewrite_preserves_witness :
  ∃ f', RewriteHSRPathLane (zeros 12 ++ EncodeHSR [1; 2; 3] 6 77 0x0800) false = Ret (Ok f') ∧
        glen f' = 23 ∧ bytes_ok f' ∧
        sub f' 0 14 = sub (zeros 12 ++ EncodeHSR [1; 2; 3] 6 77 0x0800) 0 14 ∧
        DecodeHSR f' = Ret (Ok (7, 77, 0x0800, [1; 2; 3])) ∧
        StripHSR f' = StripHSR (zeros 12 ++ EncodeHSR [1; 2; 3] 6 77 0x0800).
Proof.
  apply (lane_rewrite_preserves (zeros 12 ++ EncodeHSR [1; 2; 3] 6 77 0x0800) false 6);
    [repeat constructor; discriminate|reflexivity].
Defined.

(** [RewriteHSRPath] replaces the whole path nibble (modulo 16) and keeps
    every other field of an accepted frame. *)
Theorem path_rewrite_preserves (f : bytes) (path' path seq et : Z) (pl : bytes) :
  DecodeHSR f = Ret (Ok (path, seq, et, pl)) →
  ∃ f', RewriteHSRPath f path' = Ret (Ok f') ∧ glen f' = glen f ∧
        DecodeHSR f' = Ret (Ok (path' mod 16, seq, et, pl)) ∧ StripHSR f' = StripHSR f.
Proof.
  intros Hd. pose proof Hd as Hd'. apply DecodeHSR_iff in Hd' as (Ht & _).
  set (w := path_word (tag_word f) path').
  pose proof (retag_bounds f Ht).
  assert (Hd2 : DecodeHSR (retag f w) = Ret (Ok (path' mod 16, seq, et, pl))).
  { rewrite (DecodeHSR_retag f w Ht (is_u16_path_word _ _) path seq et pl);
      unfold w, path_word, tag_lsdu; [|zlia|done].
    do 3 f_equal. f_equal. f_equal. zlia. }
  exists (retag f w). split_and!; [by apply RewriteHSRPath_tagged|by apply glen_retag|done|].
  erewrite !StripHSR_decoded by done. rewrite retag_off by done. by rewrite retag_macs by (done || lia).
Qed.

Lemma path_rewrite_preserves_witness :
  ∃ f', RewriteHSRPath (zeros 12 ++ EncodeHSR [1; 2; 3] 6 77 0x0800) 0 = Ret (Ok f') ∧
        glen f' = 23 ∧ DecodeHSR f' = Ret (Ok (0, 77, 0x0800, [1; 2; 3])) ∧
        StripHSR f' = StripHSR (zeros 12 ++ EncodeHSR [1; 2; 3] 6 77 0x0800).
Proof.
  apply (path_rewrite_preserves (zeros 12 ++ EncodeHSR [1; 2; 3] 6 77 0x0800) 0 6).
  reflexivity.
Defined.
