(* ===== verification/NodeTable.v ===== *)
(** * NodeTable: the duplicate-detection table

    Models [src/internal/nodetable/nodetable.go].  The table is a Go map from
    the text ["mac|seq"] to the tracked frame; the clock value [t.now()] read
    by an operation is its argument [now].  The order in which Go's [range]
    visits a map is unspecified: it is the interface [MapRange], and every
    theorem holds for every order. *)

From S2P Require Import Prelude.

(** ** Map iteration *)

Class MapRange := {
  range : ∀ {V : Type}, gmap string V → list (string * V);
  range_perm : ∀ {V : Type} (m : gmap string V), range m ≡ₚ map_to_list m;
}.

(** One admissible order. *)
Definition sorted_range : MapRange :=
  {| range := fun V m => map_to_list m; range_perm := fun V m => reflexivity _ |}.

(** [for k, v := range m { if p(v) { delete(m, k); removed++ } }] *)
Definition delete_where {MR : MapRange} {V} (p : V → bool) (m : gmap string V) : gmap string V * Z :=
  foldl (fun '(acc, removed) '(k, v) =>
           if p v then (delete k acc, removed + 1) else (acc, removed))
        (m, 0) (range m).

(** ** State *)

Record Entry := mkEntry {
  SrcMAC : string;
  SeqNo : Z;
  LANID : Z;
  LastSeen : Z;
  ExpiryMs : Z;
}.

Record Table := mkTable {
  entries : gmap string Entry;
  maxSize : Z;
}.

Definition NewTable (maxSize : Z) : Table := mkTable ∅ maxSize.

(** [fmt.Sprintf("%s|%d", srcMAC, seq)] *)
Definition key (srcMAC : string) (seq : Z) : string := (srcMAC +:+ "|" +:+ pretty seq)%string.

(** ** Operations *)

(** The scan for the oldest entry: the pair is [(oldestKey, oldest)]. *)
Definition oldest_step (acc : string * Z) (ke : string * Entry) : string * Z :=
  if String.eqb acc.1 EmptyString || (LastSeen ke.2 <? acc.2)
  then (ke.1, LastSeen ke.2) else acc.

Definition oldest_key {MR : MapRange} (m : gmap string Entry) : string :=
  (foldl oldest_step (EmptyString, 0) (range m)).1.

Definition InsertWithExpiry {MR : MapRange} (t : Table) (now : Z)
    (srcMAC : string) (seq lanID expiryMs : Z) : Table :=
  let m := <[key srcMAC seq := mkEntry srcMAC seq lanID now expiryMs]> (entries t) in
  if (maxSize t >? 0) && (Z.of_nat (size m) >? maxSize t)
  then mkTable (delete (oldest_key m) m) (maxSize t)
  else mkTable m (maxSize t).

Definition expired (now : Z) (e : Entry) : bool :=
  time_Sub now (LastSeen e) >? Milliseconds (ExpiryMs e).

Definition Find (t : Table) (now : Z) (srcMAC : string) (seq : Z) : bool :=
  match entries t !! key srcMAC seq with
  | None => false
  | Some entry => if expired now entry then false else true
  end.

(** [FlushFor] and [Cleanup] return the table and the number of entries removed. *)
Definition FlushFor {MR : MapRange} (t : Table) (srcMAC : string) : Table * Z :=
  let '(m, removed) := delete_where (fun e => String.eqb (SrcMAC e) srcMAC) (entries t) in
  (mkTable m (maxSize t), removed).

Definition Cleanup {MR : MapRange} (t : Table) (now : Z) : Table * Z :=
  let '(m, removed) := delete_where (expired now) (entries t) in
  (mkTable m (maxSize t), removed).

Definition Size (t : Table) : Z := Z.of_nat (size (entries t)).

(** ** Specification: a memory of accepted frames

    A history of operations, newest first, and the last acceptance of a frame
    it contains.  The string keys, the eviction and the periodic clean-up of
    the implementation are absent here. *)

Inductive op :=
| OInsert (now : Z) (mac : string) (seq lan expiryMs : Z)
| OFlush (mac : string)
| OCleanup (now : Z).

Fixpoint last_accept (h : list op) (mac : string) (seq : Z) : option (Z * Z) :=
  match h with
  | [] => None
  | OInsert now m s _ exp :: h =>
      if bool_decide ((m, s) = (mac, seq)) then Some (now, exp) else last_accept h mac seq
  | OFlush m :: h => if bool_decide (m = mac) then None else last_accept h mac seq
  | OCleanup _ :: h => last_accept h mac seq
  end.

(** The frame was accepted and its lifetime is not over at [now]. *)
Definition remembered (h : list op) (now : Z) (mac : string) (seq : Z) : bool :=
  match last_accept h mac seq with
  | Some (t, exp) => negb (time_Sub now t >? Milliseconds exp)
  | None => false
  end.

Definition apply_op {MR : MapRange} (o : op) (t : Table) : Table :=
  match o with
  | OInsert now mac seq lan exp => InsertWithExpiry t now mac seq lan exp
  | OFlush mac => (FlushFor t mac).1
  | OCleanup now => (Cleanup t now).1
  end.

Definition run {MR : MapRange} (max : Z) (h : list op) : Table := foldr apply_op (NewTable max) h.

(** Clock readings of a history never go back and end no later than [now]. *)
Fixpoint clocked (now : Z) (h : list op) : Prop :=
  match h with
  | [] => True
  | OInsert t _ _ _ _ :: h => t <= now ∧ clocked t h
  | OFlush _ :: h => clocked now h
  | OCleanup t :: h => t <= now ∧ clocked t h
  end.

Fixpoint inserts (h : list op) : Z :=
  match h with
  | [] => 0
  | OInsert _ _ _ _ _ :: h => 1 + inserts h
  | _ :: h => inserts h
  end.

(** ** Invariant *)

Definition keyed (m : gmap string Entry) : Prop :=
  ∀ k e, m !! k = Some e → k = key (SrcMAC e) (SeqNo e).

Definition bounded (t : Table) : Prop := maxSize t > 0 → Size t <= maxSize t.

Definition table_ok (t : Table) : Prop := keyed (entries t) ∧ bounded t.

(** ** The textual key is injective *)

Lemma bar_split a b a' b' :
  lacks "|" b → lacks "|" b' →
  (a +:+ "|" +:+ b)%string = (a' +:+ "|" +:+ b')%string → a = a' ∧ b = b'.
Proof.
  intros Hb Hb'. revert a'. induction a as [|c a IH]; intros [|c' a'] Heq; cbn in Heq.
  - by simplify_eq.
  - injection Heq as _ Heq. change (b = (a' +:+ "|" +:+ b')%string) in Heq. subst b.
    exfalso. by apply (not_lacks_app "|" a' b').
  - injection Heq as _ Heq. change ((a +:+ "|" +:+ b)%string = b') in Heq. subst b'.
    exfalso. by apply (not_lacks_app "|" a b).
  - injection Heq as -> Heq. apply IH in Heq as [-> ->]. done.
Qed.

Lemma key_inj mac seq mac' seq' : key mac seq = key mac' seq' → mac = mac' ∧ seq = seq'.
Proof.
  unfold key. intros H. apply bar_split in H as [-> H]; [|by apply pretty_Z_lacks..].
  by apply (inj pretty) in H.
Qed.

Lemma key_nonempty mac seq : key mac seq ≠ EmptyString.
Proof. unfold key. by destruct mac. Qed.

(** ** Loops over a map *)

Section loops.
Context {MR : MapRange}.

Lemma range_elem {V} (m : gmap string V) k v : (k, v) ∈ range m ↔ m !! k = Some v.
Proof. rewrite (range_perm m). apply elem_of_map_to_list. Qed.

Lemma range_NoDup {V} (m : gmap string V) : NoDup (range m).*1.
Proof. rewrite (range_perm m). apply NoDup_fst_map_to_list. Qed.

Lemma delete_loop {V} (p : V → bool) l : ∀ (m m' : gmap string V) n n',
  NoDup l.*1 → (∀ k v, (k, v) ∈ l → m !! k = Some v) →
  foldl (fun '(acc, removed) '(k, v) =>
           if p v then (delete k acc, removed + 1) else (acc, removed)) (m, n) l = (m', n') →
  (∀ k v, m' !! k = Some v ↔ m !! k = Some v ∧ ¬ (p v = true ∧ (k, v) ∈ l)) ∧
  Z.of_nat (size m') + n' = Z.of_nat (size m) + n.
Proof.
  induction l as [|[k0 v0] l IH]; intros m m' n n' Hnd Hin Hf; cbn in Hf.
  - simplify_eq. split; [|lia]. intros k v. split; [|tauto].
    intros Hm. split; [done|]. intros [_ []%not_elem_of_nil].
  - apply NoDup_cons in Hnd as [Hk Hnd].
    assert (Hk0 : ∀ v, (k0, v) ∉ l).
    { intros v Hv. apply Hk. apply list_elem_of_fmap. by exists (k0, v). }
    assert (H0 : m !! k0 = Some v0) by (apply Hin; left).
    destruct (p v0) eqn:Hp; apply IH in Hf as [Hl Hs]; try done.
    + split.
      * intros k v. rewrite Hl, lookup_delete_Some, elem_of_cons.
        destruct (decide (k = k0)) as [->|Hne]; [|intuition congruence].
        rewrite H0. split; [by intros [[? _] _]|].
        intros [[= ->] Hn]. exfalso. apply Hn. auto.
      * rewrite map_size_delete_Some in Hs by eauto.
        pose proof (map_size_ne_0_lookup_2 m k0 ltac:(eauto)). lia.
    + intros k v Hv. rewrite lookup_delete_ne; [apply Hin; by right|].
      intros <-. by apply (Hk0 v).
    + split; [|done]. intros k v. rewrite Hl, elem_of_cons. intuition congruence.
    + intros k v Hv. apply Hin. by right.
Qed.

(** The loop removes exactly the entries that satisfy the test and counts
    them. *)
Lemma delete_where_spec {V} (p : V → bool) (m : gmap string V) :
  (∀ k v, (delete_where p m).1 !! k = Some v ↔ m !! k = Some v ∧ p v = false) ∧
  Z.of_nat (size (delete_where p m).1) + (delete_where p m).2 = Z.of_nat (size m).
Proof.
  unfold delete_where.
  destruct (foldl _ (m, 0) (range m)) as [m' n'] eqn:Hf.
  apply delete_loop in Hf as [Hl Hs]; [|apply range_NoDup|by intros; apply range_elem].
  split; [|cbn; lia]. intros k v. cbn. rewrite Hl, range_elem.
  destruct (p v); intuition congruence.
Qed.

Lemma delete_where_size {V} (p : V → bool) (m : gmap string V) :
  (size (delete_where p m).1 ≤ size m)%nat.
Proof.
  apply map_subseteq_size, map_subseteq_spec. intros k e H.
  by apply delete_where_spec in H as [H _].
Qed.

Lemma delete_where_None {V} (p : V → bool) (m : gmap string V) k :
  m !! k = None → (delete_where p m).1 !! k = None.
Proof.
  intros Hk. apply eq_None_not_Some. intros [v Hv].
  apply delete_where_spec in Hv as [Hv _]. congruence.
Qed.

Lemma delete_where_lookup {V} (p : V → bool) (m : gmap string V) k :
  (delete_where p m).1 !! k = (m !! k) ≫= (fun v => if p v then None else Some v).
Proof.
  destruct (m !! k) as [v|] eqn:E; cbn; [|by apply delete_where_None].
  destruct (p v) eqn:Hp.
  - apply eq_None_not_Some. intros [v' Hv]. apply delete_where_spec in Hv as [Hv Hp']. congruence.
  - by apply delete_where_spec.
Qed.

(** The scan finds an entry with the least time stamp. *)
Lemma oldest_loop l : ∀ k0 t0 k t,
  k0 ≠ EmptyString → (∀ k e, (k, e) ∈ l → k ≠ EmptyString) →
  foldl oldest_step (k0, t0) l = (k, t) →
  t <= t0 ∧ (∀ k' e', (k', e') ∈ l → t <= LastSeen e') ∧
  ((k, t) = (k0, t0) ∨ ∃ e, (k, e) ∈ l ∧ LastSeen e = t).
Proof.
  induction l as [|[k1 e1] l IH]; intros k0 t0 k t Hk0 Hne Hf; cbn [foldl] in Hf.
  - simplify_eq. split_and!; [lia|by intros ?? []%not_elem_of_nil|by left].
  - unfold oldest_step in Hf at 2. cbn [fst snd] in Hf.
    rewrite (proj2 (String.eqb_neq k0 EmptyString) Hk0) in Hf. cbn [orb] in Hf.
    assert (Hne' : ∀ k e, (k, e) ∈ l → k ≠ EmptyString) by (intros k' e' ?; apply (Hne k' e'); by right).
    assert (Hk1 : k1 ≠ EmptyString) by (apply (Hne k1 e1); left).
    destruct (Z.ltb_spec (LastSeen e1) t0).
    + apply IH in Hf as (H1 & H2 & H3); try done. split_and!; [lia|..].
      * intros k' e' [[= -> ->]|Hin]%elem_of_cons; [done|eauto].
      * right. destruct H3 as [[= -> ->]|(e & Hin & He)]; [exists e1|exists e]; split; try done;
          [left|by right].
    + apply IH in Hf as (H1 & H2 & H3); try done. split_and!; [lia|..].
      * intros k' e' [[= -> ->]|Hin]%elem_of_cons; [lia|eauto].
      * destruct H3 as [?|(e & Hin & He)]; [by left|right; exists e; split; [by right|done]].
Qed.

Lemma oldest_key_spec (m : gmap string Entry) :
  m ≠ ∅ → keyed m →
  ∃ e, m !! oldest_key m = Some e ∧ ∀ k' e', m !! k' = Some e' → LastSeen e <= LastSeen e'.
Proof.
  intros Hne Hk. unfold oldest_key.
  assert (Hkeys : ∀ k e, (k, e) ∈ range m → k ≠ EmptyString).
  { intros k e H. apply range_elem, Hk in H as ->. apply key_nonempty. }
  destruct (range m) as [|[k0 e0] l] eqn:Hr.
  { destruct Hne. apply map_to_list_empty_iff. apply Permutation_nil_r.
    rewrite <-(range_perm m). by rewrite Hr. }
  cbn [foldl]. unfold oldest_step at 2. cbn [fst snd String.eqb orb].
  destruct (foldl _ _ l) as [k t] eqn:Hf.
  apply oldest_loop in Hf as (H1 & H2 & H3);
    [|apply (Hkeys k0 e0); left|intros k' e' ?; apply (Hkeys k' e'); by right].
  assert (Hall : ∀ k' e', m !! k' = Some e' → t <= LastSeen e').
  { intros k' e' Hm. apply range_elem in Hm. rewrite Hr in Hm.
    apply elem_of_cons in Hm as [[= -> ->]|Hm]; [done|eauto]. }
  destruct H3 as [[= -> ->]|(e & Hin & <-)].
  - exists e0. split; [|done]. apply range_elem. rewrite Hr. left.
  - exists e. split; [|done]. apply range_elem. rewrite Hr. by right.
Qed.
End loops.

(** ** Durations *)

Lemma time_Sub_mono a a' b : a <= a' → time_Sub a b <= time_Sub a' b.
Proof. unfold time_Sub. lia. Qed.

Lemma time_Sub_small a b : minDuration <= a - b <= maxDuration → time_Sub a b = a - b.
Proof. unfold time_Sub. lia. Qed.

Lemma expired_mono now now' e : now <= now' → expired now e = true → expired now' e = true.
Proof.
  intros Hn. unfold expired. intros H. zb. pose proof (time_Sub_mono now now' (LastSeen e) Hn).
  lia.
Qed.

(** A map with at least two entries has one away from a given key. *)
Lemma map_choose_ne (m : gmap string Entry) k e :
  m !! k = Some e → (1 < size m)%nat → ∃ k' e', k' ≠ k ∧ m !! k' = Some e'.
Proof.
  intros Hk Hs. assert (Hd : delete k m ≠ ∅).
  { intros Hd. assert (H0 : size (delete k m) = 0%nat) by (rewrite Hd; apply map_size_empty).
    rewrite map_size_delete_Some in H0 by eauto. lia. }
  apply map_choose in Hd as (k' & e' & H'). apply lookup_delete_Some in H' as [? ?].
  exists k', e'. done.
Qed.

(** ** Operations *)

Section ops.
Context {MR : MapRange}.

Definition inserted (t : Table) (now : Z) (mac : string) (seq lan exp : Z) : gmap string Entry :=
  <[key mac seq := mkEntry mac seq lan now exp]> (entries t).

Lemma InsertWithExpiry_maxSize t now mac seq lan exp :
  maxSize (InsertWithExpiry t now mac seq lan exp) = maxSize t.
Proof. unfold InsertWithExpiry. by destruct (_ && _). Qed.

Lemma keyed_inserted t now mac seq lan exp :
  keyed (entries t) → keyed (inserted t now mac seq lan exp).
Proof.
  intros Hk k e. unfold inserted. rewrite lookup_insert_Some.
  intros [[<- <-]|[_ H]]; [done|by apply Hk].
Qed.

Lemma keyed_sub (m m' : gmap string Entry) :
  keyed m → (∀ k e, m' !! k = Some e → m !! k = Some e) → keyed m'.
Proof. intros Hk Hs k e H. by apply Hk, Hs. Qed.

(** Insertion keeps a subset of the map with the new entry. *)
Lemma InsertWithExpiry_sub t now mac seq lan exp k e :
  entries (InsertWithExpiry t now mac seq lan exp) !! k = Some e →
  inserted t now mac seq lan exp !! k = Some e.
Proof.
  unfold InsertWithExpiry. fold (inserted t now mac seq lan exp).
  destruct (_ && _); [|done]. cbn. intros [_ H]%lookup_delete_Some. done.
Qed.

Lemma inserted_nonempty t now mac seq lan exp : inserted t now mac seq lan exp ≠ ∅.
Proof. apply insert_non_empty. Qed.

Lemma InsertWithExpiry_ok t now mac seq lan exp :
  table_ok t → table_ok (InsertWithExpiry t now mac seq lan exp).
Proof.
  intros [Hk Hb]. split.
  - eapply keyed_sub; [apply (keyed_inserted t now mac seq lan exp Hk)|].
    intros k e. apply InsertWithExpiry_sub.
  - intros Hm. rewrite InsertWithExpiry_maxSize in *. specialize (Hb Hm). unfold Size in *.
    unfold InsertWithExpiry. fold (inserted t now mac seq lan exp).
    destruct (_ && _) eqn:E; cbn [entries]; zb.
    + destruct (oldest_key_spec (inserted t now mac seq lan exp)) as (e & He & _);
        [apply inserted_nonempty|by apply keyed_inserted|].
      rewrite map_size_delete_Some by eauto.
      unfold inserted. rewrite map_size_insert.
      destruct (entries t !! key mac seq); cbn; lia.
    + apply andb_false_iff in E as [E|E]; zb; lia.
Qed.

(** The frame just accepted survives the eviction unless every other entry is
    at least as recent. *)
Lemma InsertWithExpiry_fresh t now mac seq lan exp :
  keyed (entries t) → (∀ k e, entries t !! k = Some e → LastSeen e < now) →
  entries (InsertWithExpiry t now mac seq lan exp) !! key mac seq
  = Some (mkEntry mac seq lan now exp).
Proof.
  intros Hk Hold. unfold InsertWithExpiry. fold (inserted t now mac seq lan exp).
  assert (Hl : inserted t now mac seq lan exp !! key mac seq = Some (mkEntry mac seq lan now exp))
    by apply lookup_insert_eq.
  destruct (_ && _) eqn:E; [|done]. cbn [entries]. zb.
  destruct (oldest_key_spec (inserted t now mac seq lan exp)) as (e & He & Hmin);
    [apply inserted_nonempty|by apply keyed_inserted|].
  rewrite lookup_delete_ne; [done|]. intros Heq. rewrite Heq, Hl in He. simplify_eq.
  assert (Hex : ∃ k' e', k' ≠ key mac seq ∧ inserted t now mac seq lan exp !! k' = Some e').
  { apply map_choose_ne with (mkEntry mac seq lan now exp); [done|lia]. }
  destruct Hex as (k' & e' & Hne & He'). specialize (Hmin k' e' He'). cbn in Hmin.
  unfold inserted in He'. rewrite lookup_insert_ne in He' by done.
  specialize (Hold k' e' He'). lia.
Qed.

Lemma FlushFor_fst t mac :
  (FlushFor t mac).1 = mkTable (delete_where (fun e => String.eqb (SrcMAC e) mac) (entries t)).1 (maxSize t).
Proof. unfold FlushFor. by destruct (delete_where _ _). Qed.

Lemma FlushFor_snd t mac :
  (FlushFor t mac).2 = (delete_where (fun e => String.eqb (SrcMAC e) mac) (entries t)).2.
Proof. unfold FlushFor. by destruct (delete_where _ _). Qed.

Lemma Cleanup_fst t now :
  (Cleanup t now).1 = mkTable (delete_where (expired now) (entries t)).1 (maxSize t).
Proof. unfold Cleanup. by destruct (delete_where _ _). Qed.

Lemma Cleanup_snd t now : (Cleanup t now).2 = (delete_where (expired now) (entries t)).2.
Proof. unfold Cleanup. by destruct (delete_where _ _). Qed.

Lemma delete_where_ok (p : Entry → bool) t :
  table_ok t → table_ok (mkTable (delete_where p (entries t)).1 (maxSize t)).
Proof.
  intros [Hk Hb]. split.
  - eapply keyed_sub; [exact Hk|]. intros k e H. by apply delete_where_spec in H as [H _].
  - intros Hm. specialize (Hb Hm). unfold Size in *. cbn [entries maxSize].
    pose proof (delete_where_size p (entries t)). lia.
Qed.

Lemma FlushFor_ok t mac : table_ok t → table_ok (FlushFor t mac).1.
Proof. rewrite FlushFor_fst. apply delete_where_ok. Qed.

Lemma Cleanup_ok t now : table_ok t → table_ok (Cleanup t now).1.
Proof. rewrite Cleanup_fst. apply delete_where_ok. Qed.

Lemma NewTable_ok max : table_ok (NewTable max).
Proof. split; [intros k e H; cbn in H; by rewrite lookup_empty in H|]. unfold bounded, Size, NewTable. cbn [entries maxSize].
  rewrite map_size_empty. lia.
Qed.

Lemma keyed_at (m : gmap string Entry) mac seq e :
  keyed m → m !! key mac seq = Some e → SrcMAC e = mac ∧ SeqNo e = seq.
Proof. intros Hk H. apply Hk, key_inj in H as [<- <-]. done. Qed.

Lemma FlushFor_lookup t mac mac' seq :
  keyed (entries t) →
  entries (FlushFor t mac).1 !! key mac' seq =
    if bool_decide (mac = mac') then None else entries t !! key mac' seq.
Proof.
  intros Hk. rewrite FlushFor_fst. cbn. rewrite delete_where_lookup.
  destruct (entries t !! key mac' seq) as [e|] eqn:E; cbn; [|by case_bool_decide].
  apply keyed_at in E as [-> _]; [|done].
  case_bool_decide as Hm; [subst; by rewrite String.eqb_refl|].
  by rewrite (proj2 (String.eqb_neq mac' mac)) by done.
Qed.

Lemma Cleanup_lookup t now k :
  entries (Cleanup t now).1 !! k =
    entries t !! k ≫= (fun e => if expired now e then None else Some e).
Proof. rewrite Cleanup_fst. cbn. apply delete_where_lookup. Qed.

Lemma InsertWithExpiry_sub_lookup t now mac seq lan exp mac' seq' e :
  entries (InsertWithExpiry t now mac seq lan exp) !! key mac' seq' = Some e →
  if bool_decide ((mac, seq) = (mac', seq')) then e = mkEntry mac seq lan now exp
  else entries t !! key mac' seq' = Some e.
Proof.
  intros H. apply InsertWithExpiry_sub in H. unfold inserted in H.
  case_bool_decide as Hd; [simplify_eq; by rewrite lookup_insert_eq in H; simplify_eq|].
  rewrite lookup_insert_ne in H; [done|]. intros Heq. apply Hd. by apply key_inj in Heq as [-> ->].
Qed.

(** ** The table implements the memory of accepted frames *)

Lemma run_cons max o h : run max (o :: h) = apply_op o (run max h).
Proof. done. Qed.

Lemma run_ok max h : table_ok (run max h).
Proof.
  induction h as [|o h IH]; [apply NewTable_ok|]. rewrite run_cons.
  destruct o; [by apply InsertWithExpiry_ok|by apply FlushFor_ok|by apply Cleanup_ok].
Qed.

Lemma run_maxSize max h : maxSize (run max h) = max.
Proof.
  induction h as [|o h IH]; [done|]. rewrite run_cons. destruct o; cbn [apply_op].
  - by rewrite InsertWithExpiry_maxSize.
  - by rewrite FlushFor_fst.
  - by rewrite Cleanup_fst.
Qed.

(** Everything in the table was accepted. *)
Lemma run_sound max h mac seq e :
  entries (run max h) !! key mac seq = Some e →
  last_accept h mac seq = Some (LastSeen e, ExpiryMs e).
Proof.
  revert e. induction h as [|o h IH]; intros e; [done|].
  pose proof (run_ok max h) as [Hk _].
  rewrite run_cons. cbn [last_accept]. destruct o; cbn [apply_op].
  - intros H%InsertWithExpiry_sub_lookup. case_bool_decide; [by subst e|by apply IH].
  - rewrite FlushFor_lookup by done. case_bool_decide; [done|apply IH].
  - rewrite Cleanup_lookup. destruct (entries (run max h) !! key mac seq) as [e'|]; [|done].
    cbn. destruct (expired _ _); [done|]. intros [= ->]. by apply IH.
Qed.

Lemma run_size max h : Size (run max h) <= inserts h.
Proof.
  induction h as [|o h IH]; [done|]. rewrite run_cons. cbn [inserts]. unfold Size in *. destruct o; cbn [apply_op].
  - assert (Hs : (size (entries (InsertWithExpiry (run max h) now mac seq lan expiryMs))
                  ≤ size (inserted (run max h) now mac seq lan expiryMs))%nat).
    { apply map_subseteq_size, map_subseteq_spec. intros k e. apply InsertWithExpiry_sub. }
    unfold inserted in Hs. rewrite map_size_insert in Hs.
    destruct (entries (run max h) !! key mac seq); cbn in Hs; lia.
  - rewrite FlushFor_fst. cbn [entries].
    assert (Hs := delete_where_size (fun e => String.eqb (SrcMAC e) mac) (entries (run max h))). lia.
  - rewrite Cleanup_fst. cbn [entries].
    assert (Hs := delete_where_size (expired now) (entries (run max h))). lia.
Qed.

(** Within the capacity, everything accepted is in the table or expired. *)
Lemma run_complete max h now mac seq t exp :
  clocked now h → max <= 0 ∨ inserts h <= max →
  last_accept h mac seq = Some (t, exp) →
  (∃ e, entries (run max h) !! key mac seq = Some e) ∨ time_Sub now t > Milliseconds exp.
Proof.
  revert now. induction h as [|o h IH]; intros now Hc Hcap Hl; [done|].
  pose proof (run_ok max h) as [Hk _]. rewrite run_cons. cbn [last_accept inserts] in Hl, Hcap.
  destruct o; cbn [apply_op clocked] in *.
  - destruct Hc as [Hle Hc]. pose proof (run_size max h).
    assert (Hins : entries (InsertWithExpiry (run max h) now0 mac0 seq0 lan expiryMs)
                   = inserted (run max h) now0 mac0 seq0 lan expiryMs).
    { unfold InsertWithExpiry. fold (inserted (run max h) now0 mac0 seq0 lan expiryMs).
      rewrite run_maxSize.
      assert (Hsz : Z.of_nat (size (inserted (run max h) now0 mac0 seq0 lan expiryMs)) <= 1 + inserts h).
      { unfold inserted. rewrite map_size_insert. unfold Size in *.
        destruct (entries (run max h) !! key mac0 seq0); cbn [id]; lia. }
      match goal with |- context [if ?b then _ else _] => guard_false b end. done. }
    rewrite Hins. unfold inserted. case_bool_decide as Hd; simplify_eq.
    + left. exists (mkEntry mac seq lan t exp). apply lookup_insert_eq.
    + rewrite lookup_insert_ne by (intros [-> ->]%key_inj; done).
      destruct (IH now0 Hc ltac:(lia) Hl) as [?|Hx]; [by left|right].
      pose proof (time_Sub_mono now0 now t Hle). lia.
  - rewrite FlushFor_lookup by done. case_bool_decide; [done|]. by apply IH.
  - destruct Hc as [Hle Hc]. rewrite Cleanup_lookup.
    destruct (IH now0 Hc Hcap Hl) as [[e He]|Hx].
    + rewrite He. cbn. apply run_sound in He as Hs. rewrite Hs in Hl. simplify_eq.
      destruct (expired now0 e) eqn:Ee; [right|left; eauto].
      apply (expired_mono now0 now) in Ee; [|done]. unfold expired in Ee. zb. lia.
    + right. pose proof (time_Sub_mono now0 now t Hle). lia.
Qed.

Lemma Find_remembered max h now mac seq :
  Find (run max h) now mac seq = true → remembered h now mac seq = true.
Proof.
  unfold Find, remembered. destruct (entries (run max h) !! key mac seq) as [e|] eqn:He; [|done].
  apply run_sound in He as ->. unfold expired. by destruct (_ >? _).
Qed.

Lemma remembered_Find max h now mac seq :
  clocked now h → max <= 0 ∨ inserts h <= max →
  remembered h now mac seq = true → Find (run max h) now mac seq = true.
Proof.
  intros Hc Hcap. unfold remembered. destruct (last_accept h mac seq) as [[t exp]|] eqn:Hl; [|done].
  intros Hr. apply negb_true_iff in Hr. unfold Find.
  destruct (run_complete max h now mac seq t exp Hc Hcap Hl) as [[e He]|Hx]; [|lia].
  rewrite He. apply run_sound in He. rewrite Hl in He. simplify_eq. unfold expired. by rewrite Hr.
Qed.

(** *** Retention under load *)

(** The entries that are not older than [t0]. *)
Definition recent (t0 : Z) (m : gmap string Entry) : gmap string Entry :=
  filter (fun ke => t0 <= LastSeen ke.2) m.

Lemma recent_size_sub t0 m m' :
  (∀ k e, m' !! k = Some e → m !! k = Some e) → (size (recent t0 m') ≤ size (recent t0 m))%nat.
Proof.
  intros Hs. apply map_subseteq_size, map_subseteq_spec. intros k e.
  unfold recent. rewrite !map_lookup_filter_Some. intros [? ?]. auto.
Qed.

Lemma recent_size_insert t0 m k e : (size (recent t0 (<[k := e]> m)) ≤ S (size (recent t0 m)))%nat.
Proof.
  transitivity (size (<[k := e]> (recent t0 m))).
  - apply map_subseteq_size, map_subseteq_spec. intros k' e'.
    unfold recent. rewrite map_lookup_filter_Some, !lookup_insert_Some, map_lookup_filter_Some. tauto.
  - rewrite map_size_insert. destruct (recent t0 m !! k); cbn; lia.
Qed.

(** An operation that cannot make the table forget [mac] before [now]. *)
Definition benign (t0 now exp : Z) (mac : string) (o : op) : Prop :=
  match o with
  | OInsert u _ _ _ x => t0 <= u ∧ x = exp
  | OFlush m => m ≠ mac
  | OCleanup u => u <= now
  end.

(** The table still holds the frame accepted at [t0], and counts how many
    entries are at least as recent. *)
Definition holding (t0 exp : Z) (mac : string) (seq : Z) (k : Z) (t : Table) : Prop :=
  keyed (entries t) ∧ Z.of_nat (size (recent t0 (entries t))) <= k ∧
  ∃ e, entries t !! key mac seq = Some e ∧ t0 <= LastSeen e ∧ ExpiryMs e = exp.

Lemma holding_insert t0 exp mac seq k t u mac' seq' lan :
  holding t0 exp mac seq k t → t0 <= u → maxSize t <= 0 ∨ k + 1 <= maxSize t →
  holding t0 exp mac seq (k + 1) (InsertWithExpiry t u mac' seq' lan exp).
Proof.
  intros (Hk & Hr & e & He & Hl & Hx) Hu Hcap.
  set (m := inserted t u mac' seq' lan exp).
  assert (Hkm : keyed m) by by apply keyed_inserted.
  assert (Hrm : Z.of_nat (size (recent t0 m)) <= k + 1).
  { pose proof (recent_size_insert t0 (entries t) (key mac' seq') (mkEntry mac' seq' lan u exp)).
    fold (inserted t u mac' seq' lan exp) in H. fold m in H. lia. }
  assert (Hem : ∃ e, m !! key mac seq = Some e ∧ t0 <= LastSeen e ∧ ExpiryMs e = exp).
  { unfold m, inserted. destruct (decide (key mac' seq' = key mac seq)) as [->|Hne].
    - rewrite lookup_insert_eq. eexists. done.
    - rewrite lookup_insert_ne by done. eauto. }
  unfold holding, InsertWithExpiry. fold (inserted t u mac' seq' lan exp). fold m.
  destruct (_ && _) eqn:Eb; [|done]. cbn [entries]. zb.
  destruct (oldest_key_spec m) as (e0 & He0 & Hmin); [apply inserted_nonempty|done|].
  destruct Hem as (e' & He' & Hl' & Hx'). split_and!.
  - eapply keyed_sub; [exact Hkm|]. by intros k' e'' [_ ?]%lookup_delete_Some.
  - etransitivity; [|exact Hrm]. apply inj_le, recent_size_sub.
    by intros k' e'' [_ ?]%lookup_delete_Some.
  - exists e'. rewrite lookup_delete_ne; [done|]. intros Heq. rewrite Heq, He' in He0.
    simplify_eq. assert (Hall : recent t0 m = m).
    { apply map_filter_id. intros k' e'' H''. cbn. specialize (Hmin k' e'' H''). lia. }
    rewrite Hall in Hrm. lia.
Qed.

Lemma holding_delete t0 exp mac seq k t p :
  holding t0 exp mac seq k t →
  (∀ e, entries t !! key mac seq = Some e → t0 <= LastSeen e → ExpiryMs e = exp → p e = false) →
  holding t0 exp mac seq k (mkTable (delete_where p (entries t)).1 (maxSize t)).
Proof.
  intros (Hk & Hr & e & He & Hl & Hx) Hp.
  assert (Hs : ∀ k e, (delete_where p (entries t)).1 !! k = Some e → entries t !! k = Some e)
    by (intros k' e' H; by apply delete_where_spec in H as [H _]).
  split_and!; cbn [entries].
  - by eapply keyed_sub.
  - etransitivity; [|exact Hr]. by apply inj_le, recent_size_sub.
  - exists e. split_and!; try done. apply delete_where_spec. auto.
Qed.

Lemma apply_op_maxSize o t : maxSize (apply_op o t) = maxSize t.
Proof.
  destruct o; cbn [apply_op].
  - by rewrite InsertWithExpiry_maxSize.
  - by rewrite FlushFor_fst.
  - by rewrite Cleanup_fst.
Qed.

Lemma foldr_maxSize h t : maxSize (foldr apply_op t h) = maxSize t.
Proof. induction h as [|o h IH]; [done|]. cbn [foldr]. by rewrite apply_op_maxSize. Qed.

Lemma holding_ops t0 exp mac seq now t h k :
  holding t0 exp mac seq k t → Forall (benign t0 now exp mac) h →
  time_Sub now t0 <= Milliseconds exp →
  maxSize t <= 0 ∨ k + inserts h <= maxSize t →
  holding t0 exp mac seq (k + inserts h) (foldr apply_op t h).
Proof.
  intros Ht Hb Hw. induction Hb as [|o h Ho Hb IH]; intros Hcap; cbn [foldr inserts] in *.
  { by rewrite Z.add_0_r. }
  assert (Hi : 0 <= inserts h) by (clear; induction h as [|[] h IH]; cbn; lia).
  destruct o; cbn [benign apply_op] in *.
  - destruct Ho as [Hu ->]. replace (k + (1 + inserts h)) with (k + inserts h + 1) by lia.
    apply holding_insert; [apply IH; lia|done|rewrite foldr_maxSize; lia].
  - rewrite FlushFor_fst. apply holding_delete; [by apply IH|].
    intros e He _ _. apply keyed_at in He as [-> _]; [|by apply IH].
    by apply String.eqb_neq.
  - rewrite Cleanup_fst. apply holding_delete; [by apply IH|].
    intros e _ Hl Hx. unfold expired. rewrite Hx.
    assert (time_Sub now0 (LastSeen e) <= time_Sub now t0) by (unfold time_Sub; lia). lia.
Qed.

Lemma holding_Find t0 exp mac seq k t now :
  holding t0 exp mac seq k t → time_Sub now t0 <= Milliseconds exp → Find t now mac seq = true.
Proof.
  intros (_ & _ & e & He & Hl & Hx) Hw. unfold Find, expired. rewrite He, Hx.
  assert (time_Sub now (LastSeen e) <= time_Sub now t0) by (unfold time_Sub; lia).
  by guard_false (time_Sub now (LastSeen e) >? Milliseconds exp).
Qed.

(** The frame accepted into a table of strictly older entries is held. *)
Lemma holding_accepted t t0 mac seq lan exp :
  keyed (entries t) → (∀ k e, entries t !! k = Some e → LastSeen e < t0) →
  holding t0 exp mac seq 1 (InsertWithExpiry t t0 mac seq lan exp).
Proof.
  intros Hk Hold. split_and!.
  - eapply keyed_sub; [apply (keyed_inserted t t0 mac seq lan exp Hk)|].
    intros k e. apply InsertWithExpiry_sub.
  - transitivity (Z.of_nat (size (recent t0 (inserted t t0 mac seq lan exp)))).
    { apply inj_le, recent_size_sub. intros k e. apply InsertWithExpiry_sub. }
    pose proof (recent_size_insert t0 (entries t) (key mac seq) (mkEntry mac seq lan t0 exp)) as Hs.
    assert (Hz : recent t0 (entries t) = ∅).
    { apply map_empty. intros k. apply eq_None_not_Some. intros [e He].
      apply map_lookup_filter_Some in He as [He Hl]. cbn in Hl. specialize (Hold k e He). lia. }
    rewrite Hz, map_size_empty in Hs. unfold inserted. lia.
  - rewrite InsertWithExpiry_fresh by done. eexists. split; [done|]. cbn. lia.
Qed.
End ops.

(** ** Properties *)

Section table_properties.
Context {MR : MapRange}.

(** C14: The table refines a memory of accepted frames.  After any history of
    insertions, flushes and clean-ups whose clock does not go back, and as
    long as the capacity was not exceeded, [Find] answers exactly whether the
    frame's last acceptance was not flushed and is still within its lifetime:
    string keys, map order and clean-up times are invisible. *)
Theorem table_refines_memory (max : Z) (h : list op) (now : Z) (mac : string) (seq : Z) :
  clocked now h → max <= 0 ∨ inserts h <= max →
  Find (run max h) now mac seq = remembered h now mac seq.
Proof.
  intros Hc Hcap. apply eq_bool_prop_intro. split; intros Ht%Is_true_eq_true;
    apply Is_true_eq_left; [by eapply Find_remembered|by apply remembered_Find].
Qed.

(** No false duplicates, also when the table overflows: if [Find] calls a
    frame a duplicate, that frame was accepted earlier, was not flushed since
    and its lifetime is not over, for every capacity, history and map order. *)
Theorem table_no_false_duplicate (max : Z) (h : list op) (now : Z) (mac : string) (seq : Z) :
  Find (run max h) now mac seq = true → remembered h now mac seq = true.
Proof. apply Find_remembered. Qed.

(** Table invariant.  Every operation keeps each entry under the key of
    the frame it describes, and keeps the table within its maximum size. *)
Theorem table_invariant (t : Table) (o : op) : table_ok t → table_ok (apply_op o t).
Proof.
  intros. destruct o; [by apply InsertWithExpiry_ok|by apply FlushFor_ok|by apply Cleanup_ok].
Qed.

(** Eviction takes the oldest.  Accepting a new frame into a full table
    removes one entry, none of the others is older than it, and every other
    entry, the new one included, stays. *)
Theorem eviction_takes_oldest (t : Table) (now : Z) (mac : string) (seq lan exp : Z) :
  table_ok t → 0 < maxSize t → Size t = maxSize t → entries t !! key mac seq = None →
  ∃ k e, inserted t now mac seq lan exp !! k = Some e ∧
    (∀ k' e', inserted t now mac seq lan exp !! k' = Some e' → LastSeen e <= LastSeen e') ∧
    entries (InsertWithExpiry t now mac seq lan exp) = delete k (inserted t now mac seq lan exp).
Proof.
  intros [Hk _] Hm Hs Hn.
  destruct (oldest_key_spec (inserted t now mac seq lan exp)) as (e & He & Hmin);
    [apply inserted_nonempty|by apply keyed_inserted|].
  exists (oldest_key (inserted t now mac seq lan exp)), e. split_and!; try done.
  unfold InsertWithExpiry. fold (inserted t now mac seq lan exp).
  assert (Hsz : Z.of_nat (size (inserted t now mac seq lan exp)) = Size t + 1).
  { unfold inserted. rewrite map_size_insert_None by done. unfold Size. lia. }
  by guard_true ((maxSize t >? 0) && (Z.of_nat (size (inserted t now mac seq lan exp)) >? maxSize t)).
Qed.

(** Clean-up is invisible to duplicate detection and counts what it
    removes: at any later time [Find] answers as before, and the returned
    number is the difference in size. *)
Theorem cleanup_invisible (t : Table) (now now' : Z) (mac : string) (seq : Z) :
  now <= now' →
  Find (Cleanup t now).1 now' mac seq = Find t now' mac seq ∧
  Size (Cleanup t now).1 + (Cleanup t now).2 = Size t.
Proof.
  intros Hn. split.
  - unfold Find. rewrite Cleanup_lookup.
    destruct (entries t !! key mac seq) as [e|]; [|done]. cbn.
    destruct (expired now e) eqn:E; [|done]. by rewrite (expired_mono now now' e Hn E).
  - rewrite Cleanup_fst, Cleanup_snd. unfold Size. cbn [entries].
    by apply delete_where_spec.
Qed.

(** A flush forgets one peer and nobody else: afterwards no frame of that
    source is a duplicate, every other source is judged as before, and the
    returned number is the difference in size. *)
Theorem flush_forgets_one_peer (t : Table) (now : Z) (mac mac' : string) (seq : Z) :
  table_ok t →
  Find (FlushFor t mac).1 now mac' seq
    = (if bool_decide (mac = mac') then false else Find t now mac' seq) ∧
  Size (FlushFor t mac).1 + (FlushFor t mac).2 = Size t.
Proof.
  intros [Hk _]. split.
  - unfold Find. rewrite FlushFor_lookup by done. by case_bool_decide.
  - rewrite FlushFor_fst, FlushFor_snd. unfold Size. cbn [entries].
    by apply delete_where_spec.
Qed.
End table_properties.

(** *** Concrete instances *)

Definition demo_history : list op :=
  [OCleanup 700000000; OInsert 5 "aa"%string 2 1 640; OInsert 0 "aa"%string 1 0 640].

Lemma table_refines_memory_witness :
  Find (run (MR := sorted_range) 256 demo_history) 700000001 "aa"%string 1
  = remembered demo_history 700000001 "aa"%string 1.
Proof.
  apply (table_refines_memory (MR := sorted_range)); [cbn; lia|right; cbn; lia].
Defined.

Lemma table_no_false_duplicate_witness :
  remembered [OInsert 0 "aa"%string 1 0 640] 5 "aa"%string 1 = true.
Proof.
  apply (table_no_false_duplicate (MR := sorted_range) 1). vm_compute. reflexivity.
Defined.

Lemma demo_table_ok : table_ok (run (MR := sorted_range) 2 [OInsert 0 "aa"%string 1 0 640]).
Proof. apply run_ok. Qed.

Lemma table_invariant_witness :
  table_ok (apply_op (MR := sorted_range) (OFlush "aa"%string)
              (run (MR := sorted_range) 2 [OInsert 0 "aa"%string 1 0 640])).
Proof. apply (table_invariant (MR := sorted_range)). exact demo_table_ok. Defined.

Lemma demo_full_ok : table_ok (run (MR := sorted_range) 1 [OInsert 0 "aa"%string 1 0 640]).
Proof. apply run_ok. Qed.

Lemma eviction_takes_oldest_witness :
  let t := run (MR := sorted_range) 1 [OInsert 0 "aa"%string 1 0 640] in
  ∃ k e, inserted t 9 "bb"%string 2 0 640 !! k = Some e ∧
    (∀ k' e', inserted t 9 "bb"%string 2 0 640 !! k' = Some e' → LastSeen e <= LastSeen e') ∧
    entries (InsertWithExpiry (MR := sorted_range) t 9 "bb"%string 2 0 640)
    = delete k (inserted t 9 "bb"%string 2 0 640).
Proof.
  intros t. apply (eviction_takes_oldest (MR := sorted_range) t);
    [exact demo_full_ok|reflexivity|vm_compute; reflexivity|vm_compute; reflexivity].
Defined.

Lemma cleanup_invisible_witness :
  let t := run (MR := sorted_range) 2 [OInsert 0 "aa"%string 1 0 640] in
  Find (Cleanup (MR := sorted_range) t 640000001).1 640000002 "aa"%string 1
    = Find t 640000002 "aa"%string 1 ∧
  Size (Cleanup (MR := sorted_range) t 640000001).1 + (Cleanup (MR := sorted_range) t 640000001).2
    = Size t.
Proof. intros t. apply (cleanup_invisible (MR := sorted_range)). lia. Defined.

Lemma flush_forgets_one_peer_witness :
  let t := run (MR := sorted_range) 2 [OInsert 0 "aa"%string 1 0 640] in
  Find (FlushFor (MR := sorted_range) t "aa"%string).1 5 "aa"%string 1 = false ∧
  Size (FlushFor (MR := sorted_range) t "aa"%string).1 + (FlushFor (MR := sorted_range) t "aa"%string).2
    = Size t.
Proof. intros t. apply (flush_forgets_one_peer (MR := sorted_range) t 5 "aa"%string "aa"%string 1 demo_table_ok). Defined.
