(* ===== verification/Supervision.v ===== *)
(** * Supervision: life-check frames

    Models [src/internal/supervision/supervision.go]: building PRP and HSR
    supervision frames (EtherType 0x88FB) and parsing received ones. *)

From S2P Require Import Prelude Engine.

Definition LifeCheckDD : Z := 20.
Definition HSRLifeCheck : Z := 23.
Definition supLSDUSize : Z := 52.
Definition SupVersion : Z := 1.

(** [frame[0:6]] of every supervision frame: 01-15-4E-00-01-00 *)
Definition sup_dst : bytes := [0x01; 0x15; 0x4e; 0x00; 0x01; 0x00].

(** The parsed frame ([supervision.Frame]). *)
Record Frame := mkFrame {
  f_SrcMAC : string;
  f_Seq : Z;
  f_Path : Z;
  f_TLVType : Z;
  f_MacAddrA : bytes;
  f_IsRedBox : bool;
  f_RedBoxMAC : bytes;
}.

(** ** Operations *)

(** [payload = append(payload, make([]byte, ethMinLen-len(payload))...)] *)
Definition pad_min (payload : bytes) : bytes :=
  if glen payload <? ethMinLen then payload ++ zeros (ethMinLen - glen payload) else payload.

Definition Build (srcMAC : bytes) (seq : Z) : bytes :=
  let payload := sup_dst ++ srcMAC ++ [0x88; 0xfb] in
  let tag := PutUint16 SupVersion ++ PutUint16 seq in
  let payload := payload ++ tag in
  let payload := payload ++ [LifeCheckDD; 6] in
  let payload := payload ++ srcMAC in
  pad_min payload.

Definition BuildRCTed (srcMAC : bytes) (seq lanID : Z) : bytes :=
  let frame := Build srcMAC seq in
  let wireLanID := Z.lor (u16 (Z.land lanID 0x0F)) 0xA in
  let packed := Z.lor (u16 (Z.shiftl wireLanID 12)) supLSDUSize in
  let rct := PutUint16 seq ++ PutUint16 packed ++ PutUint16 PRPSuffix in
  frame ++ rct.

Definition BuildHSR (srcMAC : bytes) (seq path : Z) : bytes :=
  let payload := sup_dst ++ srcMAC ++ [0x88; 0xfb] in
  let tag := PutUint16 (Z.lor (u16 (Z.shiftl (u16 (Z.land path 0x0F)) 12)) SupVersion)
             ++ PutUint16 seq in
  let payload := payload ++ tag in
  let payload := payload ++ [HSRLifeCheck; 6] in
  let payload := payload ++ srcMAC in
  pad_min payload.

(** The guards of [Parse] on the destination and the EtherType; [&&] of the
    negated disjuncts, evaluated left to right. *)
Definition sup_header (frame : bytes) : go bool :=
  let! b0 := idx frame 0 in let! b1 := idx frame 1 in let! b2 := idx frame 2 in
  let! b3 := idx frame 3 in let! b4 := idx frame 4 in let! b5 := idx frame 5 in
  if negb ((b0 =? 0x01) && (b1 =? 0x15) && (b2 =? 0x4e) &&
           (b3 =? 0x00) && (b4 =? 0x01) && (b5 =? 0x00)) then Ret false
  else
    let! b12 := idx frame 12 in let! b13 := idx frame 13 in
    Ret ((b12 =? 0x88) && (b13 =? 0xfb)).

(** [Parse] returns nil ([None]) for a frame that is not supervision. *)
Definition Parse (frame : bytes) : go (option Frame) :=
  if glen frame <? 20 then Ret None
  else
    let! hdr := sup_header frame in
    if negb hdr then Ret None
    else
      let! src := GetSrcMAC frame in
      let! seq := be16 frame 16 in
      let! word := be16 frame 14 in
      let! tlv := idx frame 18 in
      let! macA := slice frame 20 26 in
      if (tlv =? 30) && (glen frame >=? 32) then
        let! redbox := slice frame 26 32 in
        Ret (Some (mkFrame src seq (Z.shiftr word 12) tlv macA true redbox))
      else
        Ret (Some (mkFrame src seq (Z.shiftr word 12) tlv macA false (zeros 6))).

(** ** Lemmas *)

(** The textual form of a 6-byte address. *)
Definition mac_text (mac : bytes) : string := mac_of mac 0.

Lemma six_bytes (mac : bytes) : glen mac = 6 →
  ∃ a b c d e f, mac = [a; b; c; d; e; f].
Proof.
  unfold glen. intros H.
  do 6 (destruct mac as [|? mac]; [cbn in H; lia|]).
  destruct mac; [by repeat eexists|cbn in H; lia].
Qed.

Lemma glen_Build mac seq : glen mac = 6 → glen (Build mac seq) = 60.
Proof. intros (?&?&?&?&?&?&->)%six_bytes. reflexivity. Qed.

Lemma glen_BuildHSR mac seq path : glen mac = 6 → glen (BuildHSR mac seq path) = 60.
Proof. intros (?&?&?&?&?&?&->)%six_bytes. reflexivity. Qed.

(** A frame that starts like a supervision frame of 26 bytes or more. *)
Definition sup_head (mac : bytes) (word seq tlv : Z) (rest : bytes) : bytes :=
  sup_dst ++ mac ++ [0x88; 0xfb] ++ PutUint16 word ++ PutUint16 seq ++ [tlv; 6] ++ mac ++ rest.

Lemma Parse_sup_head mac word seq tlv rest :
  glen mac = 6 → is_u16 word → is_u16 seq → tlv ≠ 30 →
  Parse (sup_head mac word seq tlv rest) =
    Ret (Some (mkFrame (mac_text mac) seq (word / 4096) tlv mac false (zeros 6))).
Proof.
  intros (a&b&c&d&e&f&->)%six_bytes Hw Hs Ht.
  set (s := sup_head _ _ _ _ _). pose proof (glen_nonneg rest).
  assert (Hl : glen s = 26 + glen rest) by (unfold s, sup_head, sup_dst; len_lia).
  unfold Parse. guard_false (glen s <? 20). unfold sup_header.
  rewrite !idx_ok, GetSrcMAC_ret, !be16_ok, slice_ok by lia. cbn [go_bind].
  assert (Hq : w16 s 16 = seq).
  { change (w16 (PutUint16 seq ++ [tlv; 6] ++ [a; b; c; d; e; f] ++ rest) 0 = seq).
    by apply w16_PutUint16. }
  assert (Hp : w16 s 14 = word).
  { change (w16 (PutUint16 word ++ PutUint16 seq ++ [tlv; 6] ++ [a; b; c; d; e; f] ++ rest) 0 = word).
    by apply w16_PutUint16. }
  rewrite Hq, Hp, shiftr_12.
  change (s !!! Z.to_nat 18) with tlv. rewrite (proj2 (Z.eqb_neq tlv 30)) by done.
  reflexivity.
Qed.

Lemma sup_word_bits path :
  Z.lor (u16 (Z.shiftl (u16 (Z.land path 0x0F)) 12)) SupVersion = path mod 16 * 4096 + 1.
Proof.
  rewrite land_0x0F.
  assert (Hs : u16 (Z.shiftl (u16 (path mod 16)) 12) = Z.shiftl (path mod 16) 12).
  { rewrite !Z.shiftl_mul_pow2 by lia. unfold u16. zlia. }
  rewrite Hs, lor_shiftl_add by (unfold SupVersion; lia). done.
Qed.

Lemma Build_head mac seq : glen mac = 6 → Build mac seq = sup_head mac SupVersion seq LifeCheckDD (zeros 34).
Proof. intros (?&?&?&?&?&?&->)%six_bytes. reflexivity. Qed.

Lemma BuildHSR_head mac seq path :
  glen mac = 6 →
  BuildHSR mac seq path = sup_head mac (path mod 16 * 4096 + 1) seq HSRLifeCheck (zeros 34).
Proof.
  intros Hm. unfold BuildHSR. rewrite sup_word_bits.
  apply six_bytes in Hm as (?&?&?&?&?&?&->). reflexivity.
Qed.

Lemma sup_head_app mac word seq tlv rest t :
  sup_head mac word seq tlv rest ++ t = sup_head mac word seq tlv (rest ++ t).
Proof. unfold sup_head. by rewrite <-!app_assoc. Qed.

(** Supervision frames carry EtherType 0x88FB. *)
Lemma ethertype_sup_head mac word seq tlv rest :
  glen mac = 6 → ethertype (sup_head mac word seq tlv rest) = Some 0x88fb.
Proof.
  intros (a&b&c&d&e&f&->)%six_bytes. pose proof (glen_nonneg rest).
  rewrite ethertype_untagged; [done| |done]. unfold sup_head, sup_dst. len_lia.
Qed.

Lemma BuildRCTed_trailed mac seq lan :
  glen mac = 6 → lan = 0 ∨ lan = 1 → BuildRCTed mac seq lan = trailed (Build mac seq) seq lan.
Proof.
  intros Hm Hlan. unfold BuildRCTed, trailed.
  apply six_bytes in Hm as (a&b&c&d&e&f&->).
  change (pad (Build [a; b; c; d; e; f] seq)) with (Build [a; b; c; d; e; f] seq ++ []).
  change (lsdu (Build [a; b; c; d; e; f] seq)) with supLSDUSize.
  unfold rct. rewrite app_nil_r, <-rct_word_bits by done. done.
Qed.

Lemma bytes_ok_sup_head mac word seq tlv rest :
  bytes_ok mac → is_byte tlv → bytes_ok rest → bytes_ok (sup_head mac word seq tlv rest).
Proof.
  intros. unfold sup_head, sup_dst. rewrite !bytes_ok_app.
  split_and!; auto with go_db; repeat constructor; unfold is_byte in *; lia.
Qed.

(** The bytes [Parse] tests before it slices. *)
Definition sup_shaped (frame : bytes) : Prop :=
  sub frame 0 6 = sup_dst ∧ w16 frame 12 = 0x88fb.

Lemma sub_six (s : bytes) :
  6 <= glen s →
  sub s 0 6 = [s !!! 0%nat; s !!! 1%nat; s !!! 2%nat; s !!! 3%nat; s !!! 4%nat; s !!! 5%nat].
Proof.
  unfold glen. intros H. do 6 (destruct s as [|? s]; [cbn in H; lia|]). reflexivity.
Qed.

Lemma w16_bytes_eq a b : is_byte a → is_byte b →
  ((a =? 0x88) && (b =? 0xfb)) = (a * 256 + b =? 0x88fb).
Proof. unfold is_byte. intros. lia. Qed.

Lemma sup_header_ret s :
  bytes_ok s → 14 <= glen s → sup_header s = Ret (bool_decide (sup_shaped s)).
Proof.
  intros Hb Hl. unfold sup_header. rewrite !idx_ok by lia. cbn [go_bind].
  assert (H12 : is_byte (s !!! Z.to_nat 12)) by by apply bytes_ok_total.
  assert (H13 : is_byte (s !!! Z.to_nat (12 + 1))) by by apply bytes_ok_total.
  rewrite w16_bytes_eq by done. rewrite <-w16_eq by done.
  unfold sup_shaped. rewrite sub_six by lia. unfold sup_dst.
  destruct (negb _) eqn:E; [|]; symmetry; f_equal.
  - apply bool_decide_eq_false. intros [[= H0 H1 H2 H3 H4 H5] _].
    change (Z.to_nat 0) with 0%nat in E. change (Z.to_nat 1) with 1%nat in E.
    change (Z.to_nat 2) with 2%nat in E. change (Z.to_nat 3) with 3%nat in E.
    change (Z.to_nat 4) with 4%nat in E. change (Z.to_nat 5) with 5%nat in E.
    rewrite H0, H1, H2, H3, H4, H5 in E. done.
  - apply negb_false_iff in E. zb.
    rewrite bool_decide_decide. destruct (Z.eqb_spec (w16 s 12) 0x88fb) as [Hw|Hw].
    + destruct (decide _) as [|Hn]; [done|]. destruct Hn. split; [|done].
      repeat f_equal; done.
    + destruct (decide _) as [[_ ?]|]; [lia|done].
Qed.

(** What [Parse] does on a supervision-shaped frame: it needs 26 bytes. *)
Lemma Parse_shaped s :
  bytes_ok s → 20 <= glen s → sup_shaped s →
  if glen s <? 26 then Parse s = Panic else ∃ f, Parse s = Ret (Some f) ∧
    f_SrcMAC f = mac_of s 6 ∧ f_Seq f = w16 s 16 ∧ f_MacAddrA f = sub s 20 26.
Proof.
  intros Hb Hl Hs. unfold Parse. guard_false (glen s <? 20).
  rewrite sup_header_ret by (done || lia). rewrite bool_decide_true by done. cbn [go_bind negb].
  rewrite GetSrcMAC_ret, !be16_ok, idx_ok by lia. cbn [go_bind].
  destruct (Z.ltb_spec (glen s) 26); [by rewrite slice_panic|].
  rewrite slice_ok by lia. cbn [go_bind].
  destruct ((_ =? 30) && _) eqn:E; [|eexists; split_and!; done].
  zb. rewrite slice_ok by lia. cbn [go_bind]. eexists; split_and!; done.
Qed.

(** [Parse] panics exactly on truncated supervision frames. *)
Lemma Parse_panic_cond (frame : bytes) :
  bytes_ok frame →
  Parse frame = Panic ↔ sup_shaped frame ∧ 20 <= glen frame < 26.
Proof.
  intros Hb. destruct (Z.ltb_spec (glen frame) 20) as [Hl|Hl].
  - unfold Parse. guard_true (glen frame <? 20). split; [done|lia].
  - destruct (decide (sup_shaped frame)) as [Hs|Hs].
    + pose proof (Parse_shaped frame Hb Hl Hs) as Hp.
      destruct (Z.ltb_spec (glen frame) 26).
      * rewrite Hp. split; [by auto|done].
      * destruct Hp as (f & -> & _). split; [done|lia].
    + unfold Parse. guard_false (glen frame <? 20).
      rewrite sup_header_ret, bool_decide_false by (done || lia). cbn. split; [done|tauto].
Qed.

(** ** Properties *)

(** PRP supervision round trip.  The frame [BuildRCTed] sends on a LAN is
    exactly the RCT encoding of [Build], so the receiver's trailer check
    accepts it (LSDU size 52) with its LAN and sequence number, and [Parse]
    recovers the sender's address and sequence number with path 0. *)
Theorem prp_supervision_roundtrip (mac : bytes) (seq lan : Z) :
  glen mac = 6 → is_u16 seq → lan = 0 ∨ lan = 1 →
  EncodeRCT (Build mac seq) seq lan = Ret (BuildRCTed mac seq lan) ∧
  DecodeRCT (BuildRCTed mac seq lan) = Ret (Ok (lan, seq, Build mac seq)) ∧
  Parse (BuildRCTed mac seq lan)
    = Ret (Some (mkFrame (mac_text mac) seq 0 LifeCheckDD mac false (zeros 6))).
Proof.
  intros Hm Hs Hlan. rewrite BuildRCTed_trailed by done. split_and!.
  - by apply EncodeRCT_ret.
  - rewrite decode_trailed by (done || rewrite glen_Build; done || lia).
    apply six_bytes in Hm as (a&b&c&d&e&f&->). reflexivity.
  - unfold trailed, pad. rewrite Build_head, !sup_head_app by done.
    by rewrite Parse_sup_head.
Qed.

Lemma prp_supervision_roundtrip_witness :
  let mac := [2; 0; 0; 0; 0; 1] in
  EncodeRCT (Build mac 7) 7 1 = Ret (BuildRCTed mac 7 1) ∧
  DecodeRCT (BuildRCTed mac 7 1) = Ret (Ok (1, 7, Build mac 7)) ∧
  Parse (BuildRCTed mac 7 1)
    = Ret (Some (mkFrame "02:00:00:00:00:01"%string 7 0 20 mac false (zeros 6))).
Proof.
  apply (prp_supervision_roundtrip [2; 0; 0; 0; 0; 1] 7 1);
    [reflexivity|split; lia|right; reflexivity].
Defined.

(** HSR supervision round trip: [Parse] recovers from a ring supervision
    frame the sender's address, the sequence number and the 4-bit PathId. *)
Theorem hsr_supervision_roundtrip (mac : bytes) (seq path : Z) :
  glen mac = 6 → is_u16 seq → 0 <= path < 16 →
  Parse (BuildHSR mac seq path)
    = Ret (Some (mkFrame (mac_text mac) seq path HSRLifeCheck mac false (zeros 6))).
Proof.
  intros Hm Hs Hp. rewrite BuildHSR_head, Parse_sup_head by (done || unfold is_u16; zlia).
  do 3 f_equal. zlia.
Qed.

Lemma hsr_supervision_roundtrip_witness :
  Parse (BuildHSR [2; 0; 0; 0; 0; 1] 7 13)
    = Ret (Some (mkFrame "02:00:00:00:00:01"%string 7 13 23 [2; 0; 0; 0; 0; 1] false (zeros 6))).
Proof. apply (hsr_supervision_roundtrip [2; 0; 0; 0; 0; 1] 7 13); [reflexivity|split; lia|lia]. Defined.

(** [Parse] panics exactly on truncated supervision frames: those with the
    supervision destination and EtherType and a length of 20 to 25 bytes (the
    length guard is 20 but MacAddressA is read from bytes 20 to 25).  Every
    other frame is parsed or refused normally. *)
Theorem Parse_panics_iff (frame : bytes) :
  bytes_ok frame →
  Parse frame = Panic ↔ sup_shaped frame ∧ 20 <= glen frame < 26.
Proof. apply Parse_panic_cond. Qed.

Lemma Parse_panics_iff_witness :
  Parse (sup_dst ++ zeros 6 ++ [0x88; 0xfb] ++ zeros 6) = Panic.
Proof.
  apply Parse_panics_iff; [repeat constructor; discriminate|].
  split; [split; reflexivity|split; [vm_compute; discriminate|reflexivity]].
Defined.
