(* ===== verification/Role.v ===== *)
(** * Role: node configuration and role semantics

    Models the run-time [Config] of [src/internal/prp/prp.go] and the role
    tables of [src/internal/prp/role.go]. *)

From S2P Require Import Prelude.

(** ** Configuration ([prp.Config]) *)

Record Config := mkConfig {
  c_NodeName : string;
  c_Role : string;
  c_LanAInterface : string;
  c_LanBInterface : string;
  c_InterlinkInterface : string;
  c_LanID : string;
  c_NetID : Z;
  c_PRPID : Z;
  c_TrailerEnabled : bool;
  c_Debug : bool;
  c_ForwardAll : bool;
  c_VLANFilter : list Z;
  c_MulticastFirstOctet : string;
  c_EntryForgetMs : Z;
  c_MaxNodeTableSize : Z;
  c_ProxyNodeForgetMs : Z;
  c_NodeForgetMs : Z;
}.

(** ** Roles *)

Inductive Role := RolePRPSan | RoleHSRSan | RoleHSRPRP | RoleHSRHSR.

Global Instance Role_eq_dec : EqDecision Role.
Proof. solve_decision. Defined.

(** The constants of the Go string type [Role]. *)
Definition role_name (r : Role) : string :=
  match r with
  | RolePRPSan => "prp-san"
  | RoleHSRSan => "hsr-san"
  | RoleHSRPRP => "hsr-prp"
  | RoleHSRHSR => "hsr-hsr"
  end.

Inductive role_error := InvalidRole (s : string).

Definition ParseRole (s : string) : result role_error Role :=
  if String.eqb s "" || String.eqb s "redbox" then Ok RolePRPSan
  else if String.eqb s "prp-san" then Ok RolePRPSan
  else if String.eqb s "hsr-san" then Ok RoleHSRSan
  else if String.eqb s "hsr-prp" then Ok RoleHSRPRP
  else if String.eqb s "hsr-hsr" then Ok RoleHSRHSR
  else Err (InvalidRole s).

Record RoleInfo := mkRoleInfo {
  ri_Role : Role;
  RedundancyPortsAreHSR : bool;
  CoupledToPRP : bool;
  InterlinkIsSAN : bool;
  InterlinkIsHSR : bool;
}.

Definition infoFor (r : Role) : RoleInfo :=
  match r with
  | RoleHSRSan => mkRoleInfo r true false true false
  | RoleHSRPRP => mkRoleInfo r true true false false
  | RoleHSRHSR => mkRoleInfo r true false false true
  | RolePRPSan => mkRoleInfo RolePRPSan false false true false
  end.

Definition roleInfo (c : Config) : RoleInfo :=
  match ParseRole (c_Role c) with
  | Err _ => infoFor RolePRPSan
  | Ok r => infoFor r
  end.

Definition IsHSRNode (c : Config) : bool := RedundancyPortsAreHSR (roleInfo c).
Definition IsHSRPRPCoupling (c : Config) : bool := CoupledToPRP (roleInfo c).
Definition IsHSRHSR (c : Config) : bool := InterlinkIsHSR (roleInfo c).

Definition LanID (c : Config) : Z :=
  if IsHSRPRPCoupling c && String.eqb (c_LanID c) "B" then 1 else 0.

Definition NetID (c : Config) : Z :=
  if IsHSRPRPCoupling c && (c_NetID c >? 0) then c_NetID c else 1.

(** [(n.NetID() << 1) | n.LanID()] *)
Definition PathId (c : Config) : Z := Z.lor (Z.shiftl (NetID c) 1) (LanID c).

(** ** Lemmas *)

(** The role a configuration selects; an unknown role counts as prp-san. *)
Definition role_of (c : Config) : Role := ri_Role (roleInfo c).

Lemma roleInfo_role_of c : roleInfo c = infoFor (role_of c).
Proof. unfold role_of, roleInfo. destruct (ParseRole (c_Role c)) as [[]|]; done. Qed.

Lemma IsHSRNode_role c : IsHSRNode c = negb (bool_decide (role_of c = RolePRPSan)).
Proof. unfold IsHSRNode. rewrite roleInfo_role_of. by destruct (role_of c). Qed.

Lemma IsHSRPRPCoupling_role c : IsHSRPRPCoupling c = bool_decide (role_of c = RoleHSRPRP).
Proof. unfold IsHSRPRPCoupling. rewrite roleInfo_role_of. by destruct (role_of c). Qed.

Lemma IsHSRHSR_role c : IsHSRHSR c = bool_decide (role_of c = RoleHSRHSR).
Proof. unfold IsHSRHSR. rewrite roleInfo_role_of. by destruct (role_of c). Qed.

Lemma ParseRole_name r : ParseRole (role_name r) = Ok r.
Proof. by destruct r. Qed.

Lemma LanID_cases c : LanID c = 0 ∨ LanID c = 1.
Proof. unfold LanID. destruct (_ && _); auto. Qed.

Lemma NetID_pos c : 1 <= NetID c.
Proof. unfold NetID. destruct (_ && _) eqn:E; zb; lia. Qed.

Lemma PathId_eq c : PathId c = 2 * NetID c + LanID c.
Proof.
  unfold PathId. pose proof (LanID_cases c).
  rewrite lor_shiftl_add by lia. change (2 ^ 1) with 2. lia.
Qed.

(** ** Properties *)

(** Role parsing is a partial inverse of role naming: every role name
    parses to its role, the legacy name and the empty string to prp-san, and
    nothing else is accepted; the port semantics of a parsed role are
    exclusive (at most one of PRP coupling, SAN and HSR interlink holds, and
    the ring flag is off only for prp-san). *)
Theorem ParseRole_exact (s : string) :
  match ParseRole s with
  | Ok r => (s = role_name r ∨ (r = RolePRPSan ∧ (s = "" ∨ s = "redbox"))) ∧
            RedundancyPortsAreHSR (infoFor r) = negb (bool_decide (r = RolePRPSan)) ∧
            (Z.b2z (CoupledToPRP (infoFor r)) + Z.b2z (InterlinkIsSAN (infoFor r))
             + Z.b2z (InterlinkIsHSR (infoFor r)) = 1)
  | Err _ => ∀ r, s ≠ role_name r ∧ s ≠ "" ∧ s ≠ "redbox"
  end%string.
Proof.
  unfold ParseRole.
  repeat (match goal with |- context [String.eqb s ?x] => destruct (String.eqb_spec s x) end;
          cbn [orb]; [subst; cbn; split; [tauto|done]|]).
  intros []; cbn; done.
Qed.

(** The PathId of a coupling RedBox fits the 4-bit path field and carries
    its NetId and LanId: for a NetId in the documented range 1 to 6 it lies
    between 2 and 13, its upper three bits are the NetId and its low bit the
    LanId. *)
Theorem PathId_fields (c : Config) :
  IsHSRPRPCoupling c = true → 1 <= c_NetID c <= 6 →
  2 <= PathId c <= 13 ∧ PathId c / 2 = c_NetID c ∧ PathId c mod 2 = LanID c.
Proof.
  intros Hc Hn. rewrite PathId_eq. pose proof (LanID_cases c).
  unfold NetID. rewrite Hc. guard_true (true && (c_NetID c >? 0)). zlia.
Qed.

Definition demo_config (role lan : string) (net : Z) : Config :=
  mkConfig "n" role "eth0" "eth1" "eth2" lan net 1 true false true [] "" 0 0 0 0.

Lemma PathId_fields_witness :
  2 <= PathId (demo_config "hsr-prp" "B" 6) <= 13 ∧
  PathId (demo_config "hsr-prp" "B" 6) / 2 = 6 ∧
  PathId (demo_config "hsr-prp" "B" 6) mod 2 = LanID (demo_config "hsr-prp" "B" 6).
Proof. apply (PathId_fields (demo_config "hsr-prp" "B" 6)); [reflexivity|cbn; lia]. Defined.
