(* ===== verification/Pattern.v ===== *)
(** * Pattern: the multicast filter pattern

    Models the pattern parser of the run-time filter
    ([parseMulticastPattern], [src/internal/prp/prp.go]) and the validator of
    the configuration loader ([validMulticastPattern], [normalizeHex],
    [src/internal/config/config.go]).  Go strings are byte strings;
    [strings.ToLower] is modelled on ASCII (a pattern with other bytes is
    refused by both functions whatever their lower case). *)

From S2P Require Import Prelude.

(** ** Go string functions *)

Definition in_range (lo c hi : ascii) : bool :=
  (nat_of_ascii lo <=? nat_of_ascii c)%nat && (nat_of_ascii c <=? nat_of_ascii hi)%nat.

Definition lower (c : ascii) : ascii :=
  if in_range "A" c "Z" then ascii_of_nat (nat_of_ascii c + 32) else c.

(** [strings.ToLower] *)
Fixpoint ToLower (s : string) : string :=
  match s with
  | EmptyString => EmptyString
  | String c s => String (lower c) (ToLower s)
  end.

(** [strings.TrimPrefix(s, "0x")] *)
Definition TrimPrefix_0x (s : string) : string :=
  match s with
  | String "0" (String "x" s') => s'
  | _ => s
  end.

(** [strings.ReplaceAll(s, c, "")] for a one-byte [c] *)
Fixpoint RemoveAll (c : ascii) (s : string) : string :=
  match s with
  | EmptyString => EmptyString
  | String d s => if Ascii.eqb d c then RemoveAll c s else String d (RemoveAll c s)
  end.

Definition slen (s : string) : Z := Z.of_nat (String.length s).

(** A base-16 digit as [strconv.ParseUint] reads it. *)
Definition hexval (c : ascii) : option Z :=
  if in_range "0" c "9" then Some (Z.of_nat (nat_of_ascii c) - 48)
  else if in_range "a" c "f" then Some (Z.of_nat (nat_of_ascii c) - 87)
  else if in_range "A" c "F" then Some (Z.of_nat (nat_of_ascii c) - 55)
  else None.

(** [strconv.ParseUint(hex[i:i+2], 16, 8)] *)
Definition ParseUint16_2 (a b : ascii) : option Z :=
  match hexval a, hexval b with
  | Some x, Some y => Some (x * 16 + y)
  | _, _ => None
  end.

(** ** [config.normalizeHex], and the first lines of [parseMulticastPattern] *)

Definition normalizeHex (s : string) : string :=
  let hex := ToLower s in
  let hex := TrimPrefix_0x hex in
  let hex := RemoveAll "-" hex in
  RemoveAll ":" hex.

(** ** [config.validMulticastPattern] *)

Definition hex_lower (c : ascii) : bool := in_range "0" c "9" || in_range "a" c "f".

Fixpoint all_hex_lower (s : string) : bool :=
  match s with
  | EmptyString => true
  | String c s => hex_lower c && all_hex_lower s
  end.

Definition validMulticastPattern (s : string) : bool :=
  let hex := normalizeHex s in
  if String.eqb hex "" || (slen hex >? 12) || negb (slen hex mod 2 =? 0) then false
  else all_hex_lower hex.

(** ** [prp.parseMulticastPattern] *)

(** The loop over the digit pairs; [None] is the early [return nil]. *)
Fixpoint parse_pairs (hex : string) : option bytes :=
  match hex with
  | String a (String b rest) =>
      match ParseUint16_2 a b with
      | None => None
      | Some v => match parse_pairs rest with None => None | Some out => Some (v :: out) end
      end
  | _ => Some []
  end.

(** The byte prefix; nil is [[]]. *)
Definition parseMulticastPattern (pattern : string) : bytes :=
  let hex := ToLower pattern in
  let hex := TrimPrefix_0x hex in
  let hex := RemoveAll "-" hex in
  let hex := RemoveAll ":" hex in
  if String.eqb hex "" || negb (slen hex mod 2 =? 0) || (slen hex >? 12) then []
  else match parse_pairs hex with Some out => out | None => [] end.

(** ** Lemmas *)

(** A string without upper-case letters. *)
Fixpoint no_upper (s : string) : Prop :=
  match s with
  | EmptyString => True
  | String c s => in_range "A" c "Z" = false ∧ no_upper s
  end.

(** All 256 characters satisfy a decidable property. *)
Lemma ascii_forall (P : ascii → bool) :
  forallb P (map ascii_of_nat (seq 0 256)) = true → ∀ c, P c = true.
Proof.
  intros H c. rewrite forallb_forall in H. apply H.
  rewrite <-(ascii_nat_embedding c). apply in_map, in_seq.
  pose proof (nat_ascii_bounded c). lia.
Qed.

Lemma lower_no_upper c : in_range "A" (lower c) "Z" = false.
Proof.
  apply negb_true_iff. revert c.
  apply (ascii_forall (fun c => negb (in_range "A" (lower c) "Z"))). vm_compute. done.
Qed.

Lemma hexval_lower c : in_range "A" c "Z" = false →
  match hexval c with Some x => 0 <= x < 16 ∧ hex_lower c = true | None => hex_lower c = false end.
Proof.
  intros H. assert (Ht : (in_range "A" c "Z" ||
    match hexval c with
    | Some x => (0 <=? x) && (x <? 16) && hex_lower c | None => negb (hex_lower c) end) = true).
  { revert c H. intros c _. revert c.
    apply (ascii_forall (fun c => in_range "A" c "Z" || match hexval c with
      | Some x => (0 <=? x) && (x <? 16) && hex_lower c | None => negb (hex_lower c) end)).
    vm_compute. done. }
  rewrite H in Ht. cbn [orb] in Ht. destruct (hexval c); zb.
  - split; [lia|done].
  - by apply negb_true_iff.
Qed.

Lemma ToLower_no_upper s : no_upper (ToLower s).
Proof. induction s as [|c s IH]; cbn; [done|]. split; [apply lower_no_upper|done]. Qed.

Lemma RemoveAll_no_upper c s : no_upper s → no_upper (RemoveAll c s).
Proof.
  induction s as [|d s IH]; cbn; [done|]. intros [H1 H2].
  destruct (Ascii.eqb d c); cbn; auto.
Qed.

Lemma TrimPrefix_no_upper s : no_upper s → no_upper (TrimPrefix_0x s).
Proof. intros H. unfold TrimPrefix_0x. repeat case_match; try done; subst; by destruct H as (_ & _ & H). Qed.

Lemma normalizeHex_no_upper s : no_upper (normalizeHex s).
Proof. unfold normalizeHex. auto using ToLower_no_upper, TrimPrefix_no_upper, RemoveAll_no_upper. Qed.

(** Two characters at a time. *)
Lemma string_pair_ind (P : string → Prop) :
  P EmptyString → (∀ a, P (String a EmptyString)) →
  (∀ a b s, P s → P (String a (String b s))) → ∀ s, P s.
Proof.
  intros H0 H1 H2. fix IH 1. intros [|a [|b s]]; [done|apply H1|apply H2, IH].
Qed.

(** On normalised text of even length the digit-pair loop succeeds exactly
    when every character is a lower-case hexadecimal digit. *)
Lemma parse_pairs_spec hex :
  no_upper hex → (String.length hex mod 2 = 0)%nat →
  match parse_pairs hex with
  | Some out => all_hex_lower hex = true ∧ bytes_ok out ∧ (2 * length out = String.length hex)%nat
  | None => all_hex_lower hex = false
  end.
Proof.
  induction hex as [|a|a b hex IH] using string_pair_ind; intros Hu Hl.
  - cbn. repeat split; constructor.
  - done.
  - destruct Hu as (Ha & Hb & Hu). cbn [parse_pairs all_hex_lower String.length].
    assert (Hl' : (String.length hex mod 2 = 0)%nat).
    { cbn [String.length] in Hl. replace (S (S (String.length hex))) with (String.length hex + 1 * 2)%nat in Hl by lia.
      by rewrite Nat.Div0.mod_add in Hl. }
    specialize (IH Hu Hl'). unfold ParseUint16_2.
    pose proof (hexval_lower a Ha) as Hxa. pose proof (hexval_lower b Hb) as Hxb.
    destruct (hexval a) as [x|]; [|by rewrite Hxa]. destruct Hxa as [Hx ->].
    destruct (hexval b) as [y|]; [|by rewrite Hxb]. destruct Hxb as [Hy ->].
    destruct (parse_pairs hex) as [out|]; [|by cbn].
    destruct IH as (-> & Hok & Hlen). cbn [andb length]. split_and!; [done| |lia].
    constructor; [unfold is_byte; lia|done].
Qed.

Lemma slen_even s : (slen s mod 2 =? 0) = true → (String.length s mod 2 = 0)%nat.
Proof. unfold slen. intros H. zb. change 2 with (Z.of_nat 2) in H. rewrite <-Nat2Z.inj_mod in H. lia. Qed.

Lemma slen_empty s : s ≠ EmptyString → 0 < slen s.
Proof. unfold slen. destruct s; cbn; [done|lia]. Qed.

(** ** Properties *)

Lemma valid_parsed (s : string) :
  validMulticastPattern s = true ↔ parseMulticastPattern s ≠ [].
Proof.
  unfold validMulticastPattern, parseMulticastPattern. fold (normalizeHex s).
  change (RemoveAll ":" (RemoveAll "-" (TrimPrefix_0x (ToLower s)))) with (normalizeHex s).
  pose proof (normalizeHex_no_upper s) as Hu. set (hex := normalizeHex s) in *.
  destruct (String.eqb_spec hex "") as [|Hne]; cbn [orb]; [done|].
  destruct (slen hex >? 12); cbn [orb]; [by rewrite orb_true_r|]. rewrite orb_false_r.
  destruct (slen hex mod 2 =? 0) eqn:He; cbn [negb]; [|done].
  pose proof (parse_pairs_spec hex Hu (slen_even hex He)) as Hp.
  pose proof (slen_empty hex Hne) as Hpos. unfold slen in Hpos.
  destruct (parse_pairs hex) as [out|]; [|by rewrite Hp].
  destruct Hp as (-> & _ & Hlen). split; [|done]. intros _ ->. cbn in Hlen. lia.
Qed.

(** C39: Load-time validation and run-time filtering agree.  A pattern passes
    [validMulticastPattern] exactly when [parseMulticastPattern] yields a
    non-empty prefix: a pattern the loader accepts never silently disables
    the filter, and a pattern it refuses would have. *)
Theorem valid_pattern_iff_parsed (s : string) :
  validMulticastPattern s = true ↔ parseMulticastPattern s ≠ [].
Proof. apply valid_parsed. Qed.

(** A parsed multicast pattern is a prefix of at most six bytes: never
    longer than the destination address it is compared with, and made of
    values in the byte range. *)
Theorem parsed_pattern_bounds (s : string) :
  (length (parseMulticastPattern s) ≤ 6)%nat ∧ bytes_ok (parseMulticastPattern s).
Proof.
  unfold parseMulticastPattern.
  change (RemoveAll ":" (RemoveAll "-" (TrimPrefix_0x (ToLower s)))) with (normalizeHex s).
  pose proof (normalizeHex_no_upper s) as Hu. set (hex := normalizeHex s) in *.
  destruct (String.eqb hex ""); cbn [orb]; [split; [cbn; lia|constructor]|].
  destruct (slen hex mod 2 =? 0) eqn:He; cbn [negb orb]; [|split; [cbn; lia|constructor]].
  destruct (slen hex >? 12) eqn:Hs; [split; [cbn; lia|constructor]|].
  pose proof (parse_pairs_spec hex Hu (slen_even hex He)) as Hp.
  destruct (parse_pairs hex) as [out|]; [|split; [cbn; lia|constructor]].
  destruct Hp as (_ & Hok & Hlen). split; [|done]. unfold slen in Hs. lia.
Qed.

Example pattern_ipv4 : parseMulticastPattern "01-00-5E" = [0x01; 0x00; 0x5e].
Proof. reflexivity. Qed.

Example pattern_0x : parseMulticastPattern "0x01005e" = [0x01; 0x00; 0x5e].
Proof. reflexivity. Qed.

Example pattern_bad : parseMulticastPattern "01-00-5" = [].
Proof. reflexivity. Qed.
