(* ===== verification/Node.v ===== *)
(** * Node: the state of a RedBox and its small operations

    Models [Node], [frameEvent], [NewNode], [nodeMAC], the counters, the
    forwarding filters and the periodic clean-up of
    [src/internal/prp/prp.go] and [src/internal/prp/hsr.go].

    A handler is a computation [M A] that may panic and that threads the node
    state.  The clock [n.nowf()] is the argument [now] of an operation: one
    handled event reads one instant.  The packet ports are outside the
    program: whether a write succeeds is the oracle [write_ok] of [Env], which
    sees every earlier write, and every frame handed to a port is recorded in
    [n_sent].  Log output is not modelled. *)

From S2P Require Import Prelude Engine NodeTable Supervision Role Pattern.

(** ** Ports and events *)

(** The port names ["lan_a"], ["lan_b"] and ["interlink"]. *)
Inductive port := LanA | LanB | Interlink.

Global Instance port_eq_dec : EqDecision port.
Proof. solve_decision. Defined.

Inductive dir := In | Out.

Record frameEvent := mkEvent {
  ev_iface : port;
  ev_frame : bytes;
}.

(** One call of [PacketPort.Write] and whether it returned a nil error. *)
Record tx := mkTx {
  tx_port : port;
  tx_frame : bytes;
  tx_ok : bool;
}.

(** The world outside the node: the sockets and [net.InterfaceByName], whose
    result is the hardware address of an existing interface. *)
Class Env := {
  write_ok : list tx → port → bytes → bool;
  InterfaceByName : string → option bytes;
}.

(** ** State *)

(** The [counters] struct; the fields are uint64. *)
Record Counters := mkCounters {
  lanAIn : Z; lanBIn : Z; lanAOut : Z; lanBOut : Z;
  interIn : Z; interOut : Z; supSent : Z;
}.

(** [n_LanA], [n_LanB] and [n_Interlink] say whether the port is bound (the
    Go interface value is not nil).  A nil map and an empty map are one
    value: the code creates a map before it stores into a nil one.
    [n_cleanupTimer] says whether [cleanupTimer] is set (not nil). *)
Record Node := mkNode {
  n_Config : Config;
  n_LanA : bool;
  n_LanB : bool;
  n_Interlink : bool;
  n_mac : option bytes;
  n_supSeq : Z;
  n_seqMgr : SequenceManager;
  n_cleanupTimer : bool;
  n_supervisionSeen : gmap string Z;
  n_supervisionSeqs : gmap string Z;
  n_supervisionForget : Z;
  n_dupTable : Table;
  n_proxyTable : gmap string Z;
  n_proxyTableForget : Z;
  n_ringMembers : gmap string Z;
  n_dropCounters : gmap string Z;
  n_counters : Counters;
  n_sent : list tx;
}.

Definition set_mac (v : option bytes) (n : Node) : Node :=
  mkNode (n_Config n) (n_LanA n) (n_LanB n) (n_Interlink n) v (n_supSeq n) (n_seqMgr n)
    (n_cleanupTimer n) (n_supervisionSeen n) (n_supervisionSeqs n)
    (n_supervisionForget n) (n_dupTable n) (n_proxyTable n) (n_proxyTableForget n)
    (n_ringMembers n) (n_dropCounters n) (n_counters n) (n_sent n).
Definition set_supSeq (v : Z) (n : Node) : Node :=
  mkNode (n_Config n) (n_LanA n) (n_LanB n) (n_Interlink n) (n_mac n) v (n_seqMgr n)
    (n_cleanupTimer n) (n_supervisionSeen n) (n_supervisionSeqs n)
    (n_supervisionForget n) (n_dupTable n) (n_proxyTable n) (n_proxyTableForget n)
    (n_ringMembers n) (n_dropCounters n) (n_counters n) (n_sent n).
Definition set_seqMgr (v : SequenceManager) (n : Node) : Node :=
  mkNode (n_Config n) (n_LanA n) (n_LanB n) (n_Interlink n) (n_mac n) (n_supSeq n) v
    (n_cleanupTimer n) (n_supervisionSeen n) (n_supervisionSeqs n)
    (n_supervisionForget n) (n_dupTable n) (n_proxyTable n) (n_proxyTableForget n)
    (n_ringMembers n) (n_dropCounters n) (n_counters n) (n_sent n).
Definition set_cleanupTimer (v : bool) (n : Node) : Node :=
  mkNode (n_Config n) (n_LanA n) (n_LanB n) (n_Interlink n) (n_mac n) (n_supSeq n)
    (n_seqMgr n) v (n_supervisionSeen n) (n_supervisionSeqs n) (n_supervisionForget n)
    (n_dupTable n) (n_proxyTable n) (n_proxyTableForget n) (n_ringMembers n)
    (n_dropCounters n) (n_counters n) (n_sent n).
Definition set_supervisionSeen (v : gmap string Z) (n : Node) : Node :=
  mkNode (n_Config n) (n_LanA n) (n_LanB n) (n_Interlink n) (n_mac n) (n_supSeq n)
    (n_seqMgr n) (n_cleanupTimer n) v (n_supervisionSeqs n) (n_supervisionForget n)
    (n_dupTable n) (n_proxyTable n) (n_proxyTableForget n) (n_ringMembers n)
    (n_dropCounters n) (n_counters n) (n_sent n).
Definition set_supervisionSeqs (v : gmap string Z) (n : Node) : Node :=
  mkNode (n_Config n) (n_LanA n) (n_LanB n) (n_Interlink n) (n_mac n) (n_supSeq n)
    (n_seqMgr n) (n_cleanupTimer n) (n_supervisionSeen n) v (n_supervisionForget n)
    (n_dupTable n) (n_proxyTable n) (n_proxyTableForget n) (n_ringMembers n)
    (n_dropCounters n) (n_counters n) (n_sent n).
Definition set_dupTable (v : Table) (n : Node) : Node :=
  mkNode (n_Config n) (n_LanA n) (n_LanB n) (n_Interlink n) (n_mac n) (n_supSeq n)
    (n_seqMgr n) (n_cleanupTimer n) (n_supervisionSeen n) (n_supervisionSeqs n)
    (n_supervisionForget n) v (n_proxyTable n) (n_proxyTableForget n) (n_ringMembers n)
    (n_dropCounters n) (n_counters n) (n_sent n).
Definition set_proxyTable (v : gmap string Z) (n : Node) : Node :=
  mkNode (n_Config n) (n_LanA n) (n_LanB n) (n_Interlink n) (n_mac n) (n_supSeq n)
    (n_seqMgr n) (n_cleanupTimer n) (n_supervisionSeen n) (n_supervisionSeqs n)
    (n_supervisionForget n) (n_dupTable n) v (n_proxyTableForget n) (n_ringMembers n)
    (n_dropCounters n) (n_counters n) (n_sent n).
Definition set_ringMembers (v : gmap string Z) (n : Node) : Node :=
  mkNode (n_Config n) (n_LanA n) (n_LanB n) (n_Interlink n) (n_mac n) (n_supSeq n)
    (n_seqMgr n) (n_cleanupTimer n) (n_supervisionSeen n) (n_supervisionSeqs n)
    (n_supervisionForget n) (n_dupTable n) (n_proxyTable n) (n_proxyTableForget n) v
    (n_dropCounters n) (n_counters n) (n_sent n).
Definition set_dropCounters (v : gmap string Z) (n : Node) : Node :=
  mkNode (n_Config n) (n_LanA n) (n_LanB n) (n_Interlink n) (n_mac n) (n_supSeq n)
    (n_seqMgr n) (n_cleanupTimer n) (n_supervisionSeen n) (n_supervisionSeqs n)
    (n_supervisionForget n) (n_dupTable n) (n_proxyTable n) (n_proxyTableForget n)
    (n_ringMembers n) v (n_counters n) (n_sent n).
Definition set_counters (v : Counters) (n : Node) : Node :=
  mkNode (n_Config n) (n_LanA n) (n_LanB n) (n_Interlink n) (n_mac n) (n_supSeq n)
    (n_seqMgr n) (n_cleanupTimer n) (n_supervisionSeen n) (n_supervisionSeqs n)
    (n_supervisionForget n) (n_dupTable n) (n_proxyTable n) (n_proxyTableForget n)
    (n_ringMembers n) (n_dropCounters n) v (n_sent n).
Definition set_sent (v : list tx) (n : Node) : Node :=
  mkNode (n_Config n) (n_LanA n) (n_LanB n) (n_Interlink n) (n_mac n) (n_supSeq n)
    (n_seqMgr n) (n_cleanupTimer n) (n_supervisionSeen n) (n_supervisionSeqs n)
    (n_supervisionForget n) (n_dupTable n) (n_proxyTable n) (n_proxyTableForget n)
    (n_ringMembers n) (n_dropCounters n) (n_counters n) v.

(** ** Computations on a node *)

Definition M (A : Type) : Type := Node → go (A * Node).

Global Instance M_ret : MRet M := fun A a n => Ret (a, n).
Global Instance M_bind : MBind M := fun A B k m n =>
  match m n with Ret (a, n') => k a n' | Panic => Panic end.

(** Run a Go function that reads the node and may panic. *)
Definition reads {A} (g : Node → go A) : M A := fun n =>
  match g n with Ret a => Ret (a, n) | Panic => Panic end.
Definition lift {A} (g : go A) : M A := reads (fun _ => g).
Definition gets {A} (f : Node → A) : M A := reads (fun n => Ret (f n)).
Definition modify (f : Node → Node) : M unit := fun n => Ret (tt, f n).

Definition bound (n : Node) (p : port) : bool :=
  match p with LanA => n_LanA n | LanB => n_LanB n | Interlink => n_Interlink n end.

(** ** Construction *)

Definition zero_Config : Config :=
  mkConfig "" "" "" "" "" "" 0 0 false false false [] "" 0 0 0 0.

Definition positive_or (v dflt : Z) : Z := if v <=? 0 then dflt else v.

(** [NewNode(cfg)] with the random sequence start [start]. *)
Definition NewNode (cfg : option Config) (start : Z) : Node :=
  let cfg := match cfg with None => zero_Config | Some c => c end in
  let maxSize := positive_or (c_MaxNodeTableSize cfg) 256 in
  let proxyForgetMs := positive_or (c_ProxyNodeForgetMs cfg) 64000 in
  let supForgetMs := positive_or (c_NodeForgetMs cfg) 64000 in
  mkNode cfg false false false None 0 (NewSequenceManagerWithStart start) false
    ∅ ∅ (Milliseconds supForgetMs) (NewTable maxSize) ∅ (Milliseconds proxyForgetMs)
    ∅ ∅ (mkCounters 0 0 0 0 0 0 0) [].

(** Binding the ports, as [Start] does on success. *)
Definition bind_ports (a b i : bool) (n : Node) : Node :=
  mkNode (n_Config n) a b i (n_mac n) (n_supSeq n) (n_seqMgr n) (n_cleanupTimer n)
    (n_supervisionSeen n) (n_supervisionSeqs n) (n_supervisionForget n) (n_dupTable n)
    (n_proxyTable n) (n_proxyTableForget n) (n_ringMembers n) (n_dropCounters n)
    (n_counters n) (n_sent n).

(** [append([]byte(nil), mac...)]: nil for an empty address. *)
Definition copy_mac (mac : bytes) : option bytes :=
  match mac with [] => None | _ => Some mac end.

Definition SetNodeMAC (mac : bytes) (n : Node) : Node := set_mac (copy_mac mac) n.

(** The last-resort address derived from the PRP ID. *)
Definition synthetic_mac (c : Config) : bytes :=
  [0x02; 0x50; 0x50; u8 (Z.shiftr (c_PRPID c) 8); u8 (c_PRPID c); 0x00].

Definition nodeMAC {E : Env} (n : Node) : option bytes :=
  let fallback := match n_mac n with Some m => Some m | None => Some (synthetic_mac (n_Config n)) end in
  if negb (String.eqb (c_LanAInterface (n_Config n)) "") && bool_decide (n_mac n = None) then
    match InterfaceByName (c_LanAInterface (n_Config n)) with
    | Some hw => copy_mac hw
    | None => fallback
    end
  else fallback.

(** ** Writing, counting *)

Definition Write {E : Env} (p : port) (frame : bytes) : M bool := fun n =>
  if bound n p then
    let ok := write_ok (n_sent n) p frame in
    Ret (ok, set_sent (n_sent n ++ [mkTx p frame ok]) n)
  else Panic.

Definition noteDrop (reason : string) : M unit := modify (fun n =>
  set_dropCounters
    (<[reason := i64 (default 0 (n_dropCounters n !! reason) + 1)]> (n_dropCounters n)) n).

Definition bump (p : port) (d : dir) (c : Counters) : Counters :=
  match p, d with
  | LanA, In => mkCounters (u64 (lanAIn c + 1)) (lanBIn c) (lanAOut c) (lanBOut c) (interIn c) (interOut c) (supSent c)
  | LanB, In => mkCounters (lanAIn c) (u64 (lanBIn c + 1)) (lanAOut c) (lanBOut c) (interIn c) (interOut c) (supSent c)
  | LanA, Out => mkCounters (lanAIn c) (lanBIn c) (u64 (lanAOut c + 1)) (lanBOut c) (interIn c) (interOut c) (supSent c)
  | LanB, Out => mkCounters (lanAIn c) (lanBIn c) (lanAOut c) (u64 (lanBOut c + 1)) (interIn c) (interOut c) (supSent c)
  | Interlink, In => mkCounters (lanAIn c) (lanBIn c) (lanAOut c) (lanBOut c) (u64 (interIn c + 1)) (interOut c) (supSent c)
  | Interlink, Out => mkCounters (lanAIn c) (lanBIn c) (lanAOut c) (lanBOut c) (interIn c) (u64 (interOut c + 1)) (supSent c)
  end.

Definition countFrame (p : port) (d : dir) : M unit :=
  modify (fun n => set_counters (bump p d (n_counters n)) n).

(** [n.counters.supSent++] *)
Definition countSup : M unit := modify (fun n =>
  let c := n_counters n in
  set_counters (mkCounters (lanAIn c) (lanBIn c) (lanAOut c) (lanBOut c) (interIn c) (interOut c)
                  (u64 (supSent c + 1))) n).

(** [if _, err := port.Write(f); err == nil { n.countFrame(port, "out") }] *)
Definition WriteCounted {E : Env} (p : port) (frame : bytes) : M unit :=
  ok ← Write p frame;
  if ok : bool then countFrame p Out else mret tt.

(** ** Address helpers *)

Fixpoint bytesEqual (a b : bytes) : bool :=
  match a, b with
  | [], [] => true
  | x :: a, y :: b => (x =? y) && bytesEqual a b
  | _, _ => false
  end.

Definition srcMACBytes (frame : bytes) : go bytes :=
  if glen frame <? 12 then Ret [] else slice frame 6 12.

(** [n.mac != nil && bytesEqual(n.mac, srcMACBytes(frame))] *)
Definition ownFrame (frame : bytes) (n : Node) : go bool :=
  match n_mac n with
  | None => Ret false
  | Some mac => let! src := srcMACBytes frame in Ret (bytesEqual mac src)
  end.

Fixpoint containsInt (xs : list Z) (v : Z) : bool :=
  match xs with
  | [] => false
  | x :: xs => if x =? v then true else containsInt xs v
  end.

(** ** Forwarding filters *)

Definition entryForgetMs (c : Config) : Z := if c_EntryForgetMs c >? 0 then c_EntryForgetMs c else 640.

(** [for i, b := range prefix { if frame[i] != b { return false } }] *)
Fixpoint prefix_match (frame : bytes) (i : Z) (prefix : bytes) : go bool :=
  match prefix with
  | [] => Ret true
  | b :: prefix =>
      let! x := idx frame i in
      if negb (x =? b) then Ret false else prefix_match frame (i + 1) prefix
  end.

Definition multicastAllowed (c : Config) (frame : bytes) : go bool :=
  let! allFF :=
    (if glen frame >=? 6 then
       let! dst := slice frame 0 6 in Ret (forallb (fun b => b =? 0xff) dst)
     else Ret false) in
  if allFF : bool then Ret true
  else
    let prefix := parseMulticastPattern (c_MulticastFirstOctet c) in
    if glen prefix =? 0 then Ret true
    else if glen frame <? glen prefix then Ret false
    else prefix_match frame 0 prefix.

Definition shouldForwardToInterlink (now : Z) (frame : bytes) (n : Node) : go bool :=
  if c_ForwardAll (n_Config n) then Ret true
  else
    let! mc := IsMulticastMAC frame in
    if mc : bool then multicastAllowed (n_Config n) frame
    else
      let! dst := GetDstMAC frame in
      match n_proxyTable n !! dst with
      | Some seen => Ret (time_Sub now seen <=? n_proxyTableForget n)
      | None => Ret false
      end.

Definition unicastToRingMember (dst : bytes) (n : Node) : go bool :=
  if negb (glen dst =? 6) then Ret false
  else
    let! b := idx dst 0 in
    if Z.land b 0x01 =? 1 then Ret false
    else
      let! mac := GetDstMAC dst in
      Ret (bool_decide (is_Some (n_ringMembers n !! mac))).

(** ** Learning and forgetting *)

(** [n.proxyTable[src] = n.nowf()] *)
Definition learnProxy (now : Z) (src : string) : M unit :=
  modify (fun n => set_proxyTable (<[src := now]> (n_proxyTable n)) n).

Definition learnRingMember (now : Z) (srcMAC : string) : M unit :=
  modify (fun n => set_ringMembers (<[srcMAC := now]> (n_ringMembers n)) n).

(** [n.dupTable.InsertWithExpiry(src, seq, lan, n.entryForgetMs())] *)
Definition remember {MR : MapRange} (now : Z) (src : string) (seq lan : Z) : M unit :=
  modify (fun n =>
    set_dupTable (InsertWithExpiry (n_dupTable n) now src seq lan (entryForgetMs (n_Config n))) n).

(** [seqMgr.Next(srcMAC)] *)
Definition nextSeq (srcMAC : string) : M Z := fun n =>
  let '(q, s) := Next (n_seqMgr n) srcMAC in Ret (q, set_seqMgr s n).

Definition cleanupSupervisionSeen {MR : MapRange} (now : Z) (n : Node) : Node :=
  if Z.of_nat (size (n_supervisionSeen n)) =? 0 then n
  else
    let cutoff := now + i64 (- n_supervisionForget n) in
    let n := set_supervisionSeen (delete_where (fun last => last <? cutoff) (n_supervisionSeen n)).1 n in
    set_ringMembers (delete_where (fun last => last <? cutoff) (n_ringMembers n)).1 n.

(** [periodicCleanup] on the node's maps; the re-arming of the timer at its
    end is in [Goroutines]. *)
Definition periodicCleanup {MR : MapRange} (now : Z) (n : Node) : Node :=
  let n := set_dupTable (Cleanup (n_dupTable n) now).1 n in
  cleanupSupervisionSeen now n.

(** ** Status *)

Record Status := mkStatus {
  st_Role : string; st_LanID : string; st_NetID : Z;
  st_LanAIn : Z; st_LanBIn : Z; st_LanAOut : Z; st_LanBOut : Z;
  st_InterIn : Z; st_InterOut : Z; st_SupSent : Z;
  st_DupTableSize : Z;
  st_Drops : gmap string Z;
}.

Definition Snapshot (n : Node) : Status :=
  let c := n_counters n in
  mkStatus (c_Role (n_Config n)) (c_LanID (n_Config n)) (c_NetID (n_Config n))
    (lanAIn c) (lanBIn c) (lanAOut c) (lanBOut c) (interIn c) (interOut c) (supSent c)
    (Size (n_dupTable n)) (n_dropCounters n).

(** ** Node transformers

    What the effectful operations do to the state when they return. *)

Definition counted (p : port) (d : dir) (n : Node) : Node :=
  set_counters (bump p d (n_counters n)) n.

Definition dropped (reason : string) (n : Node) : Node :=
  set_dropCounters
    (<[reason := i64 (default 0 (n_dropCounters n !! reason) + 1)]> (n_dropCounters n)) n.

(** After a raw write on a bound port. *)
Definition wrote_raw {E : Env} (p : port) (frame : bytes) (n : Node) : Node :=
  set_sent (n_sent n ++ [mkTx p frame (write_ok (n_sent n) p frame)]) n.

(** After a counted write on a bound port. *)
Definition wrote {E : Env} (p : port) (frame : bytes) (n : Node) : Node :=
  if write_ok (n_sent n) p frame then counted p Out (wrote_raw p frame n) else wrote_raw p frame n.

Definition accepted {MR : MapRange} (now : Z) (src : string) (seq lan : Z) (n : Node) : Node :=
  set_dupTable (InsertWithExpiry (n_dupTable n) now src seq lan (entryForgetMs (n_Config n))) n.

(** The boolean a total filter returns. *)
Definition holds (g : go bool) : bool := match g with Ret b => b | Panic => false end.

(** The frame carries the node's own source address. *)
Definition own (n : Node) (frame : bytes) : bool := holds (ownFrame frame n).

(** ** Running a computation *)

Section running.
Context {A B : Type}.

Lemma bind_mret (a : A) (k : A → M B) n : (mret a ≫= k) n = k a n.
Proof. done. Qed.

Lemma bind_modify (f : Node → Node) (k : unit → M B) n : (modify f ≫= k) n = k tt (f n).
Proof. done. Qed.

Lemma bind_reads (g : Node → go A) (k : A → M B) n a :
  g n = Ret a → (reads g ≫= k) n = k a n.
Proof. intros H. unfold reads, mbind, M_bind. by rewrite H. Qed.

Lemma bind_lift (g : go A) (k : A → M B) n a : g = Ret a → (lift g ≫= k) n = k a n.
Proof. intros H. by apply bind_reads. Qed.

Lemma bind_lift_panic (g : go A) (k : A → M B) n : g = Panic → (lift g ≫= k) n = Panic.
Proof. intros ->. done. Qed.

Lemma bind_gets (f : Node → A) (k : A → M B) n : (gets f ≫= k) n = k (f n) n.
Proof. done. Qed.

Lemma bind_countFrame p d (k : unit → M B) n : (countFrame p d ≫= k) n = k tt (counted p d n).
Proof. done. Qed.

Lemma bind_noteDrop r (k : unit → M B) n : (noteDrop r ≫= k) n = k tt (dropped r n).
Proof. done. Qed.

Context {E : Env}.

Lemma WriteCounted_eq p f n : bound n p = true → WriteCounted p f n = Ret (tt, wrote p f n).
Proof.
  intros Hb. unfold WriteCounted, mbind, M_bind, Write, wrote, wrote_raw. rewrite Hb.
  by destruct (write_ok (n_sent n) p f).
Qed.

Lemma bind_WriteCounted p f (k : unit → M B) n :
  bound n p = true → (WriteCounted p f ≫= k) n = k tt (wrote p f n).
Proof. intros Hb. unfold mbind at 1, M_bind. by rewrite WriteCounted_eq. Qed.

Lemma bind_Write p f (k : bool → M B) n :
  bound n p = true → (Write p f ≫= k) n = k (write_ok (n_sent n) p f) (wrote_raw p f n).
Proof. intros Hb. unfold mbind, M_bind, Write. by rewrite Hb. Qed.

Lemma bind_nextSeq m (k : Z → M B) n :
  (nextSeq m ≫= k) n = k (next_of (n_seqMgr n) m) (set_seqMgr (Next (n_seqMgr n) m).2 n).
Proof. done. Qed.
End running.

(** Projections of transformed nodes. *)
Lemma wrote_cases {E : Env} p f n :
  wrote p f n = counted p Out (wrote_raw p f n) ∨ wrote p f n = wrote_raw p f n.
Proof. unfold wrote. destruct write_ok; auto. Qed.

Section projections.
Context {E : Env} (p : port) (f : bytes) (n : Node).

Lemma wrote_Config : n_Config (wrote p f n) = n_Config n.
Proof using. by destruct (wrote_cases p f n) as [-> | ->]. Qed.
Lemma wrote_bound q : bound (wrote p f n) q = bound n q.
Proof using. by destruct (wrote_cases p f n) as [-> | ->]. Qed.
Lemma wrote_Interlink : n_Interlink (wrote p f n) = n_Interlink n.
Proof using. by destruct (wrote_cases p f n) as [-> | ->]. Qed.
Lemma wrote_mac : n_mac (wrote p f n) = n_mac n.
Proof using. by destruct (wrote_cases p f n) as [-> | ->]. Qed.
Lemma wrote_dupTable : n_dupTable (wrote p f n) = n_dupTable n.
Proof using. by destruct (wrote_cases p f n) as [-> | ->]. Qed.
Lemma wrote_proxyTable : n_proxyTable (wrote p f n) = n_proxyTable n.
Proof using. by destruct (wrote_cases p f n) as [-> | ->]. Qed.
Lemma wrote_ringMembers : n_ringMembers (wrote p f n) = n_ringMembers n.
Proof using. by destruct (wrote_cases p f n) as [-> | ->]. Qed.
Lemma wrote_seqMgr : n_seqMgr (wrote p f n) = n_seqMgr n.
Proof using. by destruct (wrote_cases p f n) as [-> | ->]. Qed.
Lemma wrote_supSeq : n_supSeq (wrote p f n) = n_supSeq n.
Proof using. by destruct (wrote_cases p f n) as [-> | ->]. Qed.
Lemma wrote_supervisionSeen : n_supervisionSeen (wrote p f n) = n_supervisionSeen n.
Proof using. by destruct (wrote_cases p f n) as [-> | ->]. Qed.
Lemma wrote_supervisionSeqs : n_supervisionSeqs (wrote p f n) = n_supervisionSeqs n.
Proof using. by destruct (wrote_cases p f n) as [-> | ->]. Qed.
Lemma wrote_sent :
  n_sent (wrote p f n) = n_sent n ++ [mkTx p f (write_ok (n_sent n) p f)].
Proof using. by destruct (wrote_cases p f n) as [-> | ->]. Qed.
End projections.

Create Rewrite HintDb node_db.
#[export] Hint Rewrite @wrote_Config @wrote_bound @wrote_Interlink @wrote_mac @wrote_dupTable
  @wrote_proxyTable @wrote_ringMembers @wrote_seqMgr @wrote_supSeq @wrote_supervisionSeen
  @wrote_supervisionSeqs @wrote_sent : node_db.

(** Compute the fields of a transformed node. *)
Ltac node_simpl :=
  repeat (progress (autorewrite with node_db;
    cbn [n_Config n_LanA n_LanB n_Interlink n_mac n_supSeq n_seqMgr n_supervisionSeen
         n_supervisionSeqs n_supervisionForget n_dupTable n_proxyTable n_proxyTableForget
         n_ringMembers n_dropCounters n_counters n_sent bound
         counted dropped accepted wrote_raw set_mac set_supSeq set_seqMgr set_supervisionSeen
         set_supervisionSeqs set_dupTable set_proxyTable set_ringMembers set_dropCounters
         set_counters set_sent])).

(** ** Helpers are total on Ethernet frames *)

Lemma bytesEqual_spec a b : bytesEqual a b = bool_decide (a = b).
Proof.
  revert b. induction a as [|x a IH]; intros [|y b]; cbn; try done.
  rewrite IH. destruct (Z.eqb_spec x y) as [->|Hne]; cbn [andb].
  - apply bool_decide_ext. split; congruence.
  - symmetry. apply bool_decide_eq_false. congruence.
Qed.

Lemma containsInt_spec xs v : containsInt xs v = true ↔ v ∈ xs.
Proof.
  induction xs as [|x xs IH]; cbn; [split; [done|by intros ?%elem_of_nil]|].
  rewrite elem_of_cons. destruct (Z.eqb_spec x v) as [->|]; [tauto|].
  rewrite IH. split; [tauto|intros [->|?]; done].
Qed.

Lemma srcMACBytes_ret f : 12 <= glen f → srcMACBytes f = Ret (sub f 6 12).
Proof. intros. unfold srcMACBytes. guard_false (glen f <? 12). by rewrite slice_ok by lia. Qed.

Lemma ownFrame_ret f n : 12 <= glen f → ownFrame f n = Ret (own n f).
Proof.
  intros. unfold own, ownFrame. destruct (n_mac n); [|done]. by rewrite srcMACBytes_ret.
Qed.

Lemma own_spec n f : 12 <= glen f → own n f = bool_decide (n_mac n = Some (sub f 6 12)).
Proof.
  intros. unfold own, ownFrame. destruct (n_mac n) as [m|]; [|done].
  rewrite srcMACBytes_ret by done. cbn. rewrite bytesEqual_spec.
  apply bool_decide_ext. split; congruence.
Qed.

Lemma prefix_match_total f i prefix :
  0 <= i → i + glen prefix <= glen f → ∃ b, prefix_match f i prefix = Ret b.
Proof.
  revert i. induction prefix as [|b prefix IH]; intros i Hi Hl; cbn [prefix_match]; [eauto|].
  pose proof (glen_nonneg prefix). assert (glen (b :: prefix) = 1 + glen prefix) by len_lia.
  rewrite idx_ok by lia. cbn [go_bind]. destruct (negb _); [eauto|]. apply IH; lia.
Qed.

Lemma multicastAllowed_total c f : ∃ b, multicastAllowed c f = Ret b.
Proof.
  unfold multicastAllowed. destruct (Z.geb_spec (glen f) 6).
  - rewrite slice_ok by lia. cbn [go_bind]. destruct (forallb _ _); [eauto|].
    destruct (_ =? 0); [eauto|]. destruct (Z.ltb_spec (glen f) (glen (parseMulticastPattern (c_MulticastFirstOctet c)))); [eauto|].
    apply prefix_match_total; lia.
  - cbn [go_bind]. destruct (_ =? 0); [eauto|].
    destruct (Z.ltb_spec (glen f) (glen (parseMulticastPattern (c_MulticastFirstOctet c)))); [eauto|].
    apply prefix_match_total; lia.
Qed.

Lemma shouldForward_ret now f n :
  shouldForwardToInterlink now f n = Ret (holds (shouldForwardToInterlink now f n)).
Proof.
  unfold shouldForwardToInterlink. destruct (c_ForwardAll _); [done|].
  assert (Hm : ∃ mc, IsMulticastMAC f = Ret mc).
  { unfold IsMulticastMAC. destruct (Z.gtb_spec (glen f) 0); [|eauto].
    rewrite idx_ok by lia. cbn. eauto. }
  destruct Hm as [mc ->]. cbn [go_bind]. destruct mc.
  - destruct (multicastAllowed_total (n_Config n) f) as [b ->]. done.
  - assert (Hd : ∃ d, GetDstMAC f = Ret d).
    { unfold GetDstMAC. destruct (Z.ltb_spec (glen f) 6); [eauto|].
      rewrite mac_at_ret by lia. eauto. }
    destruct Hd as [d ->]. cbn [go_bind]. by destruct (n_proxyTable n !! d).
Qed.

Lemma unicastToRingMember_ret f n :
  6 <= glen f →
  unicastToRingMember (sub f 0 6) n = Ret (holds (unicastToRingMember (sub f 0 6) n)).
Proof.
  intros Hl. assert (Hg : glen (sub f 0 6) = 6) by (rewrite glen_sub; lia).
  unfold unicastToRingMember. destruct (negb _); [done|].
  rewrite idx_ok by lia. cbn [go_bind]. destruct (_ =? 1); [done|].
  by rewrite GetDstMAC_ret by lia.
Qed.

(** *** The multicast filter *)

Lemma prefix_match_spec f i prefix :
  0 <= i → i + glen prefix <= glen f →
  prefix_match f i prefix = Ret (bool_decide (prefix `prefix_of` drop (Z.to_nat i) f)).
Proof.
  revert i. induction prefix as [|b prefix IH]; intros i Hi Hl; cbn [prefix_match].
  { by rewrite bool_decide_true by apply prefix_nil. }
  pose proof (glen_nonneg prefix). assert (glen (b :: prefix) = 1 + glen prefix) by len_lia.
  rewrite idx_ok by lia. cbn [go_bind].
  assert (Hlk : f !! Z.to_nat i = Some (f !!! Z.to_nat i))
    by (apply list_lookup_lookup_total_lt; len_lia).
  rewrite (drop_S f (f !!! Z.to_nat i) (Z.to_nat i)) by done.
  destruct (Z.eqb_spec (f !!! Z.to_nat i) b) as [Heq|Hne]; cbn [negb].
  - rewrite IH by lia. replace (Z.to_nat (i + 1)) with (S (Z.to_nat i)) by lia. f_equal.
    apply bool_decide_ext. rewrite Heq. split; [by apply prefix_cons|by apply prefix_cons_inv_2].
  - f_equal. symmetry. apply bool_decide_eq_false. intros Hp. by apply prefix_cons_inv_1 in Hp.
Qed.

Lemma forallb_ff (s : bytes) :
  forallb (fun b => b =? 0xff) s = bool_decide (Forall (fun b => b = 0xff) s).
Proof.
  induction s as [|b s IH]; [done|]. cbn [forallb]. rewrite IH.
  destruct (Z.eqb_spec b 0xff); cbn [andb].
  - apply bool_decide_ext. rewrite Forall_cons. tauto.
  - symmetry. apply bool_decide_eq_false. rewrite Forall_cons. tauto.
Qed.

Lemma multicastAllowed_spec c f :
  6 <= glen f →
  multicastAllowed c f =
    Ret (bool_decide (Forall (fun b => b = 0xff) (sub f 0 6)) ||
         bool_decide (parseMulticastPattern (c_MulticastFirstOctet c) `prefix_of` f)).
Proof.
  intros Hl. unfold multicastAllowed. guard_true (glen f >=? 6).
  rewrite slice_ok by lia. cbn [go_bind]. rewrite forallb_ff.
  destruct (bool_decide (Forall _ _)); [done|]. cbn [orb].
  set (prefix := parseMulticastPattern _). destruct (Z.eqb_spec (glen prefix) 0) as [H0|H0].
  { assert (Hn : prefix = []) by (destruct prefix; [done|unfold glen in H0; cbn in H0; lia]).
    rewrite Hn. by rewrite bool_decide_true by apply prefix_nil. }
  destruct (Z.ltb_spec (glen f) (glen prefix)) as [Hs|Hs].
  - f_equal. symmetry. apply bool_decide_eq_false. intros Hp%prefix_length. len_lia.
  - rewrite prefix_match_spec by lia. change (Z.to_nat 0) with 0%nat. by rewrite drop_0.
Qed.

(** The ports a running node has bound: both redundancy ports, and the
    interlink when the role delivers to it unconditionally (hsr-san and
    hsr-prp). *)
Definition ports_ok (n : Node) : Prop :=
  n_LanA n = true ∧ n_LanB n = true ∧
  (IsHSRNode (n_Config n) = true → IsHSRHSR (n_Config n) = false → n_Interlink n = true).

Lemma ports_ok_wrote {E : Env} p f n : ports_ok n → ports_ok (wrote p f n).
Proof. by destruct (wrote_cases p f n) as [-> | ->]. Qed.

#[export] Hint Resolve ports_ok_wrote : go_db.

(** ** A concrete environment and node *)

Definition demo_env : Env :=
  {| write_ok := fun _ _ _ => true; InterfaceByName := fun _ => None |}.

Definition demo_node (role lan : string) (net : Z) (mac : bytes) : Node :=
  bind_ports true true true (SetNodeMAC mac (NewNode (Some (demo_config role lan net)) 65535)).

(** ** Properties *)

(** The multicast filter.  On a node that does not forward everything, a
    group-addressed frame passes to the interlink exactly when it is a
    broadcast or its destination starts with the configured byte prefix; an
    empty or malformed pattern is the empty prefix and passes everything. *)
Theorem multicast_filter (now : Z) (f : bytes) (n : Node) :
  6 <= glen f → c_ForwardAll (n_Config n) = false → f !!! 0%nat mod 2 = 1 →
  shouldForwardToInterlink now f n =
    Ret (bool_decide (Forall (fun b => b = 0xff) (sub f 0 6)) ||
         bool_decide (parseMulticastPattern (c_MulticastFirstOctet (n_Config n)) `prefix_of` f)).
Proof.
  intros Hl Ha Hm. unfold shouldForwardToInterlink. rewrite Ha.
  rewrite IsMulticastMAC_ret by lia. rewrite land_1, Hm. cbn [go_bind Z.eqb Pos.eqb].
  by apply multicastAllowed_spec.
Qed.

(** A node that only lets IPv4 multicast and known unicast through. *)
Definition demo_filter : Node :=
  NewNode (Some (mkConfig "n" "prp-san" "eth0" "eth1" "eth2" "" 0 1 true false false [] "01-00-5E" 0 0 0 0)) 0.

Lemma multicast_filter_witness :
  shouldForwardToInterlink 0 [0x01; 0x00; 0x5e; 1; 2; 3; 9] demo_filter = Ret true.
Proof.
  rewrite (multicast_filter 0 [0x01; 0x00; 0x5e; 1; 2; 3; 9] demo_filter);
    [vm_compute; reflexivity|vm_compute; discriminate|reflexivity|reflexivity].
Defined.
