(* ===== verification/PrpPath.v ===== *)
(** * PrpPath: the PRP data path and supervision

    Models the handlers of [src/internal/prp/prp.go] for a prp-san RedBox:
    frames from the PRP LANs ([handleIncomingPRPFrame]), frames from the SAN
    ([handleInterlinkFrame]) and received supervision
    ([handleSupervisionFrame], shared by every role). *)

From S2P Require Import Prelude Engine NodeTable Supervision Role Pattern Node.

Section prp.
Context {MR : MapRange} {E : Env}.

(** ** Handlers *)

Definition handleIncomingPRPFrame (now : Z) (event : frameEvent) : M unit :=
  countFrame (ev_iface event) In;;
  isPRP ← lift (IsPRPFrame (ev_frame event));
  if negb isPRP then noteDrop "malformed"
  else
    r ← lift (DecodeRCT (ev_frame event));
    match r with
    | Err _ => mret tt
    | Ok (lanID, seq, payload) =>
        let expected := if bool_decide (ev_iface event = LanB) then 1 else 0 in
        if negb (lanID =? expected) then noteDrop "path"
        else
          srcMAC ← lift (GetSrcMAC (ev_frame event));
          ownSrc ← reads (ownFrame (ev_frame event));
          if ownSrc : bool then mret tt
          else
            dup ← gets (fun n => Find (n_dupTable n) now srcMAC seq);
            if dup : bool then noteDrop "dup"
            else
              remember now srcMAC seq lanID;;
              deliver ← gets (fun n => negb (IsHSRNode (n_Config n)) && n_Interlink n);
              if deliver : bool then
                fwd ← reads (shouldForwardToInterlink now payload);
                if negb fwd then noteDrop "filter"
                else WriteCounted Interlink payload
              else mret tt
    end.

Definition handleInterlinkFrame (now : Z) (event : frameEvent) : M unit :=
  countFrame Interlink In;;
  filter ← gets (fun n => c_VLANFilter (n_Config n));
  pass ← (if glen filter >? 0 then
            v ← lift (GetVLANID (ev_frame event));
            mret (negb (negb v.2 || negb (containsInt filter v.1)))
          else mret true);
  if negb pass then noteDrop "filter"
  else
    (if glen (ev_frame event) >=? 12 then
       src ← lift (GetSrcMAC (ev_frame event)); learnProxy now src
     else mret tt);;
    srcMAC ← lift (GetSrcMAC (ev_frame event));
    trailer ← gets (fun n => c_TrailerEnabled (n_Config n));
    if negb trailer then
      Write LanA (ev_frame event);;
      Write LanB (ev_frame event);;
      countFrame LanA Out;;
      countFrame LanB Out
    else
      seq ← nextSeq srcMAC;
      lanAFrame ← lift (EncodeRCT (ev_frame event) seq 0);
      lanBFrame ← lift (EncodeRCT (ev_frame event) seq 1);
      WriteCounted LanA lanAFrame;;
      WriteCounted LanB lanBFrame.

Definition is_lan (p : port) : bool := match p with LanA | LanB => true | Interlink => false end.

Definition handleSupervisionFrame (now : Z) (event : frameEvent) : M unit :=
  parsed ← lift (Parse (ev_frame event));
  match parsed with
  | None => mret tt
  | Some sup =>
      modify (fun n => set_supervisionSeen (<[f_SrcMAC sup := now]> (n_supervisionSeen n)) n);;
      ring ← gets (fun n => IsHSRNode (n_Config n) && is_lan (ev_iface event));
      (if ring : bool then learnRingMember now (f_SrcMAC sup) else mret tt);;
      last ← gets (fun n => n_supervisionSeqs n !! f_SrcMAC sup);
      match last with
      | Some last =>
          if i16 (u16 (f_Seq sup - last)) <? 0
          then modify (fun n => set_dupTable (FlushFor (n_dupTable n) (f_SrcMAC sup)).1 n)
          else mret tt
      | None => mret tt
      end;;
      modify (fun n => set_supervisionSeqs (<[f_SrcMAC sup := f_Seq sup]> (n_supervisionSeqs n)) n)
  end.

(** ** The receive decision

    What a prp-san node does with a frame from a LAN, as a pure function of
    its state. *)

Inductive verdict :=
| Malformed
| WrongLan
| OwnFrame
| Duplicate
| Accept (src : string) (seq lan : Z) (payload : bytes).

(** The LAN ID expected on a port: 0 on LAN A, 1 on LAN B. *)
Definition lan_of_port (p : port) : Z := if bool_decide (p = LanB) then 1 else 0.

Definition prp_verdict (now : Z) (p : port) (f : bytes) (n : Node) : verdict :=
  match DecodeRCT f with
  | Ret (Ok (lan, seq, payload)) =>
      if negb (lan =? lan_of_port p) then WrongLan
      else if own n f then OwnFrame
      else if Find (n_dupTable n) now (mac_of f 6) seq then Duplicate
      else Accept (mac_of f 6) seq lan payload
  | _ => Malformed
  end.

Definition delivered (now : Z) (payload : bytes) (n : Node) : Node :=
  if negb (IsHSRNode (n_Config n)) && n_Interlink n then
    if holds (shouldForwardToInterlink now payload n) then wrote Interlink payload n
    else dropped "filter" n
  else n.

Definition prp_receive (now : Z) (p : port) (f : bytes) (n : Node) : Node :=
  match prp_verdict now p f n with
  | Malformed => dropped "malformed" (counted p In n)
  | WrongLan => dropped "path" (counted p In n)
  | OwnFrame => counted p In n
  | Duplicate => dropped "dup" (counted p In n)
  | Accept src seq lan payload => delivered now payload (accepted now src seq lan (counted p In n))
  end.

Lemma handleIncomingPRPFrame_eq now p f n :
  handleIncomingPRPFrame now (mkEvent p f) n = Ret (tt, prp_receive now p f n).
Proof.
  unfold handleIncomingPRPFrame, prp_receive, prp_verdict. rewrite bind_countFrame.
  cbn [ev_iface ev_frame].
  destruct (DecodeRCT_total f) as [[[[lan seq] pl]|e] Hd].
  2:{ erewrite bind_lift by by eapply IsPRPFrame_err. by rewrite Hd. }
  erewrite bind_lift by by eapply IsPRPFrame_ok. cbn [negb].
  erewrite bind_lift by exact Hd. rewrite Hd. fold (lan_of_port p).
  destruct (negb _); [done|].
  apply DecodeRCT_iff in Hd as (Hl & _).
  erewrite bind_lift by (apply GetSrcMAC_ret; lia).
  erewrite bind_reads by (apply ownFrame_ret; lia).
  change (own (counted p In n) f) with (own n f). destruct (own n f); [done|].
  rewrite bind_gets. change (n_dupTable (counted p In n)) with (n_dupTable n).
  destruct (Find _ _ _ _); [done|].
  unfold remember. rewrite bind_modify, bind_gets.
  fold (accepted now (mac_of f 6) seq lan (counted p In n)).
  set (n1 := accepted _ _ _ _ _). unfold delivered.
  destruct (negb _ && _) eqn:Ei; [|done].
  erewrite bind_reads by apply shouldForward_ret.
  destruct (holds _); [|done]. cbn [negb].
  apply WriteCounted_eq. by apply andb_true_iff in Ei as [_ Ei].
Qed.

(** ** The send path *)

(** The VLAN filter of the interlink. *)
Definition vlan_pass (c : Config) (f : bytes) : bool :=
  (glen (c_VLANFilter c) <=? 0) ||
  match GetVLANID f with
  | Ret (id, tagged) => tagged && containsInt (c_VLANFilter c) id
  | Panic => false
  end.

Definition learned_proxy (now : Z) (src : string) (n : Node) : Node :=
  set_proxyTable (<[src := now]> (n_proxyTable n)) n.

(** The number the next frame of [src] gets, and the node after taking it. *)
Definition next_seq (n : Node) (src : string) : Z := next_of (n_seqMgr n) src.
Definition took_seq (src : string) (n : Node) : Node := set_seqMgr (Next (n_seqMgr n) src).2 n.

Definition prp_inject (now : Z) (f : bytes) (n : Node) : Node :=
  let n := counted Interlink In n in
  if negb (vlan_pass (n_Config n) f) then dropped "filter" n
  else
    let n := learned_proxy now (mac_of f 6) n in
    if negb (c_TrailerEnabled (n_Config n)) then
      counted LanB Out (counted LanA Out (wrote_raw LanB f (wrote_raw LanA f n)))
    else
      let seq := next_seq n (mac_of f 6) in
      wrote LanB (trailed f seq 1) (wrote LanA (trailed f seq 0) (took_seq (mac_of f 6) n)).

Lemma GetVLANID_ret f :
  (is_vlan f = true → 16 <= glen f) → GetVLANID f = Ret (if is_vlan f then (w16 f 14 mod 4096, true) else (0, false)).
Proof.
  intros Hv. unfold GetVLANID. rewrite IsVLANFrame_ret. cbn [go_bind].
  destruct (is_vlan f); cbn [negb]; [|done]. specialize (Hv eq_refl). rewrite be16_ok by lia. cbn [go_bind].
  by rewrite land_0x0FFF.
Qed.

Lemma handleInterlinkFrame_eq now f n :
  14 <= glen f → (c_VLANFilter (n_Config n) ≠ [] → is_vlan f = true → 16 <= glen f) →
  n_LanA n = true → n_LanB n = true →
  handleInterlinkFrame now (mkEvent Interlink f) n = Ret (tt, prp_inject now f n).
Proof.
  intros Hl Hv HA HB. unfold handleInterlinkFrame, prp_inject. rewrite bind_countFrame, bind_gets.
  cbn [ev_frame]. set (n1 := counted Interlink In n).
  assert (Hp : ∀ k : bool → M unit,
    ((if glen (c_VLANFilter (n_Config n1)) >? 0 then
        v ← lift (GetVLANID f);
        mret (negb (negb v.2 || negb (containsInt (c_VLANFilter (n_Config n1)) v.1)))
      else mret true) ≫= k) n1 = k (vlan_pass (n_Config n1) f) n1).
  { intros k. unfold vlan_pass. rewrite Z.gtb_ltb, Z.ltb_antisym.
    destruct (Z.leb_spec (glen (c_VLANFilter (n_Config n1))) 0) as [|Hne]; [done|]. cbn [negb orb].
    change (n_Config n1) with (n_Config n) in *.
    rewrite GetVLANID_ret by (apply Hv; intros Hnil; by rewrite Hnil in Hne).
    unfold mbind at 1, M_bind at 1. erewrite bind_lift by done.
    destruct (is_vlan f); cbn [negb orb andb fst snd]; [|done].
    unfold mret, M_ret. by rewrite negb_involutive. }
  rewrite Hp. destruct (negb (vlan_pass _ _)); [done|].
  guard_true (glen f >=? 12). unfold mbind at 1, M_bind at 1.
  erewrite bind_lift by (apply GetSrcMAC_ret; lia). cbn [learnProxy modify].
  fold (learned_proxy now (mac_of f 6) n1). set (n2 := learned_proxy _ _ n1).
  erewrite bind_lift by (apply GetSrcMAC_ret; lia). rewrite bind_gets.
  destruct (negb _).
  - rewrite bind_Write by done. by rewrite bind_Write by done.
  - rewrite bind_nextSeq. fold (next_seq n2 (mac_of f 6)) (took_seq (mac_of f 6) n2).
    erewrite bind_lift by (apply EncodeRCT_ret; auto).
    erewrite bind_lift by (apply EncodeRCT_ret; auto).
    rewrite bind_WriteCounted by done. apply WriteCounted_eq. by rewrite wrote_bound.
Qed.

(** ** Supervision *)

(** The peer restarted: its supervision number went back (16-bit, signed). *)
Definition regressed (n : Node) (sup : Frame) : bool :=
  match n_supervisionSeqs n !! f_SrcMAC sup with
  | Some last => i16 (u16 (f_Seq sup - last)) <? 0
  | None => false
  end.

Definition sup_learned (now : Z) (p : port) (sup : Frame) (n : Node) : Node :=
  let n1 := set_supervisionSeen (<[f_SrcMAC sup := now]> (n_supervisionSeen n)) n in
  let n2 := if IsHSRNode (n_Config n) && is_lan p
            then set_ringMembers (<[f_SrcMAC sup := now]> (n_ringMembers n1)) n1 else n1 in
  let n3 := if regressed n sup
            then set_dupTable (FlushFor (n_dupTable n2) (f_SrcMAC sup)).1 n2 else n2 in
  set_supervisionSeqs (<[f_SrcMAC sup := f_Seq sup]> (n_supervisionSeqs n3)) n3.

Definition sup_receive (now : Z) (p : port) (f : bytes) (n : Node) : Node :=
  match Parse f with
  | Ret (Some sup) => sup_learned now p sup n
  | _ => n
  end.

Lemma handleSupervisionFrame_eq now p f n :
  Parse f ≠ Panic →
  handleSupervisionFrame now (mkEvent p f) n = Ret (tt, sup_receive now p f n).
Proof.
  intros Hp. unfold handleSupervisionFrame, sup_receive. cbn [ev_frame ev_iface].
  destruct (Parse f) as [[sup|]|] eqn:Hf; [|by erewrite bind_lift by done|done].
  erewrite bind_lift by done. cbv beta iota. rewrite bind_modify, bind_gets. unfold sup_learned, regressed.
  cbn [n_Config set_supervisionSeen].
  destruct (IsHSRNode (n_Config n) && is_lan p).
  - unfold learnRingMember. rewrite bind_modify, bind_gets. cbn [n_supervisionSeqs set_ringMembers set_supervisionSeen].
    destruct (n_supervisionSeqs n !! f_SrcMAC sup) as [last|]; [|done].
    by destruct (_ <? 0).
  - rewrite bind_mret, bind_gets. cbn [n_supervisionSeqs set_supervisionSeen].
    destruct (n_supervisionSeqs n !! f_SrcMAC sup) as [last|]; [|done].
    by destruct (_ <? 0).
Qed.
End prp.
