(* ===== verification/HsrPath.v ===== *)
(** * HsrPath: the HSR ring data path

    Models the handlers of [src/internal/prp/hsr.go]: frames from the ring
    ports ([handleIncomingHSRFrame]), frames from the interlink
    ([handleHSRInterlinkFrame]) and the delivery onto a coupled PRP LAN
    ([couplingToPRP]), for the roles hsr-san, hsr-prp and hsr-hsr. *)

From S2P Require Import Prelude Engine Hsr NodeTable Role Node PrpPath.

Section hsr.
Context {MR : MapRange} {E : Env}.

(** ** Handlers *)

Definition couplingToPRP (original : bytes) (seq : Z) : M unit :=
  lan ← gets (fun n => LanID (n_Config n));
  rct ← lift (EncodeRCT original (u16 seq) lan);
  WriteCounted Interlink rct.

Definition other_port (p : port) : port := if bool_decide (p = LanB) then LanA else LanB.

Definition handleIncomingHSRFrame (now : Z) (event : frameEvent) : M unit :=
  countFrame (ev_iface event) In;;
  r ← lift (DecodeHSR (ev_frame event));
  match r with
  | Err _ => noteDrop "malformed"
  | Ok (path, seq, encap, payload) =>
      srcMAC ← lift (GetSrcMAC (ev_frame event));
      let other := other_port (ev_iface event) in
      ownSrc ← reads (ownFrame (ev_frame event));
      if ownSrc : bool then noteDrop "own"
      else
        dup ← gets (fun n => Find (n_dupTable n) now srcMAC seq);
        if dup : bool then noteDrop "dup"
        else
          remember now srcMAC seq 0;;
          learnRingMember now srcMAC;;
          fwd ← lift (RewriteHSRPathLane (ev_frame event) (bool_decide (other = LanA)));
          match fwd with
          | Ok fwd => WriteCounted other fwd
          | Err _ => mret tt
          end;;
          quad ← gets (fun n => IsHSRHSR (n_Config n) && n_Interlink n);
          (if quad : bool then
             dst ← lift (slice (ev_frame event) 0 6);
             member ← reads (unicastToRingMember dst);
             if member : bool then noteDrop "filter"
             else WriteCounted Interlink (ev_frame event)
           else mret tt);;
          c ← gets n_Config;
          if IsHSRPRPCoupling c then
            if negb (Z.shiftr path 1 =? NetID c) then
              s ← lift (StripHSR (ev_frame event));
              match s with
              | Err _ => noteDrop "malformed"
              | Ok original => couplingToPRP original seq
              end
            else if Z.land path 1 =? LanID c then noteDrop "own"
            else noteDrop "path"
          else if IsHSRHSR c then mret tt
          else
            dst ← lift (slice (ev_frame event) 0 6);
            member ← reads (unicastToRingMember dst);
            if member : bool then noteDrop "filter"
            else
              pass ← reads (shouldForwardToInterlink now payload);
              if negb pass then noteDrop "filter"
              else
                s ← lift (StripHSR (ev_frame event));
                match s with
                | Err _ => noteDrop "malformed"
                | Ok original => WriteCounted Interlink original
                end
  end.

(** The hsr-hsr branch of [handleHSRInterlinkFrame]. *)
Definition quadboxInterlink (now : Z) (frame : bytes) (srcMAC : string) : M unit :=
  r ← lift (DecodeHSR frame);
  match r with
  | Err _ => noteDrop "malformed"
  | Ok (_, seq, _, _) =>
      ownSrc ← reads (ownFrame frame);
      if ownSrc : bool then noteDrop "own"
      else
        dup ← gets (fun n => Find (n_dupTable n) now srcMAC seq);
        if dup : bool then noteDrop "dup"
        else
          remember now srcMAC seq 0;;
          fwd ← lift (RewriteHSRPath frame 0);
          match fwd with
          | Err _ => noteDrop "malformed"
          | Ok fwd => WriteCounted LanA fwd;; WriteCounted LanB fwd
          end
  end.

(** The frame injected onto the ring: the HSR tag goes behind the MAC
    addresses and, when there is one, the VLAN tag. *)
Definition hsrBodyOf (frame : bytes) (path seq : Z) : go bytes :=
  let! vlan := IsVLANFrame frame in
  let! et := GetEtherType frame in
  if vlan : bool then
    let! inner := slice frame 18 (glen frame) in
    let hsrBody := EncodeHSR inner path seq et in
    let! macs := slice frame 0 12 in
    let! tag := slice frame 12 16 in
    Ret (macs ++ tag ++ hsrBody)
  else
    let! inner := slice frame 14 (glen frame) in
    let hsrBody := EncodeHSR inner path seq et in
    let! macs := slice frame 0 12 in
    Ret (macs ++ hsrBody).

Definition handleHSRInterlinkFrame (now : Z) (event : frameEvent) : M unit :=
  countFrame Interlink In;;
  srcMAC ← lift (GetSrcMAC (ev_frame event));
  c ← gets n_Config;
  if IsHSRHSR c then quadboxInterlink now (ev_frame event) srcMAC
  else
    (if glen (ev_frame event) >=? 12 then learnProxy now srcMAC else mret tt);;
    let path := if IsHSRPRPCoupling c then PathId c else 0 in
    seq ← (if IsHSRPRPCoupling c then
             r ← lift (DecodeRCT (ev_frame event));
             mret (match r with Err _ => None | Ok (_, rctSeq, _) => Some (u16 rctSeq) end)
           else q ← nextSeq srcMAC; mret (Some q));
    match seq with
    | None => noteDrop "malformed"
    | Some seq =>
        remember now srcMAC seq 0;;
        body ← lift (hsrBodyOf (ev_frame event) path seq);
        WriteCounted LanA body;;
        WriteCounted LanB body
    end.

(** ** The ring decision *)

Inductive ring_verdict :=
| RingMalformed
| RingOwn
| RingDuplicate
| RingAccept (path seq : Z) (payload : bytes).

Definition ring_decide (now : Z) (f : bytes) (n : Node) : ring_verdict :=
  match DecodeHSR f with
  | Ret (Ok (path, seq, _, payload)) =>
      if own n f then RingOwn
      else if Find (n_dupTable n) now (mac_of f 6) seq then RingDuplicate
      else RingAccept path seq payload
  | _ => RingMalformed
  end.

Definition learned_member (now : Z) (src : string) (n : Node) : Node :=
  set_ringMembers (<[src := now]> (n_ringMembers n)) n.

(** The frame as it leaves on port [q]: only the lane bit changes. *)
Definition lane_frame (q : port) (f : bytes) : bytes :=
  retag f (lane_word (tag_word f) (lane_of (bool_decide (q = LanA)))).

(** The original Ethernet frame inside an HSR frame. *)
Definition stripped (f : bytes) : bytes :=
  sub f 0 (tag_off f - 2) ++ PutUint16 (tag_proto f) ++ tag_payload f.

Definition to_member (f : bytes) (n : Node) : bool := holds (unicastToRingMember (sub f 0 6) n).

(** What the interlink side gets, by role. *)
Definition ring_deliver (now : Z) (f : bytes) (path seq : Z) (payload : bytes) (n : Node) : Node :=
  let c := n_Config n in
  if IsHSRPRPCoupling c then
    if negb (path / 2 =? NetID c) then wrote Interlink (trailed (stripped f) seq (LanID c)) n
    else if path mod 2 =? LanID c then dropped "own" n
    else dropped "path" n
  else if IsHSRHSR c then
    if n_Interlink n then
      if to_member f n then dropped "filter" n else wrote Interlink f n
    else n
  else if to_member f n then dropped "filter" n
  else if holds (shouldForwardToInterlink now payload n) then wrote Interlink (stripped f) n
  else dropped "filter" n.

Definition ring_forward (now : Z) (p : port) (f : bytes) (seq : Z) (n : Node) : Node :=
  wrote (other_port p) (lane_frame (other_port p) f)
    (learned_member now (mac_of f 6) (accepted now (mac_of f 6) seq 0 n)).

Definition ring_receive (now : Z) (p : port) (f : bytes) (n : Node) : Node :=
  match ring_decide now f n with
  | RingMalformed => dropped "malformed" (counted p In n)
  | RingOwn => dropped "own" (counted p In n)
  | RingDuplicate => dropped "dup" (counted p In n)
  | RingAccept path seq payload =>
      ring_deliver now f path seq payload (ring_forward now p f seq (counted p In n))
  end.

Lemma shiftr_1 x : Z.shiftr x 1 = x / 2.
Proof. by rewrite Z.shiftr_div_pow2. Qed.

Lemma coupling_not_quad c : IsHSRPRPCoupling c = true → IsHSRHSR c = false.
Proof. rewrite IsHSRPRPCoupling_role, IsHSRHSR_role. by destruct (role_of c). Qed.

Lemma other_port_bound n p : ports_ok n → bound n (other_port p) = true.
Proof. intros (HA & HB & _). by destruct p. Qed.

Lemma StripHSR_stripped f r : DecodeHSR f = Ret (Ok r) → StripHSR f = Ret (Ok (stripped f)).
Proof.
  destruct r as [[[path seq] et] pl]. intros Hd. rewrite (StripHSR_decoded _ _ _ _ _ Hd).
  apply DecodeHSR_iff in Hd as (_ & _ & _ & _ & _ & -> & ->). done.
Qed.

(** The part of the ring handler behind the duplicate check. *)
Lemma ring_deliver_run now f path seq et payload n :
  bytes_ok f → DecodeHSR f = Ret (Ok (path, seq, et, payload)) → ports_ok n →
  IsHSRNode (n_Config n) = true →
  (quad ← gets (fun n => IsHSRHSR (n_Config n) && n_Interlink n);
   (if quad : bool then
      dst ← lift (slice f 0 6);
      member ← reads (unicastToRingMember dst);
      if member : bool then noteDrop "filter" else WriteCounted Interlink f
    else mret tt);;
   c ← gets n_Config;
   if IsHSRPRPCoupling c then
     if negb (Z.shiftr path 1 =? NetID c) then
       s ← lift (StripHSR f);
       match s with
       | Err _ => noteDrop "malformed"
       | Ok original => couplingToPRP original seq
       end
     else if Z.land path 1 =? LanID c then noteDrop "own"
     else noteDrop "path"
   else if IsHSRHSR c then mret tt
   else
     dst ← lift (slice f 0 6);
     member ← reads (unicastToRingMember dst);
     if member : bool then noteDrop "filter"
     else
       pass ← reads (shouldForwardToInterlink now payload);
       if negb pass then noteDrop "filter"
       else
         s ← lift (StripHSR f);
         match s with
         | Err _ => noteDrop "malformed"
         | Ok original => WriteCounted Interlink original
         end) n = Ret (tt, ring_deliver now f path seq payload n).
Proof.
  intros Hb Hd (HA & HB & HI) Hnode. pose proof (StripHSR_stripped f _ Hd) as Hs.
  apply DecodeHSR_iff in Hd as (Ht & _ & _ & _ & Hq & _). pose proof (hsr_tagged_bounds f Ht).
  assert (Hu : u16 seq = seq) by (rewrite Hq; apply u16_small; by apply is_u16_w16).
  rewrite bind_gets, shiftr_1, land_1. unfold ring_deliver.
  destruct (IsHSRPRPCoupling (n_Config n)) eqn:Ec.
  - rewrite (coupling_not_quad _ Ec) in HI |- *. cbn [andb]. rewrite bind_mret, bind_gets, Ec.
    destruct (negb _); [|by destruct (_ =? _)].
    erewrite bind_lift by exact Hs. unfold couplingToPRP. rewrite bind_gets, Hu.
    erewrite bind_lift by (apply EncodeRCT_ret, LanID_cases).
    apply WriteCounted_eq. by apply HI.
  - assert (Hsl : slice f 0 6 = Ret (sub f 0 6)) by (apply slice_ok; lia).
    destruct (IsHSRHSR (n_Config n)) eqn:Eq; cbn [andb].
    + destruct (n_Interlink n) eqn:Ei; [|by rewrite bind_mret, bind_gets, Ec, Eq].
      unfold mbind at 1, M_bind at 1.
      erewrite bind_lift by exact Hsl. erewrite bind_reads by (apply unicastToRingMember_ret; lia).
      fold (to_member f n). destruct (to_member f n); cbn [noteDrop modify].
      * rewrite bind_gets. fold (dropped "filter" n). cbn [n_Config dropped set_dropCounters].
        by rewrite Ec, Eq.
      * rewrite WriteCounted_eq by done. rewrite bind_gets, wrote_Config. by rewrite Ec, Eq.
    + rewrite bind_mret, bind_gets, Ec, Eq. erewrite bind_lift by exact Hsl.
      erewrite bind_reads by (apply unicastToRingMember_ret; lia).
      fold (to_member f n). destruct (to_member f n); [done|].
      erewrite bind_reads by apply shouldForward_ret. destruct (holds _); [|done]. cbn [negb].
      erewrite bind_lift by exact Hs. apply WriteCounted_eq. by apply HI.
Qed.

Lemma handleIncomingHSRFrame_eq now p f n :
  bytes_ok f → ports_ok n → IsHSRNode (n_Config n) = true →
  handleIncomingHSRFrame now (mkEvent p f) n = Ret (tt, ring_receive now p f n).
Proof.
  intros Hb Hp Hnode. unfold handleIncomingHSRFrame, ring_receive, ring_decide.
  rewrite bind_countFrame. cbn [ev_iface ev_frame].
  destruct (DecodeHSR_total f) as [[[[[path seq] et] pl]|e] Hd];
    erewrite bind_lift by exact Hd; rewrite Hd; [|done].
  pose proof Hd as Hd'. apply DecodeHSR_iff in Hd' as (Ht & _).
  pose proof (hsr_tagged_bounds f Ht).
  erewrite bind_lift by (apply GetSrcMAC_ret; lia).
  erewrite bind_reads by (apply ownFrame_ret; lia).
  change (own (counted p In n) f) with (own n f). destruct (own n f); [done|].
  rewrite bind_gets. change (n_dupTable (counted p In n)) with (n_dupTable n).
  destruct (Find _ _ _ _); [done|].
  unfold remember, learnRingMember. rewrite !bind_modify.
  erewrite bind_lift by (by apply RewriteHSRPathLane_tagged). cbv beta iota.
  fold (lane_frame (other_port p) f). rewrite bind_WriteCounted by (by apply other_port_bound).
  match goal with |- _ (wrote ?q ?g ?m) = _ =>
    change (wrote q g m) with (ring_forward now p f seq (counted p In n)) end.
  eapply ring_deliver_run; try done; unfold ring_forward.
  - by apply ports_ok_wrote.
  - by rewrite wrote_Config.
Qed.

(** ** Injection *)

(** The EtherType the injected frame encapsulates. *)
Definition encap_type (f : bytes) : Z := default 0 (ethertype f).

(** The injected frame: addresses and VLAN tag, then the tagged rest. *)
Definition hsr_body (f : bytes) (path seq : Z) : bytes :=
  sub f 0 (hdr_len f - 2) ++
  EncodeHSR (sub f (hdr_len f) (glen f)) path seq (encap_type f).

Lemma hsrBodyOf_ret f path seq :
  hdr_len f <= glen f → hsrBodyOf f path seq = Ret (hsr_body f path seq).
Proof.
  intros Hl. unfold hsrBodyOf, hsr_body, hdr_len in *.
  rewrite IsVLANFrame_ret, GetEtherType_ret. cbn [go_bind]. fold (encap_type f).
  destruct (is_vlan f); rewrite !slice_ok by lia; cbn [go_bind]; [|done].
  by rewrite app_assoc, sub_app_split by lia.
Qed.

(** The path a node stamps on the frames it injects. *)
Definition inject_path (c : Config) : Z := if IsHSRPRPCoupling c then PathId c else 0.

Definition ring_inject (now : Z) (f : bytes) (seq : Z) (n : Node) : Node :=
  let body := hsr_body f (inject_path (n_Config n)) seq in
  wrote LanB body (wrote LanA body (accepted now (mac_of f 6) seq 0 n)).

(** What hsr-san and hsr-prp do with an interlink frame. *)
Definition interlink_receive (now : Z) (f : bytes) (n : Node) : Node :=
  let n := learned_proxy now (mac_of f 6) (counted Interlink In n) in
  if IsHSRPRPCoupling (n_Config n) then
    match DecodeRCT f with
    | Ret (Ok (_, seq, _)) => ring_inject now f seq n
    | _ => dropped "malformed" n
    end
  else ring_inject now f (next_seq n (mac_of f 6)) (took_seq (mac_of f 6) n).

(** What hsr-hsr does with a frame from the other ring. *)
Definition quad_receive (now : Z) (f : bytes) (n : Node) : Node :=
  let n := counted Interlink In n in
  match ring_decide now f n with
  | RingMalformed => dropped "malformed" n
  | RingOwn => dropped "own" n
  | RingDuplicate => dropped "dup" n
  | RingAccept _ seq _ =>
      let fwd := retag f (path_word (tag_word f) 0) in
      wrote LanB fwd (wrote LanA fwd (accepted now (mac_of f 6) seq 0 n))
  end.

Lemma handleHSRInterlinkFrame_san now f n :
  bytes_ok f → 14 <= glen f → (IsHSRPRPCoupling (n_Config n) = false → hdr_len f <= glen f) →
  ports_ok n → IsHSRHSR (n_Config n) = false →
  handleHSRInterlinkFrame now (mkEvent Interlink f) n = Ret (tt, interlink_receive now f n).
Proof.
  intros Hb Hl Hh Hp Hq. pose proof (hdr_len_bounds f). pose proof Hp as (HA & HB & _).
  unfold handleHSRInterlinkFrame, interlink_receive. cbn [ev_frame].
  rewrite bind_countFrame. erewrite bind_lift by (apply GetSrcMAC_ret; lia).
  rewrite bind_gets. cbn [n_Config counted set_counters]. rewrite Hq.
  guard_true (glen f >=? 12). unfold learnProxy. rewrite bind_modify.
  fold (counted Interlink In n). fold (learned_proxy now (mac_of f 6) (counted Interlink In n)).
  set (n1 := learned_proxy _ _ _). change (n_Config n1) with (n_Config n).
  assert (Hrun : hdr_len f <= glen f → ∀ seq n2, n_Config n2 = n_Config n → n_LanA n2 = true → n_LanB n2 = true →
    (remember now (mac_of f 6) seq 0;;
     body ← lift (hsrBodyOf f (inject_path (n_Config n)) seq);
     WriteCounted LanA body;; WriteCounted LanB body) n2 = Ret (tt, ring_inject now f seq n2)).
  { intros Hlen seq n2 Hc2 HA2 HB2. unfold remember, ring_inject. rewrite bind_modify.
    erewrite bind_lift by (by apply hsrBodyOf_ret). rewrite bind_WriteCounted by done.
    rewrite WriteCounted_eq by by rewrite wrote_bound. by rewrite <-Hc2. }
  fold (inject_path (n_Config n)). destruct (IsHSRPRPCoupling (n_Config n)) eqn:Ec.
  - destruct (DecodeRCT_total f) as [[[[lan seq] pl]|e] Hd].
    + unfold mbind at 1, M_bind at 1. erewrite bind_lift by exact Hd. cbn [mret M_ret].
      pose proof Hd as Hd'. apply DecodeRCT_iff in Hd' as (Hl' & _ & _ & _ & Hs & _).
      rewrite u16_small by (subst seq; by apply is_u16_w16). rewrite Hd. apply Hrun; done || lia.
    + unfold mbind at 1, M_bind at 1. erewrite bind_lift by exact Hd. cbn [mret M_ret].
      by rewrite Hd.
  - unfold mbind at 1, M_bind at 1. rewrite bind_nextSeq. cbn [mret M_ret].
    fold (took_seq (mac_of f 6) n1) (next_seq n1 (mac_of f 6)). apply Hrun; auto.
Qed.

Lemma handleHSRInterlinkFrame_quad now f n :
  12 <= glen f → ports_ok n → IsHSRHSR (n_Config n) = true →
  handleHSRInterlinkFrame now (mkEvent Interlink f) n = Ret (tt, quad_receive now f n).
Proof.
  intros Hl (HA & HB & _) Hq. unfold handleHSRInterlinkFrame, quad_receive, ring_decide.
  cbn [ev_frame]. rewrite bind_countFrame. erewrite bind_lift by (apply GetSrcMAC_ret; lia).
  rewrite bind_gets. cbn [n_Config counted set_counters]. rewrite Hq.
  unfold quadboxInterlink. fold (counted Interlink In n).
  destruct (DecodeHSR_total f) as [[[[[path seq] et] pl]|e] Hd];
    erewrite bind_lift by exact Hd; rewrite Hd; [|done].
  erewrite bind_reads by (apply ownFrame_ret; lia). destruct (own _ f); [done|].
  rewrite bind_gets. destruct (Find _ _ _ _); [done|].
  unfold remember. rewrite bind_modify. apply DecodeHSR_iff in Hd as (Ht & _).
  erewrite bind_lift by by apply RewriteHSRPath_tagged. cbv beta iota.
  rewrite bind_WriteCounted by done. apply WriteCounted_eq. by rewrite wrote_bound.
Qed.
End hsr.
