(* ===== verification/Dispatch.v ===== *)
(** * Dispatch: frame dispatch, supervision sending, node invariants

    Models [handleFrame] and [SendSupervisionFrame] of
    [src/internal/prp/prp.go], composes the data paths into one step function
    of a node, and proves which inputs can panic the daemon and which
    invariants every input preserves. *)

From S2P Require Import Prelude Engine Hsr NodeTable Supervision Role Pattern Node PrpPath HsrPath.

Section dispatch.
Context {MR : MapRange} {E : Env}.

(** ** Handlers *)

Definition handleFrame (now : Z) (event : frameEvent) : M unit :=
  if glen (ev_frame event) <? 14 then mret tt
  else
    etherType ← lift (GetEtherType (ev_frame event));
    c ← gets n_Config;
    let supervision := (etherType =? 0x88fb) &&
      (bool_decide (ev_iface event = LanA) || bool_decide (ev_iface event = LanB) ||
       (IsHSRHSR c && bool_decide (ev_iface event = Interlink))) in
    if supervision then
      handleSupervisionFrame now event;;
      if IsHSRHSR c then
        if bool_decide (ev_iface event = LanA) || bool_decide (ev_iface event = LanB) then
          linked ← gets n_Interlink;
          if linked : bool then WriteCounted Interlink (ev_frame event) else mret tt
        else
          WriteCounted LanA (ev_frame event);;
          WriteCounted LanB (ev_frame event)
      else mret tt
    else
      match ev_iface event with
      | LanA | LanB =>
          if IsHSRNode c then handleIncomingHSRFrame now event
          else handleIncomingPRPFrame now event
      | Interlink =>
          if IsHSRNode c then handleHSRInterlinkFrame now event
          else handleInterlinkFrame now event
      end.

Definition SendSupervisionFrame : M unit :=
  srcMAC ← gets (fun n => default [] (match n_mac n with Some m => Some m | None => nodeMAC n end));
  modify (fun n => set_supSeq (u16 (n_supSeq n + 1)) n);;
  seq ← gets n_supSeq;
  c ← gets n_Config;
  if negb (IsHSRNode c) then
    Write LanA (BuildRCTed srcMAC seq 0);;
    Write LanB (BuildRCTed srcMAC seq 1);;
    countSup
  else
    let path := if IsHSRPRPCoupling c then PathId c else 0 in
    let sup := BuildHSR srcMAC seq path in
    Write LanA sup;;
    Write LanB sup;;
    countSup;;
    linked ← gets n_Interlink;
    (if IsHSRHSR c && linked then Write Interlink sup;; mret tt else mret tt);;
    if IsHSRPRPCoupling c && linked then
      Write Interlink (BuildRCTed srcMAC seq (LanID c));; mret tt
    else mret tt.

(** ** The step function *)

(** A frame the dispatcher treats as supervision. *)
Definition sup_dispatched (c : Config) (p : port) (f : bytes) : bool :=
  (encap_type f =? 0x88fb) && (is_lan p || IsHSRHSR c).

Definition sup_relayed (p : port) (f : bytes) (n : Node) : Node :=
  if IsHSRHSR (n_Config n) then
    if is_lan p then (if n_Interlink n then wrote Interlink f n else n)
    else wrote LanB f (wrote LanA f n)
  else n.

Definition frame_step (now : Z) (p : port) (f : bytes) (n : Node) : Node :=
  if glen f <? 14 then n
  else if sup_dispatched (n_Config n) p f then sup_relayed p f (sup_receive now p f n)
  else if IsHSRNode (n_Config n) then
    if is_lan p then ring_receive now p f n
    else if IsHSRHSR (n_Config n) then quad_receive now f n else interlink_receive now f n
  else if is_lan p then prp_receive now p f n else prp_inject now f n.

(** The inputs on which the handler indexes out of range: a truncated
    supervision frame, a truncated VLAN header on the interlink of a prp-san
    node with a VLAN filter, or of an hsr-san node. *)
Definition out_of_range (p : port) (f : bytes) (n : Node) : bool :=
  let c := n_Config n in
  if glen f <? 14 then false
  else if sup_dispatched c p f then bool_decide (sup_shaped f) && (20 <=? glen f) && (glen f <? 26)
  else if is_lan p then false
  else if IsHSRNode c then
    negb (IsHSRHSR c) && negb (IsHSRPRPCoupling c) && is_vlan f && (glen f <? 18)
  else (0 <? glen (c_VLANFilter c)) && is_vlan f && (glen f <? 16).

Lemma sup_receive_Config now p f n : n_Config (sup_receive now p f n) = n_Config n.
Proof.
  unfold sup_receive. destruct (Parse f) as [[sup|]|]; [|done..].
  unfold sup_learned. cbn [n_Config set_supervisionSeqs].
  by destruct (regressed _ _); destruct (_ && _).
Qed.

Lemma sup_receive_ports now p f n q : bound (sup_receive now p f n) q = bound n q.
Proof.
  unfold sup_receive. destruct (Parse f) as [[sup|]|]; [|done..].
  unfold sup_learned.
  by destruct (regressed _ _); destruct (_ && _), q.
Qed.

Lemma sup_guard c p : (bool_decide (p = LanA) || bool_decide (p = LanB) ||
  (IsHSRHSR c && bool_decide (p = Interlink))) = (is_lan p || IsHSRHSR c).
Proof. destruct p, (IsHSRHSR c); reflexivity. Qed.

Lemma is_lan_guard p : (bool_decide (p = LanA) || bool_decide (p = LanB)) = is_lan p.
Proof. by destruct p. Qed.

Lemma handleFrame_eq now p f n :
  bytes_ok f → ports_ok n → out_of_range p f n = false →
  handleFrame now (mkEvent p f) n = Ret (tt, frame_step now p f n).
Proof.
  intros Hb Hp. pose proof Hp as (HA & HB & _).
  unfold out_of_range, handleFrame, frame_step. cbn [ev_frame ev_iface].
  destruct (Z.ltb_spec (glen f) 14) as [|Hl]; [done|]. intros Hr.
  erewrite bind_lift by apply GetEtherType_ret. fold (encap_type f). rewrite bind_gets.
  rewrite sup_guard, is_lan_guard. fold (sup_dispatched (n_Config n) p f).
  destruct (sup_dispatched (n_Config n) p f).
  - assert (Hpar : Parse f ≠ Panic).
    { intros Hpar%Parse_panic_cond; [|done]. destruct Hpar as [Hs Hlen].
      rewrite bool_decide_true in Hr by done. lia. }
    unfold mbind at 1, M_bind at 1. rewrite handleSupervisionFrame_eq by done.
    unfold sup_relayed. rewrite sup_receive_Config.
    destruct (IsHSRHSR (n_Config n)); [|done]. destruct (is_lan p).
    + rewrite bind_gets. set (n1 := sup_receive _ _ _ _).
      destruct (n_Interlink n1) eqn:Ei; [|done]. by apply WriteCounted_eq.
    + rewrite bind_WriteCounted by by rewrite sup_receive_ports.
      apply WriteCounted_eq. by rewrite wrote_bound, sup_receive_ports.
  - destruct (IsHSRNode (n_Config n)) eqn:En.
    + destruct p; cbn [is_lan] in *; try by apply handleIncomingHSRFrame_eq.
      destruct (IsHSRHSR (n_Config n)) eqn:Eq;
        [apply handleHSRInterlinkFrame_quad; [lia|done|done]|].
      apply handleHSRInterlinkFrame_san; try done. intros Ec. rewrite Ec in Hr.
      unfold hdr_len. destruct (is_vlan f); cbn [negb andb] in Hr; lia.
    + destruct p; cbn [is_lan] in *; try apply handleIncomingPRPFrame_eq.
      apply handleInterlinkFrame_eq; try done. intros Hne Hv. rewrite Hv in Hr.
      assert (Hg : (0 <? glen (c_VLANFilter (n_Config n))) = true).
      { destruct (c_VLANFilter (n_Config n)); [done|reflexivity]. }
      rewrite Hg in Hr. cbn [andb] in Hr. lia.
Qed.

Lemma handleFrame_panic now p f n :
  bytes_ok f → out_of_range p f n = true → handleFrame now (mkEvent p f) n = Panic.
Proof.
  intros Hb. unfold out_of_range, handleFrame. cbn [ev_frame ev_iface].
  destruct (Z.ltb_spec (glen f) 14) as [|Hl]; [done|]. intros Hr.
  erewrite bind_lift by apply GetEtherType_ret. fold (encap_type f). rewrite bind_gets.
  rewrite sup_guard, is_lan_guard. fold (sup_dispatched (n_Config n) p f).
  destruct (sup_dispatched (n_Config n) p f).
  - zb. apply bool_decide_eq_true in H.
    assert (Hpar : Parse f = Panic) by (apply Parse_panic_cond; auto).
    unfold mbind at 1, M_bind at 1, handleSupervisionFrame. cbn [ev_frame].
    by rewrite bind_lift_panic.
  - destruct p; cbn [is_lan] in Hr; try done. destruct (IsHSRNode (n_Config n)).
    + zb. apply negb_true_iff in H, H2. unfold handleHSRInterlinkFrame. cbn [ev_frame].
      rewrite bind_countFrame. erewrite bind_lift by (apply GetSrcMAC_ret; lia).
      rewrite bind_gets. cbn [n_Config counted set_counters]. rewrite H, H2.
      guard_true (glen f >=? 12). unfold learnProxy. rewrite bind_modify.
      unfold mbind at 1, M_bind at 1. rewrite bind_nextSeq. cbn [mret M_ret].
      unfold remember. rewrite bind_modify. apply bind_lift_panic.
      unfold hsrBodyOf. rewrite IsVLANFrame_ret, H1, GetEtherType_ret. cbn [go_bind].
      unfold slice. by guard_false ((0 <=? 18) && (18 <=? glen f) && (glen f <=? glen f)).
    + zb. unfold handleInterlinkFrame. cbn [ev_frame]. rewrite bind_countFrame, bind_gets.
      cbn [n_Config counted set_counters]. guard_true (glen (c_VLANFilter (n_Config n)) >? 0).
      unfold mbind at 1, M_bind at 1. rewrite bind_lift_panic; [done|].
      unfold GetVLANID. rewrite IsVLANFrame_ret, H1. cbn [go_bind negb].
      by rewrite be16_panic by lia.
Qed.

(** ** Inputs of a node

    Everything that changes a running node: a frame taken from the buffer,
    the clean-up timer, and the supervision ticker. *)

Inductive input :=
| Received (event : frameEvent)
| CleanupTimer
| SupervisionTicker.

Definition step (now : Z) (i : input) (n : Node) : go Node :=
  match i with
  | Received event => let! r := handleFrame now event n in Ret r.2
  | CleanupTimer => Ret (periodicCleanup now n)
  | SupervisionTicker => let! r := SendSupervisionFrame n in Ret r.2
  end.

(** ** What a step leaves alone *)

(** Configuration, bound ports, identity and lifetimes. *)
Definition static (n : Node) :=
  (n_Config n, n_LanA n, n_LanB n, n_Interlink n, n_mac n, n_supervisionForget n, n_proxyTableForget n).

Lemma static_wrote p f n : static (wrote p f n) = static n.
Proof. by destruct (wrote_cases p f n) as [-> | ->]. Qed.

Lemma static_ports n n' : static n' = static n → ports_ok n → ports_ok n'.
Proof. unfold static, ports_ok. intros [= -> -> -> -> _ _ _]. done. Qed.

Lemma static_dropped r n : static (dropped r n) = static n.
Proof. done. Qed.

Lemma static_ring_forward now p f seq n : static (ring_forward now p f seq n) = static n.
Proof. unfold ring_forward. by rewrite static_wrote. Qed.

Ltac static_cases :=
  repeat (rewrite ?static_wrote;
          match goal with |- static (if ?b then _ else _) = _ => destruct b
                        | |- static (match ?b with _ => _ end) = _ => destruct b end);
  rewrite ?static_wrote, ?static_dropped, ?static_wrote, ?static_ring_forward; try done.

Lemma static_sup_receive now p f n : static (sup_receive now p f n) = static n.
Proof.
  unfold sup_receive. destruct (Parse f) as [[sup|]|]; [|done..]. unfold sup_learned.
  by destruct (regressed _ _); destruct (_ && _).
Qed.

Lemma static_frame_step now p f n : static (frame_step now p f n) = static n.
Proof.
  unfold frame_step. static_cases.
  - unfold sup_relayed. static_cases; by rewrite ?static_sup_receive.
  - unfold ring_receive. static_cases. unfold ring_deliver. static_cases.
  - unfold quad_receive. static_cases.
  - unfold interlink_receive, ring_inject. static_cases.
  - unfold prp_receive. static_cases. unfold delivered. static_cases.
  - unfold prp_inject. static_cases.
Qed.

(** ** The table operations of a step *)

Definition sup_ops (f : bytes) (n : Node) : list op :=
  match Parse f with
  | Ret (Some sup) => if regressed n sup then [OFlush (f_SrcMAC sup)] else []
  | _ => []
  end.

Definition ring_ops (now : Z) (f : bytes) (n : Node) : list op :=
  match ring_decide now f n with
  | RingAccept _ seq _ => [OInsert now (mac_of f 6) seq 0 (entryForgetMs (n_Config n))]
  | _ => []
  end.

Definition inject_ops (now : Z) (f : bytes) (n : Node) : list op :=
  let ins seq := [OInsert now (mac_of f 6) seq 0 (entryForgetMs (n_Config n))] in
  if IsHSRPRPCoupling (n_Config n) then
    match DecodeRCT f with Ret (Ok (_, seq, _)) => ins seq | _ => [] end
  else ins (next_seq n (mac_of f 6)).

Definition prp_ops (now : Z) (p : port) (f : bytes) (n : Node) : list op :=
  match prp_verdict now p f n with
  | Accept src seq lan _ => [OInsert now src seq lan (entryForgetMs (n_Config n))]
  | _ => []
  end.

Definition frame_ops (now : Z) (p : port) (f : bytes) (n : Node) : list op :=
  if glen f <? 14 then []
  else if sup_dispatched (n_Config n) p f then sup_ops f n
  else if IsHSRNode (n_Config n) then
    if is_lan p then ring_ops now f n
    else if IsHSRHSR (n_Config n) then ring_ops now f n else inject_ops now f n
  else if is_lan p then prp_ops now p f n else [].

Lemma ring_deliver_dupTable now f path seq pl n :
  n_dupTable (ring_deliver now f path seq pl n) = n_dupTable n.
Proof.
  unfold ring_deliver.
  repeat (match goal with |- n_dupTable (if ?b then _ else _) = _ => destruct b end);
    by rewrite ?wrote_dupTable.
Qed.

Lemma delivered_dupTable now pl n : n_dupTable (delivered now pl n) = n_dupTable n.
Proof. unfold delivered. destruct (_ && _); [|done]. destruct (holds _); by rewrite ?wrote_dupTable. Qed.

Lemma frame_step_table now p f n :
  n_dupTable (frame_step now p f n) = foldr apply_op (n_dupTable n) (frame_ops now p f n).
Proof.
  unfold frame_step, frame_ops. destruct (_ <? 14); [done|]. destruct (sup_dispatched _ _ _).
  - assert (Hr : ∀ m, n_dupTable (sup_relayed p f m) = n_dupTable m).
    { intros m. unfold sup_relayed. repeat case_match; by rewrite ?wrote_dupTable. }
    rewrite Hr. unfold sup_receive, sup_ops. destruct (Parse f) as [[sup|]|]; [|done..].
    unfold sup_learned. by destruct (regressed _ _); destruct (_ && _).
  - destruct (IsHSRNode _), (is_lan p).
    + unfold ring_receive, ring_ops. destruct (ring_decide _ _ _); try done.
      rewrite ring_deliver_dupTable. unfold ring_forward. by rewrite wrote_dupTable.
    + destruct (IsHSRHSR _).
      * unfold quad_receive, ring_ops. change (ring_decide now f (counted Interlink In n))
          with (ring_decide now f n).
        destruct (ring_decide _ _ _); try done. by rewrite !wrote_dupTable.
      * unfold interlink_receive, inject_ops, ring_inject.
        cbn [n_Config learned_proxy counted set_proxyTable set_counters].
        destruct (IsHSRPRPCoupling _); [|by rewrite !wrote_dupTable].
        destruct (DecodeRCT f) as [[[[??]?]|]|]; [|done..]. by rewrite !wrote_dupTable.
    + unfold prp_receive, prp_ops. destruct (prp_verdict _ _ _ _); try done.
      by rewrite delivered_dupTable.
    + unfold prp_inject. repeat case_match; by rewrite ?wrote_dupTable.
Qed.

(** ** Announcing *)

(** The source address of supervision frames. *)
Definition sup_src (n : Node) : bytes :=
  default [] (match n_mac n with Some m => Some m | None => nodeMAC n end).

Definition next_sup (n : Node) : Z := u16 (n_supSeq n + 1).

Definition sup_counted (n : Node) : Node :=
  let c := n_counters n in
  set_counters (mkCounters (lanAIn c) (lanBIn c) (lanAOut c) (lanBOut c) (interIn c) (interOut c)
                  (u64 (supSent c + 1))) n.

(** The frames one call of [SendSupervisionFrame] hands to the ports. *)
Definition announcement (n : Node) : list (port * bytes) :=
  let c := n_Config n in
  let src := sup_src n in
  let seq := next_sup n in
  if negb (IsHSRNode c) then [(LanA, BuildRCTed src seq 0); (LanB, BuildRCTed src seq 1)]
  else
    let sup := BuildHSR src seq (inject_path c) in
    [(LanA, sup); (LanB, sup)] ++
    (if IsHSRHSR c && n_Interlink n then [(Interlink, sup)] else []) ++
    (if IsHSRPRPCoupling c && n_Interlink n then [(Interlink, BuildRCTed src seq (LanID c))] else []).

Definition frames_of (l : list tx) : list (port * bytes) := (fun t => (tx_port t, tx_frame t)) <$> l.

Lemma frames_of_app l k : frames_of (l ++ k) = frames_of l ++ frames_of k.
Proof. apply fmap_app. Qed.

(** What the node has learned of others. *)
Definition learned_tables (n : Node) :=
  (n_supervisionSeen n, n_supervisionSeqs n, n_proxyTable n, n_ringMembers n).

Lemma SendSupervisionFrame_eq n :
  ports_ok n →
  ∃ n', SendSupervisionFrame n = Ret (tt, n') ∧
    frames_of (n_sent n') = frames_of (n_sent n) ++ announcement n ∧
    n_supSeq n' = next_sup n ∧ static n' = static n ∧
    n_dupTable n' = n_dupTable n ∧ n_seqMgr n' = n_seqMgr n ∧ learned_tables n' = learned_tables n.
Proof.
  intros (HA & HB & HI). unfold SendSupervisionFrame, announcement.
  rewrite bind_gets, bind_modify, !bind_gets. fold (sup_src n) (next_sup n).
  set (n1 := set_supSeq (next_sup n) n). change (n_Config n1) with (n_Config n).
  change (n_supSeq n1) with (next_sup n).
  destruct (IsHSRNode (n_Config n)) eqn:En; cbn [negb].
  - fold (inject_path (n_Config n)). rewrite !bind_Write by done.
    unfold countSup. rewrite bind_modify, bind_gets.
    set (sup := BuildHSR _ _ _). set (n2 := wrote_raw LanB _ _). fold (sup_counted n2).
    change (n_Interlink (sup_counted n2)) with (n_Interlink n).
    destruct (n_Interlink n) eqn:Ei, (IsHSRHSR (n_Config n)) eqn:Eq, (IsHSRPRPCoupling (n_Config n)) eqn:Ec;
      cbn [andb]; try (by rewrite coupling_not_quad in Eq);
      try (unfold mbind at 1, M_bind at 1; rewrite bind_Write by done; cbn [mret M_ret]);
      rewrite ?bind_mret; try rewrite bind_Write by done;
      eexists; (split; [reflexivity|]); unfold n2, n1;
      cbn [n_sent sup_counted wrote_raw set_sent set_counters set_supSeq n_supSeq n_dupTable n_seqMgr];
      rewrite ?frames_of_app, <-?app_assoc; done.
  - rewrite !bind_Write by done. unfold countSup, modify. eexists. split; [reflexivity|].
    cbn [n_sent wrote_raw set_sent set_counters set_supSeq]. rewrite !frames_of_app, <-app_assoc.
    done.
Qed.

(** ** The node invariant *)

Record node_ok (n : Node) : Prop := {
  ok_ports : ports_ok n;
  ok_table : table_ok (n_dupTable n);
  ok_max : maxSize (n_dupTable n) = positive_or (c_MaxNodeTableSize (n_Config n)) 256;
  ok_seq : ∀ m, is_u16 (next_of (n_seqMgr n) m);
  ok_sup : is_u16 (n_supSeq n);
}.

Lemma apply_ops_ok t h : table_ok t → table_ok (foldr apply_op t h).
Proof.
  intros Ht. induction h as [|o h IH]; [done|]. cbn [foldr].
  destruct o; [by apply InsertWithExpiry_ok|by apply FlushFor_ok|by apply Cleanup_ok].
Qed.

Lemma took_seq_ok src n :
  (∀ m, is_u16 (next_of (n_seqMgr n) m)) → ∀ m, is_u16 (next_of (n_seqMgr (took_seq src n)) m).
Proof.
  intros H m. cbn [n_seqMgr took_seq set_seqMgr]. rewrite next_of_Next.
  case_bool_decide; auto with go_db.
Qed.

Lemma frame_step_supSeq now p f n : n_supSeq (frame_step now p f n) = n_supSeq n.
Proof.
  unfold frame_step, sup_relayed, sup_receive, sup_learned, ring_receive, ring_deliver, ring_forward,
    quad_receive, interlink_receive, ring_inject, prp_receive, delivered, prp_inject,
    learned_member, learned_proxy, took_seq.
  repeat case_match; node_simpl; done.
Qed.

Lemma frame_step_seq now p f n :
  (∀ m, is_u16 (next_of (n_seqMgr n) m)) →
  ∀ m, is_u16 (next_of (n_seqMgr (frame_step now p f n)) m).
Proof.
  intros Hs. assert (Hn : n_seqMgr (frame_step now p f n) = n_seqMgr n ∨
    n_seqMgr (frame_step now p f n) = (Next (n_seqMgr n) (mac_of f 6)).2).
  { unfold frame_step, sup_relayed, sup_receive, sup_learned, ring_receive, ring_deliver,
      ring_forward, quad_receive, interlink_receive, ring_inject, prp_receive, delivered, prp_inject,
      learned_member, learned_proxy, took_seq.
    repeat case_match; node_simpl; auto. }
  destruct Hn as [-> | ->]; [done|]. apply (took_seq_ok (mac_of f 6) n Hs).
Qed.

Lemma static_Config n n' : static n' = static n → n_Config n' = n_Config n.
Proof. by intros [=]. Qed.

Lemma frame_step_ok now p f n : node_ok n → node_ok (frame_step now p f n).
Proof.
  intros [Hp Ht Hm Hs Hu]. pose proof (static_frame_step now p f n) as Hst. split.
  - by eapply static_ports.
  - rewrite frame_step_table. by apply apply_ops_ok.
  - rewrite frame_step_table, foldr_maxSize, (static_Config _ _ Hst). done.
  - by apply frame_step_seq.
  - by rewrite frame_step_supSeq.
Qed.

Lemma periodicCleanup_fields now n :
  static (periodicCleanup now n) = static n ∧
  n_dupTable (periodicCleanup now n) = (Cleanup (n_dupTable n) now).1 ∧
  n_seqMgr (periodicCleanup now n) = n_seqMgr n ∧
  n_supSeq (periodicCleanup now n) = n_supSeq n ∧
  n_sent (periodicCleanup now n) = n_sent n.
Proof. unfold periodicCleanup, cleanupSupervisionSeen. by destruct (_ =? 0). Qed.

Lemma periodicCleanup_ok now n : node_ok n → node_ok (periodicCleanup now n).
Proof.
  intros [Hp Ht Hm Hs Hu]. destruct (periodicCleanup_fields now n) as (Hst & Hd & Hq & Hv & _).
  split; [by eapply static_ports|..]; rewrite ?Hd, ?Hq, ?Hv; [by apply Cleanup_ok| |done..].
  by rewrite Cleanup_fst, (static_Config _ _ Hst).
Qed.

(** The table operations of an input. *)
Definition step_ops (now : Z) (i : input) (n : Node) : list op :=
  match i with
  | Received event => frame_ops now (ev_iface event) (ev_frame event) n
  | CleanupTimer => [OCleanup now]
  | SupervisionTicker => []
  end.

(** The input makes no handler index out of range. *)
Definition in_range_input (i : input) (n : Node) : Prop :=
  match i with
  | Received event =>
      bytes_ok (ev_frame event) ∧ out_of_range (ev_iface event) (ev_frame event) n = false
  | _ => True
  end.

Lemma step_spec now i n :
  node_ok n → in_range_input i n →
  ∃ n', step now i n = Ret n' ∧ node_ok n' ∧ static n' = static n ∧
        n_dupTable n' = foldr apply_op (n_dupTable n) (step_ops now i n).
Proof.
  intros Hn Hi. destruct i as [[p f]| |]; cbn [step step_ops in_range_input] in *.
  - destruct Hi as [Hb Hr]. rewrite handleFrame_eq by (done || apply Hn).
    eexists. split; [done|]. split_and!; [by apply frame_step_ok|apply static_frame_step|].
    apply frame_step_table.
  - destruct (periodicCleanup_fields now n) as (? & ? & _). eexists. split; [done|].
    split_and!; [by apply periodicCleanup_ok|done|done].
  - destruct (SendSupervisionFrame_eq n) as (n' & -> & _ & Hs & Hst & Hd & Hq & _); [apply Hn|].
    exists n'. split; [done|]. destruct Hn as [Hp Ht Hm Hsq Hu]. split_and!; [|done|done].
    split; [by eapply static_ports|..]; rewrite ?Hd, ?Hq, ?Hs, ?(static_Config _ _ Hst); try done.
    unfold next_sup. auto with go_db.
Qed.

Lemma NewNode_ok cfg st i :
  is_u16 st →
  (∀ c, cfg = Some c → IsHSRNode c = true → IsHSRHSR c = false → i = true) →
  node_ok (bind_ports true true i (NewNode cfg st)).
Proof.
  intros Hst Hi. split; cbn [bind_ports NewNode n_dupTable n_seqMgr n_supSeq n_Config]; try done.
  - split_and!; [done|done|]. cbn. destruct cfg as [c|]; [by apply Hi|done].
  - apply NewTable_ok.
Qed.

Lemma node_ok_mac mac n : node_ok n → node_ok (SetNodeMAC mac n).
Proof. by intros []. Qed.

Lemma i16_negative a b :
  is_u16 a → is_u16 b → (i16 (u16 (a - b)) <? 0) = bool_decide (1 <= (b - a) mod 65536 <= 32768).
Proof.
  unfold is_u16, i16, u16. intros Ha Hb. symmetry.
  destruct (Z.ltb_spec (((a - b) mod 65536 + 32768) mod 65536 - 32768) 0);
    [apply bool_decide_eq_true|apply bool_decide_eq_false]; zlia.
Qed.

Lemma sup_dispatched_lan c p f :
  is_lan p = true → ethertype f = Some 0x88fb → sup_dispatched c p f = true.
Proof. intros Hp He. unfold sup_dispatched, encap_type. by rewrite He, Hp. Qed.

Lemma ethertype_glen f et : ethertype f = Some et → 14 <= glen f.
Proof. unfold ethertype. cbn [et_scan]. destruct (Z.ltb_spec (glen f) (12 + 2)); [done|lia]. Qed.

(** The step taken on supervision received on a redundancy port. *)
Lemma frame_step_sup now p f n :
  is_lan p = true → ethertype f = Some 0x88fb →
  frame_step now p f n = sup_relayed p f (sup_receive now p f n).
Proof.
  intros Hp He. unfold frame_step. pose proof (ethertype_glen _ _ He).
  guard_false (glen f <? 14). by rewrite sup_dispatched_lan.
Qed.

Lemma sup_receive_frames now p f n :
  n_sent (sup_receive now p f n) = n_sent n ∧ n_counters (sup_receive now p f n) = n_counters n.
Proof.
  unfold sup_receive. destruct (Parse f) as [[sup|]|]; [|done..]. unfold sup_learned.
  by destruct (regressed _ _); destruct (_ && _).
Qed.

Lemma Find_flush t now mac mac' seq :
  table_ok t →
  Find (FlushFor t mac).1 now mac' seq
  = if bool_decide (mac = mac') then false else Find t now mac' seq.
Proof. intros [Hk _]. unfold Find. rewrite FlushFor_lookup by done. by case_bool_decide. Qed.

(** ** Properties *)

(** C8: Which frames can kill the daemon.  With the ports bound, handling a
    frame panics exactly on the inputs of [out_of_range]: a supervision frame
    of 20 to 25 bytes, a VLAN frame cut before its tag ends on the interlink
    of a prp-san node with a VLAN filter (14 or 15 bytes) or of an hsr-san
    node (14 to 17 bytes).  Every other frame is handled to completion. *)
Theorem handleFrame_panics_iff (now : Z) (p : port) (f : bytes) (n : Node) :
  bytes_ok f → ports_ok n →
  handleFrame now (mkEvent p f) n = Panic ↔ out_of_range p f n = true.
Proof.
  intros Hb Hp. destruct (out_of_range p f n) eqn:Er.
  - by rewrite handleFrame_panic.
  - by rewrite handleFrame_eq.
Qed.

(** The node invariant.  Every input that indexes in range (a frame on any
    port, the clean-up timer, the supervision ticker) is handled without a
    panic and keeps the node well formed: ports bound, every table entry under
    its key, the duplicate table within its configured capacity, all sequence
    counters 16-bit; configuration, ports and identity do not change. *)
Theorem node_invariant (now : Z) (i : input) (n : Node) :
  node_ok n → in_range_input i n →
  ∃ n', step now i n = Ret n' ∧ node_ok n' ∧ static n' = static n.
Proof. intros Hn Hi. destruct (step_spec now i n Hn Hi) as (n' & ? & ? & ? & _). eauto. Qed.

(** Supervision stays on its side.  A supervision frame received on a
    redundancy port of a prp-san, hsr-san or hsr-prp node is consumed: nothing
    is written to any port and no traffic counter moves. *)
Theorem supervision_consumed (now : Z) (p : port) (f : bytes) (n : Node) :
  bytes_ok f → 26 <= glen f → ports_ok n → IsHSRHSR (n_Config n) = false →
  is_lan p = true → ethertype f = Some 0x88fb →
  ∃ n', handleFrame now (mkEvent p f) n = Ret (tt, n') ∧
        n_sent n' = n_sent n ∧ n_counters n' = n_counters n.
Proof.
  intros Hb Hl Hp Hq Hlan He. exists (frame_step now p f n). split.
  - apply handleFrame_eq; [done..|]. unfold out_of_range. guard_false (glen f <? 14).
    rewrite sup_dispatched_lan by done. guard_false (glen f <? 26). apply andb_false_r.
  - rewrite frame_step_sup by done. unfold sup_relayed. rewrite sup_receive_Config, Hq.
    apply sup_receive_frames.
Qed.

(** C26: Supervision bookkeeping.  After a supervision frame of a peer, the peer
    is alive as of now and its number is recorded; if the number went back
    (by 1 to 32768, modulo 2^16) no frame of that source is a duplicate any
    more, and in every other case, and for every other source, duplicate
    detection answers as before. *)
Theorem supervision_tracks_peer (now : Z) (p : port) (f : bytes) (sup : Frame) (n : Node) :
  bytes_ok f → node_ok n → is_lan p = true → ethertype f = Some 0x88fb →
  Parse f = Ret (Some sup) → is_u16 (f_Seq sup) →
  (∀ last, n_supervisionSeqs n !! f_SrcMAC sup = Some last → is_u16 last) →
  ∃ n', handleFrame now (mkEvent p f) n = Ret (tt, n') ∧
    n_supervisionSeen n' !! f_SrcMAC sup = Some now ∧
    n_supervisionSeqs n' !! f_SrcMAC sup = Some (f_Seq sup) ∧
    ∀ now' mac seq,
      Find (n_dupTable n') now' mac seq =
        match n_supervisionSeqs n !! f_SrcMAC sup with
        | Some last =>
            if bool_decide (1 <= (last - f_Seq sup) mod 65536 <= 32768) && bool_decide (f_SrcMAC sup = mac)
            then false else Find (n_dupTable n) now' mac seq
        | None => Find (n_dupTable n) now' mac seq
        end.
Proof.
  intros Hb Hn Hlan He Hs Hu Hlast. exists (frame_step now p f n). split.
  - apply handleFrame_eq; [done|apply Hn|]. unfold out_of_range.
    destruct (_ <? 14); [done|]. rewrite sup_dispatched_lan by done.
    destruct (_ && _ && _) eqn:Ep; [|done]. zb. apply bool_decide_eq_true in H.
    assert (Parse f = Panic) by by apply Parse_panic_cond. congruence.
  - rewrite frame_step_sup by done.
    assert (Hr : ∀ m, n_supervisionSeen (sup_relayed p f m) = n_supervisionSeen m ∧
      n_supervisionSeqs (sup_relayed p f m) = n_supervisionSeqs m ∧
      n_dupTable (sup_relayed p f m) = n_dupTable m).
    { intros m. unfold sup_relayed. repeat case_match; node_simpl; done. }
    destruct (Hr (sup_receive now p f n)) as (-> & -> & ->). unfold sup_receive. rewrite Hs.
    unfold sup_learned, regressed.
    destruct (n_supervisionSeqs n !! f_SrcMAC sup) as [last|] eqn:El;
      [rewrite i16_negative by auto; destruct (bool_decide (1 <= _ <= _))|];
      destruct (_ && is_lan p); node_simpl; (split_and!; [apply lookup_insert_eq..|]);
      intros; rewrite ?Find_flush by apply Hn; done.
Qed.
End dispatch.

(** *** Concrete instances *)

#[local] Existing Instance sorted_range.
#[local] Existing Instance demo_env.

Lemma demo_node_ok role lan net mac : node_ok (demo_node role lan net mac).
Proof.
  change (node_ok (SetNodeMAC mac (bind_ports true true true (NewNode (Some (demo_config role lan net)) 65535)))).
  apply node_ok_mac, NewNode_ok; [split; lia|done].
Qed.

Lemma handleFrame_panics_iff_witness :
  handleFrame 0 (mkEvent LanA (sup_dst ++ zeros 6 ++ [0x88; 0xfb] ++ zeros 8))
    (demo_node "prp-san" "" 0 [2; 0; 0; 0; 0; 1]) = Panic.
Proof.
  apply handleFrame_panics_iff;
    [repeat constructor; discriminate|repeat split; done|vm_compute; reflexivity].
Defined.

Lemma node_invariant_witness :
  ∃ n', step 5 (Received (mkEvent Interlink (zeros 60))) (demo_node "hsr-san" "" 0 [2; 0; 0; 0; 0; 1]) = Ret n' ∧
        node_ok n' ∧ static n' = static (demo_node "hsr-san" "" 0 [2; 0; 0; 0; 0; 1]).
Proof.
  apply node_invariant; [apply demo_node_ok|].
  split; [repeat constructor; discriminate|vm_compute; reflexivity].
Defined.

Lemma supervision_consumed_witness :
  ∃ n', handleFrame 5 (mkEvent LanB (BuildRCTed [2; 0; 0; 0; 0; 7] 3 1))
          (demo_node "prp-san" "" 0 [2; 0; 0; 0; 0; 1]) = Ret (tt, n') ∧
        n_sent n' = [] ∧ n_counters n' = mkCounters 0 0 0 0 0 0 0.
Proof.
  apply (supervision_consumed 5 LanB (BuildRCTed [2; 0; 0; 0; 0; 7] 3 1)
           (demo_node "prp-san" "" 0 [2; 0; 0; 0; 0; 1]));
    [repeat constructor; discriminate|vm_compute; discriminate|apply demo_node_ok|done|done|
     vm_compute; reflexivity].
Defined.

(** A node that has heard number 900 of the peer 02:00:00:00:00:07. *)
Definition demo_heard : Node :=
  set_supervisionSeqs {["02:00:00:00:00:07"%string := 900]} (demo_node "prp-san" "" 0 [2; 0; 0; 0; 0; 1]).

Lemma demo_heard_ok : node_ok demo_heard.
Proof. destruct (demo_node_ok "prp-san" "" 0 [2; 0; 0; 0; 0; 1]). by split. Qed.

Definition demo_sup : Frame :=
  mkFrame "02:00:00:00:00:07"%string 1 0 20 [2; 0; 0; 0; 0; 7] false (zeros 6).

Lemma supervision_tracks_peer_witness :
  ∃ n', handleFrame 5 (mkEvent LanA (BuildRCTed [2; 0; 0; 0; 0; 7] 1 0)) demo_heard = Ret (tt, n') ∧
    n_supervisionSeen n' !! "02:00:00:00:00:07"%string = Some 5 ∧
    n_supervisionSeqs n' !! "02:00:00:00:00:07"%string = Some 1 ∧
    ∀ now' mac seq, Find (n_dupTable n') now' mac seq =
      (if bool_decide ("02:00:00:00:00:07"%string = mac) then false
       else Find (n_dupTable demo_heard) now' mac seq).
Proof.
  apply (supervision_tracks_peer 5 LanA (BuildRCTed [2; 0; 0; 0; 0; 7] 1 0) demo_sup demo_heard);
    [repeat constructor; discriminate|apply demo_heard_ok|done|vm_compute; reflexivity|
     vm_compute; reflexivity|split; cbn; lia|].
  intros last Hl. vm_compute in Hl. injection Hl as <-. split; lia.
Defined.
