(* ===== verification/Redundancy.v ===== *)
(** * Redundancy: PRP end to end

    What the PRP path achieves between two RedBoxes: a SAN frame entering one
    interlink leaves the other exactly once, whichever copies arrive and in
    whatever order, and no frame is delivered twice under any interleaving
    with other traffic within the capacity of the duplicate table. *)

From S2P Require Import Prelude Engine Hsr NodeTable Supervision Role Pattern Node PrpPath HsrPath Dispatch.

Section redundancy.
Context {MR : MapRange} {E : Env}.

(** A run of [processFrames]: events with the instants they are handled at. *)
Fixpoint handle_all (evs : list (Z * frameEvent)) : M unit :=
  match evs with
  | [] => mret tt
  | (now, ev) :: evs => handleFrame now ev;; handle_all evs
  end.

(** The copy of [f] sent on LAN [p]. *)
Definition copy (p : port) (f : bytes) (q : Z) : bytes := trailed f q (lan_of_port p).

(** A frame that fits the trailer's LSDU field and is not supervision. *)
Record san_frame (f : bytes) : Prop := {
  san_bytes : bytes_ok f;
  san_size : glen f + RCTLen - hdr_len f < 4096;
  san_type : ∃ et, ethertype f = Some et ∧ et ≠ 0x88fb;
}.

Lemma san_len f : san_frame f → 14 <= glen f.
Proof. intros [_ _ (et & He & _)]. by eapply ethertype_glen. Qed.

Lemma lan_of_port_cases p : lan_of_port p = 0 ∨ lan_of_port p = 1.
Proof. unfold lan_of_port. case_bool_decide; auto. Qed.

Lemma decode_copy p f q :
  san_frame f → is_u16 q → DecodeRCT (copy p f q) = Ret (Ok (lan_of_port p, q, pad f)).
Proof.
  intros Hf Hq. pose proof (san_len f Hf). destruct Hf as [_ Hs _]. unfold copy.
  rewrite decode_trailed by (done || apply lan_of_port_cases).
  rewrite lsdu_eq. pose proof (min_len_bounds f). pose proof (hdr_len_bounds f).
  unfold RCTLen in *. by guard_true (Z.max (glen f) (min_len f) + 6 - hdr_len f <? 4096).
Qed.

Lemma copy_app p f q : ∃ t, copy p f q = f ++ t.
Proof. unfold copy, trailed, pad. rewrite <-app_assoc. eauto. Qed.

Lemma glen_copy p f q : 66 <= glen (copy p f q).
Proof. unfold copy. rewrite glen_trailed, glen_pad. pose proof (min_len_bounds f). lia. Qed.

Lemma mac_of_copy p f q : 14 <= glen f → mac_of (copy p f q) 6 = mac_of f 6.
Proof. intros. destruct (copy_app p f q) as [t ->]. apply mac_of_app; lia. Qed.

Lemma sub_app_inner {A} (s t : list A) lo hi :
  0 <= lo → lo <= hi → hi <= glen s → sub (s ++ t) lo hi = sub s lo hi.
Proof.
  intros. unfold sub. rewrite drop_app_le by len_lia. by rewrite take_app_le by len_lia.
Qed.

Lemma own_copy p f q n : 14 <= glen f → own n (copy p f q) = own n f.
Proof.
  intros. pose proof (glen_copy p f q). rewrite !own_spec by lia.
  destruct (copy_app p f q) as [t Hc]. rewrite Hc.
  by rewrite sub_app_inner by lia.
Qed.

Lemma encap_copy p f q : san_frame f → encap_type (copy p f q) ≠ 0x88fb.
Proof.
  intros [_ _ (et & He & Hne)]. unfold encap_type, copy.
  by rewrite (ethertype_trailed f q (lan_of_port p) et He).
Qed.

Lemma bytes_ok_copy p f q : san_frame f → bytes_ok (copy p f q).
Proof. intros [Hb _ _]. unfold copy. auto with go_db. Qed.

(** Handling a frame from a LAN on a prp-san node. *)
Lemma prp_lan_step now p f n :
  bytes_ok f → 26 <= glen f → ports_ok n → IsHSRNode (n_Config n) = false → is_lan p = true →
  encap_type f ≠ 0x88fb →
  handleFrame now (mkEvent p f) n = Ret (tt, prp_receive now p f n).
Proof.
  intros Hb Hl Hp Hn Hlan He.
  assert (Hs : sup_dispatched (n_Config n) p f = false).
  { unfold sup_dispatched. by rewrite (proj2 (Z.eqb_neq _ _) He). }
  rewrite handleFrame_eq; [|done|done|].
  - unfold frame_step. guard_false (glen f <? 14). by rewrite Hs, Hn, Hlan.
  - unfold out_of_range. guard_false (glen f <? 14). by rewrite Hs, Hlan.
Qed.

Lemma handle_copy now p f q n :
  san_frame f → ports_ok n → IsHSRNode (n_Config n) = false → is_lan p = true →
  handleFrame now (mkEvent p (copy p f q)) n = Ret (tt, prp_receive now p (copy p f q) n).
Proof.
  intros Hf ???. pose proof (glen_copy p f q).
  apply prp_lan_step; auto using bytes_ok_copy, encap_copy. lia.
Qed.

(** The verdict on a copy. *)
Lemma verdict_copy now p f q n :
  san_frame f → is_u16 q →
  prp_verdict now p (copy p f q) n =
    if own n f then OwnFrame
    else if Find (n_dupTable n) now (mac_of f 6) q then Duplicate
    else Accept (mac_of f 6) q (lan_of_port p) (pad f).
Proof.
  intros Hf Hq. pose proof (san_len f Hf). unfold prp_verdict.
  by rewrite decode_copy, Z.eqb_refl, own_copy, mac_of_copy by done.
Qed.

Lemma ethertype_hdr f et : ethertype f = Some et → hdr_len f <= glen f.
Proof.
  intros He. pose proof (ethertype_glen _ _ He). unfold hdr_len, is_vlan.
  guard_false (glen f <? 14). cbn [negb andb].
  destruct (is_tpid (w16 f 12)) eqn:Et; [|lia].
  unfold ethertype in He. cbn [et_scan] in He. rewrite Et in He.
  destruct (Z.ltb_spec (glen f) (12 + 2)); [done|].
  destruct (length f) as [|k]; cbn [et_scan] in He; [done|].
  destruct (Z.ltb_spec (glen f) (12 + 4 + 2)); [done|lia].
Qed.

(** Handling a SAN frame on a prp-san node. *)
Lemma prp_san_step now f n :
  san_frame f → ports_ok n → IsHSRNode (n_Config n) = false →
  handleFrame now (mkEvent Interlink f) n = Ret (tt, prp_inject now f n).
Proof.
  intros Hf Hp Hn. pose proof (san_len f Hf). destruct Hf as [Hb _ (et & He & Hne)].
  pose proof (ethertype_hdr f et He) as Hh.
  assert (Hs : sup_dispatched (n_Config n) Interlink f = false).
  { unfold sup_dispatched, encap_type. rewrite He. change (default 0 (Some et)) with et.
    by rewrite (proj2 (Z.eqb_neq _ _) Hne). }
  rewrite handleFrame_eq; [|done|done|].
  - unfold frame_step. guard_false (glen f <? 14). by rewrite Hs, Hn.
  - unfold out_of_range. guard_false (glen f <? 14). rewrite Hs, Hn. cbn [is_lan].
    unfold hdr_len in Hh. destruct (is_vlan f); [|by rewrite andb_false_r].
    guard_false (glen f <? 16). apply andb_false_r.
Qed.

Lemma prp_inject_sent now f n :
  vlan_pass (n_Config n) f = true → c_TrailerEnabled (n_Config n) = true →
  frames_of (n_sent (prp_inject now f n)) =
    frames_of (n_sent n) ++ [(LanA, copy LanA f (next_seq n (mac_of f 6)));
                             (LanB, copy LanB f (next_seq n (mac_of f 6)))].
Proof.
  intros Hv Ht. unfold prp_inject. cbn [n_Config counted learned_proxy set_counters set_proxyTable].
  rewrite Hv, Ht. cbn [negb]. rewrite !wrote_sent, !frames_of_app, <-app_assoc. done.
Qed.

(** Receiving a copy: duplicates change nothing but a counter. *)
Lemma receive_duplicate now p f q n :
  san_frame f → is_u16 q → own n f = false → Find (n_dupTable n) now (mac_of f 6) q = true →
  prp_receive now p (copy p f q) n = dropped "dup" (counted p In n).
Proof. intros Hf Hq Ho Hd. unfold prp_receive. by rewrite verdict_copy, Ho, Hd. Qed.

Lemma receive_fresh now p f q n :
  san_frame f → is_u16 q → own n f = false → Find (n_dupTable n) now (mac_of f 6) q = false →
  prp_receive now p (copy p f q) n =
    delivered now (pad f) (accepted now (mac_of f 6) q (lan_of_port p) (counted p In n)).
Proof. intros Hf Hq Ho Hd. unfold prp_receive. by rewrite verdict_copy, Ho, Hd. Qed.

(** The arrivals of the copies at a receiver. *)
Definition arrivals (f : bytes) (q : Z) (l : list (Z * port)) : list (Z * frameEvent) :=
  (fun a => (a.1, mkEvent a.2 (copy a.2 f q))) <$> l.

Lemma handle_all_cons now ev evs n :
  handle_all ((now, ev) :: evs) n =
    match handleFrame now ev n with Ret (_, n') => handle_all evs n' | Panic => Panic end.
Proof. done. Qed.

Lemma duplicates_dropped f q l : ∀ n,
  san_frame f → is_u16 q → ports_ok n → IsHSRNode (n_Config n) = false → own n f = false →
  Forall (fun a => is_lan a.2 = true ∧ Find (n_dupTable n) a.1 (mac_of f 6) q = true) l →
  ∃ n', handle_all (arrivals f q l) n = Ret (tt, n') ∧ n_sent n' = n_sent n.
Proof.
  induction l as [|[now p] l IH]; intros n Hf Hq Hp Hn Ho Hall; [by exists n|].
  apply Forall_cons in Hall as [[Hlan Hd] Hall]. cbn [fst snd] in *.
  change (arrivals f q ((now, p) :: l)) with ((now, mkEvent p (copy p f q)) :: arrivals f q l).
  rewrite handle_all_cons, handle_copy, receive_duplicate by done.
  by apply (IH (dropped "dup" (counted p In n))).
Qed.

(** A prp-san RedBox that injects [f]. *)
Record prp_sender (s : Node) (f : bytes) : Prop := {
  snd_ok : node_ok s;
  snd_role : IsHSRNode (n_Config s) = false;
  snd_trailer : c_TrailerEnabled (n_Config s) = true;
  snd_vlan : vlan_pass (n_Config s) f = true;
}.

(** A prp-san RedBox, not the source of [f], whose filter lets [f] through at
    [t0] and whose table entries are older than [t0]. *)
Record prp_receiver (r : Node) (f : bytes) (t0 : Z) : Prop := {
  rcv_ok : node_ok r;
  rcv_role : IsHSRNode (n_Config r) = false;
  rcv_link : n_Interlink r = true;
  rcv_mac : n_mac r ≠ Some (sub f 6 12);
  rcv_filter : holds (shouldForwardToInterlink t0 (pad f) r) = true;
  rcv_clock : ∀ k e, entries (n_dupTable r) !! k = Some e → LastSeen e < t0;
}.

Lemma own_false n f : 12 <= glen f → n_mac n ≠ Some (sub f 6 12) → own n f = false.
Proof. intros. rewrite own_spec by done. by apply bool_decide_eq_false. Qed.

Lemma delivered_fresh t0 p f q r :
  prp_receiver r f t0 →
  let r1 := accepted t0 (mac_of f 6) q (lan_of_port p) (counted p In r) in
  delivered t0 (pad f) r1 = wrote Interlink (pad f) r1.
Proof.
  intros [_ Hr Hl _ Hf _] r1. unfold delivered.
  change (n_Config r1) with (n_Config r). change (n_Interlink r1) with (n_Interlink r).
  change (shouldForwardToInterlink t0 (pad f) r1) with (shouldForwardToInterlink t0 (pad f) r).
  by rewrite Hr, Hl, Hf.
Qed.

(** *** Arbitrary traffic in between *)

Fixpoint run_inputs (l : list (Z * input)) (n : Node) : go Node :=
  match l with
  | [] => Ret n
  | (now, i) :: l => let! n' := step now i n in run_inputs l n'
  end.

(** An input handled between [t0] and [t1] that is a well-formed byte string
    and not a supervision frame of [src]. *)
Definition quiet (t0 t1 : Z) (src : string) (a : Z * input) : Prop :=
  t0 <= a.1 <= t1 ∧
  match a.2 with
  | Received ev => bytes_ok (ev_frame ev) ∧
                   ∀ sup, Parse (ev_frame ev) = Ret (Some sup) → f_SrcMAC sup ≠ src
  | _ => True
  end.

Lemma step_ops_inserts now i n : inserts (step_ops now i n) <= 1.
Proof.
  destruct i as [ev| |]; cbn [step_ops inserts]; [|lia..].
  unfold frame_ops, sup_ops, ring_ops, inject_ops, prp_ops. repeat case_match; cbn; lia.
Qed.

Lemma step_ops_benign t0 t1 now src i n :
  quiet t0 t1 src (now, i) → Forall (benign t0 t1 (entryForgetMs (n_Config n)) src) (step_ops now i n).
Proof.
  intros [Ht Hi]. cbn [fst snd] in *. destruct i as [ev| |]; cbn [step_ops].
  - destruct Hi as [_ Hs].
    unfold frame_ops, sup_ops, ring_ops, inject_ops, prp_ops.
    repeat case_match; repeat constructor; cbn [benign]; try lia. auto.
  - repeat constructor. cbn. lia.
  - constructor.
Qed.

(** A step that returned was in range. *)
Lemma step_returned now i n n' :
  node_ok n → match i with Received ev => bytes_ok (ev_frame ev) | _ => True end →
  step now i n = Ret n' →
  node_ok n' ∧ static n' = static n ∧
  n_dupTable n' = foldr apply_op (n_dupTable n) (step_ops now i n).
Proof.
  intros Hn Hb Hs. assert (Hr : in_range_input i n).
  { destruct i as [[p f]| |]; [|done..]. split; [done|]. cbn [ev_iface ev_frame step] in *.
    destruct (out_of_range p f n) eqn:Er; [|done]. by rewrite handleFrame_panic in Hs. }
  destruct (step_spec now i n Hn Hr) as (n1 & Hs1 & ? & ? & ?). 
  rewrite Hs in Hs1. by injection Hs1 as <-.
Qed.

Lemma holding_mono t0 exp mac seq k k' t :
  k <= k' → holding t0 exp mac seq k t → holding t0 exp mac seq k' t.
Proof. intros Hk (? & ? & ?). split_and!; [done|lia|done]. Qed.

Lemma run_inputs_holding t0 t1 src seq l : ∀ n n' k,
  node_ok n → run_inputs l n = Ret n' → Forall (quiet t0 t1 src) l →
  holding t0 (entryForgetMs (n_Config n)) src seq k (n_dupTable n) →
  time_Sub t1 t0 <= Milliseconds (entryForgetMs (n_Config n)) →
  k + Z.of_nat (length l) <= maxSize (n_dupTable n) →
  node_ok n' ∧ static n' = static n ∧
  holding t0 (entryForgetMs (n_Config n)) src seq (k + Z.of_nat (length l)) (n_dupTable n').
Proof.
  induction l as [|[now i] l IH]; intros n n' k Hn Hrun Hq Hh Hw Hcap; cbn [run_inputs length] in *.
  { simplify_eq. split_and!; [done|done|]. by rewrite Z.add_0_r. }
  apply Forall_cons in Hq as [Hqi Hq].
  destruct (step now i n) as [n1|] eqn:Hs; [|done]. cbn [go_bind] in Hrun.
  destruct (step_returned now i n n1 Hn) as (Hn1 & Hst & Hd); [|done|].
  { destruct Hqi as [_ Hqi]. cbn in Hqi. destruct i; [apply Hqi|done..]. }
  pose proof (step_ops_inserts now i n). pose proof (step_ops_benign t0 t1 now src i n Hqi) as Hben.
  assert (Hh1 : holding t0 (entryForgetMs (n_Config n)) src seq (k + 1) (n_dupTable n1)).
  { rewrite Hd. eapply holding_mono; [|eapply holding_ops; [exact Hh|exact Hben|done|]]; lia. }
  pose proof (static_Config _ _ Hst) as Hc. rewrite <-Hc in Hh1, Hw |- *.
  destruct (IH n1 n' (k + 1) Hn1 Hrun Hq Hh1 Hw) as (? & Hst' & Hh').
  { rewrite Hd, foldr_maxSize. lia. }
  split_and!; [done|congruence|]. by replace (k + Z.of_nat (S (length l))) with (k + 1 + Z.of_nat (length l)) by lia.
Qed.

(** A frame whose source and number are in the table is not forwarded. *)
Lemma known_not_forwarded now p f lan seq pl n :
  bytes_ok f → node_ok n → IsHSRNode (n_Config n) = false → is_lan p = true →
  DecodeRCT f = Ret (Ok (lan, seq, pl)) → Find (n_dupTable n) now (mac_of f 6) seq = true →
  out_of_range p f n = false →
  ∃ n', handleFrame now (mkEvent p f) n = Ret (tt, n') ∧ n_sent n' = n_sent n.
Proof.
  intros Hb Hn Hr Hp Hd Hf Ho. rewrite handleFrame_eq by (done || apply Hn). eexists. split; [done|].
  assert (Hq : IsHSRHSR (n_Config n) = false).
  { revert Hr. rewrite IsHSRNode_role, IsHSRHSR_role. by destruct (role_of _). }
  unfold frame_step. destruct (_ <? 14); [done|]. destruct (sup_dispatched _ _ _).
  - unfold sup_relayed. rewrite sup_receive_Config, Hq. apply sup_receive_frames.
  - rewrite Hr, Hp. unfold prp_receive, prp_verdict. rewrite Hd, Hf.
    by destruct (negb _); destruct (own n f).
Qed.

(** ** Properties *)

(** From one interlink to the other. *)
Lemma prp_delivery (now t0 : Z) (f : bytes) (s r : Node) (p0 : port) (l : list (Z * port)) :
  san_frame f → prp_sender s f → prp_receiver r f t0 →
  let q := next_seq s (mac_of f 6) in
  Find (n_dupTable r) t0 (mac_of f 6) q = false →
  is_lan p0 = true →
  Forall (fun a => is_lan a.2 = true ∧
                   time_Sub a.1 t0 <= Milliseconds (entryForgetMs (n_Config r))) l →
  ∃ s' r',
    handleFrame now (mkEvent Interlink f) s = Ret (tt, s') ∧
    frames_of (n_sent s') =
      frames_of (n_sent s) ++ [(LanA, copy LanA f q); (LanB, copy LanB f q)] ∧
    handle_all (arrivals f q ((t0, p0) :: l)) r = Ret (tt, r') ∧
    frames_of (n_sent r') = frames_of (n_sent r) ++ [(Interlink, pad f)].
Proof.
  intros Hf [Hs Hsr Hst Hsv] Hr q Hfind Hp0 Hall. pose proof (san_len f Hf).
  assert (Hq : is_u16 q) by apply Hs. pose proof (delivered_fresh t0 p0 f q r Hr) as Hdel. cbn zeta in Hdel.
  destruct Hr as [Hr Hrr Hri Hm _ Hold].
  assert (Ho : own r f = false) by (apply own_false; [lia|done]).
  set (r1 := accepted t0 (mac_of f 6) q (lan_of_port p0) (counted p0 In r)) in *.
  assert (Htail : ∃ r', handle_all (arrivals f q l) (wrote Interlink (pad f) r1) = Ret (tt, r') ∧
    n_sent r' = n_sent (wrote Interlink (pad f) r1)).
  { apply duplicates_dropped; try done.
    - apply ports_ok_wrote. by destruct Hr.
    - by rewrite wrote_Config.
    - unfold own, ownFrame. rewrite wrote_mac. done.
    - eapply Forall_impl; [exact Hall|]. cbn. intros a [Ha Hw]. split; [done|].
      rewrite wrote_dupTable. eapply holding_Find; [|exact Hw].
      apply holding_accepted; [apply Hr|done]. }
  destruct Htail as (r' & Hrun & Hsent). exists (prp_inject now f s), r'. split_and!.
  - apply prp_san_step; try done. apply Hs.
  - by apply prp_inject_sent.
  - change (arrivals f q ((t0, p0) :: l)) with ((t0, mkEvent p0 (copy p0 f q)) :: arrivals f q l).
    rewrite handle_all_cons, handle_copy, receive_fresh by (done || apply Hr).
    fold r1. by rewrite Hdel.
  - rewrite Hsent, wrote_sent, frames_of_app. done.
Qed.

(** C1: PRP exactly once, end to end.  A SAN frame entering the interlink of one
    RedBox is sent on both LANs with one sequence number, and a second RedBox
    that has not seen it hands it to its SAN exactly once, padded to the
    minimum Ethernet size, for every non-empty sequence of arrivals of the two
    copies within the entry lifetime: both orders, one copy lost, copies
    repeated by a bridge. *)
Theorem prp_exactly_once (now t0 : Z) (f : bytes) (s r : Node) (p0 : port) (l : list (Z * port)) :
  san_frame f → prp_sender s f → prp_receiver r f t0 →
  let q := next_seq s (mac_of f 6) in
  Find (n_dupTable r) t0 (mac_of f 6) q = false →
  is_lan p0 = true →
  Forall (fun a => is_lan a.2 = true ∧
                   time_Sub a.1 t0 <= Milliseconds (entryForgetMs (n_Config r))) l →
  ∃ s' r',
    handleFrame now (mkEvent Interlink f) s = Ret (tt, s') ∧
    frames_of (n_sent s') =
      frames_of (n_sent s) ++ [(LanA, copy LanA f q); (LanB, copy LanB f q)] ∧
    handle_all (arrivals f q ((t0, p0) :: l)) r = Ret (tt, r') ∧
    frames_of (n_sent r') = frames_of (n_sent r) ++ [(Interlink, pad f)].
Proof. exact (prp_delivery now t0 f s r p0 l). Qed.

(** C4: At most once, under any traffic.  Once a RedBox has accepted a frame
    (src, seq) from a LAN, no later frame with that source and number is
    forwarded within the entry lifetime, whatever frames, timer and ticker
    events it handles in between, as long as they are fewer than the table
    capacity and none is a supervision frame of [src] (which may announce a
    restart). *)
Theorem prp_at_most_once (t1 t2 : Z) (p1 p2 : port) (f1 f2 : bytes) (n n1 n2 : Node)
    (l : list (Z * input)) (src : string) (seq lan lan2 : Z) (pl pl2 : bytes) :
  node_ok n → IsHSRNode (n_Config n) = false →
  (∀ k e, entries (n_dupTable n) !! k = Some e → LastSeen e < t1) →
  bytes_ok f1 → 26 <= glen f1 → is_lan p1 = true → encap_type f1 ≠ 0x88fb →
  prp_verdict t1 p1 f1 n = Accept src seq lan pl →
  handleFrame t1 (mkEvent p1 f1) n = Ret (tt, n1) →
  run_inputs l n1 = Ret n2 → Forall (quiet t1 t2 src) l →
  1 + Z.of_nat (length l) <= maxSize (n_dupTable n) →
  time_Sub t2 t1 <= Milliseconds (entryForgetMs (n_Config n)) →
  bytes_ok f2 → 26 <= glen f2 → is_lan p2 = true →
  DecodeRCT f2 = Ret (Ok (lan2, seq, pl2)) → mac_of f2 6 = src →
  ∃ n3, handleFrame t2 (mkEvent p2 f2) n2 = Ret (tt, n3) ∧ n_sent n3 = n_sent n2.
Proof.
  intros Hn Hr Hold Hb1 Hl1 Hp1 He1 Hv H1 Hrun Hq Hcap Hw Hb2 Hl2 Hp2 Hd2 Hsrc.
  rewrite prp_lan_step in H1 by (done || apply Hn). injection H1 as <-.
  assert (Hstep : frame_step t1 p1 f1 n = prp_receive t1 p1 f1 n).
  { unfold frame_step, sup_dispatched. guard_false (glen f1 <? 14).
    by rewrite (proj2 (Z.eqb_neq _ _) He1), Hr, Hp1. }
  rewrite <-Hstep in Hrun. set (n1 := frame_step t1 p1 f1 n) in *.
  pose proof (static_frame_step t1 p1 f1 n) as Hst. fold n1 in Hst.
  pose proof (static_Config _ _ Hst) as Hc.
  assert (Hd1 : n_dupTable n1 = InsertWithExpiry (n_dupTable n) t1 src seq lan (entryForgetMs (n_Config n))).
  { rewrite Hstep. unfold prp_receive. rewrite Hv, delivered_dupTable. done. }
  destruct (run_inputs_holding t1 t2 src seq l n1 n2 1) as (Hn2 & Hst2 & Hh); try done.
  - by apply frame_step_ok.
  - rewrite Hd1, Hc. apply holding_accepted; [apply Hn|done].
  - by rewrite Hc.
  - by rewrite Hd1, InsertWithExpiry_maxSize.
  - rewrite Hc in Hh. subst src. pose proof (static_Config _ _ Hst2) as Hc2.
    eapply known_not_forwarded; try done; [by rewrite Hc2, Hc|by eapply holding_Find|].
    unfold out_of_range. guard_false (glen f2 <? 14).
    destruct (sup_dispatched _ _ _); [guard_false (glen f2 <? 26); apply andb_false_r|by rewrite Hp2].
Qed.

(** C23: Only fresh, foreign, correctly routed frames reach the SAN.  If handling
    a LAN frame writes anything at all, the frame carried a valid trailer with
    the LAN ID of the port it came in on, did not come from this node, was not
    a known duplicate, and passed the SAN filter; what was written is exactly
    its payload without the trailer, on the interlink, once. *)
Theorem prp_forwards_only_fresh (now : Z) (p : port) (f : bytes) (n n' : Node) :
  bytes_ok f → 26 <= glen f → ports_ok n → IsHSRNode (n_Config n) = false → is_lan p = true →
  handleFrame now (mkEvent p f) n = Ret (tt, n') → n_sent n' ≠ n_sent n →
  ∃ seq pl,
    DecodeRCT f = Ret (Ok (lan_of_port p, seq, pl)) ∧
    n_mac n ≠ Some (sub f 6 12) ∧
    Find (n_dupTable n) now (mac_of f 6) seq = false ∧
    shouldForwardToInterlink now pl n = Ret true ∧
    n_Interlink n = true ∧
    frames_of (n_sent n') = frames_of (n_sent n) ++ [(Interlink, pl)].
Proof.
  intros Hb Hl Hp Hr Hlan Hh Hne.
  assert (Hq : IsHSRHSR (n_Config n) = false).
  { revert Hr. rewrite IsHSRNode_role, IsHSRHSR_role. by destruct (role_of _). }
  rewrite handleFrame_eq in Hh; [|done..|].
  2:{ unfold out_of_range. guard_false (glen f <? 14). rewrite Hlan. guard_false (glen f <? 26).
      rewrite andb_false_r. by destruct (sup_dispatched _ _ _). }
  injection Hh as <-. unfold frame_step in *. revert Hne. guard_false (glen f <? 14).
  destruct (sup_dispatched _ _ _).
  { unfold sup_relayed. rewrite sup_receive_Config, Hq.
    by rewrite (proj1 (sup_receive_frames now p f n)). }
  rewrite Hr, Hlan. unfold prp_receive, prp_verdict.
  destruct (DecodeRCT f) as [[[[lan seq] pl]|]|]; [|done..].
  destruct (Z.eqb_spec lan (lan_of_port p)) as [->|]; cbn [negb]; [|done].
  rewrite own_spec by lia. case_bool_decide as Hm; [done|].
  destruct (Find _ _ _ _) eqn:Hf; [done|]. set (n1 := accepted _ _ _ _ _). unfold delivered.
  change (n_Config n1) with (n_Config n). change (n_Interlink n1) with (n_Interlink n).
  change (shouldForwardToInterlink now pl n1) with (shouldForwardToInterlink now pl n).
  rewrite Hr. cbn [negb andb]. destruct (n_Interlink n); [|done].
  destruct (holds _) eqn:Ho; [|done]. intros _. exists seq, pl. split_and!; try done.
  - by rewrite shouldForward_ret, Ho.
  - by rewrite wrote_sent, frames_of_app.
Qed.

(** VLAN filtering of SAN traffic.  A SAN frame is duplicated onto the LANs,
    both copies with the number reserved for its source, exactly when there is
    no VLAN filter or the frame carries a VLAN tag whose ID is listed;
    otherwise nothing is sent and no number is consumed. *)
Theorem prp_vlan_filter (now : Z) (f : bytes) (n : Node) :
  san_frame f → ports_ok n → IsHSRNode (n_Config n) = false → c_TrailerEnabled (n_Config n) = true →
  let pass := bool_decide (c_VLANFilter (n_Config n) = []) ||
              (is_vlan f && bool_decide (w16 f 14 mod 4096 ∈ c_VLANFilter (n_Config n))) in
  let q := next_seq n (mac_of f 6) in
  ∃ n', handleFrame now (mkEvent Interlink f) n = Ret (tt, n') ∧
    frames_of (n_sent n') = frames_of (n_sent n) ++
      (if pass then [(LanA, copy LanA f q); (LanB, copy LanB f q)] else []) ∧
    next_seq n' (mac_of f 6) = if pass then u16 (q + 1) else q.
Proof.
  intros Hf Hp Hr Ht pass q. exists (prp_inject now f n). split; [by apply prp_san_step|].
  assert (Hpass : vlan_pass (n_Config n) f = pass).
  { unfold vlan_pass, pass. pose proof (san_len f Hf).
    destruct Hf as [_ _ (et & He & _)]. pose proof (ethertype_hdr f et He) as Hh.
    rewrite GetVLANID_ret by (unfold hdr_len in Hh; destruct (is_vlan f); [lia|done]).
    destruct (c_VLANFilter (n_Config n)) as [|v vs] eqn:Ev; [done|].
    rewrite bool_decide_false by done. change (glen (v :: vs) <=? 0) with false. cbn [orb].
    destruct (is_vlan f); [|done]. cbn [andb]. symmetry.
    destruct (containsInt (v :: vs) _) eqn:Ec.
    - apply bool_decide_eq_true. by apply containsInt_spec.
    - apply bool_decide_eq_false. intros Hin%containsInt_spec. congruence. }
  destruct pass.
  - split; [by apply prp_inject_sent|]. unfold prp_inject, next_seq.
    cbn [n_Config counted learned_proxy set_counters set_proxyTable]. rewrite Hpass, Ht. cbn [negb].
    rewrite !wrote_seqMgr. cbn [n_seqMgr took_seq set_seqMgr]. by rewrite next_of_Next, bool_decide_true.
  - unfold prp_inject. cbn [n_Config counted set_counters]. rewrite Hpass. cbn [negb].
    by rewrite app_nil_r.
Qed.

(** C35: Replies find their SAN.  After a SAN frame passed the RedBox at [t0], a
    unicast LAN frame for that SAN is let through to the interlink at [t1]
    exactly when everything is forwarded or the SAN was heard within the proxy
    lifetime. *)
Theorem san_learned (t0 t1 : Z) (f g : bytes) (n : Node) :
  san_frame f → ports_ok n → IsHSRNode (n_Config n) = false → vlan_pass (n_Config n) f = true →
  14 <= glen g → g !!! 0%nat mod 2 = 0 → mac_of g 0 = mac_of f 6 →
  ∃ n', handleFrame t0 (mkEvent Interlink f) n = Ret (tt, n') ∧
    shouldForwardToInterlink t1 g n' =
      Ret (c_ForwardAll (n_Config n) || (time_Sub t1 t0 <=? n_proxyTableForget n)).
Proof.
  intros Hf Hp Hr Hv Hg Hu Hm. exists (prp_inject t0 f n). split; [by apply prp_san_step|].
  assert (Hi : n_Config (prp_inject t0 f n) = n_Config n ∧
    n_proxyTable (prp_inject t0 f n) = <[mac_of f 6 := t0]> (n_proxyTable n) ∧
    n_proxyTableForget (prp_inject t0 f n) = n_proxyTableForget n).
  { unfold prp_inject. cbn [n_Config counted learned_proxy set_counters set_proxyTable].
    rewrite Hv. cbn [negb]. destruct (negb _); [done|]. rewrite !wrote_Config, !wrote_proxyTable.
    split_and!; [done..|]. unfold wrote. by do 2 destruct (write_ok _ _ _). }
  destruct Hi as (Hc & Ht & Hx). unfold shouldForwardToInterlink. rewrite Hc, Ht, Hx.
  destruct (c_ForwardAll (n_Config n)); [done|].
  rewrite IsMulticastMAC_ret by lia. rewrite land_1, Hu. cbn [go_bind Z.eqb].
  rewrite GetDstMAC_ret by lia. cbn [go_bind]. by rewrite Hm, lookup_insert_eq.
Qed.
End redundancy.

(** *** Concrete instances *)

#[local] Existing Instance sorted_range.
#[local] Existing Instance demo_env.

(** An IPv4 frame from 02:00:00:00:00:42 to 04:00:00:00:00:43. *)
Definition demo_frame : bytes := [4; 0; 0; 0; 0; 0x43; 2; 0; 0; 0; 0; 0x42; 8; 0] ++ zeros 28.

Lemma demo_frame_san : san_frame demo_frame.
Proof.
  split; [repeat constructor; discriminate|reflexivity|].
  exists 0x0800. split; [vm_compute; reflexivity|discriminate].
Qed.

Definition demo_a : Node := demo_node "prp-san" "" 0 [2; 0; 0; 0; 0; 0x0a].
Definition demo_b : Node := demo_node "prp-san" "" 0 [2; 0; 0; 0; 0; 0x0b].

Lemma demo_a_sender : prp_sender demo_a demo_frame.
Proof. split; [apply demo_node_ok|done..]. Qed.

Lemma demo_b_receiver : prp_receiver demo_b demo_frame 10.
Proof.
  split; [apply demo_node_ok|done|done|discriminate|done|].
  intros k e H. cbn in H. by rewrite lookup_empty in H.
Qed.

Lemma prp_exactly_once_witness :
  ∃ s' r',
    handleFrame 0 (mkEvent Interlink demo_frame) demo_a = Ret (tt, s') ∧
    frames_of (n_sent s') = [(LanA, copy LanA demo_frame 65535); (LanB, copy LanB demo_frame 65535)] ∧
    handle_all (arrivals demo_frame 65535 [(10, LanB); (11, LanA); (12, LanB)]) demo_b = Ret (tt, r') ∧
    frames_of (n_sent r') = [(Interlink, pad demo_frame)].
Proof.
  apply (prp_exactly_once 0 10 demo_frame demo_a demo_b LanB [(11, LanA); (12, LanB)]
           demo_frame_san demo_a_sender demo_b_receiver);
    [vm_compute; reflexivity|reflexivity|].
  repeat constructor; vm_compute; discriminate.
Defined.

Lemma prp_at_most_once_witness :
  ∃ n3, handleFrame 20 (mkEvent LanA (copy LanA demo_frame 7))
          (frame_step 15 LanB (copy LanB demo_frame 8) (frame_step 10 LanB (copy LanB demo_frame 7) demo_b))
        = Ret (tt, n3) ∧
    n_sent n3 =
      n_sent (frame_step 15 LanB (copy LanB demo_frame 8) (frame_step 10 LanB (copy LanB demo_frame 7) demo_b)).
Proof.
  apply (prp_at_most_once 10 20 LanB LanA (copy LanB demo_frame 7) (copy LanA demo_frame 7) demo_b
           (frame_step 10 LanB (copy LanB demo_frame 7) demo_b) _
           [(15, Received (mkEvent LanB (copy LanB demo_frame 8)))]
           "02:00:00:00:00:42"%string 7 1 0 (pad demo_frame) (pad demo_frame));
    try (vm_compute; reflexivity); try (vm_compute; discriminate);
    try (apply bytes_ok_copy; exact demo_frame_san).
  - apply demo_node_ok.
  - constructor; [|constructor]. split; [cbn; lia|]. split; [apply bytes_ok_copy; exact demo_frame_san|].
    intros sup H. vm_compute in H. discriminate H.
Defined.

Lemma prp_forwards_only_fresh_witness :
  ∃ seq pl,
    DecodeRCT (copy LanB demo_frame 7) = Ret (Ok (1, seq, pl)) ∧
    n_mac demo_b ≠ Some [2; 0; 0; 0; 0; 0x42] ∧
    Find (n_dupTable demo_b) 10 "02:00:00:00:00:42"%string seq = false ∧
    shouldForwardToInterlink 10 pl demo_b = Ret true ∧
    n_Interlink demo_b = true ∧
    frames_of (n_sent (frame_step 10 LanB (copy LanB demo_frame 7) demo_b)) = [(Interlink, pl)].
Proof.
  apply (prp_forwards_only_fresh 10 LanB (copy LanB demo_frame 7) demo_b
           (frame_step 10 LanB (copy LanB demo_frame 7) demo_b));
    [apply bytes_ok_copy; exact demo_frame_san|vm_compute; discriminate|apply demo_node_ok|
     reflexivity|reflexivity|vm_compute; reflexivity|vm_compute; discriminate].
Defined.

Lemma prp_vlan_filter_witness :
  ∃ n', handleFrame 0 (mkEvent Interlink demo_frame) demo_a = Ret (tt, n') ∧
    frames_of (n_sent n') = [(LanA, copy LanA demo_frame 65535); (LanB, copy LanB demo_frame 65535)] ∧
    next_seq n' "02:00:00:00:00:42"%string = 0.
Proof. apply (prp_vlan_filter 0 demo_frame demo_a demo_frame_san); [apply demo_node_ok|done..]. Defined.

Lemma san_learned_witness :
  ∃ n', handleFrame 5 (mkEvent Interlink demo_frame) demo_a = Ret (tt, n') ∧
    shouldForwardToInterlink 9 [2; 0; 0; 0; 0; 0x42; 4; 0; 0; 0; 0; 0x43; 8; 0] n' = Ret true.
Proof.
  apply (san_learned 5 9 demo_frame [2; 0; 0; 0; 0; 0x42; 4; 0; 0; 0; 0; 0x43; 8; 0] demo_a demo_frame_san);
    [apply demo_node_ok|done|done|vm_compute; discriminate|done|vm_compute; reflexivity].
Defined.
