(* ===== verification/Ring.v ===== *)
(** * Ring: HSR end to end

    What the ring path achieves: a frame injected by an hsr-san or hsr-prp
    RedBox keeps its identity over any number of hops, is delivered exactly
    once by every ring node, is removed by its originator after a lap, and is
    never carried back into the PRP network it came from. *)

From S2P Require Import Prelude Engine Hsr NodeTable Supervision Role Pattern Node PrpPath HsrPath Dispatch Redundancy.

Section ring.
Context {MR : MapRange} {E : Env}.

(** ** Frames on their way around the ring *)

(** [g] is [f] after some hops: the same frame up to the lane bit. *)
Record rides (f g : bytes) : Prop := {
  rd_bytes : bytes_ok g;
  rd_tagged : hsr_tagged g;
  rd_len : glen g = glen f;
  rd_off : tag_off g = tag_off f;
  rd_head : sub g 0 (tag_off f) = sub f 0 (tag_off f);
  rd_lsdu : tag_lsdu g = tag_lsdu f;
  rd_seq : tag_seq g = tag_seq f;
  rd_proto : tag_proto g = tag_proto f;
  rd_payload : tag_payload g = tag_payload f;
  rd_net : tag_path g / 2 = tag_path f / 2;
}.

(** A well-formed HSR frame. *)
Record ring_frame (f : bytes) : Prop := {
  rf_bytes : bytes_ok f;
  rf_tagged : hsr_tagged f;
  rf_lsdu : HSRTagLen <= tag_lsdu f;
  rf_fits : tag_off f + tag_lsdu f <= glen f;
}.

Lemma rides_refl f : ring_frame f → rides f f.
Proof. by intros []. Qed.

Lemma tag_seq_retag f w : hsr_tagged f → tag_seq (retag f w) = tag_seq f.
Proof. intros Ht. unfold tag_seq. rewrite retag_off by done. by rewrite retag_w16_after by (done || lia). Qed.

Lemma tag_proto_retag f w : hsr_tagged f → tag_proto (retag f w) = tag_proto f.
Proof. intros Ht. unfold tag_proto. rewrite retag_off by done. by rewrite retag_w16_after by (done || lia). Qed.

Lemma tag_lsdu_retag f w :
  hsr_tagged f → is_u16 w → w mod 4096 = tag_lsdu f → tag_lsdu (retag f w) = tag_lsdu f.
Proof. intros Ht Hw Hm. unfold tag_lsdu. by rewrite retag_word. Qed.

Lemma tag_payload_retag f w :
  hsr_tagged f → is_u16 w → w mod 4096 = tag_lsdu f → tag_payload (retag f w) = tag_payload f.
Proof.
  intros Ht Hw Hm. pose proof (retag_bounds f Ht). unfold tag_payload.
  rewrite tag_lsdu_retag, retag_off by done. apply splice16_sub_after; unfold HSRTagLen; lia.
Qed.

Lemma is_u16_lane q f :
  bytes_ok f → is_u16 (lane_word (tag_word f) (lane_of (bool_decide (q = LanA)))).
Proof.
  intros Hb. apply is_u16_lane_word; [by apply is_u16_w16|].
  unfold lane_of. case_bool_decide; auto.
Qed.

(** A hop keeps the frame. *)
Lemma rides_lane f g q : rides f g → rides f (lane_frame q g).
Proof.
  intros [Hb Ht Hl Ho Hh Hs Hq Hp Hy Hn]. pose proof (is_u16_lane q g Hb) as Hw.
  unfold lane_frame. set (w := lane_word _ _) in *.
  assert (Hm : w mod 4096 = tag_lsdu g) by apply lane_word_mod.
  pose proof (retag_bounds g Ht). split.
  - auto with go_db.
  - by apply retag_tagged.
  - by rewrite glen_retag.
  - by rewrite retag_off.
  - rewrite retag_macs by (done || lia). done.
  - by rewrite tag_lsdu_retag.
  - by rewrite tag_seq_retag.
  - by rewrite tag_proto_retag.
  - by rewrite tag_payload_retag.
  - transitivity (tag_path g / 2); [|done]. unfold tag_path. rewrite retag_word by done.
    unfold w. rewrite lane_word_div. unfold lane_of. case_bool_decide; zlia.
Qed.

Section riding.
Context (f g : bytes) (Hf : ring_frame f) (Hg : rides f g).

Lemma rides_decode : DecodeHSR g = Ret (Ok (tag_path g, tag_seq f, tag_proto f, tag_payload f)).
Proof using Hf Hg.
  destruct Hf as [_ _ Hl Hs], Hg as [? Ht ? Ho ? Hls Hq Hp Hy _].
  apply DecodeHSR_iff. rewrite Hls, Ho. split_and!; try done. lia.
Qed.

Lemma rides_bounds : 14 <= tag_off f <= 18 ∧ 20 <= glen g ∧ 20 <= glen f.
Proof using Hf Hg.
  destruct Hf as [_ Ht _ _], Hg. destruct (hsr_tagged_bounds f Ht). lia.
Qed.

Lemma rides_sub lo hi : 0 <= lo → lo <= hi → hi <= 14 → sub g lo hi = sub f lo hi.
Proof using Hf Hg.
  intros. pose proof rides_bounds. destruct Hg as [_ _ Hl _ Hh _ _ _ _ _].
  pose proof (sub_sub g 0 (tag_off f) lo hi) as E1. pose proof (sub_sub f 0 (tag_off f) lo hi) as E2.
  rewrite !Z.add_0_l in E1, E2. rewrite <-E1, <-E2 by lia. by rewrite Hh.
Qed.

Lemma rides_byte i : 0 <= i < 14 → g !!! Z.to_nat i = f !!! Z.to_nat i.
Proof using Hf Hg.
  intros. pose proof (rides_sub 0 14 ltac:(lia) ltac:(lia) ltac:(lia)) as Hs.
  pose proof (sub_total g 0 14 i) as E1. pose proof (sub_total f 0 14 i) as E2.
  rewrite Z.add_0_l in E1, E2. rewrite <-E1, <-E2 by lia. by rewrite Hs.
Qed.

Lemma rides_src : mac_of g 6 = mac_of f 6.
Proof using Hf Hg. unfold mac_of. by rewrite !rides_byte by lia. Qed.

Lemma rides_own n : own n g = own n f.
Proof using Hf Hg.
  pose proof rides_bounds. rewrite !own_spec by lia. by rewrite rides_sub by lia.
Qed.

Lemma rides_member n : to_member g n = to_member f n.
Proof using Hf Hg. unfold to_member. by rewrite rides_sub by lia. Qed.

Lemma rides_stripped : stripped g = stripped f.
Proof using Hf Hg.
  pose proof rides_bounds. destruct Hg as [_ _ _ Ho Hh _ _ Hp Hy _]. unfold stripped. rewrite Ho, Hp, Hy.
  pose proof (sub_sub g 0 (tag_off f) 0 (tag_off f - 2)) as E1.
  pose proof (sub_sub f 0 (tag_off f) 0 (tag_off f - 2)) as E2.
  rewrite !Z.add_0_l in E1, E2. rewrite <-E1, <-E2 by lia. by rewrite Hh.
Qed.
End riding.

(** An HSR frame is never taken for supervision. *)
Lemma encap_tagged g : hsr_tagged g → encap_type g = HSREtherType.
Proof.
  intros [Hl Hw]. unfold encap_type, ethertype, tag_off, HSRTagLen in *. cbn [et_scan].
  destruct (is_tpid (w16 g 12)) eqn:Et.
  - guard_false (glen g <? 12 + 2).
    destruct (length g) as [|k] eqn:Ek; [unfold glen in Hl; lia|]. cbn [et_scan].
    guard_false (glen g <? 12 + 4 + 2). change (18 - 2) with 16 in Hw.
    change (12 + 4) with 16. rewrite Hw. done.
  - guard_false (glen g <? 12 + 2). change (14 - 2) with 12 in Hw. by rewrite Hw.
Qed.

(** Handling a ring frame. *)
Lemma ring_step now p f g n :
  ring_frame f → rides f g → ports_ok n → IsHSRNode (n_Config n) = true → is_lan p = true →
  handleFrame now (mkEvent p g) n = Ret (tt, ring_receive now p g n).
Proof.
  intros Hf Hg Hp Hn Hlan. pose proof (rides_bounds f g Hf Hg).
  assert (Hs : sup_dispatched (n_Config n) p g = false).
  { unfold sup_dispatched. rewrite encap_tagged by apply Hg. done. }
  rewrite handleFrame_eq; [|apply Hg|done|].
  - unfold frame_step. guard_false (glen g <? 14). by rewrite Hs, Hn, Hlan.
  - unfold out_of_range. guard_false (glen g <? 14). by rewrite Hs, Hlan.
Qed.

Lemma ring_decide_rides now f g n :
  ring_frame f → rides f g →
  ring_decide now g n =
    if own n f then RingOwn
    else if Find (n_dupTable n) now (mac_of f 6) (tag_seq f) then RingDuplicate
    else RingAccept (tag_path g) (tag_seq f) (tag_payload f).
Proof.
  intros Hf Hg. unfold ring_decide.
  by rewrite (rides_decode f g Hf Hg), (rides_own f g Hf Hg), (rides_src f g Hf Hg).
Qed.

(** ** Delivery at an hsr-san node *)

(** An hsr-san node that is not the source of [f] and hands it to its SAN. *)
Record san_node (n : Node) (f : bytes) (t0 : Z) : Prop := {
  sn_ok : node_ok n;
  sn_role : role_of (n_Config n) = RoleHSRSan;
  sn_all : c_ForwardAll (n_Config n) = true;
  sn_mac : n_mac n ≠ Some (sub f 6 12);
  sn_dst : to_member f (learned_member t0 (mac_of f 6) n) = false;
  sn_clock : ∀ k e, entries (n_dupTable n) !! k = Some e → LastSeen e < t0;
}.

Lemma role_flags c : role_of c = RoleHSRSan →
  IsHSRNode c = true ∧ IsHSRPRPCoupling c = false ∧ IsHSRHSR c = false.
Proof. intros H. by rewrite IsHSRNode_role, IsHSRPRPCoupling_role, IsHSRHSR_role, H. Qed.

Lemma to_member_ring f n n' : n_ringMembers n' = n_ringMembers n → to_member f n' = to_member f n.
Proof. intros H. unfold to_member, unicastToRingMember. by rewrite H. Qed.

Lemma shouldForward_all now f n : c_ForwardAll (n_Config n) = true → holds (shouldForwardToInterlink now f n) = true.
Proof. intros H. unfold shouldForwardToInterlink. by rewrite H. Qed.

(** The first copy: forwarded to the other ring port and delivered. *)
Lemma san_accepts t0 p f g n :
  ring_frame f → rides f g → san_node n f t0 → is_lan p = true →
  Find (n_dupTable n) t0 (mac_of f 6) (tag_seq f) = false →
  ∃ n', handleFrame t0 (mkEvent p g) n = Ret (tt, n') ∧ node_ok n' ∧ static n' = static n ∧
    frames_of (n_sent n') = frames_of (n_sent n) ++
      [(other_port p, lane_frame (other_port p) g); (Interlink, stripped f)] ∧
    holding t0 (entryForgetMs (n_Config n)) (mac_of f 6) (tag_seq f) 1 (n_dupTable n').
Proof.
  intros Hf Hg [Hn Hr Ha Hm Hd Hc] Hp Hfind. destruct (role_flags _ Hr) as (Hr1 & Hr2 & Hr3).
  pose proof (rides_bounds f g Hf Hg).
  assert (Hstep : frame_step t0 p g n = ring_receive t0 p g n).
  { unfold frame_step, sup_dispatched. rewrite encap_tagged by apply Hg.
    guard_false (glen g <? 14). by rewrite Hr1, Hp. }
  exists (ring_receive t0 p g n). rewrite (ring_step t0 p f g n) by (done || apply Hn).
  rewrite <-Hstep. split; [done|]. split; [by apply frame_step_ok|].
  split; [apply static_frame_step|]. rewrite Hstep. unfold ring_receive.
  rewrite (ring_decide_rides t0 f g n Hf Hg), own_false, Hfind by (done || lia).
  set (n1 := ring_forward _ _ _ _ _).
  assert (Hcfg : n_Config n1 = n_Config n) by (unfold n1, ring_forward; by rewrite wrote_Config).
  assert (Hmem : to_member g n1 = false).
  { rewrite (rides_member f g Hf Hg), <-Hd. apply to_member_ring. unfold n1, ring_forward.
    by rewrite wrote_ringMembers, (rides_src f g Hf Hg). }
  unfold ring_deliver. rewrite Hcfg, Hr2, Hr3, Hmem, shouldForward_all by congruence.
  rewrite (rides_stripped f g Hf Hg). split.
  - rewrite wrote_sent, frames_of_app. unfold n1, ring_forward. rewrite wrote_sent, frames_of_app, <-app_assoc.
    done.
  - rewrite wrote_dupTable. unfold n1, ring_forward. rewrite wrote_dupTable, (rides_src f g Hf Hg).
    apply holding_accepted; [apply Hn|done].
Qed.

(** Any later copy: dropped. *)
Lemma ring_duplicate now p f g n :
  ring_frame f → rides f g → ports_ok n → IsHSRNode (n_Config n) = true → is_lan p = true →
  Find (n_dupTable n) now (mac_of f 6) (tag_seq f) = true →
  ∃ n', handleFrame now (mkEvent p g) n = Ret (tt, n') ∧ n_sent n' = n_sent n ∧
        static n' = static n ∧ n_dupTable n' = n_dupTable n.
Proof.
  intros Hf Hg Hp Hn Hlan Hd. rewrite (ring_step now p f g n) by done.
  eexists. split; [done|]. unfold ring_receive. rewrite (ring_decide_rides now f g n Hf Hg), Hd.
  by destruct (own n f).
Qed.

Lemma ring_duplicates f l : ∀ n,
  ring_frame f → ports_ok n → IsHSRNode (n_Config n) = true →
  Forall (fun a => is_lan (ev_iface a.2) = true ∧ rides f (ev_frame a.2) ∧
                   Find (n_dupTable n) a.1 (mac_of f 6) (tag_seq f) = true) l →
  ∃ n', handle_all l n = Ret (tt, n') ∧ n_sent n' = n_sent n.
Proof.
  induction l as [|[now [p g]] l IH]; intros n Hf Hp Hn Hall; [by exists n|].
  apply Forall_cons in Hall as [(Hlan & Hg & Hd) Hall]. cbn [fst snd ev_iface ev_frame] in *.
  destruct (ring_duplicate now p f g n Hf Hg Hp Hn Hlan Hd) as (n1 & H1 & Hs1 & Hst & Ht).
  rewrite handle_all_cons, H1. destruct (IH n1) as (n' & Hrun & Hs'); try done.
  - by eapply static_ports.
  - by rewrite (static_Config _ _ Hst).
  - by rewrite Ht.
  - exists n'. split; [done|congruence].
Qed.

(** ** Injection *)

(** A SAN frame with at most one VLAN tag. *)
Definition flat (f : bytes) : Prop := ethertype f = Some (w16 f (hdr_len f - 2)).

Section inject.
Context (f : bytes) (path q : Z) (Hf : san_frame f) (Hflat : flat f).
Context (Hpath : 0 <= path < 16) (Hq : is_u16 q).

Let pre := sub f 0 (hdr_len f - 2).
Let pl := sub f (hdr_len f) (glen f).

Lemma inject_bounds : 14 <= hdr_len f <= glen f.
Proof using Hflat. pose proof (ethertype_hdr f _ Hflat). pose proof (hdr_len_bounds f). lia. Qed.

Lemma glen_pre : glen pre = hdr_len f - 2.
Proof using Hflat. pose proof inject_bounds. unfold pre. rewrite glen_sub; lia. Qed.

Lemma glen_pl : glen pl = glen f - hdr_len f.
Proof using Hflat. pose proof inject_bounds. unfold pl. rewrite glen_sub; lia. Qed.

Lemma inject_split : f = pre ++ PutUint16 (encap_type f) ++ pl.
Proof using Hf Hflat.
  pose proof inject_bounds. unfold encap_type. rewrite Hflat.
  change (default 0 (Some (w16 f (hdr_len f - 2)))) with (w16 f (hdr_len f - 2)).
  rewrite PutUint16_w16 by (apply Hf || lia).
  replace (hdr_len f - 2 + 2) with (hdr_len f) by lia. unfold pre, pl.
  rewrite !sub_app_split by lia. by rewrite sub_all.
Qed.

Lemma inject_valid_pre : valid_pre pre.
Proof using Hflat.
  pose proof inject_bounds. pose proof glen_pre as Hg. unfold valid_pre, hdr_len in *.
  destruct (is_vlan f) eqn:Ev; [right|left; lia]. split; [lia|].
  assert (Htp : is_tpid (w16 f 12) = true) by (unfold is_vlan in Ev; by apply andb_true_iff in Ev as [_ ?]).
  rewrite <-Htp. f_equal. apply w16_sub; [lia|]. unfold pre.
  by rewrite (sub_sub f 0 (18 - 2) 12 (12 + 2)) by lia.
Qed.

Lemma inject_proto : is_u16 (encap_type f).
Proof using Hf Hflat.
  unfold encap_type. rewrite Hflat.
  change (default 0 (Some (w16 f (hdr_len f - 2)))) with (w16 f (hdr_len f - 2)).
  apply is_u16_w16, Hf.
Qed.

Lemma inject_body : hsr_body f path q = pre ++ EncodeHSR pl path q (encap_type f) ++ [].
Proof using. unfold hsr_body. by rewrite app_nil_r. Qed.

Lemma inject_size : HSRTagLen + glen pl < 4096.
Proof using Hf Hflat. rewrite glen_pl. destruct Hf as [_ Hs _]. unfold RCTLen, HSRTagLen in *. lia. Qed.

Lemma inject_fields :
  tag_path (hsr_body f path q) = path ∧ tag_seq (hsr_body f path q) = q ∧
  stripped (hsr_body f path q) = f.
Proof using Hf Hflat Hpath Hq.
  rewrite inject_body. pose proof inject_size. pose proof inject_valid_pre. pose proof inject_proto.
  destruct (encoded_fields pre pl [] path q (encap_type f)) as (Ha & _ & Hb & _); try done.
  rewrite Ha, Hb, Z.mod_small by lia. split_and!; try done.
  assert (Hs : Ret (Ok (stripped (pre ++ EncodeHSR pl path q (encap_type f) ++ [])))
               = Ret (Ok (E := hsr_error) f)).
  { rewrite <-(StripHSR_stripped _ _ (DecodeHSR_encoded pre pl [] path q (encap_type f)
      ltac:(done) ltac:(done) ltac:(done) ltac:(done))).
    rewrite StripHSR_encoded by done. by rewrite <-inject_split. }
  congruence.
Qed.

Lemma inject_ring_frame : ring_frame (hsr_body f path q).
Proof using Hf Hflat Hpath Hq.
  rewrite inject_body. pose proof inject_size. pose proof inject_valid_pre. pose proof inject_proto.
  pose proof (DecodeHSR_encoded pre pl [] path q (encap_type f)) as Hd.
  specialize (Hd ltac:(done) ltac:(done) ltac:(done) ltac:(done)).
  apply DecodeHSR_iff in Hd as (? & ? & ? & _). split; try done.
  rewrite !bytes_ok_app. destruct Hf as [Hb _ _]. split_and!; [|apply bytes_ok_EncodeHSR|constructor];
    by apply bytes_ok_sub.
Qed.

Lemma inject_src : mac_of (hsr_body f path q) 6 = mac_of f 6.
Proof using Hf Hflat.
  pose proof inject_bounds. pose proof glen_pre. rewrite inject_body.
  pose proof (mac_of_app pre (PutUint16 (encap_type f) ++ pl) 6 ltac:(lia) ltac:(lia)) as Hm.
  rewrite <-inject_split in Hm. rewrite Hm. apply mac_of_app; lia.
Qed.
End inject.

(** The number under which an interlink frame enters the ring: its own for a
    coupled PRP LAN, a fresh one for a SAN. *)
Definition ring_seq (n : Node) (f : bytes) : option Z :=
  if IsHSRPRPCoupling (n_Config n) then
    match DecodeRCT f with Ret (Ok (_, seq, _)) => Some seq | _ => None end
  else Some (next_seq n (mac_of f 6)).

(** An hsr-san or hsr-prp node. *)
Definition ring_edge (n : Node) : Prop :=
  IsHSRNode (n_Config n) = true ∧ IsHSRHSR (n_Config n) = false.

Lemma ring_edge_san n : role_of (n_Config n) = RoleHSRSan → ring_edge n.
Proof. intros H. destruct (role_flags _ H) as (? & _ & ?). done. Qed.

Lemma ring_edge_coupling n : IsHSRPRPCoupling (n_Config n) = true → ring_edge n.
Proof.
  unfold ring_edge. rewrite IsHSRPRPCoupling_role, IsHSRNode_role, IsHSRHSR_role.
  by destruct (role_of _).
Qed.

Lemma ring_seq_u16 n f q : bytes_ok f → node_ok n → ring_seq n f = Some q → is_u16 q.
Proof.
  intros Hb Hn. unfold ring_seq. destruct (IsHSRPRPCoupling _).
  - destruct (DecodeRCT f) as [[[[lan seq] pl]|]|] eqn:Hd; [|done..].
    apply DecodeRCT_iff in Hd as (_ & _ & _ & _ & -> & _). intros [= <-]. by apply is_u16_w16.
  - intros [= <-]. apply Hn.
Qed.

(** Injecting a frame: both ring ports get it, the table remembers it. *)
Lemma ring_injects now f q n :
  san_frame f → node_ok n → ring_edge n → ring_seq n f = Some q →
  (∀ k e, entries (n_dupTable n) !! k = Some e → LastSeen e < now) →
  let b := hsr_body f (inject_path (n_Config n)) q in
  ∃ n', handleFrame now (mkEvent Interlink f) n = Ret (tt, n') ∧ node_ok n' ∧ static n' = static n ∧
    frames_of (n_sent n') = frames_of (n_sent n) ++ [(LanA, b); (LanB, b)] ∧
    holding now (entryForgetMs (n_Config n)) (mac_of f 6) q 1 (n_dupTable n').
Proof.
  intros Hf Hn [Hr Hq] Hseq Hold b. pose proof (san_len f Hf).
  destruct Hf as [Hb _ (et & He & Hne)]. pose proof (ethertype_hdr f et He) as Hh.
  assert (Hs : sup_dispatched (n_Config n) Interlink f = false).
  { unfold sup_dispatched. rewrite Hq. apply andb_false_r. }
  assert (Hstep : frame_step now Interlink f n = interlink_receive now f n).
  { unfold frame_step. guard_false (glen f <? 14). by rewrite Hs, Hr, Hq. }
  exists (frame_step now Interlink f n). split_and!.
  - apply handleFrame_eq; [done|apply Hn|]. unfold out_of_range. guard_false (glen f <? 14).
    rewrite Hs, Hr, Hq. cbn [is_lan negb]. unfold hdr_len in Hh.
    destruct (is_vlan f); [|by rewrite andb_false_r]. guard_false (glen f <? 18). apply andb_false_r.
  - by apply frame_step_ok.
  - apply static_frame_step.
  - rewrite Hstep. unfold interlink_receive, ring_inject, ring_seq in *.
    cbn [n_Config learned_proxy counted set_proxyTable set_counters].
    destruct (IsHSRPRPCoupling (n_Config n)) eqn:Ec.
    + destruct (DecodeRCT f) as [[[[lan seq] pl]|]|]; [|done..]. injection Hseq as ->.
      rewrite !wrote_sent, !frames_of_app, <-app_assoc. done.
    + injection Hseq as <-. rewrite !wrote_sent, !frames_of_app, <-app_assoc. done.
  - assert (Hd : n_dupTable (frame_step now Interlink f n) =
      InsertWithExpiry (n_dupTable n) now (mac_of f 6) q 0 (entryForgetMs (n_Config n))).
    { rewrite frame_step_table. unfold frame_ops. guard_false (glen f <? 14).
      rewrite Hs, Hr, Hq. cbn [is_lan]. unfold inject_ops, ring_seq in *.
      destruct (IsHSRPRPCoupling (n_Config n)).
      - destruct (DecodeRCT f) as [[[[lan seq] pl]|]|]; [|done..]. by injection Hseq as ->.
      - by injection Hseq as <-. }
    rewrite Hd. apply holding_accepted; [apply Hn|done].
Qed.

(** ** A copy travelling through a row of nodes

    Each node receives the copy on LAN A and the next node gets what it wrote
    on LAN B. *)
Inductive hops : bytes → list (Z * Node) → list Node → bytes → Prop :=
| hops_nil g : hops g [] [] g
| hops_cons g now n n' w rest l l' g' :
    handleFrame now (mkEvent LanA g) n = Ret (tt, n') →
    frames_of (n_sent n') = frames_of (n_sent n) ++ (LanB, w) :: rest →
    hops w l l' g' →
    hops g ((now, n) :: l) (n' :: l') g'.

(** What a ring node has done with [f] after one lap: forwarded it, delivered
    the original once, and from then on drops every further copy. *)
Definition served (f : bytes) (a : Z * Node) (n' : Node) : Prop :=
  (∃ w, rides f w ∧
    frames_of (n_sent n') = frames_of (n_sent a.2) ++ [(LanB, w); (Interlink, stripped f)]) ∧
  ∀ t p g, is_lan p = true → rides f g →
    time_Sub t a.1 <= Milliseconds (entryForgetMs (n_Config a.2)) →
    ∃ n'', handleFrame t (mkEvent p g) n' = Ret (tt, n'') ∧ n_sent n'' = n_sent n'.

Lemma hops_served f l : ∀ g,
  ring_frame f → rides f g →
  Forall (fun a => san_node a.2 f a.1 ∧ Find (n_dupTable a.2) a.1 (mac_of f 6) (tag_seq f) = false) l →
  ∃ l' g', hops g l l' g' ∧ Forall2 (served f) l l' ∧ rides f g'.
Proof.
  induction l as [|[now n] l IH]; intros g Hf Hg Hall.
  { exists [], g. split_and!; [constructor|constructor|done]. }
  apply Forall_cons in Hall as [[Hn Hd] Hall]. cbn [fst snd] in *.
  destruct (san_accepts now LanA f g n Hf Hg Hn eq_refl Hd) as (n' & Hh & Hok & Hst & Hsent & Hhold).
  change (other_port LanA) with LanB in Hsent.
  destruct (IH (lane_frame LanB g) Hf (rides_lane f g LanB Hg) Hall) as (l' & g' & Hhops & Hserv & Hg').
  exists (n' :: l'), g'. split_and!; [by econstructor| |done].
  constructor; [|done]. pose proof (static_Config _ _ Hst) as Hc. split; cbn [fst snd].
  - exists (lane_frame LanB g). split; [by apply rides_lane|done].
  - intros t p g2 Hp Hg2 Ht.
    destruct (ring_duplicate t p f g2 n' Hf Hg2) as (n2 & ? & ? & _); try done.
    + apply Hok.
    + rewrite Hc. destruct Hn as [_ Hrole _ _ _ _]. by destruct (role_flags _ Hrole).
    + by eapply holding_Find.
    + by exists n2.
Qed.

(** The verdict of a coupling RedBox on a frame of its own PRP network. *)
Lemma coupling_same_net now p f g n :
  ring_frame f → rides f g → ports_ok n → IsHSRPRPCoupling (n_Config n) = true → is_lan p = true →
  tag_path f / 2 = NetID (n_Config n) →
  ∃ n', handleFrame now (mkEvent p g) n = Ret (tt, n') ∧
    (n_sent n' = n_sent n ∨
     frames_of (n_sent n') = frames_of (n_sent n) ++ [(other_port p, lane_frame (other_port p) g)]).
Proof.
  intros Hf Hg Hp Hc Hlan Hnet. destruct (ring_edge_coupling n Hc) as [Hr _].
  rewrite (ring_step now p f g n) by done. eexists. split; [done|].
  unfold ring_receive. rewrite (ring_decide_rides now f g n Hf Hg).
  destruct (own n f); [by left|]. destruct (Find _ _ _ _); [by left|]. right.
  set (n1 := ring_forward _ _ _ _ _).
  assert (Hcfg : n_Config n1 = n_Config n) by (unfold n1, ring_forward; by rewrite wrote_Config).
  unfold ring_deliver. rewrite Hcfg, Hc. rewrite (rd_net f g Hg), Hnet, Z.eqb_refl. cbn [negb].
  assert (Hs : frames_of (n_sent n1) = frames_of (n_sent n) ++ [(other_port p, lane_frame (other_port p) g)]).
  { unfold n1, ring_forward. by rewrite wrote_sent, frames_of_app. }
  by destruct (_ =? _).
Qed.

(** ** Two rings: the QuadBox *)

Lemma quad_is_ring c : IsHSRHSR c = true → IsHSRNode c = true.
Proof. rewrite IsHSRHSR_role, IsHSRNode_role. by destruct (role_of c). Qed.

(** Handling a frame from the other ring. *)
Lemma quad_step now f g n :
  ring_frame f → rides f g → ports_ok n → IsHSRHSR (n_Config n) = true →
  handleFrame now (mkEvent Interlink g) n = Ret (tt, quad_receive now g n).
Proof.
  intros Hf Hg Hp Hq. pose proof (rides_bounds f g Hf Hg).
  assert (Hs : sup_dispatched (n_Config n) Interlink g = false).
  { unfold sup_dispatched. rewrite encap_tagged by apply Hg. done. }
  rewrite handleFrame_eq; [|apply Hg|done|].
  - unfold frame_step. guard_false (glen g <? 14). by rewrite Hs, (quad_is_ring _ Hq), Hq.
  - unfold out_of_range. guard_false (glen g <? 14). by rewrite Hs, (quad_is_ring _ Hq), Hq.
Qed.

Lemma quad_duplicates f l : ∀ n,
  ring_frame f → ports_ok n → IsHSRHSR (n_Config n) = true →
  Forall (fun a => rides f (ev_frame a.2) ∧
                   Find (n_dupTable n) a.1 (mac_of f 6) (tag_seq f) = true) l →
  ∃ n', handle_all l n = Ret (tt, n') ∧ n_sent n' = n_sent n.
Proof.
  induction l as [|[now [p g]] l IH]; intros n Hf Hp Hq Hall; [by exists n|].
  apply Forall_cons in Hall as [(Hg & Hd) Hall]. cbn [fst snd ev_iface ev_frame] in *.
  assert (H1 : ∃ n1, handleFrame now (mkEvent p g) n = Ret (tt, n1) ∧ n_sent n1 = n_sent n ∧
                     static n1 = static n ∧ n_dupTable n1 = n_dupTable n).
  { destruct (is_lan p) eqn:Hlan; [by apply (ring_duplicate now p f g n Hf Hg Hp (quad_is_ring _ Hq))|].
    destruct p; try done. rewrite (quad_step now f g n) by done. eexists. split; [done|].
    unfold quad_receive. rewrite (ring_decide_rides now f g (counted Interlink In n) Hf Hg).
    change (n_dupTable (counted Interlink In n)) with (n_dupTable n). rewrite Hd. by destruct (own _ f). }
  destruct H1 as (n1 & H1 & Hs1 & Hst & Ht). rewrite handle_all_cons, H1.
  destruct (IH n1) as (n' & Hrun & Hs'); try done.
  - by eapply static_ports.
  - by rewrite (static_Config _ _ Hst).
  - by rewrite Ht.
  - exists n'. split; [done|congruence].
Qed.

(** ** Properties *)

(** C7: HSR exactly once, byte for byte.  A SAN frame with at most one VLAN tag
    entering an hsr-san RedBox is sent on both ring ports; another hsr-san
    RedBox that has not seen it delivers to its SAN exactly the original frame,
    exactly once, for every non-empty sequence of arrivals of copies on either
    ring port after any number of hops, and forwards only the first. *)
Theorem hsr_exactly_once (now t0 : Z) (f g0 : bytes) (s r : Node) (p0 : port)
    (l : list (Z * frameEvent)) :
  san_frame f → flat f → node_ok s → role_of (n_Config s) = RoleHSRSan →
  (∀ k e, entries (n_dupTable s) !! k = Some e → LastSeen e < now) →
  let q := next_seq s (mac_of f 6) in
  let b := hsr_body f 0 q in
  san_node r b t0 → Find (n_dupTable r) t0 (mac_of f 6) q = false →
  is_lan p0 = true → rides b g0 →
  Forall (fun a => is_lan (ev_iface a.2) = true ∧ rides b (ev_frame a.2) ∧
                   time_Sub a.1 t0 <= Milliseconds (entryForgetMs (n_Config r))) l →
  ∃ s' r',
    handleFrame now (mkEvent Interlink f) s = Ret (tt, s') ∧
    frames_of (n_sent s') = frames_of (n_sent s) ++ [(LanA, b); (LanB, b)] ∧
    handle_all ((t0, mkEvent p0 g0) :: l) r = Ret (tt, r') ∧
    frames_of (n_sent r') =
      frames_of (n_sent r) ++ [(other_port p0, lane_frame (other_port p0) g0); (Interlink, f)].
Proof.
  intros Hf Hflat Hs Hsr Hold q b Hr Hfind Hp0 Hg0 Hall.
  assert (Hq : is_u16 q) by apply Hs. destruct (role_flags _ Hsr) as (_ & Hnc & _).
  assert (Hb : ring_frame b) by (apply inject_ring_frame; done || lia).
  destruct (inject_fields f 0 q) as (_ & Htq & Hstrip); [done|done|lia|done|].
  fold b in Htq, Hstrip.
  assert (Hsrc : mac_of b 6 = mac_of f 6) by by apply inject_src.
  destruct (ring_injects now f q s) as (s' & Hh & _ & _ & Hsent & _); try done.
  { by apply ring_edge_san. }
  { unfold ring_seq. by rewrite Hnc. }
  unfold inject_path in Hsent. rewrite Hnc in Hsent.
  destruct (san_accepts t0 p0 b g0 r Hb Hg0 Hr Hp0) as (r1 & Hh1 & Hok1 & Hst1 & Hsent1 & Hhold).
  { by rewrite Htq, Hsrc. }
  pose proof (static_Config _ _ Hst1) as Hc1.
  destruct (ring_duplicates b l r1 Hb) as (r' & Hrun & Hsent').
  - apply Hok1.
  - rewrite Hc1. by destruct (role_flags _ (sn_role _ _ _ Hr)).
  - eapply Forall_impl; [exact Hall|]. cbn. intros a (? & ? & ?). split_and!; try done.
    by eapply holding_Find.
  - exists s', r'. split_and!; [done|done| |].
    + by rewrite handle_all_cons, Hh1.
    + by rewrite Hsent', Hsent1, Hstrip.
Qed.

(** C3: One lap around the ring.  A SAN frame injected by one hsr-san RedBox and
    carried through any row of fresh hsr-san RedBoxes is delivered by each of
    them exactly once and unchanged; every node, however the counter-rotating
    copy reaches it, drops all further copies without forwarding; and the
    originator removes the copy that comes back. *)
Theorem ring_lap (now t2 : Z) (f : bytes) (s : Node) (l : list (Z * Node)) :
  san_frame f → flat f → node_ok s → role_of (n_Config s) = RoleHSRSan →
  (∀ k e, entries (n_dupTable s) !! k = Some e → LastSeen e < now) →
  time_Sub t2 now <= Milliseconds (entryForgetMs (n_Config s)) →
  let q := next_seq s (mac_of f 6) in
  let b := hsr_body f 0 q in
  Forall (fun a => san_node a.2 b a.1 ∧ Find (n_dupTable a.2) a.1 (mac_of f 6) q = false) l →
  ∃ s' l' g' s'',
    handleFrame now (mkEvent Interlink f) s = Ret (tt, s') ∧
    frames_of (n_sent s') = frames_of (n_sent s) ++ [(LanA, b); (LanB, b)] ∧
    hops b l l' g' ∧ Forall2 (served b) l l' ∧ stripped b = f ∧
    handleFrame t2 (mkEvent LanA g') s' = Ret (tt, s'') ∧ n_sent s'' = n_sent s'.
Proof.
  intros Hf Hflat Hs Hsr Hold Ht q b Hall.
  assert (Hq : is_u16 q) by apply Hs. destruct (role_flags _ Hsr) as (Hhn & Hnc & _).
  assert (Hb : ring_frame b) by (apply inject_ring_frame; done || lia).
  destruct (inject_fields f 0 q) as (_ & Htq & Hstrip); [done|done|lia|done|].
  fold b in Htq, Hstrip.
  assert (Hsrc : mac_of b 6 = mac_of f 6) by by apply inject_src.
  destruct (ring_injects now f q s) as (s' & Hh & Hok & Hst & Hsent & Hhold); try done.
  { by apply ring_edge_san. }
  { unfold ring_seq. by rewrite Hnc. }
  unfold inject_path in Hsent. rewrite Hnc in Hsent.
  destruct (hops_served b l b Hb (rides_refl b Hb)) as (l' & g' & Hhops & Hserv & Hg').
  { eapply Forall_impl; [exact Hall|]. intros a [? ?]. by rewrite Htq, Hsrc. }
  destruct (ring_duplicate t2 LanA b g' s' Hb Hg') as (s'' & Hh2 & Hs2 & _); try done.
  - apply Hok.
  - by rewrite (static_Config _ _ Hst).
  - rewrite Htq, Hsrc. by eapply holding_Find.
  - by exists s', l', g', s''.
Qed.

(** C20: No reinjection.  A frame put on the ring by a coupling RedBox of some
    PRP network is never written to the PRP LAN of another coupling RedBox of
    the same network, whichever LAN either serves and after any number of ring
    hops: at most the ring forward is sent. *)
Theorem coupling_no_reinjection (now : Z) (p : port) (c : Config) (f g : bytes) (q : Z) (n : Node) :
  san_frame f → flat f → is_u16 q →
  IsHSRPRPCoupling c = true → 1 <= c_NetID c <= 6 →
  node_ok n → IsHSRPRPCoupling (n_Config n) = true → c_NetID (n_Config n) = c_NetID c →
  is_lan p = true → rides (hsr_body f (inject_path c) q) g →
  ∃ n', handleFrame now (mkEvent p g) n = Ret (tt, n') ∧
    (n_sent n' = n_sent n ∨
     frames_of (n_sent n') = frames_of (n_sent n) ++ [(other_port p, lane_frame (other_port p) g)]).
Proof.
  intros Hf Hflat Hq Hc Hnet Hn Hcn Hsame Hp Hg. unfold inject_path in Hg. rewrite Hc in Hg.
  pose proof (LanID_cases c) as Hlan. pose proof (PathId_eq c) as HP.
  assert (HN : NetID c = c_NetID c) by (unfold NetID; rewrite Hc; by guard_true (true && (c_NetID c >? 0))).
  assert (HN' : NetID (n_Config n) = c_NetID c).
  { unfold NetID. rewrite Hcn, Hsame. by guard_true (true && (c_NetID c >? 0)). }
  destruct (inject_fields f (PathId c) q) as (Hpath & _ & _); [done|done|lia|done|].
  apply (coupling_same_net now p (hsr_body f (PathId c) q) g n); try done.
  - apply inject_ring_frame; done || lia.
  - apply Hn.
  - rewrite Hpath, HN'. zlia.
Qed.

(** C21: The coupling bridges ring and PRP network.  A SAN frame an hsr-san
    RedBox put on the ring with number q leaves a coupling RedBox, which has
    not seen it, on its PRP LAN as exactly the copy a PRP RedBox would send
    there: the original frame with a trailer carrying the same number q and
    the LAN ID, which receivers decode; so the copies of the two coupling
    RedBoxes (LAN A and LAN B) form one PRP pair. *)
Theorem coupling_bridges (now : Z) (p : port) (f g : bytes) (q : Z) (n : Node) :
  san_frame f → flat f → is_u16 q →
  node_ok n → IsHSRPRPCoupling (n_Config n) = true → n_mac n ≠ Some (sub f 6 12) →
  Find (n_dupTable n) now (mac_of f 6) q = false →
  is_lan p = true → rides (hsr_body f 0 q) g →
  ∃ n', handleFrame now (mkEvent p g) n = Ret (tt, n') ∧
    frames_of (n_sent n') = frames_of (n_sent n) ++
      [(other_port p, lane_frame (other_port p) g); (Interlink, trailed f q (LanID (n_Config n)))] ∧
    DecodeRCT (trailed f q (LanID (n_Config n))) = Ret (Ok (LanID (n_Config n), q, pad f)).
Proof.
  intros Hf Hflat Hq Hn Hc Hm Hd Hp Hg. pose proof (san_len f Hf).
  assert (Hb : ring_frame (hsr_body f 0 q)) by (apply inject_ring_frame; done || lia).
  destruct (inject_fields f 0 q) as (Hpath & Hseq & Hstrip); [done|done|lia|done|].
  assert (Hsrc : mac_of (hsr_body f 0 q) 6 = mac_of f 6) by by apply inject_src.
  assert (Hsub : sub (hsr_body f 0 q) 6 12 = sub f 6 12).
  { pose proof (inject_bounds f Hflat). unfold hsr_body.
    rewrite sub_app_inner by (rewrite ?glen_sub; lia).
    rewrite (sub_sub f 0 (hdr_len f - 2) 6 12) by lia. done. }
  pose proof (rides_bounds _ g Hb Hg).
  rewrite (ring_step now p (hsr_body f 0 q) g n) by (done || apply Hn || by apply ring_edge_coupling).
  eexists. split; [done|]. unfold ring_receive. rewrite (ring_decide_rides now _ g n Hb Hg).
  rewrite own_false, Hseq, Hsrc, Hd by (rewrite ?Hsub; done || lia).
  set (n1 := ring_forward _ _ _ _ _).
  assert (Hcfg : n_Config n1 = n_Config n) by (unfold n1, ring_forward; by rewrite wrote_Config).
  unfold ring_deliver. rewrite Hcfg, Hc, (rd_net _ g Hg), Hpath.
  pose proof (NetID_pos (n_Config n)). change (0 / 2) with 0. guard_false (0 =? NetID (n_Config n)).
  cbn [negb]. rewrite (rides_stripped _ g Hb Hg), Hstrip. split.
  - rewrite wrote_sent, frames_of_app. unfold n1, ring_forward.
    rewrite wrote_sent, frames_of_app, <-app_assoc. done.
  - rewrite decode_trailed by (done || apply LanID_cases). destruct Hf as [_ Hsz _].
    rewrite lsdu_eq. pose proof (min_len_bounds f). pose proof (hdr_len_bounds f).
    unfold RCTLen in *. by guard_true (Z.max (glen f) (min_len f) + 6 - hdr_len f <? 4096).
Qed.

(** C22: A QuadBox injects once.  A frame from the other ring that an hsr-hsr
    node has not seen is sent on both ports of its ring as one frame with path
    0 and otherwise the same contents; every further copy within the entry
    lifetime, from the other ring or returning on this one, is dropped without
    being sent anywhere. *)
Theorem quadbox_exactly_once (t0 : Z) (f g0 : bytes) (n : Node) (l : list (Z * frameEvent)) :
  ring_frame f → rides f g0 → node_ok n → IsHSRHSR (n_Config n) = true →
  n_mac n ≠ Some (sub f 6 12) →
  (∀ k e, entries (n_dupTable n) !! k = Some e → LastSeen e < t0) →
  Find (n_dupTable n) t0 (mac_of f 6) (tag_seq f) = false →
  Forall (fun a => rides f (ev_frame a.2) ∧
                   time_Sub a.1 t0 <= Milliseconds (entryForgetMs (n_Config n))) l →
  ∃ n' w,
    handle_all ((t0, mkEvent Interlink g0) :: l) n = Ret (tt, n') ∧
    frames_of (n_sent n') = frames_of (n_sent n) ++ [(LanA, w); (LanB, w)] ∧
    DecodeHSR w = Ret (Ok (0, tag_seq f, tag_proto f, tag_payload f)) ∧
    stripped w = stripped f.
Proof.
  intros Hf Hg Hn Hq Hm Hold Hd Hall. pose proof (rides_bounds f g0 Hf Hg).
  set (w := retag g0 (path_word (tag_word g0) 0)).
  set (n1 := wrote LanB w (wrote LanA w (accepted t0 (mac_of f 6) (tag_seq f) 0 (counted Interlink In n)))).
  assert (H1 : quad_receive t0 g0 n = n1).
  { unfold quad_receive. rewrite (ring_decide_rides t0 f g0 (counted Interlink In n) Hf Hg).
    change (n_dupTable (counted Interlink In n)) with (n_dupTable n).
    rewrite own_false, Hd by (done || lia). by rewrite (rides_src f g0 Hf Hg). }
  pose proof (rides_decode f g0 Hf Hg) as Hdec. pose proof (rd_tagged f g0 Hg) as Hgt.
  assert (Hmod : path_word (tag_word g0) 0 mod 4096 = tag_lsdu g0) by (unfold path_word, tag_lsdu; zlia).
  assert (Hw : DecodeHSR w = Ret (Ok (0, tag_seq f, tag_proto f, tag_payload f))).
  { unfold w. rewrite (DecodeHSR_retag g0 _ Hgt (is_u16_path_word _ _) _ _ _ _ Hmod Hdec).
    do 5 f_equal. unfold path_word. zlia. }
  destruct (quad_duplicates f l n1 Hf) as (n' & Hrun & Hsent).
  - unfold n1. do 2 apply ports_ok_wrote. by destruct Hn.
  - unfold n1. by rewrite !wrote_Config.
  - eapply Forall_impl; [exact Hall|]. cbn. intros a [? Ht]. split; [done|].
    eapply holding_Find; [|exact Ht]. unfold n1. rewrite !wrote_dupTable.
    apply holding_accepted; [apply Hn|done].
  - exists n', w. split_and!; [|..].
    + rewrite handle_all_cons, (quad_step t0 f g0 n) by (done || apply Hn). by rewrite H1.
    + rewrite Hsent. unfold n1. rewrite !wrote_sent, !frames_of_app, <-app_assoc. done.
    + done.
    + rewrite <-(rides_stripped f g0 Hf Hg). unfold stripped, w. rewrite retag_off by done.
      rewrite tag_proto_retag, tag_payload_retag, retag_macs
        by (done || apply is_u16_path_word || (pose proof (retag_bounds g0 Hgt); lia)). done.
Qed.
End ring.

(** *** Concrete instances *)

#[local] Existing Instance sorted_range.
#[local] Existing Instance demo_env.

Lemma demo_frame_flat : flat demo_frame.
Proof. vm_compute. reflexivity. Qed.

Definition demo_s : Node := demo_node "hsr-san" "" 0 [2; 0; 0; 0; 0; 0x0a].
Definition demo_r : Node := demo_node "hsr-san" "" 0 [2; 0; 0; 0; 0; 0x0b].

(** The frame [demo_s] injects, and the same frame one hop later. *)
Definition demo_body : bytes := hsr_body demo_frame 0 65535.
Definition demo_hop : bytes := lane_frame LanB demo_body.

Lemma demo_body_ring : ring_frame demo_body.
Proof. apply inject_ring_frame; [exact demo_frame_san|exact demo_frame_flat|lia|split; lia]. Qed.

Lemma demo_body_rides : rides demo_body demo_body.
Proof. exact (rides_refl _ demo_body_ring). Qed.

Lemma demo_hop_rides : rides demo_body demo_hop.
Proof. apply rides_lane, demo_body_rides. Qed.

Lemma demo_empty k e role lan net mac :
  entries (n_dupTable (demo_node role lan net mac)) !! k = Some e → LastSeen e < 0.
Proof. intros H. cbn in H. by rewrite lookup_empty in H. Qed.

Lemma demo_r_san t0 : 0 <= t0 → san_node demo_r demo_body t0.
Proof.
  intros Ht. split; [apply demo_node_ok|done|done|discriminate|vm_compute; reflexivity|].
  intros k e He. apply demo_empty in He. lia.
Qed.

Lemma hsr_exactly_once_witness :
  ∃ s' r',
    handleFrame 0 (mkEvent Interlink demo_frame) demo_s = Ret (tt, s') ∧
    frames_of (n_sent s') = [(LanA, demo_body); (LanB, demo_body)] ∧
    handle_all [(10, mkEvent LanA demo_hop); (11, mkEvent LanB demo_body)] demo_r = Ret (tt, r') ∧
    frames_of (n_sent r') = [(LanB, lane_frame LanB demo_hop); (Interlink, demo_frame)].
Proof.
  apply (hsr_exactly_once 0 10 demo_frame demo_hop demo_s demo_r LanA [(11, mkEvent LanB demo_body)]).
  - exact demo_frame_san.
  - exact demo_frame_flat.
  - apply demo_node_ok.
  - reflexivity.
  - intros k e. apply demo_empty.
  - apply demo_r_san. lia.
  - vm_compute. reflexivity.
  - reflexivity.
  - exact demo_hop_rides.
  - constructor; [|constructor].
    split; [reflexivity|split; [exact demo_body_rides|vm_compute; discriminate]].
Defined.

Lemma ring_lap_witness :
  ∃ s' l' g' s'',
    handleFrame 0 (mkEvent Interlink demo_frame) demo_s = Ret (tt, s') ∧
    frames_of (n_sent s') = [(LanA, demo_body); (LanB, demo_body)] ∧
    hops demo_body [(10, demo_r); (20, demo_r)] l' g' ∧
    Forall2 (served demo_body) [(10, demo_r); (20, demo_r)] l' ∧ stripped demo_body = demo_frame ∧
    handleFrame 30 (mkEvent LanA g') s' = Ret (tt, s'') ∧ n_sent s'' = n_sent s'.
Proof.
  apply (ring_lap 0 30 demo_frame demo_s [(10, demo_r); (20, demo_r)]).
  - exact demo_frame_san.
  - exact demo_frame_flat.
  - apply demo_node_ok.
  - reflexivity.
  - intros k e. apply demo_empty.
  - vm_compute. discriminate.
  - apply Forall_cons_2; [split; [exact (demo_r_san 10 ltac:(lia))|vm_compute; reflexivity]|].
    apply Forall_cons_2; [split; [exact (demo_r_san 20 ltac:(lia))|vm_compute; reflexivity]|apply Forall_nil_2].
Defined.

Lemma coupling_no_reinjection_witness :
  let b := hsr_body demo_frame (inject_path (demo_config "hsr-prp" "A" 3)) 7 in
  let n := demo_node "hsr-prp" "B" 3 [2; 0; 0; 0; 0; 0x0c] in
  ∃ n', handleFrame 5 (mkEvent LanB b) n = Ret (tt, n') ∧
    (n_sent n' = n_sent n ∨
     frames_of (n_sent n') = frames_of (n_sent n) ++ [(LanA, lane_frame LanA b)]).
Proof.
  intros b n. apply (coupling_no_reinjection 5 LanB (demo_config "hsr-prp" "A" 3) demo_frame b 7 n).
  - exact demo_frame_san.
  - exact demo_frame_flat.
  - split; lia.
  - reflexivity.
  - cbn. lia.
  - apply demo_node_ok.
  - reflexivity.
  - reflexivity.
  - reflexivity.
  - apply rides_refl, inject_ring_frame; [exact demo_frame_san|exact demo_frame_flat| |split; lia].
    split; vm_compute; [discriminate|reflexivity].
Defined.

Lemma coupling_bridges_witness :
  let n := demo_node "hsr-prp" "B" 3 [2; 0; 0; 0; 0; 0x0c] in
  ∃ n', handleFrame 5 (mkEvent LanB demo_body) n = Ret (tt, n') ∧
    frames_of (n_sent n') =
      [(LanA, lane_frame LanA demo_body); (Interlink, trailed demo_frame 65535 1)] ∧
    DecodeRCT (trailed demo_frame 65535 1) = Ret (Ok (1, 65535, pad demo_frame)).
Proof.
  intros n. apply (coupling_bridges 5 LanB demo_frame demo_body 65535 n);
    [exact demo_frame_san|exact demo_frame_flat|split; lia|apply demo_node_ok|reflexivity|discriminate|
     vm_compute; reflexivity|reflexivity|exact demo_body_rides].
Defined.

Lemma quadbox_exactly_once_witness :
  let n := demo_node "hsr-hsr" "" 0 [2; 0; 0; 0; 0; 0x0d] in
  ∃ n' w,
    handle_all [(10, mkEvent Interlink demo_hop); (11, mkEvent LanA demo_body)] n = Ret (tt, n') ∧
    frames_of (n_sent n') = [(LanA, w); (LanB, w)] ∧
    DecodeHSR w = Ret (Ok (0, 65535, 0x0800, zeros 28)) ∧ stripped w = stripped demo_body.
Proof.
  intros n. apply (quadbox_exactly_once 10 demo_body demo_hop n [(11, mkEvent LanA demo_body)]).
  - exact demo_body_ring.
  - exact demo_hop_rides.
  - apply demo_node_ok.
  - reflexivity.
  - discriminate.
  - intros k e He. apply demo_empty in He. lia.
  - vm_compute. reflexivity.
  - apply Forall_cons_2; [split; [exact demo_body_rides|vm_compute; discriminate]|apply Forall_nil_2].
Defined.
