(* ===== verification/Peers.v ===== *)
(** * Peers: what a node remembers about other nodes

    Three tables of a node map addresses to the time they were last heard:
    the peers of supervision frames, the members of the ring and the SANs
    behind the interlink.  Each is the history of the node's inputs: an entry
    is the last hearing of its address, unless a clean-up has found it
    too old since.  The two places where the code does not do this are stated
    as they are: ring members are kept while no peer is alive, and SANs are
    kept for ever ([src/internal/prp/prp.go], [src/internal/prp/hsr.go]). *)

From stdpp Require Import sorting.
From S2P Require Import Prelude Engine Hsr NodeTable Supervision Role Pattern Node PrpPath HsrPath Dispatch Redundancy.

(** ** Tables of last hearings *)

(** What an input does to a table: nothing, an address is heard now, or the
    entries older than a cutoff go. *)
Inductive peer_op := Unchanged | Heard (mac : string) | Pruned (cutoff : Z).

Section table.
Context {MR : MapRange} {E : Env}.

Definition peer_apply (now : Z) (o : peer_op) (m : gmap string Z) : gmap string Z :=
  match o with
  | Unchanged => m
  | Heard mac => <[mac := now]> m
  | Pruned cutoff => (delete_where (fun last => last <? cutoff) m).1
  end.

Definition input_ok (i : input) : Prop :=
  match i with Received ev => bytes_ok (ev_frame ev) | _ => True end.

(** A table of the node and what inputs do to it. *)
Context (T : Node → gmap string Z) (op : Z → input → Node → peer_op).
Context (Hop : ∀ now i n n', node_ok n → input_ok i → step now i n = Ret n' → T n' = peer_apply now (op now i n) (T n)).

(** Nothing in [l], handled from [n] on, replaces or removes the entry of
    [mac] that was made at [t]. *)
Fixpoint kept (mac : string) (t : Z) (l : list (Z * input)) (n : Node) : Prop :=
  match l with
  | [] => True
  | (now, i) :: l =>
      op now i n ≠ Heard mac ∧ (∀ c, op now i n = Pruned c → c <= t) ∧
      ∀ n', step now i n = Ret n' → kept mac t l n'
  end.

Lemma peer_apply_Some now o m mac t :
  peer_apply now o m !! mac = Some t ↔
  (o = Heard mac ∧ t = now) ∨ (o ≠ Heard mac ∧ (∀ c, o = Pruned c → c <= t) ∧ m !! mac = Some t).
Proof.
  destruct o as [|mac'|c]; cbn [peer_apply].
  - split; [intros ?; right; by split_and!|]. by intros [[? _]|(_ & _ & ?)].
  - destruct (decide (mac' = mac)) as [->|Hne].
    + rewrite lookup_insert_eq. split; [intros [= ->]; by left|]. by intros [[_ ->]|(? & _)].
    + rewrite lookup_insert_ne by done. split; [intros ?; right; split_and!; congruence|].
      intros [[? _]|(_ & _ & ?)]; congruence.
  - rewrite delete_where_lookup. split.
    + destruct (m !! mac) as [v|]; [|discriminate]. cbn. destruct (Z.ltb_spec v c); [discriminate|].
      intros [= <-]. right. split_and!; [done| |done]. by intros c' [= <-].
    + intros [[? _]|(_ & Hc & ->)]; [done|]. cbn. specialize (Hc c eq_refl). by guard_false (t <? c).
Qed.

(** The table after any inputs: an entry is the last hearing that was not
    pruned, or an entry from before that was neither. *)
Lemma table_history l : ∀ n n' mac t,
  node_ok n → Forall (fun a => input_ok a.2) l → run_inputs l n = Ret n' →
  T n' !! mac = Some t ↔
  (T n !! mac = Some t ∧ kept mac t l n) ∨
  ∃ pre i post n1 n2, l = pre ++ (t, i) :: post ∧ run_inputs pre n = Ret n1 ∧
    op t i n1 = Heard mac ∧ step t i n1 = Ret n2 ∧ kept mac t post n2.
Proof.
  induction l as [|[now i] l IH]; intros n n' mac t Hn Hl; cbn [run_inputs kept].
  { intros [= <-]. split; [by left|]. intros [[? _]|(pre & ? & ? & ? & ? & He & _)]; [done|by destruct pre]. }
  apply Forall_cons in Hl as [Hi Hl]. cbn [snd] in Hi.
  destruct (step now i n) as [n0|] eqn:Es; cbn [go_bind]; [|discriminate]. intros Hr.
  destruct (step_returned now i n n0 Hn Hi Es) as (Hn0 & _ & _).
  rewrite (IH n0 n' mac t Hn0 Hl Hr), (Hop now i n n0 Hn Hi Es), peer_apply_Some. split.
  - intros [[[[Ho ->]|(Hne & Hp & Ht)] Hk]|(pre & j & post & n1 & n2 & -> & Hpre & Hj & Hs & Hk)].
    + right. exists [], i, l, n, n0. by split_and!.
    + left. split; [done|]. split_and!; [done..|]. by intros n1 [= <-].
    + right. exists ((now, i) :: pre), j, post, n1, n2. split_and!; [done| |done..]. cbn [run_inputs]. by rewrite Es.
  - intros [(Ht & Hne & Hp & Hk)|(pre & j & post & n1 & n2 & He & Hpre & Hj & Hs & Hk)].
    + left. split; [right; by split_and!|by apply Hk].
    + destruct pre as [|[now' i'] pre]; cbn [app] in He; injection He as -> -> ->.
      * cbn [run_inputs] in Hpre. injection Hpre as <-. rewrite Es in Hs. injection Hs as <-. left. split; [by left|done].
      * right. cbn [run_inputs] in Hpre. rewrite Es in Hpre. exists pre, j, post, n1, n2. by split_and!.
Qed.
End table.

(** ** The tables of a node *)

Section peers.
Context {MR : MapRange} {E : Env}.

(** The peer a frame is a supervision frame of. *)
Definition sup_heard (c : Config) (p : port) (f : bytes) : option string :=
  if glen f <? 14 then None
  else if sup_dispatched c p f then
    match Parse f with Ret (Some sup) => Some (f_SrcMAC sup) | _ => None end
  else None.

(** Clean-up forgets what was last heard before this time. *)
Definition cutoff (now : Z) (n : Node) : Z := now + i64 (- n_supervisionForget n).

Definition seen_op (now : Z) (i : input) (n : Node) : peer_op :=
  match i with
  | Received ev => match sup_heard (n_Config n) (ev_iface ev) (ev_frame ev) with Some mac => Heard mac | None => Unchanged end
  | CleanupTimer => Pruned (cutoff now n)
  | SupervisionTicker => Unchanged
  end.

(** A ring member: a supervision frame on the ring, or a fresh foreign frame
    on it.  Clean-up does nothing while no peer is alive. *)
Definition member_op (now : Z) (i : input) (n : Node) : peer_op :=
  match i with
  | Received (mkEvent p f) =>
      if glen f <? 14 then Unchanged
      else if sup_dispatched (n_Config n) p f then
        match sup_heard (n_Config n) p f with
        | Some mac => if IsHSRNode (n_Config n) && is_lan p then Heard mac else Unchanged
        | None => Unchanged
        end
      else if IsHSRNode (n_Config n) && is_lan p then
        match ring_decide now f (counted p In n) with RingAccept _ _ _ => Heard (mac_of f 6) | _ => Unchanged end
      else Unchanged
  | CleanupTimer => if Z.of_nat (size (n_supervisionSeen n)) =? 0 then Unchanged else Pruned (cutoff now n)
  | SupervisionTicker => Unchanged
  end.

(** A SAN: any frame on the interlink of a node that is not a QuadBox and
    that passes the VLAN filter.  Clean-up leaves the table alone. *)
Definition proxy_op (now : Z) (i : input) (n : Node) : peer_op :=
  match i with
  | Received (mkEvent p f) =>
      if (glen f <? 14) || sup_dispatched (n_Config n) p f || is_lan p then Unchanged
      else if IsHSRNode (n_Config n) then
        if IsHSRHSR (n_Config n) then Unchanged else Heard (mac_of f 6)
      else if vlan_pass (n_Config n) f then Heard (mac_of f 6) else Unchanged
  | _ => Unchanged
  end.

(** An operation that only inputs of frames cause. *)
Lemma step_received now p f n n' :
  node_ok n → bytes_ok f → step now (Received (mkEvent p f)) n = Ret n' → n' = frame_step now p f n.
Proof.
  intros Hn Hb. cbn [step]. destruct (out_of_range p f n) eqn:Er; [by rewrite handleFrame_panic|].
  rewrite handleFrame_eq by (done || apply Hn). by intros [= <-].
Qed.

Lemma step_ticker now n n' :
  node_ok n → step now SupervisionTicker n = Ret n' → learned_tables n' = learned_tables n.
Proof.
  intros Hn. cbn [step]. destruct (SendSupervisionFrame_eq n) as (n1 & -> & _ & _ & _ & _ & _ & Hl); [apply Hn|].
  cbn [go_bind snd]. by intros [= <-].
Qed.

Lemma prune_empty {V} (P : V → bool) (m : gmap string V) : size m = 0%nat → (delete_where P m).1 = m.
Proof. intros Hm. apply map_size_empty_inv in Hm as ->. apply map_eq. intros k. by rewrite delete_where_lookup, lookup_empty. Qed.

Lemma seen_step now i n n' :
  node_ok n → input_ok i → step now i n = Ret n' →
  n_supervisionSeen n' = peer_apply now (seen_op now i n) (n_supervisionSeen n).
Proof.
  intros Hn Hi Hs. destruct i as [[p f]| |].
  - rewrite (step_received now p f n n' Hn Hi Hs). cbn [seen_op ev_iface ev_frame]. unfold frame_step, sup_heard.
    destruct (glen f <? 14); [done|]. destruct (sup_dispatched _ _ _).
    + unfold sup_relayed, sup_receive, sup_learned. destruct (Parse f) as [[sup|]|]; repeat case_match; by node_simpl.
    + unfold ring_receive, ring_deliver, ring_forward, quad_receive, interlink_receive, ring_inject, prp_receive,
        delivered, prp_inject, learned_member, learned_proxy, took_seq.
      repeat case_match; by node_simpl.
  - injection Hs as <-. cbn [seen_op peer_apply]. unfold periodicCleanup, cleanupSupervisionSeen. node_simpl.
    destruct (Z.eqb_spec (Z.of_nat (size (n_supervisionSeen n))) 0); [|done].
    symmetry. apply prune_empty. change (size (n_supervisionSeen n) = 0%nat). lia.
  - pose proof (step_ticker now n n' Hn Hs) as [=]. done.
Qed.
Lemma member_step now i n n' :
  node_ok n → input_ok i → step now i n = Ret n' →
  n_ringMembers n' = peer_apply now (member_op now i n) (n_ringMembers n).
Proof.
  intros Hn Hi Hs. destruct i as [[p f]| |].
  - rewrite (step_received now p f n n' Hn Hi Hs). cbn [member_op]. unfold frame_step, sup_heard.
    destruct (glen f <? 14) eqn:Eg; [done|]. destruct (sup_dispatched _ _ _) eqn:Ed.
    + unfold sup_relayed, sup_receive, sup_learned. destruct (Parse f) as [[sup|]|].
      * destruct (IsHSRNode _ && is_lan p) eqn:Er; repeat case_match; node_simpl; done.
      * repeat case_match; by node_simpl.
      * repeat case_match; by node_simpl.
    + destruct (IsHSRNode _) eqn:Eh, (is_lan p) eqn:El; cbn [andb].
      * unfold ring_receive. unfold ring_decide at 2.
        unfold ring_decide. destruct (DecodeHSR f) as [[[[[path seq] x] payload]|]|]; [|by node_simpl..].
        change (own (counted p In n) f) with (own n f).
        change (n_dupTable (counted p In n)) with (n_dupTable n).
        destruct (own n f); [by node_simpl|]. destruct (Find _ _ _ _); [by node_simpl|].
        unfold ring_deliver, ring_forward. repeat case_match; by node_simpl.
      * unfold quad_receive, interlink_receive, ring_inject, learned_proxy, took_seq. repeat case_match; by node_simpl.
      * unfold prp_receive, delivered. repeat case_match; by node_simpl.
      * unfold prp_inject, learned_proxy, took_seq. repeat case_match; by node_simpl.
  - injection Hs as <-. cbn [member_op]. unfold periodicCleanup, cleanupSupervisionSeen. node_simpl.
    by destruct (_ =? 0).
  - pose proof (step_ticker now n n' Hn Hs) as [=]. done.
Qed.

Lemma proxy_step now i n n' :
  node_ok n → input_ok i → step now i n = Ret n' →
  n_proxyTable n' = peer_apply now (proxy_op now i n) (n_proxyTable n).
Proof.
  intros Hn Hi Hs. destruct i as [[p f]| |].
  - rewrite (step_received now p f n n' Hn Hi Hs). cbn [proxy_op]. unfold frame_step.
    destruct (glen f <? 14); [done|]. destruct (sup_dispatched _ _ _); cbn [orb].
    + unfold sup_relayed, sup_receive, sup_learned. destruct (Parse f) as [[sup|]|]; repeat case_match; by node_simpl.
    + destruct (IsHSRNode _), (is_lan p).
      * unfold ring_receive, ring_deliver, ring_forward, learned_member. repeat case_match; by node_simpl.
      * unfold quad_receive, interlink_receive, ring_inject, learned_proxy, took_seq. repeat case_match; by node_simpl.
      * unfold prp_receive, delivered. repeat case_match; by node_simpl.
      * unfold prp_inject. change (n_Config (counted Interlink In n)) with (n_Config n).
        destruct (vlan_pass _ _); cbn [negb]; [|by node_simpl].
        unfold learned_proxy, took_seq. repeat case_match; by node_simpl.
  - injection Hs as <-. cbn [proxy_op peer_apply]. unfold periodicCleanup, cleanupSupervisionSeen.
    repeat case_match; by node_simpl.
  - pose proof (step_ticker now n n' Hn Hs) as [=]. done.
Qed.
(** ** Peers *)

(** The input is a supervision frame of [mac]. *)
Definition hears (c : Config) (mac : string) (i : input) : Prop :=
  ∃ p f, i = Received (mkEvent p f) ∧ sup_heard c p f = Some mac.

Lemma seen_op_heard now i n mac : seen_op now i n = Heard mac ↔ hears (n_Config n) mac i.
Proof.
  unfold hears. destruct i as [[p f]| |]; cbn [seen_op ev_iface ev_frame].
  - split; [|by intros (? & ? & [= <- <-] & ->)]. destruct (sup_heard _ _ _) as [m|] eqn:E0; [|discriminate].
    intros [= ->]. by exists p, f.
  - split; [discriminate|]. by intros (? & ? & ? & _).
  - split; [discriminate|]. by intros (? & ? & ? & _).
Qed.

Lemma seen_op_pruned now i n c : seen_op now i n = Pruned c ↔ i = CleanupTimer ∧ c = cutoff now n.
Proof.
  destruct i as [[p f]| |]; cbn [seen_op ev_iface ev_frame].
  - destruct (sup_heard _ _ _); split; [discriminate|by intros [? _]|discriminate|by intros [? _]].
  - split; [by intros [= <-]|by intros [_ ->]].
  - split; [discriminate|by intros [? _]].
Qed.

(** What the run keeps of a node with a sane lifetime [d]. *)
Definition peer_static (c : Config) (d : Z) (n : Node) : Prop := n_Config n = c ∧ n_supervisionForget n = d.

Lemma peer_static_step c d now i n n' :
  node_ok n → input_ok i → peer_static c d n → step now i n = Ret n' → node_ok n' ∧ peer_static c d n'.
Proof.
  intros Hn Hi [Hc Hd] Hs. destruct (step_returned now i n n' Hn Hi Hs) as (Hok & Hst & _).
  split; [done|]. injection Hst as H1 _ _ _ _ H2 _. split; congruence.
Qed.

Lemma run_split l : ∀ k n n', run_inputs (l ++ k) n = Ret n' → ∃ m, run_inputs l n = Ret m ∧ run_inputs k m = Ret n'.
Proof.
  induction l as [|[now i] l IH]; intros k n n'; cbn [app run_inputs]; [by exists n|].
  destruct (step now i n) as [m|]; cbn [go_bind]; [|discriminate]. apply IH.
Qed.

Lemma peer_static_run c d l : ∀ n n',
  node_ok n → Forall (fun a => input_ok a.2) l → peer_static c d n → run_inputs l n = Ret n' →
  node_ok n' ∧ peer_static c d n'.
Proof.
  induction l as [|[now i] l IH]; intros n n' Hn Hl Hp; cbn [run_inputs]; [by intros [= <-]|].
  apply Forall_cons in Hl as [Hi Hl]. destruct (step now i n) as [m|] eqn:Es; cbn [go_bind]; [|discriminate].
  destruct (peer_static_step c d now i n m) as [Hm Hpm]; [done..|]. by apply IH.
Qed.

Lemma kept_seen c d mac t l : ∀ n n',
  0 <= d < 2 ^ 63 → node_ok n → Forall (fun a => input_ok a.2) l → peer_static c d n → run_inputs l n = Ret n' →
  kept seen_op mac t l n ↔
  Forall (fun a => ¬ hears c mac a.2 ∧ (a.2 = CleanupTimer → a.1 <= t + d)) l.
Proof.
  induction l as [|[now i] l IH]; intros n n' Hd Hn Hl Hp; cbn [kept run_inputs]; [by split|].
  apply Forall_cons in Hl as [Hi Hl]. cbn [snd] in Hi.
  destruct (step now i n) as [m|] eqn:Es; cbn [go_bind]; [|discriminate]. intros Hr.
  destruct (peer_static_step c d now i n m) as [Hm Hpm]; [done..|].
  rewrite Forall_cons. cbn [fst snd]. rewrite <-(IH m n' Hd Hm Hl Hpm Hr). destruct Hp as [Hc Hf].
  assert (Hcut : ∀ x, seen_op now i n = Pruned x ↔ i = CleanupTimer ∧ x = now - d).
  { intros x. rewrite seen_op_pruned. unfold cutoff, i64. rewrite Hf, Z.mod_small by lia.
    by replace (now + (- d + 9223372036854775808 - 9223372036854775808)) with (now - d) by lia. }
  split.
  - intros (Hne & Hpr & Hk). split; [|by apply Hk]. split.
    + intros Hh. apply Hne, seen_op_heard. by rewrite Hc.
    + intros ->. specialize (Hpr (now - d) (proj2 (Hcut _) (conj eq_refl eq_refl))). lia.
  - intros ((Hnh & Hcl) & Hk). split_and!.
    + rewrite seen_op_heard, Hc. done.
    + intros x [-> ->]%Hcut. specialize (Hcl eq_refl). lia.
    + by intros ? [= <-].
Qed.

Lemma seen_history (c : Config) (d : Z) (l : list (Z * input)) (n n' : Node) (mac : string) (t : Z) :
  node_ok n → Forall (fun a => input_ok a.2) l → n_Config n = c → n_supervisionForget n = d → 0 <= d < 2 ^ 63 →
  n_supervisionSeen n = ∅ → run_inputs l n = Ret n' →
  n_supervisionSeen n' !! mac = Some t ↔
  ∃ pre i post, l = pre ++ (t, i) :: post ∧ hears c mac i ∧
    Forall (fun a => ¬ hears c mac a.2 ∧ (a.2 = CleanupTimer → a.1 <= t + d)) post.
Proof.
  intros Hn Hl Hc Hf Hd He Hr. assert (Hp : peer_static c d n) by done.
  rewrite (table_history n_supervisionSeen seen_op seen_step l n n' mac t Hn Hl Hr), He, lookup_empty. split.
  - intros [[? _]|(pre & i & post & n1 & n2 & -> & Hpre & Ho & Hs & Hk)]; [done|].
    apply Forall_app in Hl as [Hl1 [Hi Hl2]%Forall_cons].
    destruct (peer_static_run c d pre n n1) as [Hn1 Hp1]; [done..|].
    destruct (peer_static_step c d t i n1 n2) as [Hn2 Hp2]; [done..|].
    exists pre, i, post. split; [done|]. split; [apply seen_op_heard in Ho; by rewrite (proj1 Hp1) in Ho|].
    destruct (run_split pre _ n n' Hr) as (m & Hm & Hr'). rewrite Hpre in Hm. injection Hm as <-.
    cbn [run_inputs] in Hr'. rewrite Hs in Hr'. by eapply kept_seen.
  - intros (pre & i & post & -> & Hh & Hk). right.
    apply Forall_app in Hl as [Hl1 [Hi Hl2]%Forall_cons].
    destruct (run_split pre _ n n' Hr) as (n1 & Hpre & Hr').
    destruct (peer_static_run c d pre n n1) as [Hn1 Hp1]; [done..|].
    cbn [run_inputs] in Hr'. destruct (step t i n1) as [n2|] eqn:Es; cbn [go_bind] in Hr'; [|discriminate].
    destruct (peer_static_step c d t i n1 n2) as [Hn2 Hp2]; [done..|].
    exists pre, i, post, n1, n2. split_and!; [done..| |done|].
    + apply seen_op_heard. by rewrite (proj1 Hp1).
    + by eapply kept_seen.
Qed.

(** C15: The table of live peers is exact.  After any run of a node that knew no
    peers, an address is listed as last heard at [t] exactly when one of its
    supervision frames was handled at [t], none was handled later, and no
    clean-up later than that ran after the lifetime [d] had passed: peers that
    keep announcing themselves stay, silent ones go with the first clean-up
    after [d], and nothing else adds or removes a peer. *)
Theorem peers_remembered (c : Config) (d : Z) (l : list (Z * input)) (n n' : Node) (mac : string) (t : Z) :
  node_ok n → Forall (fun a => input_ok a.2) l → n_Config n = c → n_supervisionForget n = d → 0 <= d < 2 ^ 63 →
  n_supervisionSeen n = ∅ → run_inputs l n = Ret n' →
  n_supervisionSeen n' !! mac = Some t ↔
  ∃ pre i post, l = pre ++ (t, i) :: post ∧ hears c mac i ∧
    Forall (fun a => ¬ hears c mac a.2 ∧ (a.2 = CleanupTimer → a.1 <= t + d)) post.
Proof. apply seen_history. Qed.
(** ** Announcements keep a peer alive *)

Lemma sup_head_heard c q mac word seq tlv rest :
  glen mac = 6 → is_u16 word → is_u16 seq → tlv ≠ 30 → is_lan q = true →
  sup_heard c q (sup_head mac word seq tlv rest) = Some (mac_text mac).
Proof.
  intros Hm Hw Hs Ht Hq. unfold sup_heard.
  assert (Hl : 14 <= glen (sup_head mac word seq tlv rest)).
  { pose proof (six_bytes mac Hm) as (?&?&?&?&?&?&->). pose proof (glen_nonneg rest). unfold sup_head, sup_dst. len_lia. }
  guard_false (glen (sup_head mac word seq tlv rest) <? 14).
  unfold sup_dispatched, encap_type. rewrite ethertype_sup_head by done. cbn [default Z.eqb Pos.eqb andb]. rewrite Hq.
  cbn [orb]. by rewrite Parse_sup_head.
Qed.

(** Every frame of an announcement is heard, on either LAN port, as its
    sender's. *)
Lemma announcement_heard a c p q f :
  glen (sup_src a) = 6 → (p, f) ∈ announcement a → is_lan q = true →
  sup_heard c q f = Some (mac_text (sup_src a)).
Proof.
  intros Hm Hin Hq. set (mac := sup_src a) in *. set (seq := next_sup a).
  assert (Hs : is_u16 seq) by apply is_u16_u16.
  assert (Hp : ∀ lan, lan = 0 ∨ lan = 1 → sup_heard c q (BuildRCTed mac seq lan) = Some (mac_text mac)).
  { intros lan Hlan. rewrite BuildRCTed_trailed by done. unfold trailed, pad. rewrite Build_head, !sup_head_app by done.
    by apply sup_head_heard. }
  assert (Hh : ∀ path, sup_heard c q (BuildHSR mac seq path) = Some (mac_text mac)).
  { intros path. rewrite BuildHSR_head by done. by apply sup_head_heard; [|unfold is_u16; zlia|..]. }
  unfold announcement in Hin. fold mac seq in Hin. destruct (negb _).
  - apply elem_of_cons in Hin as [[= -> ->]|Hin]; [apply Hp; by left|].
    apply list_elem_of_singleton in Hin as [= -> ->]. apply Hp. by right.
  - rewrite !elem_of_app in Hin. destruct Hin as [Hin|[Hin|Hin]].
    + apply elem_of_cons in Hin as [[= -> ->]|Hin]; [apply Hh|]. apply list_elem_of_singleton in Hin as [= -> ->]. apply Hh.
    + destruct (_ && _); [|by apply not_elem_of_nil in Hin]. apply list_elem_of_singleton in Hin as [= -> ->]. apply Hh.
    + destruct (_ && _); [|by apply not_elem_of_nil in Hin]. apply list_elem_of_singleton in Hin as [= -> ->].
      apply Hp. pose proof (LanID_cases (n_Config a)). tauto.
Qed.
#[local] Instance hears_dec c mac i : Decision (hears c mac i).
Proof.
  destruct i as [[p f]| |]; [|right; abstract (by intros (? & ? & ? & _))..].
  destruct (decide (sup_heard c p f = Some mac)); [left|right].
  - abstract (by exists p, f).
  - abstract (by intros (? & ? & [= <- <-] & ?)).
Defined.

Lemma last_hearing c mac (l : list (Z * input)) :
  Exists (fun a => hears c mac a.2) l →
  ∃ pre t i post, l = pre ++ (t, i) :: post ∧ hears c mac i ∧ Forall (fun a => ¬ hears c mac a.2) post.
Proof.
  induction l as [|[t i] l IH]; [by intros ?%Exists_nil|]. intros Hx.
  destruct (decide (Exists (fun a => hears c mac a.2) l)) as [Hl|Hl].
  - destruct (IH Hl) as (pre & t' & i' & post & -> & ? & ?). by exists ((t, i) :: pre), t', i', post.
  - apply Exists_cons in Hx as [Hx|Hx]; [|done]. exists [], t, i, l. split_and!; [done|done|].
    by apply Forall_Exists_neg.
Qed.

(** The input is a frame of an announcement of a node with address [mac],
    arriving on a LAN or ring port. *)
Definition announces (mac : bytes) (i : input) : Prop :=
  ∃ a p q f, i = Received (mkEvent q f) ∧ is_lan q = true ∧ (p, f) ∈ announcement a ∧ sup_src a = mac.

Lemma announces_hears c mac i : glen mac = 6 → announces mac i → hears c (mac_text mac) i.
Proof.
  intros Hm (a & p & q & f & -> & Hq & Hin & Ha). exists q, f. split; [done|]. subst mac.
  by eapply announcement_heard.
Qed.

(** C13: Nodes that announce themselves stay in each other's tables.  Let a node
    that knew no peers handle any inputs, in the order of the clock.  If it
    got an announcement of another node, and from then on every clean-up came
    within the peer lifetime [d] after some announcement of that node, then
    the other node is still listed as alive at the end, whatever else was
    received and whichever of its announcements were lost. *)
Theorem announced_peer_alive (mac : bytes) (d : Z) (l : list (Z * input)) (n n' : Node) :
  node_ok n → Forall (fun a => input_ok a.2) l → n_supervisionForget n = d → 0 <= d < 2 ^ 63 →
  n_supervisionSeen n = ∅ → run_inputs l n = Ret n' → StronglySorted Z.le l.*1 → glen mac = 6 →
  Exists (fun a => announces mac a.2) l →
  (∀ pre c post, l = pre ++ (c, CleanupTimer) :: post → Exists (fun a => announces mac a.2) pre →
     ∃ t i, (t, i) ∈ pre ∧ announces mac i ∧ c <= t + d) →
  is_Some (n_supervisionSeen n' !! mac_text mac).
Proof.
  intros Hn Hl Hf Hd He Hr Hs Hm Hx Hc. set (cfg := n_Config n).
  assert (Hah : ∀ k : list (Z * input), Exists (fun a => announces mac a.2) k → Exists (fun a => hears cfg (mac_text mac) a.2) k).
  { intros k Hk. eapply Exists_impl; [exact Hk|]. intros a. by apply announces_hears. }
  destruct (last_hearing cfg (mac_text mac) l) as (pre & t & i & post & Hsplit & Hi & Hno); [by apply Hah|].
  exists t. apply (seen_history cfg d l n n'); [done..|]. exists pre, i, post. split_and!; [done..|].
  apply Forall_lookup. intros k [c j] Hj. split; [by rewrite Forall_lookup in Hno; apply (Hno k (c, j))|].
  cbn [fst snd]. intros ->. apply take_drop_middle in Hj as Hpost.
  set (p1 := take k post) in *. set (p2 := drop (S k) post) in *. rewrite <-Hpost in Hsplit, Hno.
  apply Forall_app in Hno as [Hp1 [_ Hp2]%Forall_cons].
  assert (Hbefore : l = (pre ++ (t, i) :: p1) ++ (c, CleanupTimer) :: p2).
  { by rewrite Hsplit, <-app_assoc. }
  destruct (Hc _ _ _ Hbefore) as (t' & i' & Hin & Ha & Hle).
  { rewrite Hbefore in Hx. apply Exists_app in Hx as [Hx|Hx]; [done|]. exfalso. apply Hah in Hx.
    apply Exists_cons in Hx as [(? & ? & ? & _)|Hx]; [done|]. by apply Forall_Exists_neg in Hp2. }
  apply (announces_hears cfg) in Ha; [|done]. enough (t' <= t) by lia.
  apply elem_of_app in Hin as [Hin|Hin].
  - rewrite Hsplit, fmap_app in Hs. eapply (StronglySorted_app_1_elem_of Z.le); [exact Hs|..].
    + apply list_elem_of_fmap. by exists (t', i').
    + cbn. left.
  - apply elem_of_cons in Hin as [[= -> ->]|Hin]; [done|]. rewrite Forall_forall in Hp1. by destruct (Hp1 _ Hin).
Qed.

(** ** Ring members and SANs *)

(** A unicast frame stays off the interlink exactly when its destination has
    an entry, and the entries are the history of [member_op]. *)
Lemma ring_members_history (l : list (Z * input)) (n n' : Node) (dst : bytes) :
  node_ok n → Forall (fun a => input_ok a.2) l → n_ringMembers n = ∅ → run_inputs l n = Ret n' →
  glen dst = 6 → dst !!! 0%nat mod 2 = 0 →
  unicastToRingMember dst n' = Ret true ↔
  ∃ t pre i post n1 n2, l = pre ++ (t, i) :: post ∧ run_inputs pre n = Ret n1 ∧
    member_op t i n1 = Heard (mac_of dst 0) ∧ step t i n1 = Ret n2 ∧ kept member_op (mac_of dst 0) t post n2.
Proof.
  intros Hn Hl He Hr Hg Hu. unfold unicastToRingMember. rewrite Hg. cbn [Z.eqb Pos.eqb negb].
  rewrite idx_ok by lia. cbn [go_bind]. change (Z.to_nat 0) with 0%nat. rewrite land_1, Hu. cbn [Z.eqb].
  rewrite GetDstMAC_ret by lia. cbn [go_bind].
  pose proof (fun t => table_history n_ringMembers member_op member_step l n n' (mac_of dst 0) t Hn Hl Hr) as Ht.
  setoid_rewrite He in Ht. setoid_rewrite lookup_empty in Ht. split.
  - intros [= Hd%bool_decide_eq_true]. destruct Hd as [t Hd]. apply Ht in Hd as [[? _]|Hd]; [done|]. eauto.
  - intros (t & Hd). f_equal. apply bool_decide_eq_true. exists t. apply Ht. by right.
Qed.

(** A SAN is never removed from the table: it grows with every address seen
    on the interlink. *)
Lemma proxies_kept (l : list (Z * input)) : ∀ n n' mac,
  node_ok n → Forall (fun a => input_ok a.2) l → run_inputs l n = Ret n' →
  is_Some (n_proxyTable n !! mac) → is_Some (n_proxyTable n' !! mac).
Proof.
  induction l as [|[now i] l IH]; intros n n' mac Hn Hl; cbn [run_inputs]; [by intros [= <-]|].
  apply Forall_cons in Hl as [Hi Hl]. cbn [snd] in Hi. destruct (step now i n) as [m|] eqn:Es; cbn [go_bind]; [|discriminate].
  intros Hr Hs. destruct (step_returned now i n m Hn Hi Es) as (Hm & _ & _). apply (IH m n' mac Hm Hl Hr).
  rewrite (proxy_step now i n m Hn Hi Es). destruct (proxy_op now i n) as [|mac'|c] eqn:Eo; cbn [peer_apply].
  - done.
  - rewrite lookup_insert. by case_decide.
  - exfalso. revert Eo. unfold proxy_op. by repeat case_match.
Qed.
End peers.

(** ** Concrete runs *)

#[local] Existing Instance sorted_range.
#[local] Existing Instance demo_env.

Definition demo_san : Node := demo_node "prp-san" "" 0 [2; 0; 0; 0; 0; 1].

(** A peer announces itself at 5; clean-up runs at 6 and after the lifetime. *)
Definition demo_announced : list (Z * input) :=
  [(5, Received (mkEvent LanA (BuildRCTed [2; 0; 0; 0; 0; 7] 1 0))); (6, CleanupTimer)].

Definition demo_after (l : list (Z * input)) (n : Node) : Node :=
  match run_inputs l n with Ret n' => n' | Panic => n end.

Lemma peers_remembered_witness :
  n_supervisionSeen (demo_after demo_announced demo_san) !! "02:00:00:00:00:07"%string = Some 5 ∧
  (n_supervisionSeen (demo_after (demo_announced ++ [(64000000006, CleanupTimer)]) demo_san) !! "02:00:00:00:00:07"%string = Some 5 ↔
   ∃ pre i post, demo_announced ++ [(64000000006, CleanupTimer)] = pre ++ (5, i) :: post ∧
     hears (n_Config demo_san) "02:00:00:00:00:07" i ∧
     Forall (fun a => ¬ hears (n_Config demo_san) "02:00:00:00:00:07" a.2 ∧ (a.2 = CleanupTimer → a.1 <= 5 + 64000000000)) post).
Proof.
  split; [vm_compute; reflexivity|].
  apply (peers_remembered (n_Config demo_san) 64000000000 (demo_announced ++ [(64000000006, CleanupTimer)]) demo_san).
  - apply demo_node_ok.
  - unfold demo_announced. cbn [app]. apply Forall_cons_2; [repeat constructor; discriminate|].
    by repeat constructor.
  - reflexivity.
  - vm_compute. reflexivity.
  - lia.
  - reflexivity.
  - vm_compute. reflexivity.
Defined.

(** A node with address 02:00:00:00:00:07 and the LAN A copy of its next
    announcement, arriving on port LAN B, with a clean-up at the very end of
    the peer lifetime. *)
Definition demo_peer : Node := demo_node "hsr-san" "" 0 [2; 0; 0; 0; 0; 7].
Definition demo_call : bytes := default [] (snd <$> (announcement demo_peer !! 0%nat)).
Definition demo_calls : list (Z * input) :=
  [(5, Received (mkEvent LanB demo_call)); (6, CleanupTimer); (64000000005, CleanupTimer)].

Lemma announced_peer_alive_witness :
  is_Some (n_supervisionSeen (demo_after demo_calls demo_san) !! mac_text [2; 0; 0; 0; 0; 7]).
Proof.
  assert (Ha : announces [2; 0; 0; 0; 0; 7] (Received (mkEvent LanB demo_call))).
  { exists demo_peer, LanA, LanB, demo_call. split_and!; [done|done| |vm_compute; reflexivity].
    apply (list_elem_of_lookup_2 _ 0). vm_compute. reflexivity. }
  apply (announced_peer_alive [2; 0; 0; 0; 0; 7] 64000000000 demo_calls demo_san).
  - apply demo_node_ok.
  - unfold demo_calls. apply Forall_cons_2; [|by repeat constructor]. cbn [snd input_ok ev_frame].
    unfold demo_call. vm_compute. repeat constructor; discriminate.
  - vm_compute. reflexivity.
  - lia.
  - reflexivity.
  - vm_compute. reflexivity.
  - unfold demo_calls. cbn. repeat constructor; lia.
  - reflexivity.
  - unfold demo_calls. by left.
  - intros pre c post Hs _. unfold demo_calls in Hs. destruct pre as [|x pre]; [discriminate|].
    injection Hs as <- Hs. exists 5, (Received (mkEvent LanB demo_call)). split_and!; [left|done|].
    destruct pre as [|y [|z [|w pre]]]; cbn [app] in Hs; [|..]; injection Hs; intros; subst; try lia; discriminate.
Defined.

(** The late clean-up removes the silent peer. *)
Example silent_peer_forgotten :
  n_supervisionSeen (demo_after (demo_announced ++ [(64000000006, CleanupTimer)]) demo_san) !! "02:00:00:00:00:07"%string = None.
Proof. vm_compute. reflexivity. Qed.

(** A ring member learned from a data frame is not pruned while no peer is
    alive: an hour of clean-ups later its address is still filtered. *)
Definition demo_ring_frame : bytes :=
  [0x01; 0x0c; 0xcd; 1; 0; 1; 0x02; 0; 0; 0; 0; 0x99; 0x89; 0x2f; 0; 46; 0; 1; 0x88; 0xb8] ++ zeros 40.

Example ring_member_never_pruned :
  let n := demo_after [(0, Received (mkEvent LanA demo_ring_frame)); (3600000000000, CleanupTimer)]
             (demo_node "hsr-san" "" 0 [2; 0; 0; 0; 0; 1]) in
  n_ringMembers n !! "02:00:00:00:00:99"%string = Some 0 ∧ unicastToRingMember [2; 0; 0; 0; 0; 0x99] n = Ret true.
Proof. split; vm_compute; reflexivity. Qed.
