(* ===== verification/Runtime.v ===== *)
(** * Runtime: start-up, the read loops, the frame buffer and shutdown

    Models [Start], [closePorts], [Stop], [readLoop] and [processFrames] of
    [src/internal/prp/prp.go], and the supervision ticker of
    [src/cmd/prpd/main.go], as a transition system whose steps are the atomic
    actions of the goroutines: every interleaving is a run.  A handled
    frame, a clean-up and an announcement are single steps here; [Interleave]
    splits them into their accesses. *)

From S2P Require Import Prelude Engine Hsr NodeTable Supervision Role Pattern Node PrpPath HsrPath Dispatch.

(** ** Start-up *)

(** The system calls of [Start]: binding a raw socket to an interface and
    setting its MTU.  The port tells the calls apart: two ports may name the
    same interface. *)
Class Sys := {
  CreateRawSocket : port → string → bool;
  SetMTU : port → string → Z → bool;
}.

Inductive start_error :=
| BindLanA | MTULanA | MTULanB | BindLanB | BindInterlink | MTUInterlink.

(** The ports [closePorts] closes: the ones that are not nil. *)
Definition closePorts (n : Node) : list port :=
  (if n_LanA n then [LanA] else []) ++ (if n_LanB n then [LanB] else []) ++
  (if n_Interlink n then [Interlink] else []).

(** The outcome of [Start]: the node, the ports closed again, the read loops
    started, and the error if any. *)
Record started := mkStarted {
  sd_node : Node;
  sd_closed : list port;
  sd_loops : list port;
  sd_err : option start_error;
}.

Definition failed (n : Node) (e : start_error) : started := mkStarted n (closePorts n) [] (Some e).

Section start.
Context {E : Env} {S : Sys}.

Definition bind_one (p : port) (n : Node) : Node :=
  match p with
  | LanA => bind_ports true (n_LanB n) (n_Interlink n) n
  | LanB => bind_ports (n_LanA n) true (n_Interlink n) n
  | Interlink => bind_ports (n_LanA n) (n_LanB n) true n
  end.

Definition Start (n : Node) : started :=
  let c := n_Config n in
  if negb (CreateRawSocket LanA (c_LanAInterface c)) then mkStarted n [] [] (Some BindLanA)
  else
    let n := bind_one LanA n in
    let n := set_mac (nodeMAC n) n in
    if negb (SetMTU LanA (c_LanAInterface c) 1506) then failed n MTULanA
    else if negb (SetMTU LanB (c_LanBInterface c) 1506) then failed n MTULanB
    else if negb (CreateRawSocket LanB (c_LanBInterface c)) then failed n BindLanB
    else
      let n := bind_one LanB n in
      if negb (String.eqb (c_InterlinkInterface c) "") then
        if negb (CreateRawSocket Interlink (c_InterlinkInterface c)) then failed n BindInterlink
        else
          let n := bind_one Interlink n in
          if negb (SetMTU Interlink (c_InterlinkInterface c) 1506) then failed n MTUInterlink
          else mkStarted (set_cleanupTimer true n) [] [LanA; LanB; Interlink] None
      else mkStarted (set_cleanupTimer true n) [] ([LanA; LanB] ++ if n_Interlink n then [Interlink] else []) None.
End start.

(** ** The running daemon *)

(** Program point of a read loop: before the stop check, in [Read], returned. *)
Inductive reader := Checking | Reading | Exited.

(** The head of the loop: the stop channel is looked at before [Read] is
    called. *)
Definition loop_head (stopped : bool) : reader := if stopped then Exited else Reading.

(** After [Read] returned an error: [continue]. *)
Definition after_error : reader := Checking.

(** After a frame was put into the buffer or dropped: the end of the body. *)
Definition after_frame : reader := Checking.

(** What a read loop has done with [Read]: calls, returns of either kind, and
    the returns that brought a frame. *)
Record tally := mkTally { t_calls : Z; t_returns : Z; t_frames : Z }.

Record System := mkSystem {
  s_node : Node;
  s_queue : list frameEvent;   (** [frameBuffer], capacity 10000 *)
  s_stopped : bool;            (** [stopChan] is closed *)
  s_readers : port → reader;
  s_worker : bool;             (** [processFrames] is running *)
  s_crashed : bool;            (** a goroutine panicked *)
  s_reads : port → tally;      (** what each loop has done so far *)
}.

Definition queue_cap : Z := 10000.
Definition buf_len : Z := 2048.

Definition set_reader (p : port) (r : reader) (f : port → reader) : port → reader :=
  fun q => if bool_decide (q = p) then r else f q.

Definition no_reads : port → tally := fun _ => mkTally 0 0 0.

Definition count (p : port) (f : tally → tally) (t : port → tally) : port → tally :=
  fun q => if bool_decide (q = p) then f (t q) else t q.
Definition called (t : tally) : tally := mkTally (t_calls t + 1) (t_returns t) (t_frames t).
Definition returned_error (t : tally) : tally := mkTally (t_calls t) (t_returns t + 1) (t_frames t).
Definition returned_frame (t : tally) : tally := mkTally (t_calls t) (t_returns t + 1) (t_frames t + 1).

(** [select { case frameBuffer <- ev: default: }] *)
Definition enqueue (ev : frameEvent) (q : list frameEvent) : list frameEvent :=
  if glen q <? queue_cap then q ++ [ev] else q.

Definition with_node (n : Node) (s : System) : System :=
  mkSystem n (s_queue s) (s_stopped s) (s_readers s) (s_worker s) (s_crashed s) (s_reads s).

Definition crash (s : System) : System :=
  mkSystem (s_node s) (s_queue s) (s_stopped s) (s_readers s) (s_worker s) true (s_reads s).

(** [Stop]: closing an already closed channel is skipped. *)
Definition Stop (s : System) : System :=
  if s_stopped s then s
  else mkSystem (s_node s) (s_queue s) true (s_readers s) (s_worker s) (s_crashed s) (s_reads s).

Section system.
Context {MR : MapRange} {E : Env}.

(** The frames the network can deliver on a port. *)
Context (wire : port → bytes → Prop).

Inductive sys_step : System → System → Prop :=
| step_check s p :
    s_crashed s = false → s_readers s p = Checking →
    sys_step s (mkSystem (s_node s) (s_queue s) (s_stopped s)
      (set_reader p (loop_head (s_stopped s)) (s_readers s))
      (s_worker s) false (if s_stopped s then s_reads s else count p called (s_reads s)))
| step_read_error s p :
    s_crashed s = false → s_readers s p = Reading →
    sys_step s (mkSystem (s_node s) (s_queue s) (s_stopped s)
      (set_reader p after_error (s_readers s)) (s_worker s) false (count p returned_error (s_reads s)))
| step_read s p f :
    s_crashed s = false → s_readers s p = Reading →
    wire p f → bytes_ok f → glen f <= buf_len →
    sys_step s (mkSystem (s_node s) (enqueue (mkEvent p f) (s_queue s)) (s_stopped s)
      (set_reader p after_frame (s_readers s)) (s_worker s) false (count p returned_frame (s_reads s)))
| step_work s now ev q n' :
    s_crashed s = false → s_worker s = true → s_queue s = ev :: q →
    handleFrame now ev (s_node s) = Ret (tt, n') →
    sys_step s (mkSystem n' q (s_stopped s) (s_readers s) true false (s_reads s))
| step_work_panic s now ev q :
    s_crashed s = false → s_worker s = true → s_queue s = ev :: q →
    handleFrame now ev (s_node s) = Panic →
    sys_step s (crash s)
| step_work_stop s :
    s_crashed s = false → s_worker s = true → s_stopped s = true →
    sys_step s (mkSystem (s_node s) (s_queue s) true (s_readers s) false false (s_reads s))
| step_cleanup s now :
    s_crashed s = false → sys_step s (with_node (periodicCleanup now (s_node s)) s)
| step_announce s n' :
    s_crashed s = false → SendSupervisionFrame (s_node s) = Ret (tt, n') →
    sys_step s (with_node n' s)
| step_announce_panic s :
    s_crashed s = false → SendSupervisionFrame (s_node s) = Panic → sys_step s (crash s)
| step_stop s :
    s_crashed s = false → sys_step s (Stop s).

(** A daemon right after a successful [Start]. *)
Definition boot (n : Node) : System :=
  mkSystem n [] false (fun p => if bound n p then Checking else Exited) true false no_reads.

Definition reachable (n : Node) (s : System) : Prop := rtc sys_step (boot n) s.

(** ** Invariant *)

Record sys_ok (s : System) : Prop := {
  so_node : node_ok (s_node s);
  so_queue : glen (s_queue s) <= queue_cap;
  so_frames : Forall (fun ev => bytes_ok (ev_frame ev) ∧ glen (ev_frame ev) <= buf_len ∧
                                wire (ev_iface ev) (ev_frame ev)) (s_queue s);
}.

Lemma enqueue_cap ev q : glen q <= queue_cap → glen (enqueue ev q) <= queue_cap.
Proof.
  intros H. unfold enqueue. destruct (Z.ltb_spec (glen q) queue_cap); [|done].
  rewrite glen_app. change (glen [ev]) with 1. lia.
Qed.

Lemma enqueue_Forall (P : frameEvent → Prop) ev q : P ev → Forall P q → Forall P (enqueue ev q).
Proof.
  intros ??. unfold enqueue. destruct (_ <? _); [|done]. apply Forall_app. auto.
Qed.

Lemma handled_ok now ev n n' :
  node_ok n → bytes_ok (ev_frame ev) → handleFrame now ev n = Ret (tt, n') → node_ok n'.
Proof.
  intros Hn Hb Hh. destruct ev as [p f]. destruct (out_of_range p f n) eqn:Er.
  - by rewrite handleFrame_panic in Hh.
  - rewrite handleFrame_eq in Hh by (done || apply Hn). injection Hh as <-. by apply frame_step_ok.
Qed.

Lemma announced_ok n n' : node_ok n → SendSupervisionFrame n = Ret (tt, n') → node_ok n'.
Proof.
  intros Hn Hs. destruct (step_spec 0 SupervisionTicker n Hn I) as (n1 & H1 & ? & _).
  cbn [step] in H1. rewrite Hs in H1. cbn in H1. by injection H1 as <-.
Qed.

Lemma sys_step_ok s s' : sys_ok s → sys_step s s' → sys_ok s'.
Proof.
  intros [Hn Hq Hf] Hs.
  destruct Hs as [s p|s p|s p f ? ? Hw Hb Hl|s now ev q n' ? ? Hqe Hh| | |s now|s n' ? Hh| |s];
    split; cbn [s_node s_queue with_node crash]; try done.
  - by apply enqueue_cap.
  - by apply enqueue_Forall.
  - rewrite Hqe in Hf. apply Forall_cons in Hf as [(Hb & _) _]. by eapply handled_ok.
  - rewrite Hqe in Hq. assert (glen (ev :: q) = 1 + glen q) by len_lia. lia.
  - rewrite Hqe in Hf. by apply Forall_cons in Hf as [_ ?].
  - by apply periodicCleanup_ok.
  - by eapply announced_ok.
  - unfold Stop. by destruct (s_stopped s).
  - unfold Stop. by destruct (s_stopped s).
  - unfold Stop. by destruct (s_stopped s).
Qed.

Lemma reachable_ok n s : node_ok n → reachable n s → sys_ok s.
Proof.
  intros Hn Hr. unfold reachable in Hr. assert (Hb : sys_ok (boot n)) by by split.
  revert Hb. generalize (boot n), Hr. clear. intros s0 Hr.
  induction Hr as [|s0 s1 s2 Hs Hr IH]; intros H0; [done|]. apply IH. by eapply sys_step_ok.
Qed.

Lemma long_in_range p f n : 26 <= glen f → out_of_range p f n = false.
Proof.
  intros Hl. unfold out_of_range. guard_false (glen f <? 14). guard_false (glen f <? 26).
  guard_false (glen f <? 18). guard_false (glen f <? 16). rewrite !andb_false_r.
  by destruct (sup_dispatched _ _ _), (is_lan p), (IsHSRNode (n_Config n)).
Qed.

Lemma sys_step_alive s s' :
  (∀ p f, wire p f → 26 <= glen f) →
  sys_ok s → s_crashed s = false → sys_step s s' → s_crashed s' = false.
Proof.
  intros Hw [Hn Hq Hf] Hc Hs. destruct Hs as [| | | |s now [p f] q ? ? Hqe Hh| | | |s ? Hh|s]; try done.
  - rewrite Hqe in Hf. apply Forall_cons in Hf as [(Hb & _ & Hwf) _]. cbn in Hb, Hwf.
    rewrite handleFrame_eq in Hh; [done|done|apply Hn|]. apply long_in_range. by eapply Hw.
  - destruct (SendSupervisionFrame_eq (s_node s)) as (n' & Hh' & _); [apply Hn|]. congruence.
  - unfold Stop. by destruct (s_stopped s).
Qed.

(** *** Shutdown *)








(** ** Properties *)

(** C10: Safety of the running daemon.  In every reachable state, under every
    interleaving of the read loops, the worker, the timer, the ticker and
    shutdown, the frame buffer holds at most 10000 frames of at most 2048
    bytes, the duplicate table is within its configured capacity, and the node
    invariant holds. *)
Theorem runtime_invariant (n : Node) (s : System) :
  node_ok n → reachable n s →
  glen (s_queue s) <= 10000 ∧
  Forall (fun ev => glen (ev_frame ev) <= 2048) (s_queue s) ∧
  node_ok (s_node s) ∧
  Size (n_dupTable (s_node s)) <= positive_or (c_MaxNodeTableSize (n_Config (s_node s))) 256.
Proof.
  intros Hn Hr. destruct (reachable_ok n s Hn Hr) as [Hn' Hq Hf]. split_and!; try done.
  - eapply Forall_impl; [exact Hf|]. cbn. tauto.
  - destruct Hn' as [_ [_ Hb] Hm _ _]. rewrite <-Hm. apply Hb. rewrite Hm.
    unfold positive_or. destruct (Z.leb_spec (c_MaxNodeTableSize (n_Config (s_node s))) 0); lia.
Qed.

(** The daemon survives.  If the network delivers no frame shorter than 26
    bytes (Ethernet's minimum is 60), no reachable state is a crash. *)
Lemma reachable_alive (n : Node) (s : System) :
  (∀ p f, wire p f → 26 <= glen f) → node_ok n → reachable n s → s_crashed s = false.
Proof.
  intros Hw Hn Hr. unfold reachable in Hr.
  assert (H0 : sys_ok (boot n) ∧ s_crashed (boot n) = false) by (split; [by split|done]).
  revert H0. generalize (boot n), Hr. clear -Hw. intros s0 Hr.
  induction Hr as [|s0 s1 s2 Hs Hr IH]; intros [H0 Hc]; [done|].
  apply IH. split; [by eapply sys_step_ok|by eapply sys_step_alive].
Qed.

End system.

(** Start-up is all or nothing.  Starting a fresh node either fails, with
    every port it had bound closed again and no loop started, or succeeds with
    nothing closed, both redundancy ports bound, the interlink bound exactly
    when one is configured, one read loop per bound port, and a node that
    satisfies the invariant provided the roles hsr-san and hsr-prp have an
    interlink configured. *)
Lemma Start_spec {E : Env} {S : Sys} (cfg : Config) (st : Z) :
  is_u16 st →
  let r := Start (NewNode (Some cfg) st) in
  match sd_err r with
  | Some _ => sd_loops r = [] ∧ ∀ p, bound (sd_node r) p = true → p ∈ sd_closed r
  | None =>
      sd_closed r = [] ∧ n_LanA (sd_node r) = true ∧ n_LanB (sd_node r) = true ∧
      n_Interlink (sd_node r) = negb (String.eqb (c_InterlinkInterface cfg) "") ∧
      (∀ p, p ∈ sd_loops r ↔ bound (sd_node r) p = true) ∧
      ((IsHSRNode cfg = true → IsHSRHSR cfg = false → c_InterlinkInterface cfg ≠ ""%string) →
       node_ok (sd_node r))
  end.
Proof.
  intros Hst r. subst r. unfold Start. cbn [NewNode n_Config].
  destruct (CreateRawSocket LanA (c_LanAInterface cfg)); cbn [negb]; [|by split; [|intros []]].
  set (mac := nodeMAC _).
  assert (Hclosed : ∀ (n : Node) (e : start_error) (p : port),
    bound (sd_node (failed n e)) p = true → p ∈ sd_closed (failed n e)).
  { intros n e p. unfold failed, closePorts. cbn [sd_node sd_closed bound].
    destruct p; cbn [bound]; intros ->; rewrite !elem_of_app; rewrite !list_elem_of_singleton; auto. }
  destruct (SetMTU LanA (c_LanAInterface cfg) 1506); cbn [negb]; [|by split; [|apply Hclosed]].
  destruct (SetMTU LanB (c_LanBInterface cfg) 1506); cbn [negb]; [|by split; [|apply Hclosed]].
  destruct (CreateRawSocket LanB (c_LanBInterface cfg)); cbn [negb]; [|by split; [|apply Hclosed]].
  assert (Hok : ∀ i, (IsHSRNode cfg = true → IsHSRHSR cfg = false → i = true) →
    node_ok (set_cleanupTimer true (set_mac mac (bind_ports true true i (NewNode (Some cfg) st))))).
  { intros i Hi. destruct (NewNode_ok (Some cfg) st i Hst) as [? ? ? ? ?]; [|by split].
    intros c [= <-]. done. }
  destruct (String.eqb_spec (c_InterlinkInterface cfg) "") as [He|He]; cbn [negb].
  - split_and!; try done.
    + intros p. cbn. rewrite !elem_of_cons, elem_of_nil. destruct p; cbn; intuition congruence.
    + intros Hi. apply (Hok false). intros H1 H2. by destruct (Hi H1 H2).
  - destruct (CreateRawSocket Interlink (c_InterlinkInterface cfg)); cbn [negb]; [|by split; [|apply Hclosed]].
    destruct (SetMTU Interlink (c_InterlinkInterface cfg) 1506); cbn [negb]; [|by split; [|apply Hclosed]].
    split_and!; try done.
    + intros p. cbn. rewrite !elem_of_cons, elem_of_nil. destruct p; cbn; intuition congruence.
    + intros _. by apply (Hok true).
Qed.

(** *** Concrete instances *)

#[local] Existing Instance sorted_range.
#[local] Existing Instance demo_env.

Definition demo_wire (p : port) (f : bytes) : Prop := glen f = 60.

Definition demo_run0 : System := boot (demo_node "prp-san" "" 0 [2; 0; 0; 0; 0; 1]).

(** LAN A enters [Read], then delivers a frame. *)
Definition demo_run1 : System :=
  mkSystem (s_node demo_run0) [] false (set_reader LanA Reading (s_readers demo_run0)) true false
    (count LanA called no_reads).
Definition demo_run2 : System :=
  mkSystem (s_node demo_run0) [mkEvent LanA (zeros 60)] false
    (set_reader LanA Checking (s_readers demo_run1)) true false (count LanA returned_frame (s_reads demo_run1)).

Lemma demo_step1 : sys_step demo_wire demo_run0 demo_run1.
Proof. apply (step_check demo_wire demo_run0 LanA); reflexivity. Qed.

Lemma demo_step2 : sys_step demo_wire demo_run1 demo_run2.
Proof.
  apply (step_read demo_wire demo_run1 LanA (zeros 60));
    [reflexivity|reflexivity|reflexivity|apply bytes_ok_zeros|vm_compute; discriminate].
Qed.

Lemma demo_reachable : reachable demo_wire (demo_node "prp-san" "" 0 [2; 0; 0; 0; 0; 1]) demo_run2.
Proof. eapply rtc_l; [exact demo_step1|]. eapply rtc_l; [exact demo_step2|]. apply rtc_refl. Qed.

Lemma runtime_invariant_witness :
  glen (s_queue demo_run2) <= 10000 ∧
  Forall (fun ev => glen (ev_frame ev) <= 2048) (s_queue demo_run2) ∧
  node_ok (s_node demo_run2) ∧ Size (n_dupTable (s_node demo_run2)) <= 256.
Proof.
  apply (runtime_invariant demo_wire (demo_node "prp-san" "" 0 [2; 0; 0; 0; 0; 1]) demo_run2);
    [apply demo_node_ok|exact demo_reachable].
Defined.



