(* ===== verification/Threads.v ===== *)
(** * Threads: programs of atomic actions, mutexes and interleavings

    A goroutine is a program whose actions take or release a mutex, touch one
    shared location, or touch none.  A pool of goroutines takes one action at a
    time, of any goroutine whose next action is not blocked.  A write to a map
    is two actions, its entry and its exit, between which the map is marked;
    whoever consults, iterates or writes a marked map ends the process, as the
    Go runtime does ("concurrent map writes", "concurrent map iteration and map
    write"), and so does a panic.  Two disciplines of programs are decided
    thread by thread and hold of every interleaving: [disciplined] (guarded
    locations are accessed under their mutex, mutexes are taken in one order,
    all are released) rules out deadlock and confines data races, hence the
    runtime's aborts, to the unguarded locations; [safe] (no action breaks an
    invariant or panics, except in stated states, whatever the others did in
    between) confines panics.  This file is independent of the program;
    [Goroutines] instantiates it. *)

From stdpp Require Import finite.
From S2P Require Import Prelude.

(** How a mutex is held: [Lock] or [RLock]. *)
Inductive mode := Sh | Ex.

Global Instance mode_eq_dec : EqDecision mode.
Proof. solve_decision. Defined.

Section threads.
Context {St Lk Loc Tid : Type} `{!EqDecision Lk} `{!EqDecision Loc} `{!EqDecision Tid} `{!Finite Tid}.

(** ** Programs *)

Inductive label :=
| Acquire (m : Lk) (md : mode)
| Release (m : Lk)
| Reads (x : Loc)    (** a plain read *)
| Writes (x : Loc)   (** a plain write *)
| Checks (x : Loc)   (** a map lookup or one step of an iteration: the mark is checked *)
| Enters (x : Loc)   (** a map write begins: the mark is checked and set *)
| Leaves (x : Loc)   (** the map write takes effect and the mark is cleared *)
| Tau.

Definition effect (A : Type) : Type := St → go (A * St).

Inductive prog (A : Type) : Type :=
| Done (a : A)
| Act (l : label) (B : Type) (m : effect B) (k : B → prog A).
Arguments Done {A} a.
Arguments Act {A} l {B} m k.

#[export] Instance prog_ret : MRet prog := @Done.

#[export] Instance prog_bind : MBind prog := fun A B f =>
  fix bind p := match p with Done a => f a | Act l m k => Act l m (fun b => bind (k b)) end.

(** A program on its own: the labels have no effect. *)
Fixpoint alone {A} (p : prog A) (σ : St) : go (A * St) :=
  match p with
  | Done a => Ret (a, σ)
  | Act l m k => match m σ with Ret (b, σ') => alone (k b) σ' | Panic => Panic end
  end.

Lemma alone_bind {A B} (p : prog A) (f : A → prog B) σ :
  alone (p ≫= f) σ = match alone p σ with Ret (a, σ') => alone (f a) σ' | Panic => Panic end.
Proof.
  revert σ. induction p as [a|l C m k IH]; intros σ; [done|].
  change (Act l m k ≫= f) with (Act l m (fun b => k b ≫= f)). cbn [alone].
  destruct (m σ) as [[c σ']|]; [apply IH|done].
Qed.

(** ** Pools *)

(** A goroutine: the mutexes it holds and what it still has to do. *)
Record thread := mkThread { th_held : list (Lk * mode); th_prog : prog unit }.

(** How the process fares: alive, ended by a panic of goroutine [i], or ended
    by the runtime because [i] met the mark of the map [x]. *)
Inductive fate :=
| Alive
| Panicked (i : Tid)
| Fatal (i : Tid) (x : Loc).

Record pool := mkPool { pl_state : St; pl_thread : Tid → thread; pl_fate : fate }.

Definition set_thread (i : Tid) (t : thread) (f : Tid → thread) : Tid → thread :=
  fun j => if decide (i = j) then t else f j.

(** Holding a mutex in these modes at once is possible. *)
Definition compatible (md md' : mode) : bool := match md, md' with Sh, Sh => true | _, _ => false end.

(** Nobody holds [m] in a way that blocks taking it in mode [md]. *)
Definition available (m : Lk) (md : mode) (f : Tid → thread) : Prop :=
  ∀ j, Forall (fun h => h.1 = m → compatible md h.2 = true) (th_held (f j)).

Definition can_act (l : label) (f : Tid → thread) : Prop :=
  match l with Acquire m md => available m md f | _ => True end.

(** The mutexes held after an action. *)
Definition held_after (l : label) (H : list (Lk * mode)) : list (Lk * mode) :=
  match l with
  | Acquire m md => (m, md) :: H
  | Release m => filter (fun h => h.1 ≠ m) H
  | _ => H
  end.

Definition next_label (p : prog unit) : option label :=
  match p with Act l _ _ => Some l | Done _ => None end.

(** The map whose mark an action looks at. *)
Definition checks (l : label) : option Loc :=
  match l with Checks x | Enters x => Some x | _ => None end.

(** A goroutine about to leave a write of [x] has entered it: it holds the mark. *)
Definition inside (x : Loc) (p : prog unit) : bool :=
  match next_label p with Some (Leaves y) => bool_decide (x = y) | _ => false end.

(** The marked map that goroutine [i] meets with an action [l]. *)
Definition clash (i : Tid) (l : label) (f : Tid → thread) : option Loc :=
  x ← checks l;
  if decide (∃ j, i ≠ j ∧ inside x (th_prog (f j)) = true) then Some x else None.

(** What a goroutine may start when it has nothing left to do. *)
Context (jobs : Tid → prog unit → Prop).

Inductive pool_step : pool → pool → Prop :=
| pool_act s i l B (m : effect B) k b σ' :
    pl_fate s = Alive → th_prog (pl_thread s i) = Act l m k → can_act l (pl_thread s) →
    clash i l (pl_thread s) = None → m (pl_state s) = Ret (b, σ') →
    pool_step s (mkPool σ' (set_thread i (mkThread (held_after l (th_held (pl_thread s i))) (k b)) (pl_thread s)) Alive)
| pool_panic s i l B (m : effect B) k :
    pl_fate s = Alive → th_prog (pl_thread s i) = Act l m k → can_act l (pl_thread s) →
    clash i l (pl_thread s) = None → m (pl_state s) = Panic →
    pool_step s (mkPool (pl_state s) (pl_thread s) (Panicked i))
| pool_fatal s i l B (m : effect B) k x :
    pl_fate s = Alive → th_prog (pl_thread s i) = Act l m k → can_act l (pl_thread s) →
    clash i l (pl_thread s) = Some x →
    pool_step s (mkPool (pl_state s) (pl_thread s) (Fatal i x))
| pool_job s i p :
    pl_fate s = Alive → th_prog (pl_thread s i) = Done tt → jobs i p →
    pool_step s (mkPool (pl_state s) (set_thread i (mkThread (th_held (pl_thread s i)) p) (pl_thread s)) Alive).

Definition idle (σ : St) : pool := mkPool σ (fun _ => mkThread [] (Done tt)) Alive.

Definition pool_reachable (σ : St) (s : pool) : Prop := rtc pool_step (idle σ) s.

(** ** Data races *)

Definition access (l : label) : option (Loc * bool) :=
  match l with
  | Reads x | Checks x => Some (x, false)
  | Writes x | Enters x | Leaves x => Some (x, true)
  | _ => None
  end.

(** Two goroutines are both about to access [x], one of them to write it. *)
Definition race_on (x : Loc) (s : pool) : Prop :=
  ∃ i j li lj wi wj, i ≠ j ∧
    next_label (th_prog (pl_thread s i)) = Some li ∧ access li = Some (x, wi) ∧
    next_label (th_prog (pl_thread s j)) = Some lj ∧ access lj = Some (x, wj) ∧
    wi || wj = true.

Lemma inside_next x p : inside x p = true → next_label p = Some (Leaves x).
Proof. unfold inside. intros H. repeat case_match; try done. by apply bool_decide_eq_true in H as ->. Qed.

Lemma clash_at i l f x : clash i l f = Some x →
  checks l = Some x ∧ ∃ j, i ≠ j ∧ next_label (th_prog (f j)) = Some (Leaves x).
Proof.
  unfold clash. destruct (checks l) as [y|]; [|done]. cbn.
  destruct (decide _) as [(j & Hij & Hj%inside_next)|]; [|done]. intros [= ->]. by split; [|exists j].
Qed.

(** ** The discipline *)

(** How a location is protected. *)
Inductive protection := ByLock (m : Lk) | ByThread (i : Tid) | Unprotected.

Context (protect : Loc → protection) (rank : Lk → Z).

Definition access_ok (i : Tid) (H : list (Lk * mode)) (x : Loc) (write : bool) : Prop :=
  match protect x with
  | ByLock m => (m, Ex) ∈ H ∨ write = false ∧ (m, Sh) ∈ H
  | ByThread j => i = j
  | Unprotected => True
  end.

Definition label_ok (i : Tid) (H : list (Lk * mode)) (l : label) : Prop :=
  match l with
  | Acquire m _ => ∀ h, h ∈ H → rank h.1 < rank m
  | Release m => m ∈ H.*1
  | Reads x | Checks x => access_ok i H x false
  | Writes x | Enters x | Leaves x => access_ok i H x true
  | Tau => True
  end.

(** [Q] holds of the result and the mutexes held at the end. *)
Fixpoint disc {A} (i : Tid) (H : list (Lk * mode)) (p : prog A) (Q : A → list (Lk * mode) → Prop) : Prop :=
  match p with
  | Done a => Q a H
  | Act l m k => label_ok i H l ∧ ∀ b, disc i (held_after l H) (k b) Q
  end.

Definition disciplined (i : Tid) (p : prog unit) : Prop := disc i [] p (fun _ H => H = []).

Lemma disc_bind {A B} i H (p : prog A) (f : A → prog B) Q :
  disc i H p (fun a H' => disc i H' (f a) Q) → disc i H (p ≫= f) Q.
Proof.
  revert H. induction p as [a|l C m k IH]; intros H; [done|].
  intros [Hl Hk]. split; [done|]. intros b. apply IH, Hk.
Qed.

(** A block that gives back what it takes. *)
Definition balanced {A} (i : Tid) (H : list (Lk * mode)) (p : prog A) : Prop :=
  disc i H p (fun _ H' => H' = H).

Lemma disc_mono {A} i H (p : prog A) (Q Q' : A → list (Lk * mode) → Prop) :
  (∀ a H', Q a H' → Q' a H') → disc i H p Q → disc i H p Q'.
Proof.
  intros HQ. revert H. induction p as [a|l C m k IH]; intros H; [apply HQ|].
  intros [Hl Hk]. split; [done|]. intros b. by apply IH.
Qed.

Lemma balanced_bind {A B} i H (p : prog A) (f : A → prog B) :
  balanced i H p → (∀ a, balanced i H (f a)) → balanced i H (p ≫= f).
Proof.
  intros Hp Hf. apply disc_bind. eapply disc_mono; [|exact Hp]. intros a H' ->. apply Hf.
Qed.

Lemma balanced_ret {A} i H (a : A) : balanced i H (Done a).
Proof. done. Qed.

Lemma balanced_tau {A B} i H (m : effect B) (k : B → prog A) :
  (∀ b, balanced i H (k b)) → balanced i H (Act Tau m k).
Proof. intros Hk. by split. Qed.

(** ** What the discipline gives *)

Definition exclusive (f : Tid → thread) : Prop :=
  ∀ i j m md md', i ≠ j → (m, md) ∈ th_held (f i) → (m, md') ∈ th_held (f j) → compatible md md' = true.

Record pool_ok (s : pool) : Prop := {
  po_excl : exclusive (pl_thread s);
  po_disc i : disc i (th_held (pl_thread s i)) (th_prog (pl_thread s i)) (fun _ H => H = []);
}.

Lemma compatible_sym md md' : compatible md md' = compatible md' md.
Proof. by destruct md, md'. Qed.

Lemma held_after_in h l H :
  h ∈ held_after l H → h ∈ H ∨ ∃ m md, l = Acquire m md ∧ h = (m, md).
Proof.
  destruct l as [m md|m| | | | | |]; cbn [held_after]; auto.
  - rewrite elem_of_cons. intros [->|]; eauto.
  - intros [_ ?]%list_elem_of_filter. auto.
Qed.

Lemma exclusive_set i l p f :
  exclusive f → can_act l f → exclusive (set_thread i (mkThread (held_after l (th_held (f i))) p) f).
Proof.
  intros He Hc j1 j2 m md md' Hne. unfold set_thread.
  assert (Hi : ∀ j md md', i ≠ j → (m, md) ∈ held_after l (th_held (f i)) → (m, md') ∈ th_held (f j) →
    compatible md md' = true).
  { intros j md1 md2 Hj [?|(m' & md3 & -> & [= <- <-])]%held_after_in H2; [by eapply He|].
    cbn [can_act] in Hc. exact (proj1 (Forall_forall _ _) (Hc j) _ H2 eq_refl). }
  destruct (decide (i = j1)) as [<-|], (decide (i = j2)) as [<-|]; cbn [th_held]; try done.
  - eauto.
  - intros H1 H2. rewrite compatible_sym. eauto.
  - by eapply He.
Qed.

Lemma set_thread_Forall (P : Tid → thread → Prop) i t f :
  P i t → (∀ j, P j (f j)) → ∀ j, P j (set_thread i t f j).
Proof. intros Ht Hf j. unfold set_thread. destruct (decide (i = j)) as [<-|]; auto. Qed.

Lemma pool_step_ok s s' :
  (∀ i p, jobs i p → disciplined i p) → pool_ok s → pool_step s s' → pool_ok s'.
Proof.
  intros Hj [He Hd] Hs. destruct Hs as [s i l B m k b σ' _ Hp Hc _ _|s i l B m k _ Hp Hc _ _|s i l B m k x _ Hp Hc _|s i p _ Hp Hjob].
  - pose proof (Hd i) as Hi. rewrite Hp in Hi. destruct Hi as [Hl Hk]. split; cbn [pl_thread].
    + by apply exclusive_set.
    + apply (set_thread_Forall (fun j t => disc j (th_held t) (th_prog t) _)); [apply Hk|done].
  - by split.
  - by split.
  - pose proof (Hd i) as Hi. rewrite Hp in Hi. cbn [disc] in Hi. split; cbn [pl_thread].
    + apply (exclusive_set i Tau p); [done|exact I].
    + apply (set_thread_Forall (fun j t => disc j (th_held t) (th_prog t) _)); [|done].
      cbn [th_held th_prog]. rewrite Hi. by apply Hj.
Qed.

Lemma pool_reachable_ind (P : pool → Prop) σ s :
  P (idle σ) → (∀ s s', P s → pool_step s s' → P s') → pool_reachable σ s → P s.
Proof.
  intros H0 Hs Hr. unfold pool_reachable in Hr. revert H0. generalize (idle σ), Hr. clear -Hs.
  intros s0 Hr. induction Hr; eauto.
Qed.

Lemma pool_reachable_ok σ s : (∀ i p, jobs i p → disciplined i p) → pool_reachable σ s → pool_ok s.
Proof.
  intros Hj. apply pool_reachable_ind; [|by intros; eapply pool_step_ok].
  split; [|done]. intros i j m md md' _ []%elem_of_nil.
Qed.

(** The runtime ends the process only in the middle of a race: [i] is about to
    look at the mark of [x] and another goroutine holds it. *)
Lemma fatal_clash σ s i x : pool_reachable σ s → pl_fate s = Fatal i x →
  ∃ l, next_label (th_prog (pl_thread s i)) = Some l ∧ checks l = Some x ∧
  ∃ j, i ≠ j ∧ next_label (th_prog (pl_thread s j)) = Some (Leaves x).
Proof.
  intros Hr. revert i x.
  apply (pool_reachable_ind (fun s => ∀ i x, pl_fate s = Fatal i x → ∃ l,
    next_label (th_prog (pl_thread s i)) = Some l ∧ checks l = Some x ∧
    ∃ j, i ≠ j ∧ next_label (th_prog (pl_thread s j)) = Some (Leaves x)) σ s); [done| |done].
  intros s1 s2 _ Hs j y. destruct Hs as [| |s1 k l B m kk z _ Hp _ Hc|]; cbn [pl_fate pl_thread]; try done.
  intros [= <- <-]. exists l. apply clash_at in Hc as [Hl Hj]. by rewrite Hp.
Qed.

Lemma fatal_race σ s i x : pool_reachable σ s → pl_fate s = Fatal i x → race_on x s.
Proof.
  intros Hr (l & Hl & Hc & j & Hij & Hj)%(fatal_clash σ); [|done].
  assert (Ha : ∃ w, access l = Some (x, w)) by (destruct l; try done; injection Hc as ->; by eexists).
  destruct Ha as [w Ha]. exists i, j, l, (Leaves x), w, true. split_and!; [done..|by destruct w].
Qed.

(** Guarded locations are never raced on. *)
Lemma ok_no_race s x : pool_ok s → race_on x s → protect x = Unprotected.
Proof.
  intros [He Hd] (i & j & li & lj & wi & wj & Hij & Hi & Hai & Hj & Haj & Hw).
  assert (Hacc : ∀ i l w, next_label (th_prog (pl_thread s i)) = Some l → access l = Some (x, w) →
    access_ok i (th_held (pl_thread s i)) x w).
  { intros k l w Hn Ha. pose proof (Hd k) as Hk. destruct (th_prog (pl_thread s k)) as [|l' B m kk]; [done|].
    injection Hn as ->. destruct Hk as [Hl _]. destruct l; try done; by injection Ha as <- <-. }
  pose proof (Hacc i li wi Hi Hai) as H1. pose proof (Hacc j lj wj Hj Haj) as H2.
  unfold access_ok in H1, H2. destruct (protect x) as [m|k|]; [|congruence|done].
  exfalso. destruct H1 as [H1|[-> H1]], H2 as [H2|[-> H2]]; try done;
    by pose proof (He i j m _ _ Hij H1 H2).
Qed.

(** *** Deadlock freedom *)

#[export] Instance available_dec m md f : Decision (available m md f).
Proof. unfold available. apply _. Defined.

#[export] Instance can_act_dec l f : Decision (can_act l f).
Proof. destruct l; cbn [can_act]; apply _. Defined.

Lemma not_available m md f : ¬ available m md f → ∃ j h, h ∈ th_held (f j) ∧ h.1 = m.
Proof.
  intros Hn. destruct (decide (∃ j, ¬ Forall (fun h => h.1 = m → compatible md h.2 = true) (th_held (f j))))
    as [[j Hj]|Hne].
  - apply not_Forall_Exists in Hj; [|apply _]. apply Exists_exists in Hj as (h & Hh & Hc).
    exists j, h. split; [done|]. apply dec_stable. intros Hne. by apply Hc.
  - exfalso. apply Hn. intros j. apply dec_stable. intros Hj. apply Hne. by exists j.
Qed.

(** Some goroutine can take its next action. *)
Definition can_step (s : pool) : Prop :=
  ∃ i l, next_label (th_prog (pl_thread s i)) = Some l ∧ can_act l (pl_thread s).

Lemma busy_progress s (bound : Z) :
  (∀ m, rank m < bound) → pool_ok s →
  ∀ i l, next_label (th_prog (pl_thread s i)) = Some l → can_step s.
Proof.
  intros Hb [He Hd].
  assert (Hblock : ∀ n i l, (match l with Acquire m _ => (Z.to_nat (bound - rank m) < n)%nat | _ => True end) →
    next_label (th_prog (pl_thread s i)) = Some l → can_step s).
  { induction n as [|n IH]; intros i l Hm Hi;
      (destruct l as [m md| | | | | | |]; [|by eexists i, _; split; [exact Hi|]..]); [lia|].
    destruct (decide (available m md (pl_thread s))) as [|Hna]; [by exists i, (Acquire m md)|].
    apply not_available in Hna as (j & h & Hh & <-). pose proof (Hd j) as Hj.
    destruct (th_prog (pl_thread s j)) as [u|l' B e k] eqn:Ep.
    - cbn [disc] in Hj. rewrite Hj in Hh. by apply elem_of_nil in Hh.
    - destruct Hj as [Hl _]. apply (IH j l'); [|by rewrite Ep].
      destruct l' as [m' md'| | | | | | |]; try done. cbn [label_ok] in Hl. specialize (Hl h Hh).
      pose proof (Hb m'). pose proof (Hb h.1). lia. }
  intros i l Hi. destruct l as [m md| | | | | | |]; [|by eexists i, _; split; [exact Hi|]..].
  eapply (Hblock (S (Z.to_nat (bound - rank m)))); [|exact Hi]. cbn. lia.
Qed.

Lemma can_step_steps s : pl_fate s = Alive → can_step s → ∃ s', pool_step s s'.
Proof.
  intros Hc (i & l & Hi & Hl). destruct (th_prog (pl_thread s i)) as [|l' B m k] eqn:Ep; [done|].
  injection Hi as ->. destruct (clash i l (pl_thread s)) as [x|] eqn:Ex; [eexists; by eapply pool_fatal|].
  destruct (m (pl_state s)) as [[b σ']|] eqn:Em.
  - eexists. by eapply pool_act.
  - eexists. by eapply pool_panic.
Qed.

(** ** Running a schedule *)

(** The next action of goroutine [i], if it is not blocked or idle. *)
Definition take_step (i : Tid) (s : pool) : option pool :=
  match pl_fate s, th_prog (pl_thread s i) with
  | Alive, Act l m k =>
      if decide (can_act l (pl_thread s)) then
        match clash i l (pl_thread s) with
        | Some x => Some (mkPool (pl_state s) (pl_thread s) (Fatal i x))
        | None =>
            match m (pl_state s) with
            | Ret (b, σ') =>
                Some (mkPool σ' (set_thread i (mkThread (held_after l (th_held (pl_thread s i))) (k b)) (pl_thread s)) Alive)
            | Panic => Some (mkPool (pl_state s) (pl_thread s) (Panicked i))
            end
        end
      else None
  | _, _ => None
  end.

Fixpoint schedule (l : list Tid) (s : pool) : option pool :=
  match l with [] => Some s | i :: l => s' ← take_step i s; schedule l s' end.

(** The state after a schedule, or the same state if it cannot be followed. *)
Definition run_schedule (l : list Tid) (s : pool) : pool := default s (schedule l s).

Definition start (i : Tid) (p : prog unit) (s : pool) : pool :=
  mkPool (pl_state s) (set_thread i (mkThread (th_held (pl_thread s i)) p) (pl_thread s)) Alive.

Lemma take_step_sound i s s' : take_step i s = Some s' → pool_step s s'.
Proof.
  unfold take_step. destruct (pl_fate s) eqn:Hc; [|done..].
  destruct (th_prog (pl_thread s i)) as [|l B m k] eqn:Hp; [done|]. destruct (decide _); [|done].
  destruct (clash i l (pl_thread s)) as [x|] eqn:Hx; [intros [= <-]; by eapply pool_fatal|].
  destruct (m (pl_state s)) as [[b σ']|] eqn:Hm; intros [= <-]; [by eapply pool_act|by eapply pool_panic].
Qed.

Lemma schedule_sound l : ∀ s s', schedule l s = Some s' → rtc pool_step s s'.
Proof.
  induction l as [|i l IH]; intros s s'; cbn [schedule]; [by intros [= <-]|].
  destruct (take_step i s) as [s1|] eqn:Hs; [|done]. intros Hl. eapply rtc_l; [by eapply take_step_sound|by apply IH].
Qed.

Lemma run_schedule_sound l s : rtc pool_step s (run_schedule l s).
Proof.
  unfold run_schedule. destruct (schedule l s) eqn:Hl; [by eapply schedule_sound|done].
Qed.

Lemma start_sound i p s :
  pl_fate s = Alive → th_prog (pl_thread s i) = Done tt → jobs i p → pool_step s (start i p s).
Proof. apply pool_job. Qed.

(** ** Invariants under interference *)

Context (Inv : St → Prop) (G : St → St → Prop).

(** From any state with the invariant, after any interference that keeps it,
    every action is one of [may], is allowed by [G] and keeps the invariant; it
    panics at most in the states [pan]. *)
Fixpoint safe (pan : St → Prop) (may : label → Prop) {A} (p : prog A) (Q : A → Prop) : Prop :=
  match p with
  | Done a => Q a
  | Act l m k => may l ∧ ∀ σ, Inv σ →
      match m σ with Ret (b, σ') => Inv σ' ∧ G σ σ' ∧ safe pan may (k b) Q | Panic => pan σ end
  end.

Section programs.
Context (pan : St → Prop) (may : label → Prop).

Lemma safe_bind {A B} (p : prog A) (f : A → prog B) Q :
  safe pan may p (fun a => safe pan may (f a) Q) → safe pan may (p ≫= f) Q.
Proof.
  induction p as [a|l C m k IH]; [done|]. intros [Hl Hp]. split; [done|]. intros σ Hσ. specialize (Hp σ Hσ).
  destruct (m σ) as [[b σ']|]; [|done]. destruct Hp as (? & ? & ?). split_and!; [done..|]. by apply IH.
Qed.

Lemma safe_mono {A} (p : prog A) (Q Q' : A → Prop) :
  (∀ a, Q a → Q' a) → safe pan may p Q → safe pan may p Q'.
Proof.
  intros HQ. induction p as [a|l C m k IH]; [apply HQ|]. intros [Hl Hp]. split; [done|].
  intros σ Hσ. specialize (Hp σ Hσ).
  destruct (m σ) as [[b σ']|]; [|done]. destruct Hp as (? & ? & ?). split_and!; [done..|]. by apply IH.
Qed.

Lemma safe_next (p : prog unit) Q l : safe pan may p Q → next_label p = Some l → may l.
Proof. by destruct p; [|intros [Hl _] [= <-]]. Qed.
End programs.

(** What each goroutine may do, and where it may panic. *)
Context (pan : Tid → St → Prop) (may : Tid → label → Prop).

Record pool_safe (σ : St) (s : pool) : Prop := {
  ps_inv : Inv (pl_state s);
  ps_run : rtc G σ (pl_state s);
  ps_pan i : pl_fate s = Panicked i → pan i (pl_state s);
  ps_threads i : safe (pan i) (may i) (th_prog (pl_thread s i)) (fun _ => True);
}.

Lemma pool_step_safe σ s s' :
  (∀ i p, jobs i p → safe (pan i) (may i) p (fun _ => True)) → pool_safe σ s → pool_step s s' → pool_safe σ s'.
Proof.
  intros Hj [Hi Hr _ Hs] Hst.
  destruct Hst as [s i l B m k b σ' _ Hp _ _ Hm|s i l B m k _ Hp _ _ Hm|s i l B m k x _ Hp _ _|s i p _ Hp Hjob];
    cbn [pl_state pl_thread] in *.
  - pose proof (Hs i) as Hsi. rewrite Hp in Hsi. destruct Hsi as [_ Hsi]. specialize (Hsi _ Hi). rewrite Hm in Hsi.
    destruct Hsi as (? & ? & ?). split; cbn [pl_state pl_thread]; [done|by eapply rtc_r|done|].
    by apply (set_thread_Forall (fun j t => safe (pan j) (may j) (th_prog t) _)).
  - pose proof (Hs i) as Hsi. rewrite Hp in Hsi. destruct Hsi as [_ Hsi]. specialize (Hsi _ Hi). rewrite Hm in Hsi.
    split; [done..| |done]. by intros j [= <-].
  - by split.
  - split; cbn [pl_state pl_thread]; [done..|].
    apply (set_thread_Forall (fun j t => safe (pan j) (may j) (th_prog t) _)); [|done]. by eapply Hj.
Qed.

Lemma pool_reachable_safe σ s :
  Inv σ → (∀ i p, jobs i p → safe (pan i) (may i) p (fun _ => True)) → pool_reachable σ s → pool_safe σ s.
Proof.
  intros Hσ Hj. apply pool_reachable_ind.
  - split; [done|apply rtc_refl|done|done].
  - intros s1 s2 Hs. by apply pool_step_safe.
Qed.
End threads.

Arguments Done {_ _ _ _} a.
Arguments Act {_ _ _ _} l {_} m k.
