(* ===== verification/Goroutines.v ===== *)
(** * Goroutines: the daemon's goroutines, action by action

    The handlers of [src/internal/prp] as programs of [Threads]: which mutex
    each takes, which shared field each touches and when.  Run alone they are
    the handlers of [Node], [PrpPath], [HsrPath] and [Dispatch]; run together
    they interleave at every action.  The goroutines that use the node are the
    frame worker ([processFrames]), the clean-up timer ([periodicCleanup]), the
    supervision ticker ([SendSupervisionFrame]), the status display
    ([Snapshot]) and the one that runs [Start], from where it has armed the
    timer, and [Stop].

    A map write is two actions ([store]), a lookup one; an iteration without a
    mutex is one action per entry.  Under a mutex a whole table operation is
    one entry and one exit.  The fields set before the timer is armed
    (configuration, ports, MAC address, forget times) are read without a label,
    channels and sockets may be used by any goroutine. *)

From stdpp Require Import finite.
From S2P Require Import Prelude Engine Hsr NodeTable Supervision Role Pattern Node PrpPath HsrPath Dispatch Threads.

(** ** What is shared *)

Inductive mutex :=
| MuTable      (** [nodetable.Table.mu], an RWMutex *)
| MuSeqs       (** [engine.SequenceManager.mu] *)
| MuProxy      (** [Node.proxyTableMu] *)
| MuMembers    (** [Node.ringMembersMu] *)
| MuCounters   (** [Node.counters.mu] *)
| MuStop.      (** [Node.stopLock] *)

(** The fields of [Node], and the contents of its table and sequence manager,
    that change once the timer is armed. *)
Inductive field :=
| FTable         (** [dupTable.entries] *)
| FSeqs          (** the map of [seqMgr] *)
| FProxy         (** [proxyTable] *)
| FMembers       (** [ringMembers] *)
| FCounters      (** [counters] *)
| FSeen          (** [supervisionSeen] *)
| FSeenSeqs      (** [supervisionSeqs] *)
| FDrops         (** [dropCounters] *)
| FSupSeq        (** [supSeq] *)
| FCleanupTimer. (** [cleanupTimer] *)

(** [Control] is the goroutine of [main]: it calls [Start] and [Stop]. *)
Inductive goroutine := Worker | Timer | Ticker | Display | Control.

Global Instance mutex_eq_dec : EqDecision mutex.
Proof. solve_decision. Defined.

Global Instance field_eq_dec : EqDecision field.
Proof. solve_decision. Defined.

Global Instance goroutine_eq_dec : EqDecision goroutine.
Proof. solve_decision. Defined.

#[export] Program Instance goroutine_finite : Finite goroutine := {| enum := [Worker; Timer; Ticker; Display; Control] |}.
Next Obligation. repeat constructor; rewrite ?elem_of_cons, ?elem_of_nil; naive_solver. Qed.
Next Obligation. intros []; rewrite !elem_of_cons; naive_solver. Qed.

(** How each field is protected. *)
Definition protect (x : field) : protection :=
  match x with
  | FTable => ByLock MuTable
  | FSeqs => ByLock MuSeqs
  | FProxy => ByLock MuProxy
  | FMembers => ByLock MuMembers
  | FCounters => ByLock MuCounters
  | FSeenSeqs => ByThread Worker
  | FSupSeq => ByThread Ticker
  | FSeen | FDrops | FCleanupTimer => Unprotected
  end.

(** The order in which mutexes nest: [Snapshot] reads the table's size under
    the counters' mutex. *)
Definition rank (m : mutex) : Z := match m with MuCounters => 0 | _ => 1 end.

Notation GP := (prog (St := Node) (Lk := mutex) (Loc := field)).

Notation gpool := (pool (St := Node) (Lk := mutex) (Loc := field) (Tid := goroutine)).

(** ** Actions *)

(** One action. *)
Definition act {A} (l : label) (m : M A) : GP A := Act l m Done.

(** Accesses under a mutex. *)
Definition locked {A} (mu : mutex) (md : mode) (p : GP A) : GP A :=
  _ ← act (Acquire mu md) (mret tt); a ← p; _ ← act (Release mu) (mret tt); mret a.

(** A write to the map [x]: it takes effect as it ends. *)
Definition store {A} (x : field) (m : M A) : GP A := _ ← act (Enters x) (mret tt); act (Leaves x) m.

(** Steps of an iteration over the map [x], along the keys [ks]; an entry
    deleted meanwhile is passed over. *)
Fixpoint visit {V A} (x : field) (get : Node → gmap string V) (body : A → string → V → GP A)
    (ks : list string) (acc : A) : GP A :=
  match ks with
  | [] => mret acc
  | k :: ks =>
      v ← act (Checks x) (gets (fun n => get n !! k));
      acc ← match v with Some v => body acc k v | None => mret acc end;
      visit x get body ks acc
  end.

(** The keys an iteration tries, given the keys at its start, in the order of
    the runtime: all of these and perhaps others, added while it runs. *)
Definition iterator := list string → list string.
Definition covers (it : iterator) : Prop := ∀ ks, ks ⊆ it ks.

(** A Go function without shared state, and a read of what does not change. *)
Definition pure {A} (g : go A) : GP A := act Tau (lift g).
Definition fixed {A} (f : Node → A) : GP A := act Tau (gets f).

Section goroutines.
Context {MR : MapRange} {E : Env}.

(** [for k, v := range m { body }]: an empty map is left at once, otherwise a
    last step finds the end. *)
Definition rangeP {V A} (it : iterator) (x : field) (get : Node → gmap string V)
    (body : A → string → V → GP A) (acc : A) : GP A :=
  ks ← act (Reads x) (gets (fun n => (range (get n)).*1));
  match ks with
  | [] => mret acc
  | _ => acc ← visit x get body (it ks) acc; _ ← act (Checks x) (mret tt); mret acc
  end.

(** [if m == nil { m = make(...) }]; an empty map stands for a nil one. *)
Definition makeP {V} (x : field) (get : Node → gmap string V) : GP unit :=
  missing ← act (Reads x) (gets (fun n => bool_decide (get n = ∅)));
  if missing : bool then act (Writes x) (mret tt) else mret tt.

(** ** Operations *)

Definition countFrameP (p : port) (d : dir) : GP unit := locked MuCounters Ex (act (Writes FCounters) (countFrame p d)).
Definition countSupP : GP unit := locked MuCounters Ex (act (Writes FCounters) countSup).
Definition noteDropP (reason : string) : GP unit :=
  _ ← makeP FDrops n_dropCounters; store FDrops (noteDrop reason).
Definition FindP (now : Z) (src : string) (seq : Z) : GP bool :=
  locked MuTable Sh (act (Checks FTable) (gets (fun n => Find (n_dupTable n) now src seq))).
Definition rememberP (now : Z) (src : string) (seq lan : Z) : GP unit :=
  locked MuTable Ex (store FTable (remember now src seq lan)).
Definition nextSeqP (src : string) : GP Z := locked MuSeqs Ex (store FSeqs (nextSeq src)).
Definition learnProxyP (now : Z) (src : string) : GP unit :=
  locked MuProxy Ex (store FProxy (learnProxy now src)).
Definition learnRingMemberP (now : Z) (src : string) : GP unit :=
  locked MuMembers Ex (store FMembers (learnRingMember now src)).
Definition ownFrameP (frame : bytes) : GP bool := act Tau (reads (ownFrame frame)).
Definition WriteP (p : port) (frame : bytes) : GP bool := act Tau (Write p frame).
Definition WriteCountedP (p : port) (frame : bytes) : GP unit :=
  ok ← WriteP p frame;
  if ok : bool then countFrameP p Out else mret tt.

Definition shouldForwardToInterlinkP (now : Z) (frame : bytes) : GP bool :=
  all ← fixed (fun n => c_ForwardAll (n_Config n));
  if all : bool then mret true
  else
    mc ← pure (IsMulticastMAC frame);
    if mc : bool then act Tau (reads (fun n => multicastAllowed (n_Config n) frame))
    else
      dst ← pure (GetDstMAC frame);
      seen ← locked MuProxy Ex (act (Checks FProxy) (gets (fun n => n_proxyTable n !! dst)));
      match seen with
      | Some seen => fixed (fun n => time_Sub now seen <=? n_proxyTableForget n)
      | None => mret false
      end.

Definition unicastToRingMemberP (dst : bytes) : GP bool :=
  if negb (glen dst =? 6) then mret false
  else
    b ← pure (idx dst 0);
    if Z.land b 0x01 =? 1 then mret false
    else
      mac ← pure (GetDstMAC dst);
      locked MuMembers Ex (act (Checks FMembers)
        (gets (fun n => bool_decide (is_Some (n_ringMembers n !! mac))))).

(** ** The worker's handlers *)

Definition handleIncomingPRPFrameP (now : Z) (event : frameEvent) : GP unit :=
  _ ← countFrameP (ev_iface event) In;
  isPRP ← pure (IsPRPFrame (ev_frame event));
  if negb isPRP then noteDropP "malformed"
  else
    r ← pure (DecodeRCT (ev_frame event));
    match r with
    | Err _ => mret tt
    | Ok (lanID, seq, payload) =>
        let expected := if bool_decide (ev_iface event = LanB) then 1 else 0 in
        if negb (lanID =? expected) then noteDropP "path"
        else
          srcMAC ← pure (GetSrcMAC (ev_frame event));
          ownSrc ← ownFrameP (ev_frame event);
          if ownSrc : bool then mret tt
          else
            dup ← FindP now srcMAC seq;
            if dup : bool then noteDropP "dup"
            else
              _ ← rememberP now srcMAC seq lanID;
              deliver ← fixed (fun n => negb (IsHSRNode (n_Config n)) && n_Interlink n);
              if deliver : bool then
                fwd ← shouldForwardToInterlinkP now payload;
                if negb fwd then noteDropP "filter"
                else WriteCountedP Interlink payload
              else mret tt
    end.

Definition handleInterlinkFrameP (now : Z) (event : frameEvent) : GP unit :=
  _ ← countFrameP Interlink In;
  vlans ← fixed (fun n => c_VLANFilter (n_Config n));
  pass ← (if glen vlans >? 0 then
            v ← pure (GetVLANID (ev_frame event));
            mret (negb (negb v.2 || negb (containsInt vlans v.1)))
          else mret true);
  if negb pass then noteDropP "filter"
  else
    _ ← (if glen (ev_frame event) >=? 12 then
           src ← pure (GetSrcMAC (ev_frame event)); learnProxyP now src
         else mret tt);
    srcMAC ← pure (GetSrcMAC (ev_frame event));
    trailer ← fixed (fun n => c_TrailerEnabled (n_Config n));
    if negb trailer then
      _ ← WriteP LanA (ev_frame event);
      _ ← WriteP LanB (ev_frame event);
      _ ← countFrameP LanA Out;
      countFrameP LanB Out
    else
      seq ← nextSeqP srcMAC;
      lanAFrame ← pure (EncodeRCT (ev_frame event) seq 0);
      lanBFrame ← pure (EncodeRCT (ev_frame event) seq 1);
      _ ← WriteCountedP LanA lanAFrame;
      WriteCountedP LanB lanBFrame.

Definition handleSupervisionFrameP (now : Z) (event : frameEvent) : GP unit :=
  parsed ← pure (Parse (ev_frame event));
  match parsed with
  | None => mret tt
  | Some sup =>
      _ ← makeP FSeen n_supervisionSeen;
      _ ← store FSeen
            (modify (fun n => set_supervisionSeen (<[f_SrcMAC sup := now]> (n_supervisionSeen n)) n));
      ring ← fixed (fun n => IsHSRNode (n_Config n) && is_lan (ev_iface event));
      _ ← (if ring : bool then learnRingMemberP now (f_SrcMAC sup) else mret tt);
      last ← act (Checks FSeenSeqs) (gets (fun n => n_supervisionSeqs n !! f_SrcMAC sup));
      _ ← match last with
          | Some last =>
              if i16 (u16 (f_Seq sup - last)) <? 0
              then locked MuTable Ex (store FTable
                     (modify (fun n => set_dupTable (FlushFor (n_dupTable n) (f_SrcMAC sup)).1 n)))
              else mret tt
          | None => mret tt
          end;
      store FSeenSeqs
        (modify (fun n => set_supervisionSeqs (<[f_SrcMAC sup := f_Seq sup]> (n_supervisionSeqs n)) n))
  end.

Definition couplingToPRPP (original : bytes) (seq : Z) : GP unit :=
  lan ← fixed (fun n => LanID (n_Config n));
  rct ← pure (EncodeRCT original (u16 seq) lan);
  WriteCountedP Interlink rct.

Definition handleIncomingHSRFrameP (now : Z) (event : frameEvent) : GP unit :=
  _ ← countFrameP (ev_iface event) In;
  r ← pure (DecodeHSR (ev_frame event));
  match r with
  | Err _ => noteDropP "malformed"
  | Ok (path, seq, encap, payload) =>
      srcMAC ← pure (GetSrcMAC (ev_frame event));
      let other := other_port (ev_iface event) in
      ownSrc ← ownFrameP (ev_frame event);
      if ownSrc : bool then noteDropP "own"
      else
        dup ← FindP now srcMAC seq;
        if dup : bool then noteDropP "dup"
        else
          _ ← rememberP now srcMAC seq 0;
          _ ← learnRingMemberP now srcMAC;
          fwd ← pure (RewriteHSRPathLane (ev_frame event) (bool_decide (other = LanA)));
          _ ← match fwd with
              | Ok fwd => WriteCountedP other fwd
              | Err _ => mret tt
              end;
          quad ← fixed (fun n => IsHSRHSR (n_Config n) && n_Interlink n);
          _ ← (if quad : bool then
                 dst ← pure (slice (ev_frame event) 0 6);
                 member ← unicastToRingMemberP dst;
                 if member : bool then noteDropP "filter"
                 else WriteCountedP Interlink (ev_frame event)
               else mret tt);
          c ← fixed n_Config;
          if IsHSRPRPCoupling c then
            if negb (Z.shiftr path 1 =? NetID c) then
              s ← pure (StripHSR (ev_frame event));
              match s with
              | Err _ => noteDropP "malformed"
              | Ok original => couplingToPRPP original seq
              end
            else if Z.land path 1 =? LanID c then noteDropP "own"
            else noteDropP "path"
          else if IsHSRHSR c then mret tt
          else
            dst ← pure (slice (ev_frame event) 0 6);
            member ← unicastToRingMemberP dst;
            if member : bool then noteDropP "filter"
            else
              pass ← shouldForwardToInterlinkP now payload;
              if negb pass then noteDropP "filter"
              else
                s ← pure (StripHSR (ev_frame event));
                match s with
                | Err _ => noteDropP "malformed"
                | Ok original => WriteCountedP Interlink original
                end
  end.

Definition quadboxInterlinkP (now : Z) (frame : bytes) (srcMAC : string) : GP unit :=
  r ← pure (DecodeHSR frame);
  match r with
  | Err _ => noteDropP "malformed"
  | Ok (_, seq, _, _) =>
      ownSrc ← ownFrameP frame;
      if ownSrc : bool then noteDropP "own"
      else
        dup ← FindP now srcMAC seq;
        if dup : bool then noteDropP "dup"
        else
          _ ← rememberP now srcMAC seq 0;
          fwd ← pure (RewriteHSRPath frame 0);
          match fwd with
          | Err _ => noteDropP "malformed"
          | Ok fwd => _ ← WriteCountedP LanA fwd; WriteCountedP LanB fwd
          end
  end.

Definition handleHSRInterlinkFrameP (now : Z) (event : frameEvent) : GP unit :=
  _ ← countFrameP Interlink In;
  srcMAC ← pure (GetSrcMAC (ev_frame event));
  c ← fixed n_Config;
  if IsHSRHSR c then quadboxInterlinkP now (ev_frame event) srcMAC
  else
    _ ← (if glen (ev_frame event) >=? 12 then learnProxyP now srcMAC else mret tt);
    let path := if IsHSRPRPCoupling c then PathId c else 0 in
    seq ← (if IsHSRPRPCoupling c then
             r ← pure (DecodeRCT (ev_frame event));
             mret (match r with Err _ => None | Ok (_, rctSeq, _) => Some (u16 rctSeq) end)
           else q ← nextSeqP srcMAC; mret (Some q));
    match seq with
    | None => noteDropP "malformed"
    | Some seq =>
        _ ← rememberP now srcMAC seq 0;
        body ← pure (hsrBodyOf (ev_frame event) path seq);
        _ ← WriteCountedP LanA body;
        WriteCountedP LanB body
    end.

Definition handleFrameP (now : Z) (event : frameEvent) : GP unit :=
  if glen (ev_frame event) <? 14 then mret tt
  else
    etherType ← pure (GetEtherType (ev_frame event));
    c ← fixed n_Config;
    let supervision := (etherType =? 0x88fb) &&
      (bool_decide (ev_iface event = LanA) || bool_decide (ev_iface event = LanB) ||
       (IsHSRHSR c && bool_decide (ev_iface event = Interlink))) in
    if supervision then
      _ ← handleSupervisionFrameP now event;
      if IsHSRHSR c then
        if bool_decide (ev_iface event = LanA) || bool_decide (ev_iface event = LanB) then
          linked ← fixed n_Interlink;
          if linked : bool then WriteCountedP Interlink (ev_frame event) else mret tt
        else
          _ ← WriteCountedP LanA (ev_frame event);
          WriteCountedP LanB (ev_frame event)
      else mret tt
    else
      match ev_iface event with
      | LanA | LanB =>
          if IsHSRNode c then handleIncomingHSRFrameP now event
          else handleIncomingPRPFrameP now event
      | Interlink =>
          if IsHSRNode c then handleHSRInterlinkFrameP now event
          else handleInterlinkFrameP now event
      end.

(** ** The other goroutines *)

(** [n.cleanupTimer.Reset(...)]: a nil timer is a nil pointer dereference *)
Definition resetTimer : M unit := fun n => if n_cleanupTimer n then Ret (tt, n) else Panic.

(** [delete(n.supervisionSeen, mac)] for the entries before the cut-off *)
Definition forgetSeen (cutoff : Z) (_ : unit) (mac : string) (last : Z) : GP unit :=
  if last <? cutoff
  then store FSeen (modify (fun n => set_supervisionSeen (delete mac (n_supervisionSeen n)) n))
  else mret tt.

Definition cleanupSupervisionSeenP (now : Z) (it : iterator) : GP unit :=
  seen ← act (Reads FSeen) (gets (fun n => Z.of_nat (size (n_supervisionSeen n))));
  if seen =? 0 then mret tt
  else
    forget ← fixed n_supervisionForget;
    let cutoff := now + i64 (- forget) in
    _ ← rangeP it FSeen n_supervisionSeen (forgetSeen cutoff) tt;
    locked MuMembers Ex (store FMembers (modify (fun n =>
      set_ringMembers (delete_where (fun last => last <? cutoff) (n_ringMembers n)).1 n))).

(** [Cleanup] reads the clock before it takes the mutex, the cut-off is from a
    second reading [now'], and the size is read again for a log line. *)
Definition periodicCleanupP (now now' : Z) (it : iterator) : GP unit :=
  removed ← locked MuTable Ex (store FTable (fun n =>
    let r := Cleanup (n_dupTable n) now in Ret (r.2, set_dupTable r.1 n)));
  debug ← fixed (fun n => c_Debug (n_Config n));
  _ ← (if (removed >? 0) && debug
       then locked MuTable Sh (act (Reads FTable) (gets (fun n => Size (n_dupTable n))))
       else mret 0);
  _ ← cleanupSupervisionSeenP now' it;
  act (Reads FCleanupTimer) resetTimer.

Definition SendSupervisionFrameP : GP unit :=
  srcMAC ← fixed (fun n => default [] (match n_mac n with Some m => Some m | None => nodeMAC n end));
  _ ← act (Writes FSupSeq) (modify (fun n => set_supSeq (u16 (n_supSeq n + 1)) n));
  seq ← act (Reads FSupSeq) (gets n_supSeq);
  c ← fixed n_Config;
  if negb (IsHSRNode c) then
    _ ← WriteP LanA (BuildRCTed srcMAC seq 0);
    _ ← WriteP LanB (BuildRCTed srcMAC seq 1);
    countSupP
  else
    let path := if IsHSRPRPCoupling c then PathId c else 0 in
    let sup := BuildHSR srcMAC seq path in
    _ ← WriteP LanA sup;
    _ ← WriteP LanB sup;
    _ ← countSupP;
    linked ← fixed n_Interlink;
    _ ← (if IsHSRHSR c && linked then _ ← WriteP Interlink sup; mret tt else mret tt);
    if IsHSRPRPCoupling c && linked then
      _ ← WriteP Interlink (BuildRCTed srcMAC seq (LanID c)); mret tt
    else mret tt.

(** [Snapshot]; the table's size is read under the counters' mutex, the drop
    reasons are copied under none, into a map made with their number. *)
Definition SnapshotP (it : iterator) : GP Status :=
  r ← locked MuCounters Ex (
    c ← act (Reads FCounters) (gets n_counters);
    sz ← locked MuTable Sh (act (Reads FTable) (gets (fun n => Size (n_dupTable n))));
    mret (c, sz));
  _ ← act (Reads FDrops) (gets (fun n => size (n_dropCounters n)));
  drops ← rangeP it FDrops n_dropCounters (fun drops k v => mret (<[k := v]> drops)) ∅;
  cfg ← fixed n_Config;
  let '(c, sz) := r in
  mret (mkStatus (c_Role cfg) (c_LanID cfg) (c_NetID cfg)
    (lanAIn c) (lanBIn c) (lanAOut c) (lanBOut c) (interIn c) (interOut c) (supSent c) sz drops).

(** What is left of [Start] once [time.AfterFunc] has armed the timer: its
    result is stored. *)
Definition StartP : GP unit := act (Writes FCleanupTimer) (modify (set_cleanupTimer true)).

(** [if port != nil { port.Close() }] *)
Definition closeP (p : port) : GP unit :=
  b ← fixed (fun n => bound n p);
  if b : bool then act Tau (mret tt) else mret tt.

(** [Stop]; [stopped] is what it finds of the stop channel.  Stopping the timer
    and closing a port leave the node's fields alone. *)
Definition StopP (stopped : bool) : GP unit :=
  locked MuStop Ex (
    if stopped then mret tt
    else
      armed ← act (Reads FCleanupTimer) (gets n_cleanupTimer);
      _ ← (if armed : bool then act (Reads FCleanupTimer) (mret tt) else mret tt);
      _ ← closeP LanA;
      _ ← closeP LanB;
      closeP Interlink).

(** ** Run alone, a program is its handler *)

Lemma alone_seq {A B} (p : GP A) (m : M A) (f : A → GP B) (k : A → M B) :
  (∀ n, alone p n = m n) → (∀ a n, alone (f a) n = k a n) → ∀ n, alone (p ≫= f) n = (m ≫= k) n.
Proof.
  intros Hp Hf n. rewrite alone_bind, Hp. unfold mbind, M_bind. destruct (m n) as [[a n']|]; [apply Hf|done].
Qed.

Lemma alone_act {A} l (m : M A) n : alone (act l m) n = m n.
Proof. cbn [alone act]. by destruct (m n) as [[a n']|]. Qed.

Lemma alone_locked {A} mu md (p : GP A) (m : M A) :
  (∀ n, alone p n = m n) → ∀ n, alone (locked mu md p) n = m n.
Proof.
  intros Hp n. unfold locked. rewrite alone_bind, alone_act. cbn [mret M_ret]. rewrite alone_bind, Hp.
  by destruct (m n) as [[a n']|].
Qed.

Lemma alone_store {A} x (m : M A) n : alone (store x m) n = m n.
Proof. unfold store. rewrite alone_bind, alone_act. cbn [mret M_ret]. apply alone_act. Qed.

Lemma alone_make {V A} x (get : Node → gmap string V) (k : unit → GP A) (m : M A) :
  (∀ n, alone (k tt) n = m n) → ∀ n, alone (makeP x get ≫= k) n = m n.
Proof.
  intros Hk n. unfold makeP. rewrite alone_bind, alone_bind, alone_act. unfold gets, reads.
  case_bool_decide; apply Hk.
Qed.

(** An iteration on its own goes through every entry, in some order. *)
Lemma alone_visit {V A} x (get : Node → gmap string V) (body : A → string → V → GP A) f ks acc n :
  (∀ acc k v n, get n !! k = Some v → alone (body acc k v) n = Ret (f acc k v n)) →
  alone (visit x get body ks acc) n =
  Ret (foldl (fun an k => match get an.2 !! k with Some v => f an.1 k v an.2 | None => an end) (acc, n) ks).
Proof.
  intros Hf. revert acc n. induction ks as [|k ks IH]; intros acc n; [done|]. cbn [visit foldl].
  rewrite alone_bind, alone_act. unfold gets, reads. rewrite alone_bind. cbn [fst snd].
  destruct (get n !! k) as [v|] eqn:Hk; [|exact (IH acc n)].
  rewrite Hf by done. destruct (f acc k v n) as [acc' n']. exact (IH acc' n').
Qed.

Lemma alone_range {V A} it x (get : Node → gmap string V) (body : A → string → V → GP A) f acc n :
  get n ≠ ∅ → (∀ acc k v n, get n !! k = Some v → alone (body acc k v) n = Ret (f acc k v n)) →
  alone (rangeP it x get body acc) n =
  Ret (foldl (fun an k => match get an.2 !! k with Some v => f an.1 k v an.2 | None => an end)
         (acc, n) (it (range (get n)).*1)).
Proof.
  intros He Hf. unfold rangeP. rewrite alone_bind, alone_act. unfold gets, reads.
  destruct ((range (get n)).*1) as [|k ks] eqn:Hks.
  { apply fmap_nil_inv in Hks. pose proof (range_perm (get n)) as Hp. rewrite Hks in Hp.
    symmetry in Hp. by apply Permutation_nil_r, map_to_list_empty_iff in Hp. }
  rewrite alone_bind, (alone_visit _ _ _ f) by done. destruct (foldl _ _ _) as [a n']. by rewrite alone_bind, alone_act.
Qed.

Lemma range_key {V} (m : gmap string V) it k v : covers it → m !! k = Some v → k ∈ it (range m).*1.
Proof.
  intros Hit Hk. apply Hit. apply list_elem_of_fmap. exists (k, v). split; [done|].
  rewrite (range_perm m). by apply elem_of_map_to_list.
Qed.

Lemma alone_ret {A} (a : A) n : alone (mret a : GP A) n = (mret a : M A) n.
Proof. done. Qed.

(** Structural steps of an equivalence. *)
Ltac alone_step :=
  match goal with
  | |- ∀ n, alone (makeP _ _ ≫= _) n = _ => apply alone_make
  | |- ∀ n, alone (_ ≫= _) n = (_ ≫= _) n => apply alone_seq; [|intros ?]
  | |- ∀ n, alone (act _ _) n = _ => intros ?; apply alone_act
  | |- ∀ n, alone (locked _ _ _) n = _ => apply alone_locked
  | |- ∀ n, alone (store _ _) n = _ => intros ?; apply alone_store
  | |- ∀ n, alone (mret _) n = _ => intros ?; apply alone_ret
  | |- ∀ n, alone (if ?b then _ else _) n = _ => destruct b
  | |- ∀ n, alone (match ?x with _ => _ end) n = _ => destruct x
  end.

Lemma noteDropP_alone r n : alone (noteDropP r) n = noteDrop r n.
Proof. revert n. unfold noteDropP. repeat alone_step. Qed.

Lemma WriteCountedP_alone p f n : alone (WriteCountedP p f) n = WriteCounted p f n.
Proof. revert n. unfold WriteCountedP, WriteCounted, countFrameP, WriteP. repeat alone_step. Qed.

(** The two filters take a mutex only where they consult a map. *)
Lemma shouldForwardToInterlinkP_alone now frame n :
  alone (shouldForwardToInterlinkP now frame) n = reads (shouldForwardToInterlink now frame) n.
Proof.
  unfold shouldForwardToInterlinkP, shouldForwardToInterlink, reads, fixed, pure, lift, gets.
  rewrite alone_bind, alone_act. unfold reads at 1. destruct (c_ForwardAll (n_Config n)); [done|].
  rewrite alone_bind, alone_act. unfold reads at 1. destruct (IsMulticastMAC frame) as [[]|]; [by rewrite alone_act| |done].
  rewrite alone_bind, alone_act. unfold reads at 1. destruct (GetDstMAC frame) as [dst|]; [|done].
  rewrite alone_bind. erewrite alone_locked by (intros; apply alone_act). unfold reads at 1. cbn [go_bind].
  by destruct (n_proxyTable n !! dst).
Qed.

Lemma unicastToRingMemberP_alone dst n :
  alone (unicastToRingMemberP dst) n = reads (unicastToRingMember dst) n.
Proof.
  unfold unicastToRingMemberP, unicastToRingMember, reads, fixed, pure, lift, gets.
  destruct (negb _); [done|]. rewrite alone_bind, alone_act. unfold reads at 1.
  destruct (idx dst 0) as [b|]; [|done]. cbn [go_bind]. destruct (Z.land b 1 =? 1); [done|].
  rewrite alone_bind, alone_act. unfold reads at 1. destruct (GetDstMAC dst) as [mac|]; [|done].
  by erewrite alone_locked by (intros; apply alone_act).
Qed.

Ltac alone_prim :=
  match goal with
  | |- ∀ n, alone (WriteCountedP _ _) n = _ => intros ?; apply WriteCountedP_alone
  | |- ∀ n, alone (shouldForwardToInterlinkP _ _) n = _ => intros ?; apply shouldForwardToInterlinkP_alone
  | |- ∀ n, alone (unicastToRingMemberP _) n = _ => intros ?; apply unicastToRingMemberP_alone
  | |- ∀ n, alone (pure _) n = _ => intros ?; apply alone_act
  | |- ∀ n, alone (fixed _) n = _ => intros ?; apply alone_act
  | |- ∀ n, alone (countFrameP _ _) n = _ => apply alone_locked; intros ?; apply alone_act
  | |- ∀ n, alone (noteDropP _) n = _ => intros ?; apply noteDropP_alone
  | |- ∀ n, alone (ownFrameP _) n = _ => intros ?; apply alone_act
  | |- ∀ n, alone (FindP _ _ _) n = _ => apply alone_locked; intros ?; apply alone_act
  | |- ∀ n, alone (rememberP _ _ _ _) n = _ => apply alone_locked; intros ?; apply alone_store
  | |- ∀ n, alone (nextSeqP _) n = _ => apply alone_locked; intros ?; apply alone_store
  | |- ∀ n, alone (learnProxyP _ _) n = _ => apply alone_locked; intros ?; apply alone_store
  | |- ∀ n, alone (learnRingMemberP _ _) n = _ => apply alone_locked; intros ?; apply alone_store
  | |- ∀ n, alone (WriteP _ _) n = _ => intros ?; apply alone_act
  | |- ∀ n, alone countSupP n = _ => apply alone_locked; intros ?; apply alone_act
  end.

Ltac alone_tac := cbv zeta; repeat (alone_prim || alone_step; cbv zeta).

Lemma handleIncomingPRPFrameP_alone now ev n :
  alone (handleIncomingPRPFrameP now ev) n = handleIncomingPRPFrame now ev n.
Proof. revert n. unfold handleIncomingPRPFrameP, handleIncomingPRPFrame. alone_tac. Qed.

Lemma handleInterlinkFrameP_alone now ev n :
  alone (handleInterlinkFrameP now ev) n = handleInterlinkFrame now ev n.
Proof. revert n. unfold handleInterlinkFrameP, handleInterlinkFrame. alone_tac. Qed.

Lemma handleSupervisionFrameP_alone now ev n :
  alone (handleSupervisionFrameP now ev) n = handleSupervisionFrame now ev n.
Proof. revert n. unfold handleSupervisionFrameP, handleSupervisionFrame. alone_tac. Qed.

Lemma handleIncomingHSRFrameP_alone now ev n :
  alone (handleIncomingHSRFrameP now ev) n = handleIncomingHSRFrame now ev n.
Proof. revert n. unfold handleIncomingHSRFrameP, handleIncomingHSRFrame, couplingToPRPP, couplingToPRP. alone_tac. Qed.

Lemma handleHSRInterlinkFrameP_alone now ev n :
  alone (handleHSRInterlinkFrameP now ev) n = handleHSRInterlinkFrame now ev n.
Proof.
  revert n. unfold handleHSRInterlinkFrameP, handleHSRInterlinkFrame, quadboxInterlinkP, quadboxInterlink. alone_tac.
Qed.

Ltac alone_handler :=
  match goal with
  | |- ∀ n, alone (handleSupervisionFrameP _ _) n = _ => intros ?; apply handleSupervisionFrameP_alone
  | |- ∀ n, alone (handleIncomingPRPFrameP _ _) n = _ => intros ?; apply handleIncomingPRPFrameP_alone
  | |- ∀ n, alone (handleInterlinkFrameP _ _) n = _ => intros ?; apply handleInterlinkFrameP_alone
  | |- ∀ n, alone (handleIncomingHSRFrameP _ _) n = _ => intros ?; apply handleIncomingHSRFrameP_alone
  | |- ∀ n, alone (handleHSRInterlinkFrameP _ _) n = _ => intros ?; apply handleHSRInterlinkFrameP_alone
  end.

Lemma handleFrameP_alone now ev n : alone (handleFrameP now ev) n = handleFrame now ev n.
Proof.
  revert n. unfold handleFrameP, handleFrame. destruct (glen (ev_frame ev) <? 14); [alone_tac|].
  repeat first [alone_handler|alone_prim|alone_step|progress cbv zeta].
Qed.

Lemma SendSupervisionFrameP_alone n : alone SendSupervisionFrameP n = SendSupervisionFrame n.
Proof. revert n. unfold SendSupervisionFrameP, SendSupervisionFrame. alone_tac. Qed.

(** Deleting along any order of the keys is [delete_where]. *)
Lemma forget_fold (p : Z → bool) ks (m : gmap string Z) k :
  foldl (fun m k => match m !! k with Some v => if p v then delete k m else m | None => m end) m ks !! k =
  v ← m !! k; if p v && bool_decide (k ∈ ks) then None else Some v.
Proof.
  revert m. induction ks as [|k' ks IH]; intros m; cbn [foldl].
  { destruct (m !! k) as [v|] eqn:Hk; [|done]. cbn. by rewrite andb_false_r. }
  rewrite IH. destruct (decide (k = k')) as [->|Hne].
  - destruct (m !! k') as [v|] eqn:Hk; [|by rewrite Hk].
    cbn [mbind option_bind]. rewrite (bool_decide_true (k' ∈ k' :: ks)) by left.
    destruct (p v) eqn:Hp; [by rewrite lookup_delete_eq|]. rewrite Hk. cbn. by rewrite Hp.
  - assert (Hm : (match m !! k' with Some v => if p v then delete k' m else m | None => m end) !! k = m !! k).
    { repeat case_match; [by apply lookup_delete_ne|done..]. }
    rewrite Hm. destruct (m !! k) as [v|]; [|done]. cbn.
    replace (bool_decide (k ∈ k' :: ks)) with (bool_decide (k ∈ ks)); [done|].
    apply bool_decide_ext. rewrite elem_of_cons. intuition.
Qed.

Lemma cleanupSupervisionSeenP_alone now it n :
  covers it → alone (cleanupSupervisionSeenP now it) n = Ret (tt, cleanupSupervisionSeen now n).
Proof.
  intros Hit. unfold cleanupSupervisionSeenP, cleanupSupervisionSeen.
  rewrite alone_bind, alone_act. unfold gets, reads. destruct (Z.eqb_spec (Z.of_nat (size (n_supervisionSeen n))) 0) as [|Hs]; [done|].
  rewrite alone_bind. unfold fixed. rewrite alone_act. unfold gets, reads. set (cutoff := now + i64 _).
  rewrite alone_bind. rewrite (alone_range _ _ _ _ (fun a k v n => (a, if v <? cutoff then set_supervisionSeen (delete k (n_supervisionSeen n)) n else n))).
  2:{ intros He. apply Hs. by rewrite He, map_size_empty. }
  2:{ intros [] k v n' _. unfold forgetSeen. destruct (v <? cutoff); [by rewrite alone_store|done]. }
  assert (Hf : ∀ ks n', foldl (fun an k => match n_supervisionSeen an.2 !! k with
      | Some v => (an.1, if v <? cutoff then set_supervisionSeen (delete k (n_supervisionSeen an.2)) an.2 else an.2)
      | None => an end) (tt, n') ks =
    (tt, set_supervisionSeen (foldl (fun m k => match m !! k with Some v => if v <? cutoff then delete k m else m | None => m end)
            (n_supervisionSeen n') ks) n')).
  { induction ks as [|k ks IH]; intros n'; cbn [foldl fst snd]; [by destruct n'|].
    destruct (n_supervisionSeen n' !! k) as [v|]; [|apply IH]. by destruct (v <? cutoff); rewrite IH. }
  rewrite Hf. erewrite alone_locked by (intros; apply alone_store).
  unfold modify. do 4 f_equal. apply map_eq. intros k.
  rewrite forget_fold, delete_where_lookup. destruct (n_supervisionSeen n !! k) as [v|] eqn:Hk; [|done]. cbn.
  rewrite bool_decide_true by (by eapply range_key). by destruct (_ <? _).
Qed.

(** With the timer stored; the table's clock and the cut-off's are the same. *)
Lemma periodicCleanupP_alone now it n :
  covers it → n_cleanupTimer n = true →
  alone (periodicCleanupP now now it) n = Ret (tt, periodicCleanup now n).
Proof.
  intros Hit Ht. unfold periodicCleanupP, periodicCleanup.
  rewrite alone_bind. erewrite alone_locked by (intros; apply alone_store). cbv beta zeta iota.
  rewrite alone_bind. unfold fixed. rewrite alone_act. unfold gets, reads.
  rewrite alone_bind. set (n1 := set_dupTable (Cleanup (n_dupTable n) now).1 n).
  assert (Hd : alone (if ((Cleanup (n_dupTable n) now).2 >? 0) && c_Debug (n_Config n1)
    then locked MuTable Sh (act (Reads FTable) (fun n0 => Ret (Size (n_dupTable n0), n0))) else mret 0) n1 =
    Ret (if ((Cleanup (n_dupTable n) now).2 >? 0) && c_Debug (n_Config n1) then Size (n_dupTable n1) else 0, n1))
    by by destruct (_ && _).
  rewrite Hd. clear Hd. rewrite alone_bind, cleanupSupervisionSeenP_alone by done. rewrite alone_act. unfold resetTimer.
  replace (n_cleanupTimer (cleanupSupervisionSeen now n1)) with true; [done|].
  unfold cleanupSupervisionSeen. by destruct (_ =? 0).
Qed.

Lemma copy_fold ks (m acc : gmap string Z) (n : Node) k :
  n_dropCounters n = m →
  ∃ acc', foldl (fun an k => match n_dropCounters an.2 !! k with Some v => (<[k := v]> an.1, an.2) | None => an end)
            (acc, n) ks = (acc', n) ∧
  acc' !! k = if bool_decide (k ∈ ks) && bool_decide (is_Some (m !! k)) then m !! k else acc !! k.
Proof.
  intros <-. revert acc. induction ks as [|k' ks IH]; intros acc; cbn [foldl fst snd]; [by eexists|].
  destruct (IH (match n_dropCounters n !! k' with Some v => <[k' := v]> acc | None => acc end)) as (acc' & H1 & H2).
  exists acc'. split; [by destruct (n_dropCounters n !! k')|]. rewrite H2. destruct (decide (k = k')) as [->|Hne].
  - rewrite (bool_decide_true (k' ∈ k' :: ks)) by left. destruct (n_dropCounters n !! k') as [v|]; [|by rewrite andb_false_r].
    cbn. rewrite andb_true_r. case_bool_decide; [done|]. by rewrite lookup_insert_eq.
  - replace (bool_decide (k ∈ k' :: ks)) with (bool_decide (k ∈ ks)).
    2:{ apply bool_decide_ext. rewrite elem_of_cons. intuition. }
    destruct (_ && _); [done|]. destruct (n_dropCounters n !! k'); [by rewrite lookup_insert_ne|done].
Qed.

Lemma copy_drops_alone it n :
  covers it → alone (rangeP it FDrops n_dropCounters (fun drops k v => mret (<[k := v]> drops)) ∅) n = Ret (n_dropCounters n, n).
Proof.
  intros Hit. destruct (decide (n_dropCounters n = ∅)) as [He|He].
  { unfold rangeP. rewrite alone_bind, alone_act. unfold gets, reads. rewrite He.
    pose proof (range_perm (∅ : gmap string Z)) as Hp. rewrite map_to_list_empty in Hp.
    by apply Permutation_nil_r in Hp as ->. }
  rewrite (alone_range _ _ _ _ (fun drops k v n => (<[k := v]> drops, n))) by done. f_equal.
  destruct (copy_fold (it (range (n_dropCounters n)).*1) _ ∅ n "" eq_refl) as (acc & Ha & _). rewrite Ha. f_equal.
  apply map_eq. intros k. destruct (copy_fold (it (range (n_dropCounters n)).*1) _ ∅ n k eq_refl) as (acc' & Ha' & Hk).
  rewrite Ha in Ha'. injection Ha' as <-. rewrite Hk. destruct (n_dropCounters n !! k) as [v|] eqn:Hv.
  - by rewrite bool_decide_true by (by eapply range_key).
  - by rewrite andb_false_r, lookup_empty.
Qed.

Lemma SnapshotP_alone it n : covers it → alone (SnapshotP it) n = Ret (Snapshot n, n).
Proof.
  intros Hit. unfold SnapshotP. rewrite alone_bind.
  erewrite (alone_locked _ _ _ (fun n => Ret ((n_counters n, Size (n_dupTable n)), n))) by done.
  rewrite alone_bind, alone_act. unfold gets, reads. rewrite alone_bind, copy_drops_alone by done. done.
Qed.

(** ** The lock discipline *)

#[local] Notation balanced := (balanced protect rank).

Lemma balanced_act {A} i H l (m : M A) :
  label_ok protect rank i H l → held_after l H = H → balanced i H (act l m).
Proof. intros Hl Hh. split; [done|]. intros a. exact Hh. Qed.

Lemma balanced_fixed {A} i H (f : Node → A) : balanced i H (fixed f).
Proof. by apply balanced_act. Qed.

Lemma balanced_pure {A} i H (g : go A) : balanced i H (pure g).
Proof. by apply balanced_act. Qed.

Lemma filter_ranked mu (H : list (mutex * mode)) :
  (∀ h, h ∈ H → rank h.1 < rank mu) → filter (fun h => h.1 ≠ mu) H = H.
Proof.
  induction H as [|h H IH]; intros Hr; [done|]. rewrite filter_cons_True, IH; [done| |].
  - intros h' Hh'. apply Hr. by right.
  - intros He. pose proof (Hr h (list_elem_of_here _ _)) as Hlt. rewrite He in Hlt. lia.
Qed.

(** Accesses under a mutex taken in order. *)
Lemma balanced_locked {A} i H mu md (p : GP A) :
  (∀ h, h ∈ H → rank h.1 < rank mu) → balanced i ((mu, md) :: H) p → balanced i H (locked mu md p).
Proof.
  intros Hr Hp. split; [exact Hr|]. intros ?. cbn [held_after].
  change (disc protect rank i ((mu, md) :: H) (p ≫= fun a => _ ← act (Release mu) (mret tt); mret a) (fun _ H' => H' = H)).
  apply disc_bind. eapply disc_mono; [|exact Hp]. intros a H' ->.
  split; [cbn; left|]. intros ?. cbn [disc held_after].
  rewrite filter_cons_False by (intros Hne; by apply Hne). by apply filter_ranked.
Qed.

Lemma balanced_store {A} i H x (m : M A) : access_ok protect i H x true → balanced i H (store x m).
Proof. intros Hx. apply balanced_bind; [by apply balanced_act|]. intros ?. by apply balanced_act. Qed.

Lemma balanced_make {V} i H x (get : Node → gmap string V) :
  access_ok protect i H x false → access_ok protect i H x true → balanced i H (makeP x get).
Proof.
  intros Hr Hw. apply balanced_bind; [by apply balanced_act|]. intros []; [by apply balanced_act|done].
Qed.

Lemma balanced_visit {V A} i H x (get : Node → gmap string V) (body : A → string → V → GP A) ks acc :
  access_ok protect i H x false → (∀ acc k v, balanced i H (body acc k v)) → balanced i H (visit x get body ks acc).
Proof.
  intros Hx Hb. revert acc. induction ks as [|k ks IH]; intros acc; [done|].
  apply balanced_bind; [by apply balanced_act|]. intros v. apply balanced_bind; [by destruct v|apply IH].
Qed.

Lemma balanced_range {V A} i H it x (get : Node → gmap string V) (body : A → string → V → GP A) acc :
  access_ok protect i H x false → (∀ acc k v, balanced i H (body acc k v)) → balanced i H (rangeP it x get body acc).
Proof.
  intros Hx Hb. apply balanced_bind; [by apply balanced_act|]. intros [|k ks]; [done|].
  apply balanced_bind; [by apply balanced_visit|]. intros a. apply balanced_bind; [by apply balanced_act|done].
Qed.

(** The right to access a location: its mutex is held, it belongs to the
    goroutine or it is unprotected. *)
Ltac access_tac :=
  cbn [label_ok]; unfold access_ok; cbn [protect];
  first [exact I|reflexivity|left; apply list_elem_of_here|right; split; [reflexivity|apply list_elem_of_here]].

Ltac ranked_tac :=
  let h := fresh "h" in let Hh := fresh "Hh" in
  intros h Hh; repeat (apply elem_of_cons in Hh as [->|Hh]; [reflexivity|]); by apply elem_of_nil in Hh.

Ltac balanced_step :=
  match goal with
  | |- balanced _ _ (_ ≫= _) => apply balanced_bind; [|intros ?]
  | |- balanced _ _ (mret _) => apply balanced_ret
  | |- balanced _ _ (act _ _) => apply balanced_act; [access_tac|reflexivity]
  | |- balanced _ _ (fixed _) => apply balanced_fixed
  | |- balanced _ _ (pure _) => apply balanced_pure
  | |- balanced _ _ (locked _ _ _) => apply balanced_locked; [ranked_tac|]
  | |- balanced _ _ (store _ _) => apply balanced_store; access_tac
  | |- balanced _ _ (makeP _ _) => apply balanced_make; access_tac
  | |- balanced _ _ (rangeP _ _ _ _ _) => apply balanced_range; [access_tac|intros ? ? ?]
  | |- balanced _ _ (if ?b then _ else _) => destruct b
  | |- balanced _ _ (match ?x with _ => _ end) => destruct x
  end.

Ltac balanced_tac := cbv zeta; repeat (balanced_step; cbv zeta).

Lemma WriteCountedP_balanced i p f : balanced i [] (WriteCountedP p f).
Proof. unfold WriteCountedP, WriteP, countFrameP. balanced_tac. Qed.

Lemma shouldForwardToInterlinkP_balanced i now f : balanced i [] (shouldForwardToInterlinkP now f).
Proof. unfold shouldForwardToInterlinkP. balanced_tac. Qed.

Lemma unicastToRingMemberP_balanced i dst : balanced i [] (unicastToRingMemberP dst).
Proof. unfold unicastToRingMemberP. balanced_tac. Qed.

Ltac balanced_handler :=
  unfold countFrameP, countSupP, noteDropP, FindP, rememberP, nextSeqP, learnProxyP, learnRingMemberP,
    ownFrameP, WriteP;
  cbv zeta;
  repeat (first [apply WriteCountedP_balanced|apply shouldForwardToInterlinkP_balanced
               |apply unicastToRingMemberP_balanced|balanced_step]; cbv zeta).

Lemma handleFrameP_balanced now ev : balanced Worker [] (handleFrameP now ev).
Proof.
  unfold handleFrameP, handleIncomingPRPFrameP, handleIncomingHSRFrameP, handleHSRInterlinkFrameP,
    handleInterlinkFrameP, handleSupervisionFrameP, quadboxInterlinkP, couplingToPRPP.
  balanced_handler.
Qed.

Lemma periodicCleanupP_balanced now now' it : balanced Timer [] (periodicCleanupP now now' it).
Proof. unfold periodicCleanupP, cleanupSupervisionSeenP, forgetSeen. balanced_handler. Qed.

Lemma SendSupervisionFrameP_balanced : balanced Ticker [] SendSupervisionFrameP.
Proof. unfold SendSupervisionFrameP. balanced_handler. Qed.

Lemma SnapshotP_balanced it : balanced Display [] (SnapshotP it).
Proof. unfold SnapshotP. balanced_handler. Qed.

Lemma StartP_balanced : balanced Control [] StartP.
Proof. unfold StartP. balanced_handler. Qed.

Lemma StopP_balanced stopped : balanced Control [] (StopP stopped).
Proof. unfold StopP, closeP. balanced_handler. Qed.

(** *** Jobs *)

(** What each goroutine does over and over: the worker handles frames from
    the buffer, the timer cleans up at some clock readings, the ticker announces
    the node, the display takes a snapshot, and [main]'s goroutine finishes
    [Start] and calls [Stop].  The runtime iterates in any order.  Jobs may
    start in any order and any number of times, which includes the order of the
    code: timer armed, [StartP], then worker, ticker and display, then [StopP]. *)
Inductive job (frames : Z → frameEvent → Prop) (tick : Z → Prop) : goroutine → GP unit → Prop :=
| job_frame now ev : frames now ev → job frames tick Worker (handleFrameP now ev)
| job_cleanup now now' it : tick now → covers it → job frames tick Timer (periodicCleanupP now now' it)
| job_announce : job frames tick Ticker SendSupervisionFrameP
| job_snapshot it : covers it → job frames tick Display (_ ← SnapshotP it; mret tt)
| job_start : job frames tick Control StartP
| job_stop stopped : job frames tick Control (StopP stopped).

Lemma balanced_disciplined i (p : GP unit) : balanced i [] p → disciplined protect rank i p.
Proof. done. Qed.

Lemma job_disciplined frames tick i p : job frames tick i p → disciplined protect rank i p.
Proof.
  intros [now ev _|now now' it _ _| |it _| |stopped]; apply balanced_disciplined.
  - apply handleFrameP_balanced.
  - apply periodicCleanupP_balanced.
  - apply SendSupervisionFrameP_balanced.
  - apply balanced_bind; [apply SnapshotP_balanced|by intros].
  - apply StartP_balanced.
  - apply StopP_balanced.
Qed.
End goroutines.
