(* ===== verification/Interleave.v ===== *)
(** * Interleave: the goroutines under every interleaving

    Theorems about the pool of [Goroutines]: which fields can be raced on,
    absence of deadlock, the node's invariant and the ways the process can end
    when the goroutines interleave at every access, and duplicate detection
    under such interference.  [Runtime] takes the accesses of a handler as
    atomic; these theorems do not.  The concrete interleavings at the end reach
    every race and every way to end. *)

From stdpp Require Import finite.
From S2P Require Import Prelude Engine Hsr NodeTable Supervision Role Pattern Node PrpPath HsrPath Dispatch Threads Goroutines.

Section interleave.
Context {MR : MapRange} {E : Env}.

(** A copy of the frame ([src], [seq]): data from a LAN or ring port. *)
Definition copy_of (c : Config) (src : string) (seq : Z) (ev : frameEvent) : Prop :=
  26 <= glen (ev_frame ev) ∧ is_lan (ev_iface ev) = true ∧
  encap_type (ev_frame ev) ≠ 0x88fb ∧ mac_of (ev_frame ev) 6 = src ∧
  if IsHSRNode c then ∃ path et pl, DecodeHSR (ev_frame ev) = Ret (Ok (path, seq, et, pl))
  else ∃ lan pl, DecodeRCT (ev_frame ev) = Ret (Ok (lan, seq, pl)).

(** ** Programs that stay within an invariant *)

(** Actions on [supervisionSeen], and map operations on the timer field: there
    are none. *)
Definition seen_label (l : label (Lk := mutex) (Loc := field)) : bool :=
  match access l with Some (x, _) => bool_decide (x = FSeen) | None => false end.
Definition timer_map (l : label (Lk := mutex) (Loc := field)) : bool :=
  match l with Checks x | Enters x | Leaves x => bool_decide (x = FCleanupTimer) | _ => false end.

(** The invariant [Inv] and the permitted changes [G] of one analysis: it
    fixes the configuration [c] and the interlink [il], lets every update pass
    that touches neither the duplicate table nor the ports, writes on the ports
    [may] and clean-ups at the times [tick].  Panics are allowed in the states
    [pan], actions on [supervisionSeen] where [okl] says so. *)
Section generic.
Context (c : Config) (il : bool) (Inv : Node → Prop) (G : Node → Node → Prop).
Context (pan : Node → Prop) (okl : label (Lk := mutex) (Loc := field) → Prop).
Context (may : port → Prop) (tick : Z → Prop).

Hypothesis okl_most : ∀ l, seen_label l = false → timer_map l = false → okl l.
Hypothesis inv_node : ∀ n, Inv n → node_ok n ∧ n_Config n = c ∧ n_Interlink n = il.
Hypothesis inv_quiet : ∀ n n', Inv n → node_ok n' → static n' = static n →
  n_dupTable n' = n_dupTable n → n_sent n' = n_sent n →
  (n_cleanupTimer n = true → n_cleanupTimer n' = true) → Inv n' ∧ G n n'.
Hypothesis inv_write : ∀ n p f, Inv n → may p → Inv (wrote_raw p f n) ∧ G n (wrote_raw p f n).
Hypothesis inv_clean : ∀ n now, Inv n → tick now →
  let n' := set_dupTable (Cleanup (n_dupTable n) now).1 n in Inv n' ∧ G n n'.

#[local] Notation safe := (safe Inv G pan okl).

#[local] Hint Extern 0 (okl _) => apply okl_most; reflexivity : core.

Lemma safe_act {A} l (m : M A) (Q : A → Prop) :
  okl l → (∀ n, Inv n → ∃ a n', m n = Ret (a, n') ∧ (Inv n' ∧ G n n') ∧ Q a) → safe (act l m) Q.
Proof.
  intros Hl Hm. split; [done|]. intros n Hn. destruct (Hm n Hn) as (a & n' & -> & [? ?] & ?). by split_and!.
Qed.

(** Actions that leave the node alone. *)
Lemma safe_look {A} l (g : Node → A) (m : M A) (Q : A → Prop) :
  okl l → (∀ n, Inv n → m n = Ret (g n, n)) → (∀ n, Inv n → Q (g n)) → safe (act l m) Q.
Proof.
  intros Hl Hm HQ. apply safe_act; [done|]. intros n Hn. eexists _, _. split; [by apply Hm|].
  split; [apply inv_quiet; [done|by apply inv_node|done..]|by apply HQ].
Qed.

Lemma safe_skip l (Q : unit → Prop) : okl l → Q tt → safe (act l (mret tt)) Q.
Proof. intros Hl HQ. by apply (safe_look _ (fun _ => tt)). Qed.

Lemma safe_gets {A} l (f : Node → A) (Q : A → Prop) :
  okl l → (∀ n, Inv n → Q (f n)) → safe (act l (gets f)) Q.
Proof. intros Hl. by apply safe_look. Qed.

Lemma safe_locked {A} mu md (p : GP A) (Q : A → Prop) : safe p Q → safe (locked mu md p) Q.
Proof.
  intros Hp. unfold locked. apply safe_bind, safe_skip; [done|]. apply safe_bind.
  eapply safe_mono; [|exact Hp]. intros a Ha. by apply safe_bind, safe_skip.
Qed.

Lemma safe_store {A} x (m : M A) (Q : A → Prop) : okl (Enters x) → safe (act (Leaves x) m) Q → safe (store x m) Q.
Proof. intros Hx Hm. by apply safe_bind, safe_skip. Qed.

Lemma safe_make {V} x (get : Node → gmap string V) (Q : unit → Prop) :
  okl (Reads x) → okl (Writes x) → Q tt → safe (makeP x get) Q.
Proof.
  intros Hr Hw HQ. apply safe_bind, safe_gets; [done|]. intros n _. case_bool_decide; [by apply safe_skip|done].
Qed.

Lemma safe_visit {V A} x (get : Node → gmap string V) (body : A → string → V → GP A) ks acc :
  okl (Checks x) → (∀ acc k v, safe (body acc k v) (fun _ => True)) →
  safe (visit x get body ks acc) (fun _ => True).
Proof.
  intros Hx Hb. revert acc. induction ks as [|k ks IH]; intros acc; [done|]. cbn [visit].
  apply safe_bind, safe_gets; [done|]. intros n _. apply safe_bind, (safe_mono _ _ _ _ _ (fun _ => True)).
  - intros a _. apply IH.
  - destruct (get n !! k); [apply Hb|done].
Qed.

Lemma safe_range {V A} it x (get : Node → gmap string V) (body : A → string → V → GP A) acc (Q : A → Prop) :
  okl (Reads x) → okl (Checks x) → (∀ acc k v, safe (body acc k v) (fun _ => True)) → (∀ a, Q a) →
  safe (rangeP it x get body acc) Q.
Proof.
  intros Hr Hx Hb HQ. unfold rangeP. apply safe_bind, safe_gets; [done|]. intros n _.
  destruct (range (get n)).*1 as [|k ks]; [apply HQ|].
  apply safe_bind, (safe_mono _ _ _ _ _ (fun _ => True)); [|by apply safe_visit].
  intros a _. by apply safe_bind, safe_skip; [|apply HQ].
Qed.

Lemma safe_fixed {A} (f : Node → A) (Q : A → Prop) : (∀ n, Inv n → Q (f n)) → safe (fixed f) Q.
Proof. by apply safe_gets. Qed.

Lemma safe_config (Q : Config → Prop) : Q c → safe (fixed n_Config) Q.
Proof. intros HQ. apply safe_fixed. intros n (_ & -> & _)%inv_node. done. Qed.

Lemma safe_any {A} (f : Node → A) : safe (fixed f) (fun _ => True).
Proof. by apply safe_fixed. Qed.

Lemma safe_pure {A} (g : go A) (a : A) (Q : A → Prop) : g = Ret a → Q a → safe (pure g) Q.
Proof. intros -> HQ. by apply (safe_look _ (fun _ => a)). Qed.

(** Actions that change fields other than the table. *)
Lemma safe_modify l (f : Node → Node) (Q : unit → Prop) :
  okl l →
  (∀ n, Inv n → node_ok (f n) ∧ static (f n) = static n ∧ n_dupTable (f n) = n_dupTable n ∧ n_sent (f n) = n_sent n ∧
     (n_cleanupTimer n = true → n_cleanupTimer (f n) = true)) →
  Q tt → safe (act l (modify f)) Q.
Proof.
  intros Hl Hf HQ. apply safe_act; [done|]. intros n Hn. destruct (Hf n Hn) as (? & ? & ? & ? & ?).
  eexists _, _. split; [done|]. split; [by apply inv_quiet|done].
Qed.

(** A change of the fields [node_ok] does not speak about. *)
Lemma node_ok_same n n' :
  static n' = static n → n_dupTable n' = n_dupTable n → n_seqMgr n' = n_seqMgr n → n_supSeq n' = n_supSeq n →
  node_ok n → node_ok n'.
Proof.
  intros Hst Hd Hs Hu [Hp Ht Hm Hq Hv]. split; [by eapply static_ports|..]; rewrite ?Hd, ?Hs, ?Hu; try done.
  by rewrite (static_Config _ _ Hst).
Qed.

Lemma safe_plain l (f : Node → Node) (Q : unit → Prop) :
  okl l →
  (∀ n, static (f n) = static n ∧ n_dupTable (f n) = n_dupTable n ∧ n_seqMgr (f n) = n_seqMgr n ∧
        n_supSeq (f n) = n_supSeq n ∧ n_sent (f n) = n_sent n ∧ (n_cleanupTimer n = true → n_cleanupTimer (f n) = true)) →
  Q tt → safe (act l (modify f)) Q.
Proof.
  intros Hl Hf HQ. apply safe_modify; [done| |done]. intros n Hn. destruct (Hf n) as (? & ? & ? & ? & ? & ?).
  split_and!; [|done..]. eapply node_ok_same; [done..|]. by apply inv_node.
Qed.

Lemma safe_countFrame p d (Q : unit → Prop) : Q tt → safe (countFrameP p d) Q.
Proof. intros HQ. by apply safe_locked, safe_plain. Qed.

Lemma safe_countSup (Q : unit → Prop) : Q tt → safe countSupP Q.
Proof. intros HQ. by apply safe_locked, safe_plain. Qed.

Lemma safe_noteDrop r (Q : unit → Prop) : Q tt → safe (noteDropP r) Q.
Proof. intros HQ. apply safe_bind, safe_make; [done..|]. apply safe_store; [done|]. by apply safe_plain. Qed.

Lemma safe_learnProxy now src (Q : unit → Prop) : Q tt → safe (learnProxyP now src) Q.
Proof. intros HQ. apply safe_locked, safe_store; [done|]. by apply safe_plain. Qed.

Lemma safe_learnRingMember now src (Q : unit → Prop) : Q tt → safe (learnRingMemberP now src) Q.
Proof. intros HQ. apply safe_locked, safe_store; [done|]. by apply safe_plain. Qed.

Lemma safe_nextSeq src (Q : Z → Prop) : (∀ q, Q q) → safe (nextSeqP src) Q.
Proof.
  intros HQ. apply safe_locked, safe_store; [done|]. apply safe_act; [done|]. intros n Hn. unfold nextSeq.
  destruct (Next (n_seqMgr n) src) as [q s] eqn:En. eexists _, _. split; [done|]. split; [|done].
  apply inv_quiet; [done| |done..]. destruct (inv_node n Hn) as ([Hp Ht Hm Hq Hv] & _ & _).
  split; try done. pose proof (took_seq_ok src n Hq) as Ht'. unfold took_seq in Ht'. rewrite En in Ht'. exact Ht'.
Qed.

Lemma safe_ownFrame f (Q : bool → Prop) : 12 <= glen f → (∀ n, Inv n → Q (own n f)) → safe (ownFrameP f) Q.
Proof.
  intros Hl HQ. apply (safe_look _ (fun n => own n f)); [done| |done]. intros n _. unfold reads. by rewrite ownFrame_ret.
Qed.

Lemma safe_Find now src seq (Q : bool → Prop) :
  (∀ n, Inv n → Q (Find (n_dupTable n) now src seq)) → safe (FindP now src seq) Q.
Proof. intros HQ. by apply safe_locked, safe_gets. Qed.

Lemma ports_bound n p : Inv n → (p = Interlink → il = true) → bound n p = true.
Proof.
  intros ([(HA & HB & _) _ _ _ _] & _ & Hi)%inv_node Hp. destruct p; [done..|]. cbn. rewrite Hi. auto.
Qed.

Lemma safe_Write p f (Q : bool → Prop) : may p → (p = Interlink → il = true) → (∀ b, Q b) → safe (WriteP p f) Q.
Proof.
  intros Hm Hp HQ. apply safe_act; [done|]. intros n Hn. unfold Write. rewrite ports_bound by done.
  eexists _, _. split; [done|]. split; [by apply inv_write|done].
Qed.

Lemma safe_WriteCounted p f (Q : unit → Prop) : may p → (p = Interlink → il = true) → Q tt → safe (WriteCountedP p f) Q.
Proof.
  intros Hm Hp HQ. apply safe_bind, safe_Write; [done..|]. intros []; [by apply safe_countFrame|done].
Qed.

Lemma safe_if {A} (b : bool) (p p' : GP A) Q :
  (b = true → safe p Q) → (b = false → safe p' Q) → safe (if b then p else p') Q.
Proof. destruct b; auto. Qed.

(** *** The timer, the ticker and the display *)

Lemma cleanupSupervisionSeenP_safe now it (Q : unit → Prop) :
  (∀ l, timer_map l = false → okl l) → Q tt → safe (cleanupSupervisionSeenP now it) Q.
Proof.
  intros Hl HQ. unfold cleanupSupervisionSeenP. apply safe_bind, safe_gets; [by apply Hl|]. intros ? _.
  destruct (_ =? 0); [done|]. apply safe_bind, safe_fixed. intros ? _. cbv zeta.
  apply safe_bind, safe_range; [by apply Hl..| |].
  - intros [] mac last. unfold forgetSeen. destruct (_ <? _); [|done].
    apply safe_store; [by apply Hl|]. apply safe_plain; [by apply Hl|done..].
  - intros []. apply safe_locked, safe_store; [done|]. by apply safe_plain.
Qed.

Lemma periodicCleanupP_safe now now' it :
  (∀ l, timer_map l = false → okl l) → (∀ n, Inv n → n_cleanupTimer n = false → pan n) →
  tick now → safe (periodicCleanupP now now' it) (fun _ => True).
Proof.
  intros Hl Hpan Ht. unfold periodicCleanupP. apply safe_bind, safe_locked, safe_store; [done|].
  apply safe_act; [done|]. intros n Hn. eexists _, _. split; [done|]. split; [by apply inv_clean|].
  apply safe_bind, safe_fixed. intros ? _. apply safe_bind.
  assert (Htail : safe (_ ← cleanupSupervisionSeenP now' it; act (Reads FCleanupTimer) resetTimer) (fun _ => True)).
  { apply safe_bind, cleanupSupervisionSeenP_safe; [done|]. split; [done|]. intros m Hm. unfold resetTimer.
    destruct (n_cleanupTimer m) eqn:Em; [|by apply Hpan]. split_and!; [done| |done].
    apply inv_quiet; [done|by apply inv_node|done..]. }
  destruct (_ && _); [|exact Htail]. by apply safe_locked, safe_gets.
Qed.

Lemma SnapshotP_safe it : safe (_ ← SnapshotP it; mret tt) (fun _ => True).
Proof.
  apply safe_bind. unfold SnapshotP. apply safe_bind, safe_locked, safe_bind, safe_gets; [done|]. intros ? _.
  apply safe_bind, safe_locked, safe_gets; [done|]. intros ? _.
  apply safe_bind, safe_gets; [done|]. intros ? _.
  apply safe_bind, safe_range; [done..|]. intros drops. by apply safe_bind, safe_config.
Qed.

(** *** [main]'s goroutine *)

Lemma StartP_safe : safe StartP (fun _ => True).
Proof. by apply safe_plain. Qed.

Lemma closeP_safe p (Q : unit → Prop) : Q tt → safe (closeP p) Q.
Proof. intros HQ. apply safe_bind, safe_fixed. intros n _. destruct (bound n p); [by apply safe_skip|done]. Qed.

Lemma StopP_safe stopped : safe (StopP stopped) (fun _ => True).
Proof.
  apply safe_locked. destruct stopped; [done|]. apply safe_bind, safe_gets; [done|]. intros n _.
  assert (Hports : safe (_ ← closeP LanA; _ ← closeP LanB; closeP Interlink) (fun _ => True)).
  { by apply safe_bind, closeP_safe, safe_bind, closeP_safe, closeP_safe. }
  apply safe_bind. destruct (n_cleanupTimer n); [by apply safe_skip|exact Hports].
Qed.

Lemma safe_announce (b : bool) f (Q : unit → Prop) :
  (b = true → may Interlink ∧ il = true) → Q tt →
  safe (if b then _ ← WriteP Interlink f; mret tt else mret tt) Q.
Proof.
  intros Hb HQ. destruct b; [|done]. destruct (Hb eq_refl). by apply safe_bind, safe_Write.
Qed.

Lemma SendSupervisionFrameP_safe :
  may LanA → may LanB → (IsHSRHSR c || IsHSRPRPCoupling c = true → may Interlink) →
  safe SendSupervisionFrameP (fun _ => True).
Proof.
  intros HA HB HI. unfold SendSupervisionFrameP. apply safe_bind, safe_fixed. intros ? _.
  apply safe_bind, safe_modify; [done| |].
  { intros m Hn. split_and!; [|done..]. destruct (inv_node m Hn) as ([Hp Ht Hm Hq Hv] & _ & _).
    split; try done. cbn [n_supSeq set_supSeq]. auto with go_db. }
  apply safe_bind, safe_gets; [done|]. intros ? _. apply safe_bind, safe_config.
  destruct (negb (IsHSRNode c)).
  { apply safe_bind, safe_Write; [done..|]. intros _. apply safe_bind, safe_Write; [done..|]. intros _.
    by apply safe_countSup. }
  cbv zeta. apply safe_bind, safe_Write; [done..|]. intros _. apply safe_bind, safe_Write; [done..|]. intros _.
  apply safe_bind, safe_countSup, safe_bind, safe_fixed. intros ? (_ & _ & ->)%inv_node.
  apply safe_bind, safe_announce.
  { intros [Hq ->]%andb_true_iff. split; [|done]. apply HI. by rewrite Hq. }
  apply safe_announce; [|done]. intros [Hq ->]%andb_true_iff. split; [|done]. apply HI. by rewrite Hq, orb_true_r.
Qed.

(** *** The worker on copies of a remembered frame *)

Section known.
Context (src : string) (seq : Z) (alive : Z → Prop).
Hypothesis inv_known : ∀ n now, Inv n → alive now → Find (n_dupTable n) now src seq = true.

Lemma known_prp_safe now p f lan pl :
  alive now → mac_of f 6 = src → DecodeRCT f = Ret (Ok (lan, seq, pl)) →
  safe (handleIncomingPRPFrameP now (mkEvent p f)) (fun _ => True).
Proof.
  intros Ha Hsrc Hd. unfold handleIncomingPRPFrameP. cbn [ev_iface ev_frame].
  apply safe_bind, safe_countFrame, safe_bind. eapply safe_pure; [by eapply IsPRPFrame_ok|].
  cbn [negb]. apply safe_bind. eapply safe_pure; [exact Hd|]. cbv beta iota zeta.
  destruct (negb _); [by apply safe_noteDrop|]. apply DecodeRCT_iff in Hd as (Hl & _).
  apply safe_bind. eapply safe_pure; [by apply GetSrcMAC_ret; lia|]. rewrite Hsrc.
  apply safe_bind, safe_ownFrame; [lia|]. intros ? _. destruct (own _ _); [done|].
  apply safe_bind, safe_Find. intros m Hm. rewrite inv_known by done. by apply safe_noteDrop.
Qed.

Lemma known_hsr_safe now p f path et pl :
  alive now → mac_of f 6 = src → DecodeHSR f = Ret (Ok (path, seq, et, pl)) →
  safe (handleIncomingHSRFrameP now (mkEvent p f)) (fun _ => True).
Proof.
  intros Ha Hsrc Hd. unfold handleIncomingHSRFrameP. cbn [ev_iface ev_frame].
  apply safe_bind, safe_countFrame, safe_bind. eapply safe_pure; [exact Hd|]. cbv beta iota zeta.
  apply DecodeHSR_iff in Hd as (Ht & _). pose proof (hsr_tagged_bounds f Ht).
  apply safe_bind. eapply safe_pure; [by apply GetSrcMAC_ret; lia|]. rewrite Hsrc.
  apply safe_bind, safe_ownFrame; [lia|]. intros ? _. destruct (own _ _); [by apply safe_noteDrop|].
  apply safe_bind, safe_Find. intros m Hm. rewrite inv_known by done. by apply safe_noteDrop.
Qed.

Lemma copy_safe now ev : alive now → copy_of c src seq ev → safe (handleFrameP now ev) (fun _ => True).
Proof.
  intros Ha (Hl & Hp & He & Hsrc & Hd). destruct ev as [p f]. cbn [ev_iface ev_frame] in *.
  unfold handleFrameP. cbn [ev_iface ev_frame]. guard_false (glen f <? 14).
  apply safe_bind. eapply safe_pure; [apply GetEtherType_ret|]. apply safe_bind, safe_config. cbv zeta.
  fold (encap_type f). rewrite (proj2 (Z.eqb_neq _ _) He). cbn [andb].
  destruct p; try done; (destruct (IsHSRNode c); [destruct Hd as (path & et & pl & Hd)|destruct Hd as (lan & pl & Hd)]).
  - by eapply known_hsr_safe.
  - by eapply known_prp_safe.
  - by eapply known_hsr_safe.
  - by eapply known_prp_safe.
Qed.
End known.

Section worker.
Hypothesis okl_seen : ∀ l, timer_map l = false → okl l.
Hypothesis may_all : ∀ p, may p.
Hypothesis il_needed : IsHSRNode c = true → IsHSRHSR c = false → il = true.
Hypothesis inv_remember : ∀ n now src seq lan, Inv n → Inv (accepted now src seq lan n) ∧ G n (accepted now src seq lan n).
Hypothesis inv_flush : ∀ n src, Inv n →
  let n' := set_dupTable (FlushFor (n_dupTable n) src).1 n in Inv n' ∧ G n n'.

Lemma safe_remember now src seq lan (Q : unit → Prop) : Q tt → safe (rememberP now src seq lan) Q.
Proof.
  intros HQ. apply safe_locked, safe_store; [done|]. apply safe_act; [done|]. intros n Hn.
  eexists _, _. split; [done|]. split; [by apply inv_remember|done].
Qed.

Lemma safe_shouldForward now f (Q : bool → Prop) : (∀ b, Q b) → safe (shouldForwardToInterlinkP now f) Q.
Proof.
  intros HQ. unfold shouldForwardToInterlinkP. apply safe_bind, safe_fixed. intros ? _.
  destruct (c_ForwardAll _); [apply HQ|].
  assert (Hm : ∃ mc, IsMulticastMAC f = Ret mc).
  { unfold IsMulticastMAC. destruct (Z.gtb_spec (glen f) 0); [|eauto]. rewrite idx_ok by lia. cbn. eauto. }
  destruct Hm as [mc Hm]. apply safe_bind, (safe_pure _ mc); [done|]. destruct mc.
  { apply (safe_look _ (fun n => holds (multicastAllowed (n_Config n) f))); [done| |auto].
    intros n' _. unfold reads. by destruct (multicastAllowed_total (n_Config n') f) as [b ->]. }
  assert (Hd : ∃ d, GetDstMAC f = Ret d).
  { unfold GetDstMAC. destruct (Z.ltb_spec (glen f) 6); [eauto|]. rewrite mac_at_ret by lia. eauto. }
  destruct Hd as [d Hd]. apply safe_bind, (safe_pure _ d); [done|].
  apply safe_bind, safe_locked, safe_gets; [done|]. intros ? _.
  destruct (_ !! d); [|apply HQ]. apply safe_fixed. auto.
Qed.

Lemma safe_unicast f (Q : bool → Prop) : 6 <= glen f → (∀ b, Q b) → safe (unicastToRingMemberP (sub f 0 6)) Q.
Proof.
  intros Hl HQ. assert (Hg : glen (sub f 0 6) = 6) by (rewrite glen_sub; lia).
  unfold unicastToRingMemberP. destruct (negb _); [apply HQ|].
  apply safe_bind. eapply safe_pure; [by apply idx_ok; lia|]. destruct (_ =? 1); [apply HQ|].
  apply safe_bind. eapply safe_pure; [by apply GetDstMAC_ret; lia|].
  by apply safe_locked, safe_gets.
Qed.

Lemma safe_forward p f (Q : unit → Prop) : (p = Interlink → il = true) → Q tt → safe (WriteCountedP p f) Q.
Proof. intros Hp HQ. by apply safe_WriteCounted. Qed.

Lemma handleIncomingPRPFrameP_safe now ev : safe (handleIncomingPRPFrameP now ev) (fun _ => True).
Proof.
  destruct ev as [p f]. unfold handleIncomingPRPFrameP. cbn [ev_iface ev_frame].
  apply safe_bind, safe_countFrame, safe_bind.
  destruct (DecodeRCT_total f) as [[[[lan seq] pl]|e] Hd].
  2:{ eapply safe_pure; [by eapply IsPRPFrame_err|]. by apply safe_noteDrop. }
  eapply safe_pure; [by eapply IsPRPFrame_ok|]. cbn [negb]. apply safe_bind. eapply safe_pure; [exact Hd|].
  cbv beta iota zeta. destruct (negb _); [by apply safe_noteDrop|]. apply DecodeRCT_iff in Hd as (Hl & _).
  apply safe_bind. eapply safe_pure; [by apply GetSrcMAC_ret; lia|].
  apply safe_bind, safe_ownFrame; [lia|]. intros ? _. destruct (own _ _); [done|].
  apply safe_bind, safe_Find. intros ? _. destruct (Find _ _ _ _); [by apply safe_noteDrop|].
  apply safe_bind, safe_remember, safe_bind, safe_fixed. intros ? (_ & -> & ->)%inv_node.
  destruct (negb _ && il) eqn:Ei; [|done]. apply andb_true_iff in Ei as [_ Ei].
  apply safe_bind, safe_shouldForward. intros []; cbn [negb]; [by apply safe_forward|by apply safe_noteDrop].
Qed.

Lemma handleInterlinkFrameP_safe now ev :
  16 <= glen (ev_frame ev) → safe (handleInterlinkFrameP now ev) (fun _ => True).
Proof.
  intros Hl. destruct ev as [p f]. cbn [ev_frame] in Hl. unfold handleInterlinkFrameP. cbn [ev_frame].
  apply safe_bind, safe_countFrame, safe_bind, safe_fixed. intros ? _.
  apply safe_bind, (safe_mono _ _ _ _ _ (fun _ => True)).
  2:{ destruct (_ >? 0); [|done]. apply safe_bind. eapply safe_pure; [by apply GetVLANID_ret; lia|done]. }
  intros pass _. destruct (negb pass); [by apply safe_noteDrop|]. guard_true (glen f >=? 12).
  apply safe_bind, safe_bind. eapply safe_pure; [by apply GetSrcMAC_ret; lia|]. apply safe_learnProxy.
  apply safe_bind. eapply safe_pure; [by apply GetSrcMAC_ret; lia|].
  apply safe_bind, safe_fixed. intros ? _. destruct (negb _).
  - apply safe_bind, safe_Write; [done..|]. intros _. apply safe_bind, safe_Write; [done..|]. intros _.
    by apply safe_bind, safe_countFrame, safe_countFrame.
  - apply safe_bind, safe_nextSeq. intros q.
    apply safe_bind. eapply safe_pure; [by apply EncodeRCT_ret; auto|].
    apply safe_bind. eapply safe_pure; [by apply EncodeRCT_ret; auto|].
    apply safe_bind, safe_forward; [done|]. by apply safe_forward.
Qed.

Lemma handleSupervisionFrameP_safe now ev (Q : unit → Prop) :
  bytes_ok (ev_frame ev) → 26 <= glen (ev_frame ev) → Q tt → safe (handleSupervisionFrameP now ev) Q.
Proof.
  intros Hb Hl HQ. unfold handleSupervisionFrameP.
  destruct (Parse (ev_frame ev)) as [r|] eqn:Hp; [|apply Parse_panic_cond in Hp; [lia|done]].
  apply safe_bind. eapply safe_pure; [done|]. destruct r as [sup|]; [|done].
  apply safe_bind, safe_make; [by apply okl_seen..|].
  apply safe_bind, safe_store; [by apply okl_seen|]. apply safe_plain; [by apply okl_seen|done|].
  apply safe_bind, safe_fixed. intros ? _.
  apply safe_bind. assert (Hrest : safe (last ← act (Checks FSeenSeqs) (gets (fun n => n_supervisionSeqs n !! f_SrcMAC sup));
    _ ← match last with
        | Some last =>
            if i16 (u16 (f_Seq sup - last)) <? 0
            then locked MuTable Ex (store FTable
                   (modify (fun n => set_dupTable (FlushFor (n_dupTable n) (f_SrcMAC sup)).1 n)))
            else mret tt
        | None => mret tt
        end;
    store FSeenSeqs
      (modify (fun n => set_supervisionSeqs (<[f_SrcMAC sup := f_Seq sup]> (n_supervisionSeqs n)) n))) Q).
  { apply safe_bind, safe_gets; [done|]. intros ? _.
    apply safe_bind, (safe_mono _ _ _ _ _ (fun _ => True)).
    { intros [] _. apply safe_store; [done|]. by apply safe_plain. }
    destruct (_ !! _) as [last|]; [|done]. destruct (_ <? 0); [|done].
    apply safe_locked, safe_store; [done|]. apply safe_act; [done|]. intros n' Hn.
    eexists _, _. split; [done|]. split; [by apply inv_flush|done]. }
  destruct (_ && _); [by apply safe_learnRingMember|done].
Qed.

Lemma il_of_san : IsHSRNode c = true → IsHSRHSR c = false → Interlink = Interlink → il = true.
Proof. intros ? ? _. by apply il_needed. Qed.

Lemma couplingToPRPP_safe f seq : il = true → safe (couplingToPRPP f seq) (fun _ => True).
Proof.
  intros Hi. unfold couplingToPRPP. apply safe_bind, safe_fixed. intros n' _.
  apply safe_bind. eapply safe_pure; [by apply EncodeRCT_ret, LanID_cases|]. by apply safe_forward.
Qed.

(** What the interlink gets of an accepted ring frame. *)
Lemma ring_delivery_safe now f path seq et pl :
  DecodeHSR f = Ret (Ok (path, seq, et, pl)) → IsHSRNode c = true →
  safe (c' ← fixed n_Config;
    if IsHSRPRPCoupling c' then
      if negb (Z.shiftr path 1 =? NetID c') then
        s ← pure (StripHSR f);
        match s with Err _ => noteDropP "malformed" | Ok original => couplingToPRPP original seq end
      else if Z.land path 1 =? LanID c' then noteDropP "own"
      else noteDropP "path"
    else if IsHSRHSR c' then mret tt
    else
      dst ← pure (slice f 0 6);
      member ← unicastToRingMemberP dst;
      if member : bool then noteDropP "filter"
      else
        pass ← shouldForwardToInterlinkP now pl;
        if negb pass then noteDropP "filter"
        else
          s ← pure (StripHSR f);
          match s with Err _ => noteDropP "malformed" | Ok original => WriteCountedP Interlink original end)
    (fun _ => True).
Proof.
  intros Hd Hnode. pose proof (StripHSR_decoded f path seq et pl Hd) as Hs.
  apply DecodeHSR_iff in Hd as (Ht & _). pose proof (hsr_tagged_bounds f Ht).
  apply safe_bind, safe_config. destruct (IsHSRPRPCoupling c) eqn:Ec.
  - assert (Hq : IsHSRHSR c = false) by (by rewrite coupling_not_quad).
    destruct (negb _).
    + apply safe_bind. eapply safe_pure; [exact Hs|]. by apply couplingToPRPP_safe, il_needed.
    + destruct (_ =? _); by apply safe_noteDrop.
  - destruct (IsHSRHSR c) eqn:Eq; [done|].
    apply safe_bind. eapply safe_pure; [by apply slice_ok; lia|].
    apply safe_bind, safe_unicast; [lia|]. intros []; [by apply safe_noteDrop|].
    apply safe_bind, safe_shouldForward. intros []; cbn [negb]; [|by apply safe_noteDrop].
    apply safe_bind. eapply safe_pure; [exact Hs|]. apply safe_forward; [|done]. intros _. by apply il_needed.
Qed.

Lemma handleIncomingHSRFrameP_safe now ev :
  bytes_ok (ev_frame ev) → IsHSRNode c = true → safe (handleIncomingHSRFrameP now ev) (fun _ => True).
Proof.
  intros Hb Hnode. destruct ev as [p f]. cbn [ev_frame] in Hb. unfold handleIncomingHSRFrameP.
  cbn [ev_iface ev_frame]. apply safe_bind, safe_countFrame, safe_bind.
  destruct (DecodeHSR_total f) as [[[[[path seq] et] pl]|e] Hd]; (eapply safe_pure; [exact Hd|]);
    cbv beta iota zeta; [|by apply safe_noteDrop].
  pose proof Hd as Hd'. apply DecodeHSR_iff in Hd' as (Ht & _). pose proof (hsr_tagged_bounds f Ht).
  apply safe_bind. eapply safe_pure; [by apply GetSrcMAC_ret; lia|].
  apply safe_bind, safe_ownFrame; [lia|]. intros ? _. destruct (own _ _); [by apply safe_noteDrop|].
  apply safe_bind, safe_Find. intros ? _. destruct (Find _ _ _ _); [by apply safe_noteDrop|].
  apply safe_bind, safe_remember, safe_bind, safe_learnRingMember, safe_bind.
  eapply safe_pure; [by apply RewriteHSRPathLane_tagged|]. cbv beta iota.
  apply safe_bind, safe_forward; [by destruct p|]. apply safe_bind, safe_fixed. intros ? (_ & -> & ->)%inv_node.
  apply safe_bind, (safe_mono _ _ _ _ _ (fun _ => True)); [intros _ _; by eapply ring_delivery_safe|].
  destruct (IsHSRHSR c && il) eqn:Ei; [|done]. apply andb_true_iff in Ei as [_ Ei].
  apply safe_bind. eapply safe_pure; [by apply slice_ok; lia|].
  apply safe_bind, safe_unicast; [lia|]. intros []; [by apply safe_noteDrop|by apply safe_forward].
Qed.

Lemma quadboxInterlinkP_safe now f src : 26 <= glen f → safe (quadboxInterlinkP now f src) (fun _ => True).
Proof.
  intros Hl. unfold quadboxInterlinkP. apply safe_bind.
  destruct (DecodeHSR_total f) as [[[[[path seq] et] pl]|e] Hd]; (eapply safe_pure; [exact Hd|]);
    cbv beta iota zeta; [|by apply safe_noteDrop].
  apply DecodeHSR_iff in Hd as (Ht & _).
  apply safe_bind, safe_ownFrame; [lia|]. intros ? _. destruct (own _ _); [by apply safe_noteDrop|].
  apply safe_bind, safe_Find. intros ? _. destruct (Find _ _ _ _); [by apply safe_noteDrop|].
  apply safe_bind, safe_remember, safe_bind. eapply safe_pure; [by apply RewriteHSRPath_tagged|].
  apply safe_bind, safe_forward; [done|]. by apply safe_forward.
Qed.

Lemma ring_inject_safe now f src path seq :
  26 <= glen f →
  safe (_ ← rememberP now src seq 0; body ← pure (hsrBodyOf f path seq);
        _ ← WriteCountedP LanA body; WriteCountedP LanB body) (fun _ => True).
Proof.
  intros Hl. pose proof (hdr_len_bounds f). apply safe_bind, safe_remember, safe_bind.
  eapply safe_pure; [by apply hsrBodyOf_ret; lia|]. apply safe_bind, safe_forward; [done|]. by apply safe_forward.
Qed.

Lemma handleHSRInterlinkFrameP_safe now ev :
  26 <= glen (ev_frame ev) → safe (handleHSRInterlinkFrameP now ev) (fun _ => True).
Proof.
  intros Hl. destruct ev as [p f]. cbn [ev_frame] in Hl. unfold handleHSRInterlinkFrameP. cbn [ev_frame].
  apply safe_bind, safe_countFrame, safe_bind. eapply safe_pure; [by apply GetSrcMAC_ret; lia|].
  apply safe_bind, safe_config. destruct (IsHSRHSR c); [by apply quadboxInterlinkP_safe|].
  guard_true (glen f >=? 12). apply safe_bind, safe_learnProxy, safe_bind.
  destruct (IsHSRPRPCoupling c).
  - apply safe_bind. destruct (DecodeRCT_total f) as [[[[lan seq] pl]|e] Hd]; (eapply safe_pure; [exact Hd|]).
    + by apply ring_inject_safe.
    + by apply safe_noteDrop.
  - apply safe_bind, safe_nextSeq. intros q. by apply ring_inject_safe.
Qed.

Lemma handleFrameP_safe now ev :
  bytes_ok (ev_frame ev) → 26 <= glen (ev_frame ev) → safe (handleFrameP now ev) (fun _ => True).
Proof.
  intros Hb Hl. unfold handleFrameP. guard_false (glen (ev_frame ev) <? 14).
  apply safe_bind. eapply safe_pure; [by apply GetEtherType_ret|]. apply safe_bind, safe_config. cbv zeta.
  apply safe_if; intros _.
  - apply safe_bind, handleSupervisionFrameP_safe; [done..|]. apply safe_if; intros _; [|done].
    apply safe_if; intros _.
    2:{ apply safe_bind, safe_forward; [done|]. by apply safe_forward. }
    apply safe_bind, safe_fixed. intros ? (_ & _ & ->)%inv_node. by apply safe_if; intros Hi; [apply safe_forward|].
  - destruct (ev_iface ev); apply safe_if; intros Hnode.
    + by apply handleIncomingHSRFrameP_safe.
    + by apply handleIncomingPRPFrameP_safe.
    + by apply handleIncomingHSRFrameP_safe.
    + by apply handleIncomingPRPFrameP_safe.
    + by apply handleHSRInterlinkFrameP_safe.
    + apply handleInterlinkFrameP_safe. lia.
Qed.
End worker.
End generic.

(** ** Properties *)

(** A pool whose goroutines do their jobs on the node [n]. *)
Definition runs (frames : Z → frameEvent → Prop) (tick : Z → Prop) (n : Node) (s : gpool) : Prop :=
  pool_reachable (job frames tick) n s.

(** The fields no mutex and no single goroutine protects. *)
Definition raced (x : field) : Prop := x = FSeen ∨ x = FDrops ∨ x = FCleanupTimer.

Lemma race_raced frames tick n s x : runs frames tick n s → race_on x s → raced x.
Proof.
  intros Hr Hrace.
  pose proof (pool_reachable_ok (job frames tick) protect rank n s (job_disciplined frames tick) Hr) as Hok.
  pose proof (ok_no_race protect rank s x Hok Hrace). unfold raced. destruct x; auto; discriminate.
Qed.

(** C12: no deadlock.  In every interleaving, a goroutine with nothing left to
    do holds no mutex, and as long as some goroutine has something left to do
    some goroutine can take its next action. *)
Theorem no_deadlock (frames : Z → frameEvent → Prop) (tick : Z → Prop) (n : Node) (s : gpool) :
  runs frames tick n s → pl_fate s = Alive →
  (∀ i, th_prog (pl_thread s i) = Done tt → th_held (pl_thread s i) = []) ∧
  ((∃ i l, next_label (th_prog (pl_thread s i)) = Some l) → can_step s ∧ ∃ s', pool_step (job frames tick) s s').
Proof.
  intros Hr Hc.
  pose proof (pool_reachable_ok (job frames tick) protect rank n s (job_disciplined frames tick) Hr) as Hok.
  split.
  - intros i Hi. pose proof (po_disc _ _ _ Hok i) as Hd. by rewrite Hi in Hd.
  - intros (i & l & Hi). assert (Hs : can_step s).
    { eapply (busy_progress protect rank s 2); [by intros []|exact Hok|exact Hi]. }
    split; [done|]. by apply can_step_steps.
Qed.

(** *** The node's invariant at every access *)

(** The frames the worker can get: at least 26 bytes, as of a wire. *)
Definition wire_frames (now : Z) (ev : frameEvent) : Prop := bytes_ok (ev_frame ev) ∧ 26 <= glen (ev_frame ev).

Definition all_times (now : Z) : Prop := True.

(** The node is well formed, with this configuration and interlink. *)
Definition node_inv (c : Config) (il : bool) (n : Node) : Prop :=
  node_ok n ∧ n_Config n = c ∧ n_Interlink n = il.

(** What was handed to the ports stays on record, and the timer stays stored. *)
Definition grows (n n' : Node) : Prop :=
  static n' = static n ∧ n_sent n `prefix_of` n_sent n' ∧ (n_cleanupTimer n = true → n_cleanupTimer n' = true).

Lemma node_inv_static c il n n' : node_inv c il n → node_ok n' → static n' = static n → node_inv c il n'.
Proof. intros (_ & Hc & Hi) Hn [=]. split_and!; [done|congruence|congruence]. Qed.

Lemma grows_same n n' : static n' = static n → n_sent n' = n_sent n →
  (n_cleanupTimer n = true → n_cleanupTimer n' = true) → grows n n'.
Proof. intros Hs He Ht. split_and!; [done|by rewrite He|done]. Qed.

Lemma node_ok_table n t :
  table_ok t → maxSize t = maxSize (n_dupTable n) → node_ok n → node_ok (set_dupTable t n).
Proof. intros Ht Hm [Hp _ Hx Hq Hv]. split; try done. cbn. congruence. Qed.

Lemma inv_table c il n t :
  node_inv c il n → (table_ok (n_dupTable n) → table_ok t) → maxSize t = maxSize (n_dupTable n) →
  node_inv c il (set_dupTable t n) ∧ grows n (set_dupTable t n).
Proof.
  intros Hn Ht Hm. split; [|by apply grows_same].
  apply (node_inv_static c il n); [done| |done]. apply node_ok_table; [apply Ht, Hn|done|apply Hn].
Qed.

Lemma grows_rtc n n' : rtc grows n n' → grows n n'.
Proof.
  induction 1 as [n|n1 n2 n3 (H1 & H2 & H5) _ (H3 & H4 & H6)]; [done|].
  split_and!; [congruence|by etrans|auto].
Qed.

(** The timer's goroutine dereferences the timer [Start] has not stored yet. *)
Definition timer_unset (i : goroutine) (n : Node) : Prop := i = Timer ∧ n_cleanupTimer n = false.

Lemma job_safe c il i p :
  (IsHSRNode c = true → IsHSRHSR c = false → il = true) →
  job wire_frames all_times i p →
  safe (node_inv c il) grows (timer_unset i) (fun l => timer_map l = false) p (fun _ => True).
Proof.
  intros Hil Hj.
  assert (Hq : ∀ n n', node_inv c il n → node_ok n' → static n' = static n →
    n_dupTable n' = n_dupTable n → n_sent n' = n_sent n →
    (n_cleanupTimer n = true → n_cleanupTimer n' = true) → node_inv c il n' ∧ grows n n').
  { intros n n' Hn Hok Hs _ He Ht. split; [by eapply node_inv_static|by apply grows_same]. }
  assert (Hw : ∀ n p f, node_inv c il n → True → node_inv c il (wrote_raw p f n) ∧ grows n (wrote_raw p f n)).
  { intros n q f ([Hp Ht Hm Hs Hu] & Hc & Hi) _. split; [by split_and!|]. split_and!; [done| |done].
    by exists [mkTx q f (write_ok (n_sent n) q f)]. }
  assert (Hc : ∀ n now, node_inv c il n → all_times now →
    let n' := set_dupTable (Cleanup (n_dupTable n) now).1 n in node_inv c il n' ∧ grows n n').
  { intros n now Hn _. apply inv_table; [done|apply Cleanup_ok|]. by rewrite Cleanup_fst. }
  destruct Hj as [now ev [Hb Hl]|now now' it Ht _| |it _| |stopped].
  - eapply (handleFrameP_safe c il _ _ _ _ (fun _ => True)); try done.
    + intros n t src seq lan Hn. apply inv_table; [done|apply InsertWithExpiry_ok|apply InsertWithExpiry_maxSize].
    + intros n src Hn. apply inv_table; [done|apply FlushFor_ok|by rewrite FlushFor_fst].
  - by eapply (periodicCleanupP_safe c il _ _ _ _ all_times).
  - by eapply (SendSupervisionFrameP_safe c il _ _ _ _ (fun _ => True)).
  - by eapply (SnapshotP_safe c il).
  - by eapply (StartP_safe c il).
  - by eapply (StopP_safe c il).
Qed.

(** C5: the node under true concurrency.  From a well-formed node, in every
    interleaving of the goroutines' individual accesses, on frames of at least
    26 bytes, the node invariant holds after every access, the table stays
    within its capacity, and configuration, ports and identity never change.
    The process can end in two ways only: the clean-up timer fires before
    [Start] has stored it, or the Go runtime finds a goroutine at
    [supervisionSeen] or [dropCounters] while another one is writing it. *)
Theorem interleaved_invariant (n : Node) (s : gpool) :
  node_ok n → runs wire_frames all_times n s →
  node_ok (pl_state s) ∧ static (pl_state s) = static n ∧
  n_sent n `prefix_of` n_sent (pl_state s) ∧
  Size (n_dupTable (pl_state s)) <= positive_or (c_MaxNodeTableSize (n_Config n)) 256 ∧
  match pl_fate s with
  | Alive => True
  | Panicked i => i = Timer ∧ n_cleanupTimer n = false ∧ n_cleanupTimer (pl_state s) = false
  | Fatal i x => race_on x s ∧ (x = FSeen ∨ x = FDrops)
  end.
Proof.
  intros Hn Hr. assert (Hil : IsHSRNode (n_Config n) = true → IsHSRHSR (n_Config n) = false → n_Interlink n = true)
    by apply Hn.
  destruct (pool_reachable_safe (job wire_frames all_times) (node_inv (n_Config n) (n_Interlink n)) grows
    timer_unset (fun _ l => timer_map l = false) n s) as [(Hok & Hc & _) Hg Hpan Hth]; [by split_and!| |done|].
  { intros i p. by apply job_safe. }
  apply grows_rtc in Hg as (Hs & Hp & Ht). split_and!; try done.
  - destruct Hok as [_ [_ Hb] Hm _ _]. rewrite <-Hc, <-Hm. apply Hb. rewrite Hm. unfold positive_or.
    destruct (Z.leb_spec (c_MaxNodeTableSize (n_Config (pl_state s))) 0); lia.
  - destruct (pl_fate s) as [|i|i x] eqn:Hf; [done| |].
    + destruct (Hpan i eq_refl) as [-> Hset]. split_and!; [done| |done].
      destruct (n_cleanupTimer n); [|done]. rewrite Ht in Hset by done. done.
    + pose proof (fatal_race _ _ _ _ _ Hr Hf) as Hrace. split; [done|].
      destruct (race_raced _ _ _ _ _ Hr Hrace) as [-> | [-> | ->]]; [by left|by right|exfalso].
      destruct (fatal_clash _ _ _ _ _ Hr Hf) as (l & _ & _ & j & _ & Hj).
      by pose proof (safe_next _ _ _ _ _ _ _ (Hth j) Hj).
Qed.

(** *** Duplicate detection under interference *)

(** The frames handed to the interlink, in order. *)
Definition to_interlink (n : Node) : list (port * bytes) := filter (fun x => x.1 = Interlink) (frames_of (n_sent n)).

(** The interlink gets nothing, and the timer stays stored. *)
Definition same_interlink (n n' : Node) : Prop :=
  to_interlink n' = to_interlink n ∧ (n_cleanupTimer n = true → n_cleanupTimer n' = true).

Lemma same_interlink_rtc n n' : rtc same_interlink n n' → same_interlink n n'.
Proof. induction 1 as [n|n1 n2 n3 [H1 H2] _ [H3 H4]]; [done|]. split; [congruence|auto]. Qed.

(** The table remembers ([src], [seq]) with the entry [e]. *)
Definition remembers (c : Config) (il : bool) (src : string) (seq : Z) (e : Entry) (n : Node) : Prop :=
  node_inv c il n ∧ entries (n_dupTable n) !! key src seq = Some e.

Section copies.
Context (c : Config) (il : bool) (src : string) (seq : Z) (e : Entry).

#[local] Notation Inv := (remembers c il src seq e).

Lemma remembers_quiet n n' :
  Inv n → node_ok n' → static n' = static n → n_dupTable n' = n_dupTable n → n_sent n' = n_sent n →
  (n_cleanupTimer n = true → n_cleanupTimer n' = true) → Inv n' ∧ same_interlink n n'.
Proof.
  intros [Hn He] Hok Hs Hd Hsent Ht. split; [split; [by eapply node_inv_static|by rewrite Hd]|].
  split; [|done]. unfold to_interlink. by rewrite Hsent.
Qed.

Lemma remembers_write n p f :
  Inv n → p ≠ Interlink → Inv (wrote_raw p f n) ∧ same_interlink n (wrote_raw p f n).
Proof.
  intros [([Hp Ht Hm Hs Hu] & Hc & Hi) He] Hne. split; [by split_and!|]. split; [|done].
  unfold to_interlink. cbn [n_sent wrote_raw set_sent]. rewrite frames_of_app, filter_app.
  replace (filter _ (frames_of [_])) with (@nil (port * bytes)); [by rewrite app_nil_r|].
  symmetry. unfold frames_of. cbn [fmap list_fmap tx_port tx_frame]. by rewrite filter_cons_False.
Qed.

Lemma remembers_clean n now :
  Inv n → expired now e = false →
  let n' := set_dupTable (Cleanup (n_dupTable n) now).1 n in Inv n' ∧ same_interlink n n'.
Proof.
  intros [Hn He] Hx. cbv zeta. split; [|done]. split.
  - apply inv_table; [done|apply Cleanup_ok|by rewrite Cleanup_fst].
  - cbn [n_dupTable set_dupTable]. rewrite Cleanup_lookup, He. cbn. by rewrite Hx.
Qed.

Lemma remembers_inv n : Inv n → node_ok n ∧ n_Config n = c ∧ n_Interlink n = il.
Proof. by intros [Hn _]. Qed.

Lemma remembers_Find n now : Inv n → expired now e = false → Find (n_dupTable n) now src seq = true.
Proof. intros [_ He] Hx. unfold Find. by rewrite He, Hx. Qed.

(** Only the timer touches [supervisionSeen] when no announcement comes in. *)
Definition quiet_label (i : goroutine) (l : label (Lk := mutex) (Loc := field)) : Prop :=
  timer_map l = false ∧ (i ≠ Timer → seen_label l = false).

Lemma copies_job_safe i p :
  IsHSRHSR c || IsHSRPRPCoupling c = false →
  job (fun now ev => expired now e = false ∧ copy_of c src seq ev) (fun now => expired now e = false) i p →
  safe Inv same_interlink (timer_unset i) (quiet_label i) p (fun _ => True).
Proof.
  intros Hrole Hj. pose proof remembers_inv as Hi. pose proof remembers_quiet as Hq.
  destruct Hj as [now ev [Hx Hc]|now now' it Hx _| |it _| |stopped].
  - eapply (copy_safe c il Inv same_interlink _ (quiet_label Worker) ltac:(done) Hi Hq src seq (fun now => expired now e = false)); [|done..].
    intros n t. apply remembers_Find.
  - by eapply (periodicCleanupP_safe c il _ _ _ (quiet_label Timer) (fun now => expired now e = false)); [..|apply remembers_clean| | |].
  - eapply (SendSupervisionFrameP_safe c il _ _ _ (quiet_label Ticker) (fun p => p ≠ Interlink)); [done|done|done|apply remembers_write|done|done|].
    by rewrite Hrole.
  - by eapply (SnapshotP_safe c il _ _ _ (quiet_label Display)).
  - by eapply (StartP_safe c il _ _ _ (quiet_label Control)).
  - by eapply (StopP_safe c il _ _ _ (quiet_label Control)).
Qed.
End copies.

(** C9: duplicates stay dropped under concurrency.  While the table of a
    prp-san or hsr-san node holds a live entry for (src, seq), the worker may
    handle any number of copies of that frame, and between any two of its
    accesses the timer, the ticker, the display and [main] may make any of
    theirs: as long as the clock readings are within the entry's life, nothing
    is handed to the interlink and the entry stays.  Nothing panics once the
    timer is stored; the runtime can only end the process where the display
    copies the drop reasons while the worker counts a duplicate. *)
Theorem duplicates_stay_dropped (n : Node) (s : gpool) (src : string) (seq : Z) (e : Entry) :
  node_ok n → IsHSRHSR (n_Config n) || IsHSRPRPCoupling (n_Config n) = false →
  entries (n_dupTable n) !! key src seq = Some e →
  runs (fun now ev => expired now e = false ∧ copy_of (n_Config n) src seq ev)
       (fun now => expired now e = false) n s →
  to_interlink (pl_state s) = to_interlink n ∧
  entries (n_dupTable (pl_state s)) !! key src seq = Some e ∧
  match pl_fate s with
  | Alive => True
  | Panicked i => i = Timer ∧ n_cleanupTimer n = false
  | Fatal i x => race_on x s ∧ x = FDrops
  end.
Proof.
  intros Hn Hrole He Hr. set (c := n_Config n) in *. set (il := n_Interlink n).
  pose proof Hr as Hsafe.
  eapply (pool_reachable_safe _ (remembers c il src seq e) same_interlink timer_unset quiet_label) in Hsafe
    as [[_ Hk] Hg Hpan Hth]; cycle 1.
  { by split; [split_and!|]. }
  { intros i p. by apply copies_job_safe. }
  apply same_interlink_rtc in Hg as [Hg Ht]. split_and!; [done..|].
  destruct (pl_fate s) as [|i|i x] eqn:Hf; [done| |].
  - destruct (Hpan i eq_refl) as [-> Hset]. split; [done|].
    destruct (n_cleanupTimer n); [|done]. rewrite Ht in Hset by done. done.
  - pose proof (fatal_race _ _ _ _ _ Hr Hf) as Hrace. split; [done|].
    destruct (fatal_clash _ _ _ _ _ Hr Hf) as (l & Hi & Hl & j & Hij & Hj).
    pose proof (safe_next _ _ _ _ _ _ _ (Hth i) Hi) as [_ Hli]. pose proof (safe_next _ _ _ _ _ _ _ (Hth j) Hj) as [Htm Hlj].
    destruct (race_raced _ _ _ _ _ Hr Hrace) as [-> | [-> | ->]]; [exfalso|done|done].
    destruct (decide (i = Timer)) as [->|Hni]; [by specialize (Hlj (not_eq_sym Hij))|].
    specialize (Hli Hni). by destruct l; try done; injection Hl as ->.
Qed.
End interleave.

(** ** Concrete interleavings *)

#[local] Existing Instance sorted_range.
#[local] Existing Instance demo_env.

#[local] Notation demo_job := (job wire_frames all_times).

Definition demo_announcement : bytes := BuildRCTed [2; 0; 0; 0; 0; 7] 1 0.

(** A node that [Start] has left, and one whose timer it has only armed. *)
Definition demo_armed : Node := demo_node "prp-san" "" 0 [2; 0; 0; 0; 0; 1].
Definition demo_live : Node := set_cleanupTimer true demo_armed.

(** An iteration that tries the keys of its start in their order. *)
Definition keep : iterator := fun ks => ks.

Lemma keep_covers : covers keep.
Proof. by intros ks. Qed.

Definition start_announcement (p : port) (s : gpool) : gpool :=
  start Worker (handleFrameP 20 (mkEvent p demo_announcement)) s.
Definition start_malformed (s : gpool) : gpool := start Worker (handleFrameP 20 (mkEvent LanA (zeros 60))) s.
Definition start_cleanup (s : gpool) : gpool := start Timer (periodicCleanupP 20 20 keep) s.
Definition start_snapshot (s : gpool) : gpool := start Display (_ ← SnapshotP keep; mret tt) s.

(** The worker has handled an announcement; it is inside the write for the
    next one as the clean-up is about to look at the entry. *)
Definition demo_heard_peer : gpool := run_schedule (replicate 11 Worker) (start_announcement LanA (idle demo_live)).
Definition demo_race_seen : gpool :=
  run_schedule (replicate 8 Timer ++ replicate 5 Worker) (start_announcement LanB (start_cleanup demo_heard_peer)).
Definition demo_abort_seen : gpool := run_schedule [Timer] demo_race_seen.

(** The worker has counted a malformed frame; it is inside the write for the
    next one as the display is about to copy the count. *)
Definition demo_dropped : gpool := run_schedule (replicate 10 Worker) (start_malformed (idle demo_live)).
Definition demo_race_drops : gpool :=
  run_schedule (replicate 8 Display ++ replicate 8 Worker) (start_malformed (start_snapshot demo_dropped)).
Definition demo_abort_drops : gpool := run_schedule [Display] demo_race_drops.

(** The timer fires and gets to its end before [Start] stores it. *)
Definition demo_race_timer : gpool :=
  run_schedule (replicate 6 Timer) (start Control StartP (start_cleanup (idle demo_armed))).
Definition demo_early_timer : gpool := run_schedule [Timer] demo_race_timer.

Lemma demo_frame_ok t p : wire_frames t (mkEvent p demo_announcement).
Proof. split; [repeat constructor; discriminate|vm_compute; discriminate]. Qed.

Lemma demo_zeros_ok t : wire_frames t (mkEvent LanA (zeros 60)).
Proof. split; [apply bytes_ok_zeros|vm_compute; discriminate]. Qed.

(** Runs that start a job on a goroutine with nothing to do. *)
Lemma runs_start n s i p :
  runs wire_frames all_times n s → pl_fate s = Alive → th_prog (pl_thread s i) = Done tt → demo_job i p →
  runs wire_frames all_times n (start i p s).
Proof. intros Hr Ha Hi Hj. eapply rtc_r; [exact Hr|by apply start_sound]. Qed.

Lemma runs_schedule n s l : runs wire_frames all_times n s → runs wire_frames all_times n (run_schedule l s).
Proof. intros Hr. unfold runs, pool_reachable. etrans; [exact Hr|apply run_schedule_sound]. Qed.

Ltac demo_job_tac :=
  constructor; first [apply demo_frame_ok|apply demo_zeros_ok|exact I|exact keep_covers|idtac].

(** The run of a demo: schedules and jobs started, back to a run [H]. *)
Ltac demo_run H :=
  repeat first [exact H|apply runs_schedule|apply runs_start; [|vm_compute; reflexivity|vm_compute; reflexivity|demo_job_tac]].

Lemma runs_idle n : runs wire_frames all_times n (idle n).
Proof. apply rtc_refl. Qed.

Lemma demo_heard_runs : runs wire_frames all_times demo_live demo_heard_peer.
Proof. unfold demo_heard_peer, start_announcement. demo_run (runs_idle demo_live). Qed.

Lemma demo_race_seen_runs : runs wire_frames all_times demo_live demo_race_seen.
Proof. unfold demo_race_seen, start_announcement, start_cleanup. demo_run demo_heard_runs. Qed.

Lemma demo_dropped_runs : runs wire_frames all_times demo_live demo_dropped.
Proof. unfold demo_dropped, start_malformed. demo_run (runs_idle demo_live). Qed.

Lemma demo_race_drops_runs : runs wire_frames all_times demo_live demo_race_drops.
Proof. unfold demo_race_drops, start_malformed, start_snapshot. demo_run demo_dropped_runs. Qed.

Lemma demo_race_timer_runs : runs wire_frames all_times demo_armed demo_race_timer.
Proof. unfold demo_race_timer, start_cleanup. demo_run (runs_idle demo_armed). Qed.

Lemma demo_live_ok : node_ok demo_live.
Proof. eapply node_ok_same; [..|apply demo_node_ok]; reflexivity. Qed.

(** The three races happen. *)
Lemma seen_race : race_on FSeen demo_race_seen.
Proof.
  exists Worker, Timer, (Leaves FSeen), (Checks FSeen), true, false.
  split_and!; [discriminate|vm_compute; reflexivity..].
Qed.

Lemma drops_race : race_on FDrops demo_race_drops.
Proof.
  exists Worker, Display, (Leaves FDrops), (Checks FDrops), true, false.
  split_and!; [discriminate|vm_compute; reflexivity..].
Qed.

Lemma timer_race : race_on FCleanupTimer demo_race_timer.
Proof.
  exists Control, Timer, (Writes FCleanupTimer), (Reads FCleanupTimer), true, false.
  split_and!; [discriminate|vm_compute; reflexivity..].
Qed.

(** Each of them can end the process. *)
Lemma seen_abort : pl_fate demo_abort_seen = Fatal Timer FSeen.
Proof. vm_compute. reflexivity. Qed.

Lemma drops_abort : pl_fate demo_abort_drops = Fatal Display FDrops.
Proof. vm_compute. reflexivity. Qed.

Lemma timer_panic : pl_fate demo_early_timer = Panicked Timer.
Proof. vm_compute. reflexivity. Qed.

(** C11: where the goroutines race.  Two goroutines can be about to access the
    same field, one of them to write it, at exactly three fields:
    [supervisionSeen], [dropCounters] and [cleanupTimer].  Every other field is
    protected by its mutex or belongs to one goroutine, in every interleaving,
    whatever the frames, the clock and the order of map iteration. *)
Theorem races_only (x : field) :
  (∃ (MR : MapRange) (E : Env) frames tick (n : Node) (s : gpool),
     node_ok n ∧ runs (MR := MR) (E := E) frames tick n s ∧ race_on x s) ↔
  x = FSeen ∨ x = FDrops ∨ x = FCleanupTimer.
Proof.
  split.
  - intros (MR & E & frames & tick & n & s & _ & Hr & Hx). by eapply race_raced.
  - intros [-> | [-> | ->]]; eexists sorted_range, demo_env, wire_frames, all_times, _, _.
    + split; [exact demo_live_ok|]. split; [exact demo_race_seen_runs|exact seen_race].
    + split; [exact demo_live_ok|]. split; [exact demo_race_drops_runs|exact drops_race].
    + split; [apply demo_node_ok|]. split; [exact demo_race_timer_runs|exact timer_race].
Qed.

Lemma no_deadlock_witness :
  next_label (th_prog (pl_thread demo_race_seen Timer)) = Some (Checks FSeen) ∧ can_step demo_race_seen.
Proof.
  split; [vm_compute; reflexivity|].
  apply (no_deadlock wire_frames all_times _ demo_race_seen demo_race_seen_runs); [vm_compute; reflexivity|].
  exists Timer, (Checks FSeen). vm_compute. reflexivity.
Defined.

(** At a live state, at an abort of the runtime and at the early timer. *)
Lemma interleaved_invariant_witness :
  (pl_fate demo_race_drops = Alive ∧ node_ok (pl_state demo_race_drops)) ∧
  (pl_fate demo_abort_seen = Fatal Timer FSeen ∧ node_ok (pl_state demo_abort_seen) ∧ race_on FSeen demo_abort_seen) ∧
  (pl_fate demo_early_timer = Panicked Timer ∧ n_cleanupTimer (pl_state demo_early_timer) = false).
Proof.
  assert (H0 : pl_fate demo_race_drops = Alive) by (vm_compute; reflexivity).
  destruct (interleaved_invariant demo_live demo_race_drops demo_live_ok demo_race_drops_runs) as (H1 & _).
  destruct (interleaved_invariant demo_live demo_abort_seen demo_live_ok
    (runs_schedule _ _ [Timer] demo_race_seen_runs)) as (H2 & _ & _ & _ & H3).
  destruct (interleaved_invariant demo_armed demo_early_timer (demo_node_ok _ _ _ _)
    (runs_schedule _ _ [Timer] demo_race_timer_runs)) as (_ & _ & _ & _ & H4).
  rewrite seen_abort in H3. rewrite timer_panic in H4.
  exact (conj (conj H0 H1) (conj (conj seen_abort (conj H2 (proj1 H3))) (conj timer_panic (proj2 (proj2 H4))))).
Defined.

(** The peer's frame number 1 was accepted at time 10; the second copy comes
    in while the timer is inside its clean-up. *)
Definition demo_copy (p : port) : bytes :=
  [4; 0; 0; 0; 0; 0x43; 2; 0; 0; 0; 0; 0x42; 8; 0] ++ zeros 46 ++ [0; 1; (10 + lan_of_port p) * 16; 52; 0x88; 0xfb].

Definition demo_knows : Node :=
  set_dupTable (InsertWithExpiry (NewTable 256) 10 "02:00:00:00:00:42" 1 0 640)
    demo_live.

Definition demo_second_copy : gpool :=
  run_schedule ([Timer; Timer] ++ replicate 8 Worker ++ replicate 5 Timer ++ replicate 8 Worker)
    (start Worker (handleFrameP 20 (mkEvent LanB (demo_copy LanB)))
       (start Timer (periodicCleanupP 19 19 keep) (idle demo_knows))).

Lemma demo_knows_ok : node_ok demo_knows.
Proof.
  apply node_ok_table; [apply InsertWithExpiry_ok, NewTable_ok|by rewrite InsertWithExpiry_maxSize|apply demo_live_ok].
Qed.

Lemma demo_second_copy_runs :
  runs (fun now ev => expired now (mkEntry "02:00:00:00:00:42" 1 0 10 640) = false ∧
                      copy_of (n_Config demo_knows) "02:00:00:00:00:42" 1 ev)
       (fun now => expired now (mkEntry "02:00:00:00:00:42" 1 0 10 640) = false) demo_knows demo_second_copy.
Proof.
  eapply rtc_l; [apply (start_sound _ Timer (periodicCleanupP 19 19 keep) (idle demo_knows)); [done..|]|].
  { apply job_cleanup; [vm_compute; reflexivity|exact keep_covers]. }
  eapply rtc_l; [apply (start_sound _ Worker (handleFrameP 20 (mkEvent LanB (demo_copy LanB)))); [done..|]
                |apply run_schedule_sound].
  apply job_frame.
  split; [vm_compute; reflexivity|]. split_and!; [vm_compute; discriminate|reflexivity|vm_compute; discriminate|vm_compute; reflexivity|].
  eexists _, _. vm_compute. reflexivity.
Qed.

Lemma duplicates_stay_dropped_witness :
  n_dropCounters (pl_state demo_second_copy) !! "dup"%string = Some 1 ∧
  pl_fate demo_second_copy = Alive ∧ to_interlink (pl_state demo_second_copy) = [].
Proof.
  split; [vm_compute; reflexivity|]. split; [vm_compute; reflexivity|].
  destruct (duplicates_stay_dropped demo_knows demo_second_copy "02:00:00:00:00:42" 1
    (mkEntry "02:00:00:00:00:42" 1 0 10 640)) as [H _].
  - exact demo_knows_ok.
  - reflexivity.
  - vm_compute. reflexivity.
  - exact demo_second_copy_runs.
  - rewrite H. vm_compute. reflexivity.
Defined.
