(* ===== verification/Ber.v ===== *)
(** * Ber: the BER tag-length-value codec

    Models [src/internal/iec/ber.go]: the length encoder, the TLV encoder and
    the TLV reader, with Go's 64-bit [int] (shifts and additions wrap), and
    the loop by which the two APDU parsers walk a sequence of TLVs.  A BER
    field is a pair of a tag and a payload; [fields_bytes] is the abstract
    view of a well-formed sequence of fields. *)

From S2P Require Import Prelude.

(** ** Encoding *)

(** The largest [int]; no slice is longer. *)
Definition maxInt : Z := 9223372036854775807.

(** [for tmp > 0 { lenBytes++; tmp >>= 8 }]: the number of rounds.  A 64-bit
    value needs at most 8. *)
Fixpoint lenBytes_loop (fuel : nat) (tmp : Z) : nat :=
  match fuel with
  | O => 0
  | S fuel => if tmp >? 0 then S (lenBytes_loop fuel (Z.shiftr tmp 8)) else 0
  end.

(** [for i := lenBytes - 1; i >= 0; i-- { b = append(b, byte((v >> (8*i)) & 0xff)) }] *)
Fixpoint length_octets (n : nat) (v : Z) : bytes :=
  match n with
  | O => []
  | S i => u8 (Z.land (Z.shiftr v (8 * Z.of_nat i)) 0xff) :: length_octets i v
  end.

(** [encodeLength]; [panic("iec: negative length")] is [Panic]. *)
Definition encodeLength (length : Z) : go bytes :=
  if length <? 0 then Panic
  else if length <? 128 then Ret [u8 length]
  else
    let v := u64 length in
    let lenBytes := lenBytes_loop 8 v in
    Ret (u8 (Z.lor 0x80 (Z.of_nat lenBytes)) :: length_octets lenBytes v).

(** [encodeTLV] *)
Definition encodeTLV (tag : Z) (payload : bytes) : go bytes :=
  let! l := encodeLength (glen payload) in
  Ret (([tag] ++ l) ++ payload).

(** [Boolean]: the payload is itself a TLV of tag 1 *)
Definition Boolean (b : bool) : bytes :=
  if b then [0x01; 0x01; 0xff] else [0x01; 0x01; 0x00].

(** [Integer16] *)
Definition Integer16 (v : Z) : bytes := [u8 (Z.shiftr v 8); u8 (Z.land v 0xff)].

(** [String]: the bytes of a Go string *)
Fixpoint StringBytes (s : string) : bytes :=
  match s with
  | EmptyString => []
  | String c s => Z.of_nat (nat_of_ascii c) :: StringBytes s
  end.

(** ** Decoding *)

(** [for i := 0; i < numBytes; i++ { length = (length << 8) | int(data[off+i]) }],
    started at [pos] with [k] rounds to go *)
Fixpoint length_loop (k : nat) (data : bytes) (pos length : Z) : go Z :=
  match k with
  | O => Ret length
  | S k =>
      let! b := idx data pos in
      length_loop k data (pos + 1) (Z.lor (i64 (Z.shiftl length 8)) b)
  end.

(** What [parseTLV] returns: tag, payload, rest, ok. *)
Definition tlv : Type := (Z * bytes * bytes * bool)%type.

Definition no_tlv (data : bytes) : tlv := (0, [], data, false).

(** The end of [parseTLV], once the length is known. *)
Definition take_payload (data : bytes) (tagByte off length : Z) : go tlv :=
  if glen data <? i64 (off + length) then Ret (no_tlv data)
  else
    let! payload := slice data off (i64 (off + length)) in
    let! rest := slice data (i64 (off + length)) (glen data) in
    Ret (tagByte, payload, rest, true).

(** [parseTLV] *)
Definition parseTLV (data : bytes) : go tlv :=
  if glen data <? 2 then Ret (no_tlv data)
  else
    let! tagByte := idx data 0 in
    let! lengthByte := idx data 1 in
    if Z.land lengthByte 0x80 =? 0 then take_payload data tagByte 2 lengthByte
    else
      let numBytes := Z.land lengthByte 0x7f in
      if glen data <? 2 + numBytes then Ret (no_tlv data)
      else
        let! length := length_loop (Z.to_nat numBytes) data 2 0 in
        take_payload data tagByte (2 + numBytes) length.

(** The loop of the APDU parsers,
    [for len(rest) > 0 { tag, payload, r, ok := parseTLV(rest);
     if !ok { break }; rest = r; body }].  One unit of fuel per byte is
    enough: [walkTLV_total]. *)
Fixpoint walkTLV {S} (body : S → Z → bytes → go S) (fuel : nat) (rest : bytes) (s : S) : go S :=
  if glen rest >? 0 then
    match fuel with
    | O => Panic
    | Datatypes.S fuel =>
        let! (tag, payload, r, ok) := parseTLV rest in
        if negb ok then Ret s
        else let! s := body s tag payload in walkTLV body fuel r s
    end
  else Ret s.

(** The loop as a big-step relation, without fuel. *)
Inductive walks {S} (body : S → Z → bytes → go S) : bytes → S → go S → Prop :=
| walks_end s : walks body [] s (Ret s)
| walks_crash rest s : rest ≠ [] → parseTLV rest = Panic → walks body rest s Panic
| walks_break rest s tag p r :
    rest ≠ [] → parseTLV rest = Ret (tag, p, r, false) → walks body rest s (Ret s)
| walks_body_crash rest s tag p r :
    rest ≠ [] → parseTLV rest = Ret (tag, p, r, true) → body s tag p = Panic →
    walks body rest s Panic
| walks_next rest s tag p r s' res :
    rest ≠ [] → parseTLV rest = Ret (tag, p, r, true) → body s tag p = Ret s' →
    walks body r s' res → walks body rest s res.

(** ** Abstract view: a sequence of fields *)

Definition field : Type := (Z * bytes)%type.

(** The big-endian number written by a list of octets. *)
Definition be_value (l : bytes) : Z := foldl (fun a b => a * 256 + b) 0 l.

(** The encodings of the fields, one after the other (the [tlvList] loops). *)
Fixpoint fields_bytes (fs : list field) : go bytes :=
  match fs with
  | [] => Ret []
  | (tag, p) :: fs =>
      let! e := encodeTLV tag p in
      let! r := fields_bytes fs in
      Ret (e ++ r)
  end.

(** What a loop body makes of the fields in turn. *)
Fixpoint fields_fold {S} (body : S → Z → bytes → go S) (fs : list field) (s : S) : go S :=
  match fs with
  | [] => Ret s
  | (tag, p) :: fs => let! s := body s tag p in fields_fold body fs s
  end.

(** ** Machine arithmetic *)

Lemma i64_small x : minDuration <= x <= maxInt → i64 x = x.
Proof. unfold minDuration, maxInt, i64. intros. rewrite Z.mod_small; lia. Qed.

Lemma i64_range x : minDuration <= i64 x <= maxInt.
Proof.
  unfold minDuration, maxInt, i64.
  pose proof (Z.mod_pos_bound (x + 9223372036854775808) 18446744073709551616). lia.
Qed.

Lemma land_0xff x : Z.land x 0xff = x mod 256.
Proof. apply (Z.land_ones x 8). lia. Qed.

Lemma land_0x7f x : Z.land x 0x7f = x mod 128.
Proof. apply (Z.land_ones x 7). lia. Qed.

(** The top bit of a byte tells the long form from the short form. *)
Lemma land_0x80 b : is_byte b → (Z.land b 0x80 =? 0) = (b <? 128).
Proof.
  unfold is_byte. intros Hb.
  assert (H : forallb (fun b => Bool.eqb (Z.land b 0x80 =? 0) (b <? 128)) (seqZ 0 256) = true)
    by (vm_compute; reflexivity).
  rewrite forallb_forall in H. apply Bool.eqb_prop, H, list_elem_of_In, elem_of_seqZ. lia.
Qed.

Lemma lor_0x80 n : 0 <= n < 128 → Z.lor 0x80 n = 128 + n.
Proof.
  intros Hn. change (Z.lor 128 n) with (Z.lor (Z.shiftl 1 7) n).
  rewrite lor_shiftl_add; [reflexivity|lia|]. change (2 ^ 7) with 128. lia.
Qed.

Lemma shiftl_lor_8 a b : is_byte b → Z.lor (Z.shiftl a 8) b = a * 256 + b.
Proof. intros. unfold is_byte in *.
  rewrite lor_shiftl_add; [reflexivity|lia|]. change (2 ^ 8) with 256. lia. Qed.

(** ** The length octets *)

Lemma length_length_octets n v : length (length_octets n v) = n.
Proof. induction n; cbn; auto. Qed.

Lemma bytes_ok_length_octets n v : bytes_ok (length_octets n v).
Proof. induction n; constructor; auto using is_byte_u8. Qed.

Lemma be_value_app l k acc :
  foldl (fun a b => a * 256 + b) acc (l ++ k) =
  foldl (fun a b => a * 256 + b) (foldl (fun a b => a * 256 + b) acc l) k.
Proof. apply foldl_app. Qed.

Lemma be_value_acc l acc :
  foldl (fun a b => a * 256 + b) acc l = acc * 256 ^ glen l + be_value l.
Proof.
  unfold be_value. revert acc. induction l as [|b l IH]; intros acc; cbn [foldl].
  - change (256 ^ glen []) with 1. lia.
  - rewrite (IH (acc * 256 + b)), (IH (0 * 256 + b)).
    replace (glen (b :: l)) with (glen l + 1) by len_lia.
    rewrite Z.pow_add_r by (pose proof (glen_nonneg l); lia). lia.
Qed.

Lemma be_value_range l : bytes_ok l → 0 <= be_value l < 256 ^ glen l.
Proof.
  induction 1 as [|b l Hb _ IH]; [change (0 <= 0 < 1); lia|].
  unfold be_value. cbn [foldl]. rewrite be_value_acc.
  replace (glen (b :: l)) with (glen l + 1) by len_lia.
  rewrite Z.pow_add_r by (pose proof (glen_nonneg l); lia).
  unfold is_byte in Hb. nia.
Qed.

Lemma be_value_octets n v : 0 <= v → be_value (length_octets n v) = v mod 256 ^ Z.of_nat n.
Proof.
  intros Hv. unfold be_value. induction n as [|i IH].
  - cbn. by rewrite Z.mod_1_r.
  - cbn [length_octets foldl]. rewrite be_value_acc. unfold be_value. rewrite IH.
    replace (glen (length_octets i v)) with (Z.of_nat i)
      by (unfold glen; by rewrite length_length_octets).
    rewrite land_0xff, Z.shiftr_div_pow2 by lia. unfold u8. rewrite Z.mod_mod by lia.
    replace (2 ^ (8 * Z.of_nat i)) with (256 ^ Z.of_nat i)
      by (rewrite Z.pow_mul_r by lia; reflexivity).
    rewrite Nat2Z.inj_succ, Z.pow_succ_r, (Z.mul_comm 256) by lia.
    rewrite (Z.rem_mul_r v (256 ^ Z.of_nat i) 256) by lia. lia.
Qed.

(** Wrapping once at the end is wrapping in every round. *)
Lemma i64_mul_add x c y : i64 (i64 x * c + y) = i64 (x * c + y).
Proof.
  assert (∃ q, i64 x = x + q * 18446744073709551616) as [q ->].
  { exists (- ((x + 9223372036854775808) / 18446744073709551616)).
    unfold i64. pose proof (Z_div_mod_eq_full (x + 9223372036854775808) 18446744073709551616). lia. }
  unfold i64. f_equal.
  replace ((x + q * 18446744073709551616) * c + y + 9223372036854775808)
    with (x * c + y + 9223372036854775808 + q * c * 18446744073709551616) by lia.
  by rewrite Z.mod_add.
Qed.

Lemma lor_i64_shiftl a b : is_byte b → Z.lor (i64 (Z.shiftl a 8)) b = i64 (a * 256 + b).
Proof.
  unfold is_byte. intros Hb. rewrite Z.shiftl_mul_pow2 by lia. change (2 ^ 8) with 256.
  assert (∃ q, i64 (a * 256) = q * 256) as [q Hq].
  { unfold i64. exists ((a * 256 + 9223372036854775808) mod 18446744073709551616 / 256 - 36028797018963968).
    zlia. }
  rewrite Hq. replace (q * 256) with (Z.shiftl q 8) by (rewrite Z.shiftl_mul_pow2; lia).
  rewrite shiftl_lor_8 by done.
  unfold i64 in *. zlia.
Qed.

Lemma length_loop_ok k data pos acc :
  bytes_ok data → 0 <= pos → pos + Z.of_nat k <= glen data → i64 acc = acc →
  length_loop k data pos acc =
  Ret (i64 (acc * 256 ^ Z.of_nat k + be_value (sub data pos (pos + Z.of_nat k)))).
Proof.
  intros Hd. revert pos acc. induction k as [|k IH]; intros pos acc Hp Hlen Hacc.
  - cbn [length_loop]. unfold sub. replace (pos + Z.of_nat 0 - pos) with 0 by lia.
    change (be_value (take (Z.to_nat 0) _)) with 0. cbn [Z.of_nat Z.pow].
    by rewrite Z.mul_1_r, Z.add_0_r, Hacc.
  - cbn [length_loop]. rewrite idx_ok by lia. cbn [go_bind].
    rewrite lor_i64_shiftl by auto with go_db.
    rewrite IH by (try lia; apply i64_small, i64_range). f_equal.
    rewrite i64_mul_add. f_equal.
    assert (Hs : sub data pos (pos + Z.of_nat (S k)) =
      data !!! Z.to_nat pos :: sub data (pos + 1) (pos + 1 + Z.of_nat k)).
    { unfold sub. rewrite (drop_S _ (data !!! Z.to_nat pos));
        [|apply list_lookup_lookup_total_lt; len_lia].
      replace (Z.to_nat (pos + Z.of_nat (S k) - pos)) with (S k) by lia.
      cbn [take]. do 2 f_equal; [lia|]. f_equal. lia. }
    rewrite Hs. unfold be_value at 2. cbn [foldl]. rewrite be_value_acc.
    rewrite glen_sub by lia. replace (pos + 1 + Z.of_nat k - (pos + 1)) with (Z.of_nat k) by lia.
    rewrite Nat2Z.inj_succ, Z.pow_succ_r by lia. lia.
Qed.

(** ** The reader, case by case *)

(** Offset of the payload and announced length, from the length octets. *)
Definition header_off (data : bytes) : Z :=
  let b := data !!! 1%nat in if b <? 128 then 2 else 2 + b mod 128.
Definition header_len (data : bytes) : Z :=
  let b := data !!! 1%nat in
  if b <? 128 then b else i64 (be_value (sub data 2 (2 + b mod 128))).

(** The length octets are all there. *)
Definition header_ok (data : bytes) : Prop := 2 <= glen data ∧ header_off data <= glen data.

Lemma header_off_range data : bytes_ok data → 2 <= header_off data <= 129.
Proof.
  intros Hd. pose proof (bytes_ok_total data 1 Hd) as Hb. unfold is_byte in Hb.
  unfold header_off. case_match; zb; zlia.
Qed.

Lemma parseTLV_eq data :
  bytes_ok data → header_ok data →
  parseTLV data = take_payload data (data !!! 0%nat) (header_off data) (header_len data).
Proof.
  intros Hd [H2 Ho]. unfold parseTLV. guard_false (glen data <? 2).
  rewrite !idx_ok by lia. cbn [go_bind].
  change (Z.to_nat 0) with 0%nat. change (Z.to_nat 1) with 1%nat.
  pose proof (bytes_ok_total data 1 Hd) as Hb. rewrite land_0x80 by done.
  unfold header_off, header_len in *. case_match; zb; [done|].
  rewrite land_0x7f. unfold is_byte in Hb.
  guard_false (glen data <? 2 + (data !!! 1%nat) mod 128).
  pose proof (Z.mod_pos_bound (data !!! 1%nat) 128).
  rewrite length_loop_ok by (try done; lia). cbn [go_bind].
  rewrite Z.mul_0_l, Z.add_0_l. by rewrite Z2Nat.id by lia.
Qed.

Lemma parseTLV_short data :
  bytes_ok data → ¬ header_ok data → parseTLV data = Ret (no_tlv data).
Proof.
  intros Hd Hh. unfold header_ok in Hh. unfold parseTLV.
  destruct (Z.ltb_spec (glen data) 2); [done|].
  rewrite !idx_ok by lia. cbn [go_bind].
  change (Z.to_nat 0) with 0%nat. change (Z.to_nat 1) with 1%nat.
  pose proof (bytes_ok_total data 1 Hd) as Hb. rewrite land_0x80 by done.
  unfold header_off in Hh. case_match; zb; [lia|].
  rewrite land_0x7f. by guard_true (glen data <? 2 + (data !!! 1%nat) mod 128).
Qed.

(** A negative announced length, or one that overflows, passes the guard on
    the end of the payload and makes the slice expression panic. *)
Lemma bad_length_panics (data back : bytes) off l :
  0 <= off → off <= glen data <= maxInt → minDuration <= l <= maxInt →
  l < 0 ∨ maxInt < off + l →
  (glen data <? i64 (off + l)) = false ∧ slice back off (i64 (off + l)) = Panic.
Proof.
  intros Ho Hm Hl Hbad. assert (i64 (off + l) < off) as Hlt.
  { destruct Hbad; [rewrite i64_small; unfold minDuration, maxInt in *; lia|].
    unfold i64, maxInt, minDuration in *. zlia. }
  set (e := i64 (off + l)) in *. split; [lia|]. unfold slice.
  by guard_false ((0 <=? off) && (off <=? e) && (e <=? glen back)).
Qed.

Lemma take_payload_eq data tag off l :
  0 <= off <= glen data → glen data <= maxInt → minDuration <= l <= maxInt →
  take_payload data tag off l =
  if (l <? 0) || (maxInt <? off + l) then Panic
  else if glen data <? off + l then Ret (no_tlv data)
  else Ret (tag, sub data off (off + l), sub data (off + l) (glen data), true).
Proof.
  intros Ho Hm Hl. unfold take_payload.
  destruct ((l <? 0) || (maxInt <? off + l)) eqn:E.
  - apply orb_true_iff in E. destruct (bad_length_panics data data off l) as [-> ->];
      [lia..|done].
  - zb. rewrite i64_small by (unfold minDuration; lia).
    destruct (Z.ltb_spec (glen data) (off + l)); [done|].
    rewrite slice_ok by lia. cbn [go_bind]. by rewrite slice_ok by lia.
Qed.

Lemma header_len_range data : bytes_ok data → minDuration <= header_len data <= maxInt.
Proof.
  intros Hd. pose proof (bytes_ok_total data 1 Hd) as Hb. unfold header_len.
  case_match; [unfold is_byte, minDuration, maxInt in *; lia|apply i64_range].
Qed.

Lemma header_ok_dec data : {header_ok data} + {¬ header_ok data}.
Proof. unfold header_ok. destruct (decide (2 <= glen data ∧ header_off data <= glen data)); tauto. Qed.

(** The reader in all its cases. *)
Lemma parseTLV_cases data :
  bytes_ok data → glen data <= maxInt →
  parseTLV data =
  if header_ok_dec data then
    let off := header_off data in
    let l := header_len data in
    if (l <? 0) || (maxInt <? off + l) then Panic
    else if glen data <? off + l then Ret (no_tlv data)
    else Ret (data !!! 0%nat, sub data off (off + l), sub data (off + l) (glen data), true)
  else Ret (no_tlv data).
Proof.
  intros Hd Hm. destruct (header_ok_dec data) as [Hh|Hh]; [|by apply parseTLV_short].
  pose proof (header_off_range data Hd). pose proof (header_len_range data Hd).
  destruct Hh as [H2 Hh]. rewrite parseTLV_eq by done.
  by rewrite take_payload_eq by lia.
Qed.

(** A successful read takes at least the tag and one length octet. *)
Lemma parseTLV_consumes data tag p r :
  bytes_ok data → glen data <= maxInt → parseTLV data = Ret (tag, p, r, true) →
  glen p + glen r + 2 <= glen data ∧ bytes_ok p ∧ bytes_ok r.
Proof.
  intros Hd Hm. rewrite parseTLV_cases by done.
  pose proof (header_off_range data Hd).
  destruct (header_ok_dec data) as [[H2 Ho]|]; [|discriminate]. cbn zeta.
  destruct ((header_len data <? 0) || (maxInt <? header_off data + header_len data)) eqn:E;
    [discriminate|]. zb.
  destruct (glen data <? _) eqn:E'; [discriminate|]. zb.
  intros [= <- <- <-]. rewrite !glen_sub by lia. split; [lia|]. auto with go_db.
Qed.

(** ** The walk *)

Lemma walkTLV_nil {S} (body : S → Z → bytes → go S) fuel s : walkTLV body fuel [] s = Ret s.
Proof. by destruct fuel. Qed.

Lemma walkTLV_walks {S} (body : S → Z → bytes → go S) fuel rest s :
  bytes_ok rest → glen rest <= maxInt → glen rest <= Z.of_nat fuel →
  walks body rest s (walkTLV body fuel rest s).
Proof.
  revert rest s. induction fuel as [|fuel IH]; intros rest s Hb Hm Hf.
  - destruct rest; [constructor|len_lia].
  - destruct (decide (rest = [])) as [->|Hne]; [constructor|].
    cbn [walkTLV]. assert (0 < glen rest) by (destruct rest; [done|len_lia]).
    guard_true (glen rest >? 0).
    destruct (parseTLV rest) as [[[[tag p] r] ok]|] eqn:E; cbn [go_bind];
      [|by apply walks_crash].
    destruct ok; cbn [negb]; [|by eapply walks_break].
    destruct (body s tag p) as [s'|] eqn:Eb; cbn [go_bind];
      [|by eapply walks_body_crash].
    apply parseTLV_consumes in E as H'; [|done..]. destruct H' as (Hl & Hp & Hr).
    pose proof (glen_nonneg p).
    eapply walks_next; [done..|]. apply IH; [done|lia..].
Qed.

Lemma walks_det {S} (body : S → Z → bytes → go S) rest s r1 r2 :
  walks body rest s r1 → walks body rest s r2 → r1 = r2.
Proof.
  intros H1. revert r2.
  induction H1; inversion 1; subst; try done; try congruence.
  match goal with IH : ∀ r2, walks _ _ _ r2 → _ |- _ => apply IH end. congruence.
Qed.

(** C37: the loop that walks a sequence of TLVs terminates: on every byte
    string, one unit of fuel per byte gives the result of the loop as written
    (the relation [walks]), and no other result is possible. *)
Theorem walkTLV_total {S} (body : S → Z → bytes → go S) (rest : bytes) (s : S) (fuel : nat) :
  bytes_ok rest → glen rest <= maxInt → (length rest <= fuel)%nat →
  ∀ r, walks body rest s r ↔ walkTLV body fuel rest s = r.
Proof.
  intros Hb Hm Hf r.
  assert (Hw : walks body rest s (walkTLV body fuel rest s)).
  { apply walkTLV_walks; [done..|]. unfold glen. lia. }
  split; [|by intros <-]. by intros Hr; eapply walks_det.
Qed.

(** [parseTLV] panics exactly when the long-form length octets are all
    present and announce, read as a 64-bit two's complement [int], a negative
    length or one whose end overflows; so never with fewer than eight length
    octets. *)
Theorem parseTLV_panics_iff data :
  bytes_ok data → glen data <= maxInt →
  (parseTLV data = Panic ↔
   header_ok data ∧ (header_len data < 0 ∨ maxInt < header_off data + header_len data)) ∧
  (parseTLV data = Panic → 0x88 <= data !!! 1%nat).
Proof.
  intros Hd Hm.
  assert (Hiff : parseTLV data = Panic ↔
    header_ok data ∧ (header_len data < 0 ∨ maxInt < header_off data + header_len data)).
  { rewrite parseTLV_cases by done. destruct (header_ok_dec data) as [Hh|Hh]; cbn zeta.
    - destruct (Z.ltb_spec (header_len data) 0); cbn [orb]; [tauto|].
      destruct (Z.ltb_spec maxInt (header_off data + header_len data)); [tauto|].
      destruct (glen data <? _); split; first [discriminate|lia].
    - split; [discriminate|tauto]. }
  split; [done|]. intros [Hh Hneg]%Hiff.
  pose proof (bytes_ok_total data 1 Hd) as Hb.
  destruct (Z.le_gt_cases 0x88 (data !!! 1%nat)) as [|Hlt]; [done|exfalso].
  clear Hiff. unfold header_ok, header_len, header_off, is_byte in *. revert Hh Hneg.
  destruct (Z.ltb_spec (data !!! 1%nat) 128); intros Hh Hneg; [unfold maxInt in *; lia|].
  set (l := sub data 2 (2 + (data !!! 1%nat) mod 128)) in *.
  assert (Hl : 0 <= glen l <= 7).
  { unfold l. rewrite glen_sub; zlia. }
  pose proof (be_value_range l ltac:(unfold l; auto with go_db)) as Hv.
  assert (256 ^ glen l <= 256 ^ 7) by (apply Z.pow_le_mono_r; lia).
  change (256 ^ 7) with 72057594037927936 in *.
  rewrite (i64_small (be_value l)) in Hneg by (unfold minDuration, maxInt; lia).
  pose proof (Z.mod_pos_bound (data !!! 1%nat) 128). unfold maxInt in Hneg. lia.
Qed.

(** ** The encoder *)

Lemma lenBytes_loop_le fuel v : (lenBytes_loop fuel v <= fuel)%nat.
Proof. revert v. induction fuel as [|fuel IH]; intros v; cbn; [lia|]. case_match; [specialize (IH (Z.shiftr v 8))|]; lia. Qed.

Lemma lenBytes_loop_bound fuel v :
  0 <= v < 256 ^ Z.of_nat fuel → v < 256 ^ Z.of_nat (lenBytes_loop fuel v).
Proof.
  revert v. induction fuel as [|fuel IH]; intros v Hv; [cbn in *; lia|].
  cbn [lenBytes_loop]. destruct (Z.gtb_spec v 0); [|change (256 ^ Z.of_nat 0) with 1; lia].
  rewrite Nat2Z.inj_succ, Z.pow_succ_r in * by lia. rewrite shiftr_8.
  specialize (IH (v / 256)). assert (v / 256 < 256 ^ Z.of_nat (lenBytes_loop fuel (v / 256)));
    [apply IH; zlia|]. zlia.
Qed.

(** The octets of a length, read back. *)
Lemma encodeLength_ok n :
  0 <= n <= maxInt →
  ∃ l, encodeLength n = Ret l ∧ bytes_ok l ∧ 1 <= glen l <= 9 ∧
    ∀ tag t, header_off ([tag] ++ l ++ t) = 1 + glen l ∧ header_len ([tag] ++ l ++ t) = n.
Proof.
  intros Hn. unfold encodeLength. guard_false (n <? 0).
  destruct (Z.ltb_spec n 128) as [Hs|Hs].
  { exists [u8 n]. unfold u8. rewrite Z.mod_small by lia. split_and!; [done| |len_lia..|].
    - apply Forall_cons_2; [unfold is_byte; lia|constructor].
    - intros tag t. unfold header_off, header_len. cbn. by guard_true (n <? 128). }
  assert (Hu : u64 n = n) by (unfold u64, maxInt in *; apply Z.mod_small; lia). rewrite Hu.
  set (k := lenBytes_loop 8 n).
  assert (Hk : (k <= 8)%nat) by apply lenBytes_loop_le.
  assert (Hv : n < 256 ^ Z.of_nat k).
  { apply lenBytes_loop_bound. unfold maxInt in Hn. change (256 ^ Z.of_nat 8) with 18446744073709551616. lia. }
  assert (Hb : u8 (Z.lor 128 (Z.of_nat k)) = 128 + Z.of_nat k).
  { rewrite lor_0x80 by lia. unfold u8. apply Z.mod_small. lia. }
  exists (u8 (Z.lor 128 (Z.of_nat k)) :: length_octets k n). rewrite Hb.
  assert (Hg : glen (length_octets k n) = Z.of_nat k) by (unfold glen; by rewrite length_length_octets).
  split_and!; [done| |len_simpl; rewrite ?length_length_octets; lia..|].
  { apply Forall_cons_2; [unfold is_byte; lia|apply bytes_ok_length_octets]. }
  intros tag t. unfold header_off, header_len.
  change (([tag] ++ (128 + Z.of_nat k :: length_octets k n) ++ t) !!! 1%nat) with (128 + Z.of_nat k).
  guard_false (128 + Z.of_nat k <? 128).
  replace ((128 + Z.of_nat k) mod 128) with (Z.of_nat k) by zlia.
  change ([tag] ++ (128 + Z.of_nat k :: length_octets k n) ++ t)
    with ([tag; 128 + Z.of_nat k] ++ length_octets k n ++ t).
  split; [len_simpl; rewrite length_length_octets; lia|].
  assert (Hsub : sub ([tag; 128 + Z.of_nat k] ++ length_octets k n ++ t) 2 (2 + Z.of_nat k) =
                 length_octets k n).
  { unfold sub. change (drop (Z.to_nat 2) _) with (length_octets k n ++ t).
    replace (2 + Z.of_nat k - 2) with (glen (length_octets k n)) by lia.
    change (drop (Z.to_nat 0) (length_octets k n ++ t)) with (length_octets k n ++ t).
    apply take_app_length'. unfold glen. lia. }
  rewrite Hsub, be_value_octets, Z.mod_small by lia. apply i64_small. unfold minDuration. lia.
Qed.

(** What the encoder produces. *)
Lemma encodeTLV_ok tag p :
  glen p <= maxInt →
  ∃ l, encodeTLV tag p = Ret ([tag] ++ l ++ p) ∧ bytes_ok l ∧ 1 <= glen l <= 9 ∧
    ∀ t, header_off ([tag] ++ l ++ t) = 1 + glen l ∧ header_len ([tag] ++ l ++ t) = glen p.
Proof.
  intros Hp. pose proof (glen_nonneg p).
  destruct (encodeLength_ok (glen p)) as (l & He & Hl & Hg & Hh); [lia|].
  exists l. unfold encodeTLV. rewrite He. cbn [go_bind]. rewrite <-app_assoc. auto.
Qed.

Lemma parse_encodeTLV tag p rest e :
  encodeTLV tag p = Ret e → is_byte tag → bytes_ok p → bytes_ok rest →
  glen (e ++ rest) <= maxInt → parseTLV (e ++ rest) = Ret (tag, p, rest, true).
Proof.
  intros He Ht Hp Hr Hm. pose proof (glen_nonneg e). pose proof (glen_nonneg rest).
  assert (Hgp : glen p <= maxInt).
  { revert He. unfold encodeTLV. destruct (encodeLength _); cbn [go_bind]; [|discriminate].
    intros [= <-]. len_lia. }
  destruct (encodeTLV_ok tag p Hgp) as (l & He' & Hl & Hg & Hh).
  assert (e = [tag] ++ l ++ p) as -> by congruence.
  replace (([tag] ++ l ++ p) ++ rest) with ([tag] ++ l ++ p ++ rest) in * by by rewrite <-!app_assoc.
  destruct (Hh (p ++ rest)) as [Ho Hn].
  pose proof (glen_nonneg p). set (d := [tag] ++ l ++ p ++ rest) in *.
  assert (Hgd : glen d = 1 + glen l + glen p + glen rest) by (unfold d; rewrite !glen_app; len_lia).
  assert (Hd : bytes_ok d).
  { unfold d. apply bytes_ok_app; split; [by apply Forall_cons_2|]. rewrite !bytes_ok_app. tauto. }
  rewrite parseTLV_cases by (done || lia).
  destruct (header_ok_dec d) as [|Hno]; [|exfalso; apply Hno; split; lia].
  rewrite Ho, Hn. cbn zeta. guard_false (glen p <? 0). guard_false (maxInt <? 1 + glen l + glen p).
  cbn [orb]. guard_false (glen d <? 1 + glen l + glen p). change (d !!! 0%nat) with tag.
  assert (Hd1 : d = ([tag] ++ l) ++ p ++ rest) by (unfold d; by rewrite <-app_assoc).
  assert (Hd2 : d = ([tag] ++ l ++ p) ++ rest) by (unfold d; by rewrite <-!app_assoc).
  assert (sub d (1 + glen l) (1 + glen l + glen p) = p) as ->.
  { rewrite Hd1. unfold sub. rewrite drop_app_length' by len_lia. apply take_app_length'. len_lia. }
  assert (sub d (1 + glen l + glen p) (glen d) = rest) as ->; [|done].
  rewrite Hgd, Hd2. apply sub_app_r; rewrite ?glen_app; len_lia.
Qed.

(** Reading back an encoded TLV returns its tag and exactly its payload,
    and leaves the bytes after it, for every payload length an [int] holds
    (short and long form); and encoding never panics. *)
Theorem tlv_roundtrip tag p rest :
  is_byte tag → bytes_ok p → bytes_ok rest → glen p + glen rest + 10 <= maxInt →
  ∃ e, encodeTLV tag p = Ret e ∧ glen p + 2 <= glen e <= glen p + 10 ∧
    parseTLV (e ++ rest) = Ret (tag, p, rest, true).
Proof.
  intros Ht Hp Hr Hm. pose proof (glen_nonneg p). pose proof (glen_nonneg rest).
  destruct (encodeTLV_ok tag p) as (l & He & Hl & Hg & _); [lia|].
  exists ([tag] ++ l ++ p). split_and!; [done|rewrite !glen_app; len_lia..|].
  eapply parse_encodeTLV; try done. rewrite !glen_app. len_lia.
Qed.

(** ** Sequences of fields *)

Definition field_ok (f : field) : Prop := is_byte (f.1) ∧ bytes_ok (f.2).

(** A bound on the encoding of a field list. *)
Definition fields_size (fs : list field) : Z := foldr (fun f n => glen f.2 + 10 + n) 0 fs.

Lemma fields_size_cons t p fs : fields_size ((t, p) :: fs) = glen p + 10 + fields_size fs.
Proof. reflexivity. Qed.

Lemma fields_size_nonneg fs : 0 <= fields_size fs.
Proof.
  induction fs as [|[t p] fs IH]; [done|]. rewrite fields_size_cons.
  pose proof (glen_nonneg p). lia.
Qed.

Lemma fields_bytes_ok fs :
  Forall field_ok fs → fields_size fs <= maxInt →
  ∃ e, fields_bytes fs = Ret e ∧ bytes_ok e ∧ glen e <= fields_size fs.
Proof.
  induction 1 as [|[t p] fs [Ht Hp] _ IH]; cbn [fields_bytes]; intros Hs.
  { exists []. split_and!; [done|constructor|done]. }
  rewrite fields_size_cons in Hs. cbn [fst snd] in *.
  pose proof (fields_size_nonneg fs). pose proof (glen_nonneg p).
  destruct IH as (r & -> & Hr & Hl); [lia|].
  destruct (encodeTLV_ok t p) as (l & -> & Hlb & Hlg & _); [lia|]. cbn [go_bind].
  eexists. split_and!; [done| |].
  - rewrite !bytes_ok_app. split_and!; [by apply Forall_cons_2|done..].
  - rewrite fields_size_cons. rewrite !glen_app. len_lia.
Qed.

(** The walk over encoded fields visits exactly the fields, in order. *)
Lemma walk_fields {S} (body : S → Z → bytes → go S) fs e s fuel :
  Forall field_ok fs → fields_size fs <= maxInt → fields_bytes fs = Ret e →
  glen e <= Z.of_nat fuel → walkTLV body fuel e s = fields_fold body fs s.
Proof.
  intros Hfs. revert e s fuel. induction Hfs as [|[t p] fs [Ht Hp] Hfs IH]; intros e s fuel Hs.
  { intros [= <-] _. apply walkTLV_nil. }
  rewrite fields_size_cons in Hs. cbn [fields_bytes fields_fold fst snd] in *.
  pose proof (fields_size_nonneg fs). pose proof (glen_nonneg p).
  destruct (fields_bytes_ok fs) as (r & Er & Hr & Hl); [done|lia|]. rewrite Er.
  destruct (encodeTLV_ok t p) as (l & El & Hlb & Hlg & _); [lia|]. rewrite El. cbn [go_bind].
  intros [= <-] Hf. set (h := [t] ++ l ++ p) in *.
  change (t :: (l ++ p) ++ r) with (h ++ r) in *.
  assert (Hh : glen h = 1 + glen l + glen p) by (unfold h; rewrite !glen_app; len_lia).
  rewrite glen_app in Hf. pose proof (glen_nonneg r).
  destruct fuel as [|fuel]; [lia|]. cbn [walkTLV]. rewrite glen_app.
  guard_true (glen h + glen r >? 0).
  rewrite (parse_encodeTLV t p r h) by (try done; rewrite glen_app; lia). cbn [go_bind negb].
  destruct (body s t p) as [s'|]; cbn [go_bind]; [|done]. apply IH; [lia|done|lia].
Qed.

(** ** Concrete inputs *)

(** A length announced with eight octets, the top bit set: negative. *)
Example parseTLV_negative_length :
  parseTLV [0x85; 0x88; 0xff; 0xff; 0xff; 0xff; 0xff; 0xff; 0xff; 0xff] = Panic.
Proof. vm_compute. reflexivity. Qed.

Example encode_300 : encodeLength 300 = Ret [0x82; 0x01; 0x2c].
Proof. reflexivity. Qed.

Lemma tlv_roundtrip_witness :
  ∃ e, encodeTLV 0x85 [1; 2] = Ret e ∧ glen [1; 2] + 2 <= glen e <= glen [1; 2] + 10 ∧
    parseTLV (e ++ [7]) = Ret (0x85, [1; 2], [7], true).
Proof.
  apply (tlv_roundtrip 0x85 [1; 2] [7]).
  - unfold is_byte. lia.
  - repeat (apply Forall_cons_2; [unfold is_byte; lia|]). constructor.
  - repeat (apply Forall_cons_2; [unfold is_byte; lia|]). constructor.
  - vm_compute. discriminate.
Defined.

Lemma parseTLV_panics_iff_witness :
  let data := [0x85; 0x88; 0xff; 0xff; 0xff; 0xff; 0xff; 0xff; 0xff; 0xff] in
  (parseTLV data = Panic ↔
   header_ok data ∧ (header_len data < 0 ∨ maxInt < header_off data + header_len data)) ∧
  (parseTLV data = Panic → 0x88 <= data !!! 1%nat).
Proof.
  apply parseTLV_panics_iff.
  - repeat (apply Forall_cons_2; [unfold is_byte; lia|]). constructor.
  - vm_compute. discriminate.
Defined.

Lemma walkTLV_total_witness :
  walks (fun n _ p => Ret (n + glen p)) [0x80; 1; 9; 0x81; 2; 8; 8] 0 (Ret 3).
Proof.
  apply (walkTLV_total (fun n _ p => Ret (n + glen p)) [0x80; 1; 9; 0x81; 2; 8; 8] 0 7).
  - repeat (apply Forall_cons_2; [unfold is_byte; lia|]). constructor.
  - vm_compute. discriminate.
  - cbn. lia.
  - vm_compute. reflexivity.
Defined.
