(* ===== verification/Iec.v ===== *)
(** * Iec: the IEC 61850 time stamp and the GOOSE and SV APDUs

    Models [src/internal/iec/utc.go], [goose.go] and [sv.go].  An instant
    ([time.Time]) is a number of nanoseconds since the Unix epoch: [Unix()] is
    its floor in seconds and [Nanosecond()] the remainder.  [ParseSVAPDU]
    slices its argument without a guard, and Go lets a slice expression reach
    up to the capacity: it is modelled on the slice's whole backing array and
    its length. *)

From S2P Require Import Prelude Ber.

(** ** UtcTime ([utc.go]) *)

Definition second : Z := 1000000000.

(** [time.Time{}]: 1 January of year 1 *)
Definition zeroTime : Z := -62135596800 * second.

(** [EncodeUtcTime] *)
Definition EncodeUtcTime (t : Z) : bytes :=
  let epoch := t / second in
  let fracVal := u32 (u64 (t mod second * Z.shiftl 1 24) / 1000000000) in
  [u8 (Z.shiftr epoch 24); u8 (Z.land (Z.shiftr epoch 16) 0xff);
   u8 (Z.land (Z.shiftr epoch 8) 0xff); u8 (Z.land epoch 0xff);
   u8 (Z.land (Z.shiftr fracVal 16) 0xff); u8 (Z.land (Z.shiftr fracVal 8) 0xff);
   u8 (Z.land fracVal 0xff); 0x80].

(** [DecodeUtcTime] *)
Definition DecodeUtcTime (b : bytes) : Z :=
  if negb (glen b =? 8) then zeroTime
  else
    let epoch := Z.lor (Z.lor (Z.lor (Z.shiftl (b !!! 0%nat) 24) (Z.shiftl (b !!! 1%nat) 16))
                              (Z.shiftl (b !!! 2%nat) 8)) (b !!! 3%nat) in
    let fracVal := Z.lor (Z.lor (Z.shiftl (b !!! 4%nat) 16) (Z.shiftl (b !!! 5%nat) 8)) (b !!! 6%nat) in
    let ns := Z.quot (i64 (fracVal * 1000000000)) (Z.shiftl 1 24) in
    epoch * second + ns.

(** ** GOOSE ([goose.go]) *)

(** The fields of a GOOSE PDU, in the order of [BuildGOOSEAPDU]. *)
Definition goose_fields (stNum sqNum t : Z) (test : bool) (confRev : Z)
    (gcbRef datSet goID : string) : list field :=
  [(0x80, StringBytes gcbRef); (0x81, Integer16 2000); (0x82, StringBytes datSet);
   (0x83, StringBytes goID); (0x84, EncodeUtcTime t); (0x85, Integer16 stNum);
   (0x86, Integer16 sqNum); (0x87, Boolean test); (0x88, Integer16 confRev);
   (0x89, Boolean false); (0x8a, [0x01]); (0xab, Boolean test)].

(** The [return] of both builders: PDU tag, length, fields. *)
Definition apdu_of (tag : Z) (payload : bytes) : go bytes :=
  let! l := encodeLength (glen payload) in
  Ret ([tag] ++ l ++ payload).

(** [BuildGOOSEAPDU] *)
Definition BuildGOOSEAPDU (stNum sqNum t : Z) (test : bool) (confRev : Z)
    (gcbRef datSet goID : string) : go bytes :=
  let! payload := fields_bytes (goose_fields stNum sqNum t test confRev gcbRef datSet goID) in
  apdu_of 0x61 payload.

(** The results and the local flags of [ParseGOOSEAPDU]. *)
Record goose_acc := {
  g_stNum : Z; g_sqNum : Z; g_t : Z; g_allData : bool;
  g_stNumSet : bool; g_sqNumSet : bool; g_allDataSet : bool }.

Definition goose_start : goose_acc := {|
  g_stNum := 0; g_sqNum := 0; g_t := zeroTime; g_allData := false;
  g_stNumSet := false; g_sqNumSet := false; g_allDataSet := false |}.

(** The [switch tag] of the walk. *)
Definition goose_body (s : goose_acc) (tag : Z) (payload : bytes) : goose_acc :=
  let '{| g_stNum := st; g_sqNum := sq; g_t := t; g_allData := a;
          g_stNumSet := st'; g_sqNumSet := sq'; g_allDataSet := a' |} := s in
  if tag =? 0x85 then
    if glen payload =? 2 then {|
      g_stNum := w16 payload 0; g_sqNum := sq; g_t := t; g_allData := a;
      g_stNumSet := true; g_sqNumSet := sq'; g_allDataSet := a' |} else s
  else if tag =? 0x86 then
    if glen payload =? 2 then {|
      g_stNum := st; g_sqNum := w16 payload 0; g_t := t; g_allData := a;
      g_stNumSet := st'; g_sqNumSet := true; g_allDataSet := a' |} else s
  else if tag =? 0x84 then
    if glen payload =? 8 then {|
      g_stNum := st; g_sqNum := sq; g_t := DecodeUtcTime payload; g_allData := a;
      g_stNumSet := st'; g_sqNumSet := sq'; g_allDataSet := a' |} else s
  else if tag =? 0xab then
    if (glen payload =? 3) && (payload !!! 0%nat =? 1) && (payload !!! 1%nat =? 1) then {|
      g_stNum := st; g_sqNum := sq; g_t := t; g_allData := negb (payload !!! 2%nat =? 0);
      g_stNumSet := st'; g_sqNumSet := sq'; g_allDataSet := true |} else s
  else s.

(** Offset and length of the PDU body: the same code in both parsers, with no
    guard on the number of length octets. *)
Definition apdu_header (apdu : bytes) : go (Z * Z) :=
  let! lengthByte := idx apdu 1 in
  if Z.land lengthByte 0x80 =? 0 then Ret (2, lengthByte)
  else
    let numBytes := Z.land lengthByte 0x7f in
    let! length := length_loop (Z.to_nat numBytes) apdu 2 0 in
    Ret (2 + numBytes, length).

(** [ParseGOOSEAPDU]: stNum, sqNum, t, allData, ok *)
Definition ParseGOOSEAPDU (apdu : bytes) : go (Z * Z * Z * bool * bool) :=
  if (glen apdu <? 2) || negb (apdu !!! 0%nat =? 0x61) then Ret (0, 0, zeroTime, false, false)
  else
    let! (off, length) := apdu_header apdu in
    if glen apdu <? i64 (off + length) then Ret (0, 0, zeroTime, false, false)
    else
      let! data := slice apdu off (i64 (off + length)) in
      let! s := walkTLV (fun s tag p => Ret (goose_body s tag p)) (List.length data) data goose_start in
      Ret (g_stNum s, g_sqNum s, g_t s, g_allData s,
           g_stNumSet s && g_sqNumSet s && g_allDataSet s).

(** ** Sampled Values ([sv.go]) *)

Definition asdu_fields (smpCnt confRev : Z) (svID : string) : list field :=
  [(0x80, StringBytes svID); (0x81, Integer16 smpCnt); (0x82, Integer16 confRev);
   (0x83, [0x00]); (0x84, Integer16 4800); (0x85, Integer16 0)].

(** [BuildSVAPDU] *)
Definition BuildSVAPDU (smpCnt confRev : Z) (svID : string) : go bytes :=
  let! asduPayload := fields_bytes (asdu_fields smpCnt confRev svID) in
  let! payload := fields_bytes [(0x80, [0x01; 0x01; 0x01]); (0x81, [0x00; 0x00]); (0xa2, asduPayload)] in
  apdu_of 0x60 payload.

(** The variables [smpCnt] and [smpCntSet] of [ParseSVAPDU]. *)
Definition sv_acc : Type := (Z * bool)%type.

(** The body of the loop over the ASDU. *)
Definition asdu_body (s : sv_acc) (t : Z) (pl : bytes) : sv_acc :=
  if (t =? 0x81) && (glen pl =? 2) then (w16 pl 0, true) else s.

(** The [switch tag] of the outer loop. *)
Definition sv_body (s : sv_acc) (tag : Z) (payload : bytes) : go sv_acc :=
  if tag =? 0x81 then
    Ret (if glen payload =? 2 then (w16 payload 0, true) else s)
  else if tag =? 0xa2 then
    walkTLV (fun s t pl => Ret (asdu_body s t pl)) (length payload) payload s
  else Ret s.

(** [ParseSVAPDU(apdu)]: smpCnt, ok.  [back] is the backing array of [apdu]
    from its first element to its capacity, [n] is [len(apdu)]. *)
Definition ParseSVAPDU (back : bytes) (n : Z) : go sv_acc :=
  let apdu := sub back 0 n in
  if (glen apdu <? 2) || negb (apdu !!! 0%nat =? 0x60) then Ret (0, false)
  else
    let! (off, length) := apdu_header apdu in
    let! data := slice back off (i64 (off + length)) in
    walkTLV sv_body (List.length data) data (0, false).

(** [SVState] *)
Definition SVState (smpCnt : Z) : Z := u16 (smpCnt + 1) mod 4096.

(** ** Lemmas: time *)

(** The three bytes of the fraction and the four of the epoch, read back. *)
Lemma lor_bytes3 a b c :
  is_byte a → is_byte b → is_byte c →
  Z.lor (Z.lor (Z.shiftl a 16) (Z.shiftl b 8)) c = a * 65536 + b * 256 + c.
Proof.
  intros Ha Hb Hc. unfold is_byte in *.
  replace (Z.lor (Z.shiftl a 16) (Z.shiftl b 8)) with (Z.shiftl (a * 256 + b) 8).
  - rewrite shiftl_lor_8 by (unfold is_byte; lia). lia.
  - rewrite <-shiftl_lor_8 by (unfold is_byte; lia).
    by rewrite Z.shiftl_lor, Z.shiftl_shiftl by lia.
Qed.

Lemma lor_bytes4 a b c d :
  is_byte a → is_byte b → is_byte c → is_byte d →
  Z.lor (Z.lor (Z.lor (Z.shiftl a 24) (Z.shiftl b 16)) (Z.shiftl c 8)) d =
  a * 16777216 + b * 65536 + c * 256 + d.
Proof.
  intros Ha Hb Hc Hd.
  replace (Z.lor (Z.lor (Z.shiftl a 24) (Z.shiftl b 16)) (Z.shiftl c 8))
    with (Z.shiftl (a * 65536 + b * 256 + c) 8).
  - rewrite shiftl_lor_8 by done. lia.
  - rewrite <-lor_bytes3 by done. by rewrite !Z.shiftl_lor, !Z.shiftl_shiftl by lia.
Qed.

(** The fraction kept on the wire and the nanoseconds it stands for. *)
Definition frac (ns : Z) : Z := ns * 16777216 / 1000000000.
Definition frac_ns (f : Z) : Z := f * 1000000000 / 16777216.

Lemma frac_ns_error ns : 0 <= ns < second → frac_ns (frac ns) <= ns <= frac_ns (frac ns) + 60.
Proof. unfold frac, frac_ns, second. intros. zlia. Qed.

Lemma utc_decode_encode t :
  DecodeUtcTime (EncodeUtcTime t) = (t / second) mod 4294967296 * second + frac_ns (frac (t mod second)).
Proof.
  unfold DecodeUtcTime. change (glen (EncodeUtcTime t) =? 8) with true. cbn [negb].
  assert (Hn : 0 <= t mod second < second) by (apply Z.mod_pos_bound; unfold second; lia).
  set (e := t / second). set (n := t mod second) in *.
  unfold EncodeUtcTime. fold e n. cbv [lookup_total list_lookup_total].
  change (Z.shiftl 1 24) with 16777216.
  assert (Hf : u32 (u64 (n * 16777216) / 1000000000) = frac n).
  { unfold u32, u64, frac, second in *. rewrite (Z.mod_small (n * 16777216)) by lia.
    apply Z.mod_small. zlia. }
  rewrite Hf. assert (Hfr : 0 <= frac n < 16777216) by (unfold frac, second in *; zlia).
  rewrite lor_bytes4, lor_bytes3 by apply is_byte_u8.
  rewrite !land_0xff, !Z.shiftr_div_pow2 by lia. unfold u8.
  change (2 ^ 24) with 16777216. change (2 ^ 16) with 65536. change (2 ^ 8) with 256.
  f_equal.
  - f_equal. generalize e. intros z. rewrite !Z.mod_mod by lia. zlia.
  - replace (frac n / 65536 mod 256 mod 256 * 65536 + frac n / 256 mod 256 mod 256 * 256 +
             frac n mod 256 mod 256) with (frac n) by (rewrite !Z.mod_mod by lia; zlia).
    rewrite i64_small by (unfold minDuration, maxInt; lia).
    unfold frac_ns. rewrite Z.quot_div_nonneg by lia. done.
Qed.

(** C38: a time stamp survives the wire up to its resolution: the decoded
    instant is never later than the encoded one and at most 60 ns earlier,
    with the seconds reduced modulo 2^32; so for instants of the 32-bit epoch
    the error is at most 60 ns. *)
Theorem utc_roundtrip t :
  let d := DecodeUtcTime (EncodeUtcTime t) in
  let t32 := (t / second) mod 4294967296 * second + t mod second in
  d <= t32 <= d + 60 ∧ (0 <= t < 4294967296 * second → d <= t <= d + 60).
Proof.
  cbn zeta. rewrite utc_decode_encode.
  assert (Hn : 0 <= t mod second < second) by (apply Z.mod_pos_bound; unfold second; lia).
  pose proof (frac_ns_error _ Hn).
  split; [lia|]. intros Ht. rewrite (Z.mod_small (t / second)) by (unfold second in *; zlia).
  pose proof (Z_div_mod_eq_full t second). unfold second in *. lia.
Qed.

(** ** Lemmas: payloads *)

Lemma glen_StringBytes s : glen (StringBytes s) = Z.of_nat (String.length s).
Proof. unfold glen. f_equal. induction s; cbn; auto. Qed.

Lemma glen_Boolean b : glen (Boolean b) = 3.
Proof. by destruct b. Qed.

Lemma glen_Integer16 v : glen (Integer16 v) = 2.
Proof. reflexivity. Qed.

Lemma glen_EncodeUtcTime t : glen (EncodeUtcTime t) = 8.
Proof. reflexivity. Qed.

Lemma bytes_ok_StringBytes s : bytes_ok (StringBytes s).
Proof.
  induction s as [|c s IH]; constructor; [|done].
  unfold is_byte. pose proof (nat_ascii_bounded c). lia.
Qed.

Lemma Integer16_eq v : Integer16 v = PutUint16 v.
Proof. unfold Integer16, PutUint16, u8. by rewrite land_0xff, Z.mod_mod by lia. Qed.

Lemma bytes_ok_Integer16 v : bytes_ok (Integer16 v).
Proof. rewrite Integer16_eq. apply bytes_ok_PutUint16. Qed.

Lemma bytes_ok_Boolean b : bytes_ok (Boolean b).
Proof. destruct b; repeat (apply Forall_cons_2; [unfold is_byte; lia|]); constructor. Qed.

Lemma bytes_ok_EncodeUtcTime t : bytes_ok (EncodeUtcTime t).
Proof.
  unfold EncodeUtcTime. repeat (apply Forall_cons_2; [apply is_byte_u8 || (unfold is_byte; lia)|]).
  constructor.
Qed.

#[export] Hint Resolve bytes_ok_StringBytes bytes_ok_Integer16 bytes_ok_Boolean
  bytes_ok_EncodeUtcTime : go_db.

Lemma w16_Integer16 v : is_u16 v → w16 (Integer16 v) 0 = v.
Proof. intros. rewrite Integer16_eq, <-(app_nil_r (PutUint16 v)). by apply w16_PutUint16. Qed.

Ltac fields_tac :=
  repeat (apply Forall_cons_2; [split; cbn [fst snd];
    [unfold is_byte; lia|
     first [by auto with go_db|repeat (apply Forall_cons_2; [unfold is_byte; lia|]); constructor]]|]);
  constructor.

Lemma goose_fields_ok st sq t test cr g d i : Forall field_ok (goose_fields st sq t test cr g d i).
Proof. unfold goose_fields. fields_tac. Qed.

Lemma asdu_fields_ok c cr i : Forall field_ok (asdu_fields c cr i).
Proof. unfold asdu_fields. fields_tac. Qed.

(** ** Lemmas: PDU headers *)

Lemma apdu_header_ok apdu :
  bytes_ok apdu → header_ok apdu → apdu_header apdu = Ret (header_off apdu, header_len apdu).
Proof.
  intros Hd [H2 Ho]. unfold apdu_header. rewrite idx_ok by lia. cbn [go_bind].
  change (Z.to_nat 1) with 1%nat.
  pose proof (bytes_ok_total apdu 1 Hd) as Hb. rewrite land_0x80 by done.
  unfold header_off, header_len in *. case_match; zb; [done|].
  rewrite land_0x7f. pose proof (Z.mod_pos_bound (apdu !!! 1%nat) 128).
  rewrite length_loop_ok by (try done; lia). cbn [go_bind].
  rewrite Z.mul_0_l, Z.add_0_l. by rewrite Z2Nat.id by lia.
Qed.

Lemma length_loop_short k data pos acc :
  0 <= pos <= glen data → glen data < pos + Z.of_nat k → length_loop k data pos acc = Panic.
Proof.
  revert pos acc. induction k as [|k IH]; intros pos acc Hp Hk; cbn [length_loop]; [lia|].
  destruct (decide (pos < glen data)).
  - rewrite idx_ok by lia. cbn [go_bind]. apply IH; lia.
  - unfold idx. by guard_false ((0 <=? pos) && (pos <? glen data)).
Qed.

Lemma apdu_header_short apdu :
  bytes_ok apdu → 2 <= glen apdu → ¬ header_ok apdu → apdu_header apdu = Panic.
Proof.
  intros Hd H2 Hh. unfold apdu_header. rewrite idx_ok by lia. cbn [go_bind].
  change (Z.to_nat 1) with 1%nat.
  pose proof (bytes_ok_total apdu 1 Hd) as Hb. rewrite land_0x80 by done.
  unfold header_ok, header_off in Hh. case_match; zb; [lia|].
  rewrite land_0x7f. pose proof (Z.mod_pos_bound (apdu !!! 1%nat) 128).
  by rewrite length_loop_short by lia.
Qed.

(** A built PDU, followed by anything, announces exactly its body. *)
Lemma apdu_of_ok tag payload :
  is_byte tag → bytes_ok payload → glen payload + 10 <= maxInt →
  ∃ l, apdu_of tag payload = Ret ([tag] ++ l ++ payload) ∧ 1 <= glen l <= 9 ∧
    bytes_ok ([tag] ++ l ++ payload) ∧
    ∀ tail, bytes_ok tail →
      let d := [tag] ++ l ++ tail in
      header_ok d ∧ header_off d = 1 + glen l ∧ header_len d = glen payload.
Proof.
  intros Ht Hp Hm. pose proof (glen_nonneg payload).
  destruct (encodeLength_ok (glen payload)) as (l & He & Hl & Hg & Hh); [lia|].
  exists l. unfold apdu_of. rewrite He. cbn [go_bind]. split_and!; [done|lia..| |].
  - rewrite !bytes_ok_app. split_and!; [by apply Forall_cons_2|done..].
  - intros tail Htl. cbn zeta. destruct (Hh tag tail) as [Ho Hn]. split_and!; [|done..].
    unfold header_ok. rewrite Ho. len_simpl. lia.
Qed.

Lemma sub_apdu (tag : Z) (l payload tail : bytes) :
  sub ([tag] ++ l ++ payload ++ tail) (1 + glen l) (1 + glen l + glen payload) = payload.
Proof.
  unfold sub. rewrite (app_assoc [tag] l). rewrite drop_app_length' by len_lia.
  apply take_app_length'. len_lia.
Qed.

(** Both parsers find the body of a built PDU. *)
Lemma apdu_body_slice (tag : Z) (l payload tail : bytes) :
  let d := [tag] ++ l ++ payload ++ tail in
  glen d <= maxInt →
  slice d (1 + glen l) (i64 (1 + glen l + glen payload)) = Ret payload ∧
  (glen d <? i64 (1 + glen l + glen payload)) = false.
Proof.
  cbn zeta. intros Hm. pose proof (glen_nonneg l). pose proof (glen_nonneg payload).
  pose proof (glen_nonneg tail).
  assert (Hg : glen ([tag] ++ l ++ payload ++ tail) = 1 + glen l + glen payload + glen tail)
    by (rewrite !glen_app; len_lia).
  rewrite i64_small by (unfold minDuration; lia).
  split; [|lia]. rewrite slice_ok by lia. by rewrite sub_apdu.
Qed.

(** ** GOOSE: round trip and panics *)

Definition slen3 (a b c : string) : Z :=
  Z.of_nat (String.length a) + Z.of_nat (String.length b) + Z.of_nat (String.length c).

Lemma goose_fold st sq t test cr g d i :
  is_u16 st → is_u16 sq →
  fields_fold (fun s tag p => Ret (goose_body s tag p)) (goose_fields st sq t test cr g d i) goose_start =
  Ret {| g_stNum := st; g_sqNum := sq; g_t := DecodeUtcTime (EncodeUtcTime t); g_allData := test;
         g_stNumSet := true; g_sqNumSet := true; g_allDataSet := true |}.
Proof.
  intros Hst Hsq. unfold goose_fields. cbn [fields_fold go_bind].
  rewrite <-(w16_Integer16 st) at 2 by done. rewrite <-(w16_Integer16 sq) at 2 by done.
  by destruct test.
Qed.

Lemma goose_read_back st sq t test cr g d i tail :
  is_u16 st → is_u16 sq → bytes_ok tail → slen3 g d i + glen tail <= maxInt - 1000 →
  ∃ apdu, BuildGOOSEAPDU st sq t test cr g d i = Ret apdu ∧ bytes_ok apdu ∧
    glen apdu <= slen3 g d i + 170 ∧
    ParseGOOSEAPDU (apdu ++ tail) = Ret (st, sq, DecodeUtcTime (EncodeUtcTime t), test, true).
Proof.
  intros Hst Hsq Htl Hm. unfold BuildGOOSEAPDU.
  pose proof (goose_fields_ok st sq t test cr g d i) as Hf.
  assert (Hs : fields_size (goose_fields st sq t test cr g d i) <= slen3 g d i + 160).
  { unfold goose_fields. rewrite !fields_size_cons, !glen_StringBytes, !glen_Boolean, !glen_Integer16,
      glen_EncodeUtcTime. unfold slen3. change (fields_size []) with 0. len_lia. }
  pose proof (glen_nonneg tail).
  destruct (fields_bytes_ok _ Hf) as (p & Ep & Hp & Hgp); [lia|].
  rewrite Ep. cbn [go_bind].
  destruct (apdu_of_ok 0x61 p) as (l & -> & Hl & Hok & Hh); [unfold is_byte; lia|done|lia|].
  eexists. pose proof (glen_nonneg p). split_and!; [done|done|rewrite !glen_app; len_lia|].
  replace (([0x61] ++ l ++ p) ++ tail) with ([0x61] ++ l ++ p ++ tail) by by rewrite <-!app_assoc.
  assert (Hgd : glen ([0x61] ++ l ++ p ++ tail) = 1 + glen l + glen p + glen tail)
    by (rewrite !glen_app; len_lia).
  destruct (Hh (p ++ tail)) as (Hho & Ho & Hn); [by apply bytes_ok_app|].
  destruct (apdu_body_slice 0x61 l p tail) as [Hsl Hgl]; [lia|].
  set (a := [0x61] ++ l ++ p ++ tail) in *.
  unfold ParseGOOSEAPDU. change (a !!! 0%nat =? 0x61) with true.
  guard_false (glen a <? 2). cbn [orb negb].
  rewrite apdu_header_ok; [| |done].
  - cbn [go_bind]. rewrite Ho, Hn, Hgl, Hsl. cbn [go_bind].
    erewrite walk_fields; [|done|lia|done|unfold glen; lia].
    by rewrite goose_fold.
  - unfold a. revert Hok. rewrite !bytes_ok_app. tauto.
Qed.

(** A GOOSE PDU that [BuildGOOSEAPDU] produces is read back by
    [ParseGOOSEAPDU] with its state and sequence numbers, its boolean data and
    its time stamp, whatever the three names and whatever bytes (padding, a
    trailer) follow the PDU. *)
Theorem goose_roundtrip st sq t test cr g d i tail :
  is_u16 st → is_u16 sq → bytes_ok tail → slen3 g d i + glen tail <= maxInt - 1000 →
  ∃ apdu, BuildGOOSEAPDU st sq t test cr g d i = Ret apdu ∧
    ParseGOOSEAPDU (apdu ++ tail) = Ret (st, sq, DecodeUtcTime (EncodeUtcTime t), test, true).
Proof.
  intros Hst Hsq Ht Hm. destruct (goose_read_back st sq t test cr g d i tail) as (a & ? & _ & _ & ?); eauto.
Qed.

(** The positions a walk gets to: after each field that could be read. *)
Inductive reaches : bytes → bytes → Prop :=
| reaches_refl d : reaches d d
| reaches_step d tag p r e : parseTLV d = Ret (tag, p, r, true) → reaches r e → reaches d e.

Lemma walks_panics {S} (f : S → Z → bytes → S) d s res :
  walks (fun s tag p => Ret (f s tag p)) d s res →
  res = Panic ↔ ∃ e, reaches d e ∧ parseTLV e = Panic.
Proof.
  assert (Hstop : ∀ d s, (∀ tag p r, parseTLV d ≠ Ret (tag, p, r, true)) → parseTLV d ≠ Panic →
    (Ret s : go S) = Panic ↔ ∃ e, reaches d e ∧ parseTLV e = Panic).
  { intros d' s' Hno Hnp. split; [discriminate|]. intros (e & Hr & He).
    destruct Hr; [congruence|]. by edestruct Hno. }
  induction 1 as [s|d s Hne Hp|d s tag p r Hne Hp| |d s tag p r s' res Hne Hp Hb _ IH].
  - by apply Hstop.
  - split; [|done]. intros _. exists d. by split; [constructor|].
  - apply Hstop; congruence.
  - discriminate.
  - rewrite IH. split; intros (e & Hr & He).
    + exists e. split; [|done]. by eapply reaches_step.
    + destruct Hr as [|d tag' p' r' e Hp' Hr']; [congruence|].
      assert (r' = r) as -> by congruence. by exists e.
Qed.

(** C30: [ParseGOOSEAPDU] panics exactly on PDUs (first byte 0x61) whose
    length octets are cut off, whose announced length is negative or overflows
    as a 64-bit [int], or in whose body the walk gets to a field on which
    [parseTLV] panics. *)
Theorem goose_panics_iff apdu :
  bytes_ok apdu → glen apdu <= maxInt →
  (ParseGOOSEAPDU apdu = Panic ↔
   2 <= glen apdu ∧ apdu !!! 0%nat = 0x61 ∧
   (¬ header_ok apdu ∨ header_len apdu < 0 ∨ maxInt < header_off apdu + header_len apdu ∨
    header_off apdu + header_len apdu <= glen apdu ∧
    ∃ e, reaches (sub apdu (header_off apdu) (header_off apdu + header_len apdu)) e ∧
         parseTLV e = Panic)).
Proof.
  intros Hd Hm. unfold ParseGOOSEAPDU.
  destruct (Z.ltb_spec (glen apdu) 2); cbn [orb]; [split; [discriminate|lia]|].
  destruct (Z.eqb_spec (apdu !!! 0%nat) 0x61); cbn [negb]; [|split; [discriminate|tauto]].
  destruct (header_ok_dec apdu) as [Hh|Hh];
    [|rewrite apdu_header_short by done; cbn [go_bind]; tauto].
  rewrite apdu_header_ok by done. cbn [go_bind]. destruct Hh as [_ Ho].
  pose proof (header_off_range apdu Hd). pose proof (header_len_range apdu Hd) as Hr.
  set (o := header_off apdu) in *. set (l := header_len apdu) in *.
  destruct (decide (l < 0 ∨ maxInt < o + l)) as [Hbad|Hgood].
  - destruct (bad_length_panics apdu apdu o l) as [-> ->]; [lia..|]. cbn [go_bind]. tauto.
  - rewrite i64_small by (unfold minDuration; lia). unfold header_ok. fold o.
    destruct (Z.ltb_spec (glen apdu) (o + l)); [split; [discriminate|lia]|].
    rewrite slice_ok by lia. cbn [go_bind]. set (data := sub apdu o (o + l)).
    assert (Hg : glen data = l) by (unfold data; rewrite glen_sub; lia).
    assert (Hdata : bytes_ok data) by (unfold data; auto with go_db).
    pose proof (walkTLV_walks (fun s tag p => Ret (goose_body s tag p)) (length data) data
      goose_start Hdata ltac:(lia) ltac:(unfold glen; lia)) as Hw.
    apply walks_panics in Hw. revert Hw. destruct (walkTLV _ _ _ _); cbn [go_bind].
    + intros Hw. split; [discriminate|]. intros (_ & _ & [?|[?|[?|[_ Hex]]]]); [lia..|].
      by apply Hw in Hex.
    + intros [Hw _]. split; [|done]. intros _. split_and!; [lia|done|].
      right; right; right. split; [lia|]. by apply Hw.
Qed.

(** ** Sampled Values: round trip and the missing guard *)

(** The walk over the body of an SV PDU. *)
Definition sv_walk (data : bytes) : go sv_acc := walkTLV sv_body (length data) data (0, false).

Lemma asdu_fold c cr i s :
  is_u16 c →
  fields_fold (fun s t pl => Ret (asdu_body s t pl)) (asdu_fields c cr i) s = Ret (c, true).
Proof.
  intros Hc. unfold asdu_fields. cbn [fields_fold go_bind].
  rewrite <-(w16_Integer16 c) at 2 by done. by destruct s.
Qed.

(** The general form: the PDU is followed by [tail], of which [n - glen apdu]
    bytes belong to the frame. *)
Lemma sv_read_back c cr i tail :
  is_u16 c → bytes_ok tail → Z.of_nat (String.length i) + glen tail <= maxInt - 1000 →
  ∃ apdu, BuildSVAPDU c cr i = Ret apdu ∧ bytes_ok apdu ∧
    glen apdu <= Z.of_nat (String.length i) + 150 ∧
    ∀ n, glen apdu <= n <= glen apdu + glen tail → ParseSVAPDU (apdu ++ tail) n = Ret (c, true).
Proof.
  intros Hc Htl Hm. unfold BuildSVAPDU. pose proof (glen_nonneg tail).
  assert (Hs : fields_size (asdu_fields c cr i) <= Z.of_nat (String.length i) + 80).
  { unfold asdu_fields. rewrite !fields_size_cons, !glen_StringBytes, !glen_Integer16.
    change (fields_size []) with 0. len_lia. }
  destruct (fields_bytes_ok _ (asdu_fields_ok c cr i)) as (q & Eq & Hq & Hgq); [lia|].
  rewrite Eq. cbn [go_bind].
  set (top := [(0x80, [1; 1; 1]); (0x81, [0; 0]); (0xa2, q)]).
  assert (Htop : Forall field_ok top) by (unfold top; fields_tac).
  assert (Hst : fields_size top <= Z.of_nat (String.length i) + 140).
  { unfold top. rewrite !fields_size_cons. change (fields_size []) with 0. len_lia. }
  destruct (fields_bytes_ok top Htop) as (p & Ep & Hp & Hgp); [lia|].
  rewrite Ep. cbn [go_bind]. pose proof (glen_nonneg p).
  destruct (apdu_of_ok 0x60 p) as (l & -> & Hl & Hok & Hh); [unfold is_byte; lia|done|lia|].
  assert (Hga : glen ([0x60] ++ l ++ p) = 1 + glen l + glen p) by (rewrite !glen_app; len_lia).
  eexists. split_and!; [done|done|lia|]. intros n Hn.
  set (tl := sub tail 0 (n - glen ([0x60] ++ l ++ p))).
  assert (Hb : sub (([0x60] ++ l ++ p) ++ tail) 0 n = [0x60] ++ l ++ p ++ tl).
  { unfold tl, sub. rewrite !Z.sub_0_r, !drop_0, take_app_ge, <-!app_assoc by len_lia.
    do 4 f_equal. len_lia. }
  destruct (Hh (p ++ tl)) as (Hho & Ho & Hn'); [apply bytes_ok_app; unfold tl; auto with go_db|].
  destruct (apdu_body_slice 0x60 l p tail) as [Hsl _]; [rewrite !glen_app; len_lia|].
  unfold ParseSVAPDU. rewrite Hb. set (a := [0x60] ++ l ++ p ++ tl) in *.
  change (a !!! 0%nat =? 0x60) with true. destruct Hho as [Hg2 Hho].
  guard_false (glen a <? 2). cbn [orb negb].
  rewrite apdu_header_ok; [|unfold a, tl; revert Hok; rewrite !bytes_ok_app; intuition auto with go_db|by split].
  cbn [go_bind]. rewrite Ho, Hn', <-!app_assoc, Hsl. cbn [go_bind].
  erewrite walk_fields; [|exact Htop|lia|done|unfold glen; lia].
  unfold top. cbn [fields_fold go_bind sv_body Z.eqb Pos.eqb].
  erewrite walk_fields; [|apply (asdu_fields_ok c cr i)|lia|exact Eq|unfold glen; lia].
  by rewrite asdu_fold.
Qed.

(** An SV PDU that [BuildSVAPDU] produces is read back by [ParseSVAPDU]
    with its sample counter (the security field, which carries the same tag,
    does not shadow it), whatever the name, and whatever padding the frame and
    stale bytes the receive buffer hold after the PDU. *)
Theorem sv_roundtrip c cr i pad stale :
  is_u16 c → bytes_ok pad → bytes_ok stale →
  Z.of_nat (String.length i) + glen pad + glen stale <= maxInt - 1000 →
  ∃ apdu, BuildSVAPDU c cr i = Ret apdu ∧
    ParseSVAPDU (apdu ++ pad ++ stale) (glen (apdu ++ pad)) = Ret (c, true).
Proof.
  intros Hc Hp Hs Hm.
  destruct (sv_read_back c cr i (pad ++ stale)) as (apdu & He & _ & _ & Hr);
    [done|by apply bytes_ok_app|rewrite glen_app; lia|].
  exists apdu. split; [done|]. apply Hr. rewrite !glen_app.
  pose proof (glen_nonneg pad). pose proof (glen_nonneg stale). lia.
Qed.

(** [ParseSVAPDU] on a PDU whose length octets are present and announce a
    length in range: it panics exactly when the announced end lies beyond the
    capacity of the buffer, or when the walk over the announced body does; up
    to the capacity it reads on, past the end of the frame. *)
Theorem sv_parse_exact back n :
  let apdu := sub back 0 n in
  let stop := header_off apdu + header_len apdu in
  bytes_ok back → 2 <= n <= glen back → glen back <= maxInt → back !!! 0%nat = 0x60 →
  header_ok apdu → 0 <= header_len apdu → stop <= maxInt →
  ParseSVAPDU back n =
  if glen back <? stop then Panic else sv_walk (sub back (header_off apdu) stop).
Proof.
  intros apdu stop Hb Hn Hm H0 Hh Hl Hs.
  assert (Hba : bytes_ok apdu) by (unfold apdu; auto with go_db).
  assert (Hga : glen apdu = n) by (unfold apdu; rewrite glen_sub; lia).
  pose proof (header_off_range apdu Hba).
  unfold ParseSVAPDU. fold apdu. guard_false (glen apdu <? 2). cbn [orb].
  assert (apdu !!! 0%nat = 0x60) as ->.
  { rewrite <-H0. apply (sub_total back 0 n 0); lia. }
  cbn [Z.eqb Pos.eqb negb]. rewrite apdu_header_ok by done. cbn [go_bind]. fold stop.
  rewrite i64_small by (unfold minDuration; lia).
  destruct (Z.ltb_spec (glen back) stop).
  - by rewrite slice_panic by lia.
  - rewrite slice_ok by (unfold stop in *; lia). done.
Qed.

(** A truncated SV frame: four body bytes announced, the frame ends after two.
    Two buffers that differ only after the frame give two sample counters. *)
Definition sv_stale (hi lo : Z) : bytes := [0x60; 4; 0x81; 2; hi; lo].

Example sv_reads_stale_bytes :
  sub (sv_stale 0 7) 0 4 = sub (sv_stale 1 2) 0 4 ∧
  ParseSVAPDU (sv_stale 0 7) 4 = Ret (7, true) ∧
  ParseSVAPDU (sv_stale 1 2) 4 = Ret (258, true) ∧
  ParseSVAPDU (sub (sv_stale 0 7) 0 4) 4 = Panic.
Proof. by vm_compute. Qed.

(** The sample counter of a publisher counts 0..4095 and starts again. *)
Lemma SVState_iter n c : 0 <= c < 4096 → Nat.iter n SVState c = (c + Z.of_nat n) mod 4096.
Proof.
  intros Hc. induction n as [|n IH]; [cbn; rewrite Z.mod_small; lia|].
  change (Nat.iter (S n) SVState c) with (SVState (Nat.iter n SVState c)). rewrite IH.
  unfold SVState, u16.
  pose proof (Z.mod_pos_bound (c + Z.of_nat n) 4096).
  rewrite (Z.mod_small (_ + 1) 65536) by lia. zlia.
Qed.

(** ** Concrete inputs *)

Lemma utc_roundtrip_witness :
  let t := 1700000000123456789 in
  let d := DecodeUtcTime (EncodeUtcTime t) in
  d <= t <= d + 60.
Proof.
  exact (proj2 (utc_roundtrip 1700000000123456789) ltac:(unfold second; lia)).
Defined.

Lemma goose_roundtrip_witness :
  ∃ apdu, BuildGOOSEAPDU 5 1 1700000000000000000 true 1 "LLN0$GO$gcb0" "LLN0$dataset" "LLN0$GO$gcb0" = Ret apdu ∧
    ParseGOOSEAPDU (apdu ++ [0; 0]) =
    Ret (5, 1, DecodeUtcTime (EncodeUtcTime 1700000000000000000), true, true).
Proof.
  apply (goose_roundtrip 5 1 1700000000000000000 true 1 "LLN0$GO$gcb0" "LLN0$dataset" "LLN0$GO$gcb0" [0; 0]).
  - unfold is_u16. lia.
  - unfold is_u16. lia.
  - repeat (apply Forall_cons_2; [unfold is_byte; lia|]). constructor.
  - vm_compute. discriminate.
Defined.

Lemma goose_panics_iff_witness :
  let apdu := [0x61; 0x82; 0x01] in
  ParseGOOSEAPDU apdu = Panic ↔
   2 <= glen apdu ∧ apdu !!! 0%nat = 0x61 ∧
   (¬ header_ok apdu ∨ header_len apdu < 0 ∨ maxInt < header_off apdu + header_len apdu ∨
    header_off apdu + header_len apdu <= glen apdu ∧
    ∃ e, reaches (sub apdu (header_off apdu) (header_off apdu + header_len apdu)) e ∧
         parseTLV e = Panic).
Proof.
  apply goose_panics_iff.
  - repeat (apply Forall_cons_2; [unfold is_byte; lia|]). constructor.
  - vm_compute. discriminate.
Defined.

Lemma sv_roundtrip_witness :
  ∃ apdu, BuildSVAPDU 4095 1 "MU01" = Ret apdu ∧
    ParseSVAPDU (apdu ++ [0] ++ [9; 9; 9]) (glen (apdu ++ [0])) = Ret (4095, true).
Proof.
  apply (sv_roundtrip 4095 1 "MU01" [0] [9; 9; 9]).
  - unfold is_u16. lia.
  - repeat (apply Forall_cons_2; [unfold is_byte; lia|]). constructor.
  - repeat (apply Forall_cons_2; [unfold is_byte; lia|]). constructor.
  - vm_compute. discriminate.
Defined.

Lemma sv_parse_exact_witness :
  ParseSVAPDU (sv_stale 0 7) 4 = sv_walk [0x81; 2; 0; 7].
Proof.
  apply (sv_parse_exact (sv_stale 0 7) 4);
    [|vm_compute; split; discriminate|vm_compute; discriminate|reflexivity
     |split; vm_compute; discriminate|vm_compute; discriminate|vm_compute; discriminate].
  repeat (apply Forall_cons_2; [unfold is_byte; lia|]). constructor.
Defined.
