(* ===== verification/GooseFrame.v ===== *)
(** * GooseFrame: the traffic generator's Ethernet frames

    Models the frame assembly and parsing of [src/cmd/trafficgen/main.go]:
    [assembleFrame], [buildFrame], [buildFrameEt], [parseFrame] and
    [parseMAC].  The globals [dstMAC] and [srcMAC] and the clock are
    arguments.  [parseFrame] works on a prefix of the receive buffer: as in
    [Iec], the buffer is given with the length of the frame in it. *)

From S2P Require Import Prelude Engine Pattern Ber Iec.

Definition etGOOSE : Z := 0x88B8.
Definition etSV : Z := 0x88BA.
Definition payloadHeaderLen : Z := 8.

(** ** Building *)

(** The tag control information of the 802.1Q tag. *)
Definition tci_of (vid pcp : Z) : Z :=
  Z.lor (u16 (Z.shiftl (u16 (Z.land pcp 0x07)) 13)) (u16 (Z.land vid 0x0FFF)).

(** APPID, length, two reserved words. *)
Definition apdu_hdr (appid : Z) (apdu : bytes) : bytes :=
  PutUint16 appid ++ PutUint16 (u16 (glen apdu + 8)) ++ PutUint16 0 ++ PutUint16 0.

(** [assembleFrame]: the frame that is allocated and then filled slot by slot,
    from the first byte to the last *)
Definition assembleFrame (dstMAC srcMAC : bytes) (appid : Z) (apdu : bytes) (vid pcp et : Z) : bytes :=
  let header := apdu_hdr appid apdu in
  let tagged := vid >=? 0 in
  slot 6 dstMAC ++ slot 6 srcMAC ++
  (if tagged then [0x81; 0x00] ++ PutUint16 (tci_of vid pcp) ++ PutUint16 et else PutUint16 et) ++
  header ++ apdu.

Definition gcbRef : string := "LLN0$GO$gcb0".
Definition datSet : string := "LLN0$dataset".

(** [buildFrame] at the instant [now] *)
Definition buildFrame (dstMAC srcMAC : bytes) (now appid stNum sqNum vid pcp : Z) : go bytes :=
  let! apdu := BuildGOOSEAPDU stNum sqNum now false 1 gcbRef datSet gcbRef in
  Ret (assembleFrame dstMAC srcMAC appid apdu vid pcp etGOOSE).

(** [buildFrameEt]; its parameter [dst] is not used by the code *)
Definition buildFrameEt (dstMAC srcMAC : bytes) (now appid stNum sqNum vid pcp et : Z) (dst : bytes) : go bytes :=
  let! apdu := if et =? etGOOSE then BuildGOOSEAPDU stNum sqNum now false 1 gcbRef datSet gcbRef
               else BuildSVAPDU stNum 1 "MU01" in
  Ret (assembleFrame dstMAC srcMAC appid apdu vid pcp et).

(** ** Parsing *)

(** The results of [parseFrame]. *)
Record parsed := mkParsed {
  p_appid : Z; p_stNum : Z; p_sqNum : Z; p_smpCnt : Z; p_sentAt : Z;
  p_allData : bool; p_vid : Z; p_pcp : Z; p_ok : bool }.

Definition not_ours : parsed := mkParsed 0 0 0 0 zeroTime false (-1) 0 false.

(** The part of [parseFrame] after the Ethernet header: EtherType [et], offset
    [off] of the APPID. *)
Definition parsePayload (back : bytes) (n wantAppid et off vid pcp : Z) : go parsed :=
  let frame := sub back 0 n in
  if negb (et =? etGOOSE) && negb (et =? etSV) then Ret not_ours
  else if glen frame <? off + payloadHeaderLen then Ret not_ours
  else
    let! appid := be16 frame off in
    if negb (wantAppid =? 0) && negb (appid =? wantAppid) then Ret not_ours
    else
      let! apdu := slice frame (off + payloadHeaderLen) (glen frame) in
      if et =? etGOOSE then
        let! (stNum, sqNum, sentAt, allData, okParse) := ParseGOOSEAPDU apdu in
        Ret (mkParsed appid stNum sqNum 0 sentAt allData vid pcp okParse)
      else
        let! (smpCnt, okParse) := ParseSVAPDU (drop (Z.to_nat (off + payloadHeaderLen)) back) (glen apdu) in
        Ret (mkParsed appid 0 0 smpCnt zeroTime false vid pcp okParse).

(** [parseFrame(buf[:n], wantAppid)], [back] the buffer up to its capacity *)
Definition parseFrame (back : bytes) (n wantAppid : Z) : go parsed :=
  let frame := sub back 0 n in
  if glen frame <? 14 + payloadHeaderLen then Ret not_ours
  else
    let! et := be16 frame 12 in
    if (et =? 0x8100) || (et =? 0x88a8) then
      if glen frame <? 18 + payloadHeaderLen then Ret not_ours
      else
        let! tci := be16 frame 14 in
        let! et := be16 frame 16 in
        parsePayload back n wantAppid et 18 (Z.land tci 0x0FFF) (Z.land (Z.shiftr tci 13) 0x07)
    else parsePayload back n wantAppid et 14 (-1) 0.

(** ** MAC addresses on the command line *)

(** What [fmt.Sscanf] treats as white space before a number (a newline is an
    error). *)
Definition is_space (c : ascii) : bool :=
  match nat_of_ascii c with 9 | 11 | 12 | 13 | 32 => true | _ => false end%nat.

Fixpoint skip_space (s : string) : string :=
  match s with
  | String c s' => if is_space c then skip_space s' else s
  | EmptyString => s
  end.

(** The longest run of hexadecimal digits (of either case), as a
    number; [None] without any. *)
Fixpoint scan_hex (s : string) (acc : option Z) : option Z :=
  match s with
  | EmptyString => acc
  | String c s' =>
      match hexval c with
      | Some d => scan_hex s' (Some (default 0 acc * 16 + d))
      | None => acc
      end
  end.

(** [fmt.Sscanf(s, "%x", &b)] with [b] an [int]: white space, a sign, digits;
    what follows the digits is not looked at *)
Definition Sscanf_x (s : string) : option Z :=
  match skip_space s with
  | String "+" s' => scan_hex s' None
  | String "-" s' => Z.opp <$> scan_hex s' None
  | s' => scan_hex s' None
  end.

(** The loop of [parseMAC], from digit pair [i] on: [k] pairs to go. *)
Fixpoint parseMAC_loop (k : nat) (s : string) (i : nat) : option bytes :=
  match k with
  | O => Some []
  | S k =>
      match Sscanf_x (String.substring (i * 3) 2 s) with
      | None => None
      | Some b => cons (u8 b) <$> parseMAC_loop k s (S i)
      end
  end.

(** [parseMAC]; the error is its message's argument *)
Definition parseMAC (s : string) : result string bytes :=
  if negb (slen s =? 17) then Err s
  else match parseMAC_loop 6 s 0 with
       | None => Err s
       | Some out => Ok out
       end.

(** ** Layout of an assembled frame *)

Lemma tci_of_eq vid pcp : tci_of vid pcp = pcp mod 8 * 8192 + vid mod 4096.
Proof.
  unfold tci_of. change 0x07 with (Z.ones 3). rewrite Z.land_ones, land_0x0FFF by lia.
  change (2 ^ 3) with 8. pose proof (Z.mod_pos_bound pcp 8). pose proof (Z.mod_pos_bound vid 4096).
  unfold u16. rewrite (Z.mod_small (pcp mod 8)), (Z.mod_small (vid mod 4096)) by lia.
  rewrite (Z.mod_small (Z.shiftl _ _)) by (rewrite Z.shiftl_mul_pow2 by lia; change (2 ^ 13) with 8192; lia).
  by rewrite lor_shiftl_add by (change (2 ^ 13) with 8192; lia).
Qed.

Lemma is_u16_tci vid pcp : is_u16 (tci_of vid pcp).
Proof. rewrite tci_of_eq. unfold is_u16. zlia. Qed.

(** Everything before the APPID. *)
Definition eth_hdr (dstMAC srcMAC : bytes) (vid pcp et : Z) : bytes :=
  slot 6 dstMAC ++ slot 6 srcMAC ++
  (if vid >=? 0 then [0x81; 0x00] ++ PutUint16 (tci_of vid pcp) ++ PutUint16 et else PutUint16 et).

Definition eth_len (vid : Z) : Z := if vid >=? 0 then 18 else 14.

Lemma assembleFrame_eq d s appid apdu vid pcp et :
  assembleFrame d s appid apdu vid pcp et = eth_hdr d s vid pcp et ++ apdu_hdr appid apdu ++ apdu.
Proof. unfold assembleFrame, eth_hdr. by rewrite <-!app_assoc. Qed.

Lemma glen_eth_hdr d s vid pcp et : glen (eth_hdr d s vid pcp et) = eth_len vid.
Proof.
  unfold eth_hdr, eth_len. rewrite !glen_app, !glen_slot by lia. by destruct (vid >=? 0).
Qed.

Lemma glen_apdu_hdr appid apdu : glen (apdu_hdr appid apdu) = 8.
Proof. reflexivity. Qed.

Lemma glen_assembleFrame d s appid apdu vid pcp et :
  glen (assembleFrame d s appid apdu vid pcp et) = eth_len vid + 8 + glen apdu.
Proof. rewrite assembleFrame_eq, !glen_app, glen_eth_hdr, glen_apdu_hdr. lia. Qed.

(** The words of the Ethernet header. *)
Lemma eth_hdr_words d s vid pcp et t :
  is_u16 et →
  let f := eth_hdr d s vid pcp et ++ t in
  if vid >=? 0 then w16 f 12 = 0x8100 ∧ w16 f 14 = tci_of vid pcp ∧ w16 f 16 = et
  else w16 f 12 = et.
Proof.
  intros Het. cbn zeta. unfold eth_hdr. rewrite (app_assoc (slot 6 d)), <-app_assoc.
  set (m := slot 6 d ++ slot 6 s).
  assert (Hm : glen m = 12) by (unfold m; rewrite glen_app, !glen_slot; lia).
  assert (Hw : ∀ u off, 12 <= off → w16 (m ++ u) off = w16 u (off - 12)).
  { intros u off Ho. by rewrite w16_app_r, Hm by lia. }
  destruct (vid >=? 0); rewrite !Hw by lia.
  - pose proof (is_u16_tci vid pcp). rewrite <-!app_assoc. split_and!; [done| |].
    + change (14 - 12) with (glen [0x81; 0x00]). rewrite w16_app_r, Z.sub_diag by lia.
      by apply w16_PutUint16.
    + rewrite (app_assoc [0x81; 0x00]).
      change (16 - 12) with (glen ([0x81; 0x00] ++ PutUint16 (tci_of vid pcp))).
      rewrite w16_app_r, Z.sub_diag by lia. by apply w16_PutUint16.
  - by apply w16_PutUint16.
Qed.

Lemma bytes_ok_assembleFrame d s appid apdu vid pcp et :
  bytes_ok d → bytes_ok s → bytes_ok apdu → bytes_ok (assembleFrame d s appid apdu vid pcp et).
Proof.
  intros Hd Hs Ha. rewrite assembleFrame_eq. unfold eth_hdr, apdu_hdr. rewrite !bytes_ok_app.
  split_and!; auto using bytes_ok_slot with go_db.
  destruct (vid >=? 0); [|auto with go_db]. rewrite !bytes_ok_app. split_and!; auto with go_db.
  repeat (apply Forall_cons_2; [unfold is_byte; lia|]). constructor.
Qed.

(** Values a receiver sees in the tag: [-1, 0] without one. *)
Definition vid_seen (vid : Z) : Z := if vid >=? 0 then vid mod 4096 else -1.
Definition pcp_seen (vid pcp : Z) : Z := if vid >=? 0 then pcp mod 8 else 0.

(** Parsing an assembled frame gets to the right offset. *)
Lemma parseFrame_header d s appid apdu vid pcp et pad stale want :
  is_u16 et → is_tpid et = false →
  let f := assembleFrame d s appid apdu vid pcp et in
  parseFrame (f ++ pad ++ stale) (glen (f ++ pad)) want =
  parsePayload (f ++ pad ++ stale) (glen (f ++ pad)) want et (eth_len vid) (vid_seen vid) (pcp_seen vid pcp).
Proof.
  intros Het Htp. cbn zeta. set (f := assembleFrame d s appid apdu vid pcp et).
  unfold parseFrame. rewrite app_assoc, sub_app_l by done.
  assert (Hg : glen (f ++ pad) = eth_len vid + 8 + glen apdu + glen pad)
    by (unfold f; rewrite glen_app, glen_assembleFrame; lia).
  pose proof (glen_nonneg apdu). pose proof (glen_nonneg pad).
  pose proof (eth_hdr_words d s vid pcp et ((apdu_hdr appid apdu ++ apdu) ++ pad) Het) as Hw.
  cbn zeta in Hw. rewrite app_assoc, <-assembleFrame_eq in Hw. fold f in Hw.
  unfold eth_len, vid_seen, pcp_seen, payloadHeaderLen in *.
  destruct (vid >=? 0).
  - destruct Hw as (H12 & H14 & H16). guard_false (glen (f ++ pad) <? 14 + 8).
    rewrite !be16_ok by lia. cbn [go_bind]. rewrite H12. cbn [Z.eqb Pos.eqb orb].
    guard_false (glen (f ++ pad) <? 18 + 8). rewrite H14, H16.
    rewrite land_0x0FFF, tci_of_eq, Z.shiftr_div_pow2 by lia.
    change 0x07 with (Z.ones 3). rewrite Z.land_ones by lia.
    change (2 ^ 13) with 8192. change (2 ^ 3) with 8. f_equal; zlia.
  - guard_false (glen (f ++ pad) <? 14 + 8). rewrite be16_ok by lia. cbn [go_bind]. rewrite Hw.
    unfold is_tpid in Htp. by rewrite Htp.
Qed.

(** The APPID and the PDU behind the header. *)
Lemma parsePayload_assembled d s appid apdu vid pcp et pad stale want :
  is_u16 appid → et = etGOOSE ∨ et = etSV → want = 0 ∨ want = appid →
  let f := assembleFrame d s appid apdu vid pcp et in
  parsePayload (f ++ pad ++ stale) (glen (f ++ pad)) want et (eth_len vid) (vid_seen vid) (pcp_seen vid pcp) =
  if et =? etGOOSE then
    let! (stNum, sqNum, sentAt, allData, okParse) := ParseGOOSEAPDU (apdu ++ pad) in
    Ret (mkParsed appid stNum sqNum 0 sentAt allData (vid_seen vid) (pcp_seen vid pcp) okParse)
  else
    let! (smpCnt, okParse) := ParseSVAPDU (apdu ++ pad ++ stale) (glen (apdu ++ pad)) in
    Ret (mkParsed appid 0 0 smpCnt zeroTime false (vid_seen vid) (pcp_seen vid pcp) okParse).
Proof.
  intros Ha Het Hwant. cbn zeta. set (f := assembleFrame d s appid apdu vid pcp et).
  unfold parsePayload, payloadHeaderLen.
  assert (Hf : f = eth_hdr d s vid pcp et ++ apdu_hdr appid apdu ++ apdu) by apply assembleFrame_eq.
  assert (Hsub : sub (f ++ pad ++ stale) 0 (glen (f ++ pad)) = f ++ pad)
    by (rewrite app_assoc; by apply sub_app_l).
  assert (Hg : glen (f ++ pad) = eth_len vid + 8 + glen apdu + glen pad)
    by (unfold f; rewrite glen_app, glen_assembleFrame; lia).
  pose proof (glen_nonneg apdu). pose proof (glen_nonneg pad).
  assert (Hel : 0 <= eth_len vid) by (unfold eth_len; destruct (vid >=? 0); lia).
  rewrite Hsub. guard_false (glen (f ++ pad) <? eth_len vid + 8).
  rewrite be16_ok by lia. cbn [go_bind].
  assert (w16 (f ++ pad) (eth_len vid) = appid) as ->.
  { rewrite Hf, <-!app_assoc, <-(glen_eth_hdr d s vid pcp et), w16_app_r, Z.sub_diag by lia.
    unfold apdu_hdr. rewrite <-!app_assoc. by apply w16_PutUint16. }
  guard_false (negb (want =? 0) && negb (appid =? want)).
  rewrite slice_ok by lia. cbn [go_bind].
  set (m := eth_hdr d s vid pcp et ++ apdu_hdr appid apdu).
  assert (Hm : glen m = eth_len vid + 8) by (unfold m; by rewrite glen_app, glen_eth_hdr).
  assert (Hfm : ∀ t, f ++ t = m ++ apdu ++ t) by (intros; rewrite Hf; unfold m; by rewrite <-!app_assoc).
  assert (sub (f ++ pad) (eth_len vid + 8) (glen (f ++ pad)) = apdu ++ pad) as ->.
  { rewrite Hfm. apply sub_app_r; rewrite ?glen_app; lia. }
  assert (drop (Z.to_nat (eth_len vid + 8)) (f ++ pad ++ stale) = apdu ++ pad ++ stale) as ->.
  { rewrite Hfm, <-Hm. apply drop_app_length'. unfold glen. lia. }
  by destruct Het as [-> | ->].
Qed.

(** ** Properties *)

(** The general form of the GOOSE round trip, with what the network needs to
    know of the frame. *)
Lemma goose_frame_read_back d s now appid st sq vid pcp pad stale want :
  bytes_ok d → bytes_ok s → is_u16 appid → is_u16 st → is_u16 sq → want = 0 ∨ want = appid →
  bytes_ok pad → glen pad <= 4096 →
  ∃ apdu, let f := assembleFrame d s appid apdu vid pcp etGOOSE in
    buildFrame d s now appid st sq vid pcp = Ret f ∧ bytes_ok f ∧ glen apdu <= 300 ∧
    parseFrame (f ++ pad ++ stale) (glen (f ++ pad)) want =
    Ret (mkParsed appid st sq 0 (DecodeUtcTime (EncodeUtcTime now)) false (vid_seen vid) (pcp_seen vid pcp) true).
Proof.
  intros Hd Hs Ha Hst Hsq Hwant Hp Hgp. unfold buildFrame.
  destruct (goose_read_back st sq now false 1 gcbRef datSet gcbRef pad) as (apdu & -> & Hb & Hga & Hr);
    [done|done|done|change (slen3 gcbRef datSet gcbRef) with 36; unfold maxInt; lia|].
  change (slen3 gcbRef datSet gcbRef) with 36 in Hga.
  exists apdu. cbn zeta. cbn [go_bind]. split_and!; [done|by apply bytes_ok_assembleFrame|lia|].
  rewrite parseFrame_header by (done || (unfold is_u16, etGOOSE; lia)).
  rewrite parsePayload_assembled by auto. cbn [Z.eqb Pos.eqb etGOOSE]. by rewrite Hr.
Qed.

(** C24: a GOOSE frame of the generator is recognised by its receiver with the
    APPID, state and sequence numbers it was built with, the VLAN ID modulo
    2^12 and the priority modulo 2^3 of its tag (or none), and its time stamp,
    with any padding after it and anything else in the receive buffer. *)
Theorem goose_frame_roundtrip d s now appid st sq vid pcp pad stale want :
  bytes_ok d → bytes_ok s → is_u16 appid → is_u16 st → is_u16 sq → want = 0 ∨ want = appid →
  bytes_ok pad → glen pad <= 4096 →
  ∃ f, buildFrame d s now appid st sq vid pcp = Ret f ∧
    parseFrame (f ++ pad ++ stale) (glen (f ++ pad)) want =
    Ret (mkParsed appid st sq 0 (DecodeUtcTime (EncodeUtcTime now)) false
           (if vid >=? 0 then vid mod 4096 else -1) (if vid >=? 0 then pcp mod 8 else 0) true).
Proof.
  intros Hd Hs Ha Hst Hsq Hwant Hp Hgp.
  destruct (goose_frame_read_back d s now appid st sq vid pcp pad stale want) as (apdu & Hf & _ & _ & Hr);
    [done..|]. eauto.
Qed.

(** An SV frame of the generator is recognised with the APPID and the
    sample counter it was built with, but no sequence numbers and no time
    stamp; the second number and the destination passed to [buildFrameEt] leave
    no trace in the frame. *)
Theorem sv_frame_roundtrip d s now appid st sq vid pcp dst pad stale want :
  bytes_ok d → bytes_ok s → is_u16 appid → is_u16 st → want = 0 ∨ want = appid →
  bytes_ok pad → bytes_ok stale → glen pad + glen stale <= 4096 →
  ∃ f, (∀ sq' dst' now', buildFrameEt d s now' appid st sq' vid pcp etSV dst' = Ret f) ∧
    buildFrameEt d s now appid st sq vid pcp etSV dst = Ret f ∧
    parseFrame (f ++ pad ++ stale) (glen (f ++ pad)) want =
    Ret (mkParsed appid 0 0 st zeroTime false
           (if vid >=? 0 then vid mod 4096 else -1) (if vid >=? 0 then pcp mod 8 else 0) true).
Proof.
  intros Hd Hs Ha Hst Hwant Hp Hsl Hgp.
  pose proof (glen_nonneg pad). pose proof (glen_nonneg stale).
  destruct (sv_read_back st 1 "MU01" (pad ++ stale)) as (apdu & Hb & _ & _ & Hr);
    [done|by apply bytes_ok_app|change (String.length "MU01") with 4%nat; rewrite glen_app; unfold maxInt; lia|].
  exists (assembleFrame d s appid apdu vid pcp etSV).
  assert (Hall : ∀ sq' dst' now', buildFrameEt d s now' appid st sq' vid pcp etSV dst' =
    Ret (assembleFrame d s appid apdu vid pcp etSV)).
  { intros. unfold buildFrameEt. cbn [Z.eqb Pos.eqb etSV etGOOSE]. by rewrite Hb. }
  split_and!; [done|done|].
  rewrite parseFrame_header by (done || (unfold is_u16, etSV; lia)).
  rewrite parsePayload_assembled by auto. cbn [Z.eqb Pos.eqb etGOOSE etSV].
  rewrite Hr by (rewrite !glen_app; lia). done.
Qed.

Lemma Sscanf_x_hex2 b : is_byte b → Sscanf_x (hex2 b) = Some b.
Proof.
  unfold is_byte. intros Hb.
  assert (H : forallb (fun b => bool_decide (Sscanf_x (hex2 b) = Some b)) (seqZ 0 256) = true)
    by (vm_compute; reflexivity).
  rewrite forallb_forall in H. eapply bool_decide_eq_true, H, list_elem_of_In, elem_of_seqZ. lia.
Qed.

(** Whatever it accepts is an address of six bytes. *)
Lemma parseMAC_shape s out : parseMAC s = Ok out → glen out = 6 ∧ bytes_ok out.
Proof.
  unfold parseMAC. destruct (negb _); [discriminate|].
  assert (Hl : ∀ k i l, parseMAC_loop k s i = Some l → length l = k ∧ bytes_ok l).
  { induction k as [|k IH]; cbn [parseMAC_loop]; intros i l.
    - intros [= <-]. split; [done|constructor].
    - destruct (Sscanf_x _) as [b|]; [|discriminate].
      destruct (parseMAC_loop k s (S i)) as [r|] eqn:E; cbn; [|discriminate].
      intros [= <-]. destruct (IH _ _ E). split; [cbn; lia|]. by apply Forall_cons_2; [apply is_byte_u8|]. }
  destruct (parseMAC_loop 6 s 0) eqn:E; [|discriminate]. intros [= <-].
  destruct (Hl _ _ _ E) as [Hlen Hb]. split; [unfold glen; lia|done].
Qed.

(** The command-line parser of MAC addresses inverts their printed form,
    and every address it accepts has six bytes. *)
Theorem parseMAC_roundtrip a b c d e f :
  is_byte a → is_byte b → is_byte c → is_byte d → is_byte e → is_byte f →
  parseMAC (mac_string a b c d e f) = Ok [a; b; c; d; e; f] ∧
  ∀ s out, parseMAC s = Ok out → glen out = 6 ∧ bytes_ok out.
Proof.
  intros Ha Hb Hc Hd He Hf. split; [|apply parseMAC_shape].
  unfold parseMAC. change (slen (mac_string a b c d e f) =? 17) with true. cbn [negb].
  cbn [parseMAC_loop Nat.mul Nat.add].
  change (String.substring 0 2 _) with (hex2 a).
  change (String.substring 3 2 _) with (hex2 b).
  change (String.substring 6 2 _) with (hex2 c).
  change (String.substring 9 2 _) with (hex2 d).
  change (String.substring 12 2 _) with (hex2 e).
  change (String.substring 15 2 _) with (hex2 f).
  rewrite !Sscanf_x_hex2 by done. unfold is_byte in *. cbn -[u8].
  unfold u8. by rewrite !Z.mod_small by lia.
Qed.

(** Separators are not looked at, signs and single digits pass. *)
Example parseMAC_lenient :
  parseMAC "-1x+2y 3z4zz5_?6-" = Ok [255; 2; 3; 4; 5; 6] ∧
  parseMAC "02-00-00-00-00-01" = Ok [2; 0; 0; 0; 0; 1].
Proof. split; vm_compute; reflexivity. Qed.

(** ** Concrete inputs *)

Definition demo_dst : bytes := [0x01; 0x0c; 0xcd; 0x01; 0x00; 0x01].
Definition demo_src : bytes := [0x02; 0; 0; 0; 0; 0x01].

Lemma demo_macs_ok : bytes_ok demo_dst ∧ bytes_ok demo_src.
Proof. split; repeat (apply Forall_cons_2; [unfold is_byte; lia|]); constructor. Qed.

Lemma goose_frame_roundtrip_witness :
  ∃ f, buildFrame demo_dst demo_src 1700000000000000000 0x1001 5 1 0 4 = Ret f ∧
    parseFrame (f ++ [0] ++ [9]) (glen (f ++ [0])) 0x1001 =
    Ret (mkParsed 0x1001 5 1 0 (DecodeUtcTime (EncodeUtcTime 1700000000000000000)) false 0 4 true).
Proof.
  apply (goose_frame_roundtrip demo_dst demo_src 1700000000000000000 0x1001 5 1 0 4 [0] [9] 0x1001).
  - apply demo_macs_ok.
  - apply demo_macs_ok.
  - unfold is_u16. lia.
  - unfold is_u16. lia.
  - unfold is_u16. lia.
  - auto.
  - apply Forall_cons_2; [unfold is_byte; lia|constructor].
  - vm_compute. discriminate.
Defined.

Lemma sv_frame_roundtrip_witness :
  ∃ f, (∀ sq' dst' now', buildFrameEt demo_dst demo_src now' 0x4000 7 sq' (-1) 4 etSV dst' = Ret f) ∧
    buildFrameEt demo_dst demo_src 3 0x4000 7 1 (-1) 4 etSV demo_dst = Ret f ∧
    parseFrame (f ++ [] ++ [9]) (glen (f ++ [])) 0 =
    Ret (mkParsed 0x4000 0 0 7 zeroTime false (-1) 0 true).
Proof.
  apply (sv_frame_roundtrip demo_dst demo_src 3 0x4000 7 1 (-1) 4 demo_dst [] [9] 0).
  - apply demo_macs_ok.
  - apply demo_macs_ok.
  - unfold is_u16. lia.
  - unfold is_u16. lia.
  - auto.
  - constructor.
  - apply Forall_cons_2; [unfold is_byte; lia|constructor].
  - vm_compute. discriminate.
Defined.

Lemma parseMAC_roundtrip_witness :
  parseMAC "02:00:00:00:00:fe" = Ok [2; 0; 0; 0; 0; 254] ∧
  ∀ s out, parseMAC s = Ok out → glen out = 6 ∧ bytes_ok out.
Proof. apply (parseMAC_roundtrip 2 0 0 0 0 254); unfold is_byte; lia. Defined.
