(* ===== verification/Trafficgen.v ===== *)
(** * Trafficgen: the traffic generator's sender, receiver and statistics

    Models the modes of [src/cmd/trafficgen/main.go]: the sending loop of
    [send] with its retransmission bursts, the loops of [recv] and of
    [pingMode], and the statistics they keep ([stats], [noteFrame],
    [noteTagged], [partial]).  What the operating system decides is an
    environment: when the stop signal is seen, whether a write succeeds, and
    the clock. *)

From S2P Require Import Prelude Engine NodeTable Ber Iec GooseFrame.

(** ** Statistics *)

(** [stats]; [lastSeen] holds only [true] values, so it is a set, and a nil
    map is an empty one. *)
Record stats := mkStats {
  total : Z; unique : Z; dupes : Z; latency : list Z; lastKey : string;
  lastSeen : gset string; tags : gmap Z (gmap Z Z) }.

Definition new_stats : stats := mkStats 0 0 0 [] "" ∅ ∅.

(** [noteTagged] *)
Definition noteTagged (vid pcp : Z) (s : stats) : stats :=
  if vid <? 0 then s
  else
    let pcps := default ∅ (tags s !! vid) in
    mkStats (total s) (unique s) (dupes s) (latency s) (lastKey s) (lastSeen s)
      (<[vid := <[pcp := default 0 (pcps !! pcp) + 1]> pcps]> (tags s)).

(** [noteFrame]; [now] is the instant [time.Since] reads *)
Definition noteFrame (now : Z) (key : string) (sentAt : Z) (s : stats) : stats :=
  let tot := total s + 1 in
  if sentAt =? zeroTime then
    if bool_decide (key ∈ lastSeen s) then
      mkStats tot (unique s) (dupes s + 1) (latency s) (lastKey s) (lastSeen s) (tags s)
    else
      mkStats tot (unique s + 1) (dupes s) (latency s) key ({[key]} ∪ lastSeen s) (tags s)
  else
    let lat := time_Sub now sentAt in
    let lats := if lat >? 0 then latency s ++ [lat] else latency s in
    if bool_decide (key ∈ lastSeen s) then
      mkStats tot (unique s) (dupes s + 1) lats (lastKey s) (lastSeen s) (tags s)
    else
      mkStats tot (unique s + 1) (dupes s) lats key ({[key]} ∪ lastSeen s) (tags s).

(** [partial] *)
Definition partial (s : stats) : string :=
  ("total=" +:+ pretty (total s) +:+ " unique=" +:+ pretty (unique s) +:+
   " dupes=" +:+ pretty (dupes s))%string.

(** ** Receiving *)

(** [fmt.Sprintf("%d|%d", stNum, sqNum)] *)
Definition frame_key (stNum sqNum : Z) : string := (pretty stNum +:+ "|" +:+ pretty sqNum)%string.

(** A frame in the receive buffer: the instant, the buffer, the frame's length. *)
Record reception := mkRx { rx_now : Z; rx_buf : bytes; rx_len : Z }.

(** One round of the loop of [recv] that received a frame. *)
Definition recv_frame (appid : Z) (r : reception) (s : stats) : go stats :=
  let! p := parseFrame (rx_buf r) (rx_len r) appid in
  if negb (p_ok p) then Ret s
  else
    let s := noteFrame (rx_now r) (frame_key (p_stNum p) (p_sqNum p)) (p_sentAt p) s in
    Ret (noteTagged (p_vid p) (p_pcp p) s).

Fixpoint recv_all (appid : Z) (rs : list reception) (s : stats) : go stats :=
  match rs with
  | [] => Ret s
  | r :: rs => let! s := recv_frame appid r s in recv_all appid rs s
  end.

(** One round of the receiving goroutine of [pingMode] that received a frame:
    [sentAt] is the reading of [time.Now()] passed to [noteFrame], the
    reception's instant the later one inside. *)
Definition ping_frame (appid sentAt : Z) (r : reception) (s : stats) : go stats :=
  let! p := parseFrame (rx_buf r) (rx_len r) appid in
  if negb (p_ok p) then Ret s else Ret (noteFrame (rx_now r) "ping" sentAt s).

(** ** Sending *)

(** What the sending loop observes: the [k]-th poll of the stop channel, the
    clock when the [k]-th frame is built, the [k]-th write. *)
Class SendEnv := { stopped : nat → bool; clock : nat → Z; send_ok : nat → bool }.

(** How [send] ends: all frames sent, stopped by a signal, or [os.Exit(1)] after
    a failed write. *)
Inductive outcome := Done | Stopped | Failed.
#[export] Instance outcome_eq_dec : EqDecision outcome.
Proof. solve_decision. Defined.

Record sender := mkSender {
  s_out : list bytes; s_polls : nat; s_sent : Z; s_stNum : Z; s_sqNum : Z }.

Inductive ctl := Continue (s : sender) | Leave (o : outcome) (s : sender).

Section sending.
Context {SE : SendEnv}.
Context (dstMAC srcMAC : bytes) (appid vid pcp et : Z) (burst : bool).

(** [select { case <-stop: return; default: }], then [k] *)
Definition poll (k : sender → go ctl) (s : sender) : go ctl :=
  let s' := mkSender (s_out s) (S (s_polls s)) (s_sent s) (s_stNum s) (s_sqNum s) in
  if stopped (s_polls s) then Ret (Leave Stopped s') else k s'.

(** [sent++], build, [sock.Send] *)
Definition transmit (stNum sqNum : Z) (s : sender) : go ctl :=
  let! frame := buildFrameEt dstMAC srcMAC (clock (length (s_out s))) appid stNum sqNum vid pcp et dstMAC in
  if send_ok (length (s_out s)) then
    Ret (Continue (mkSender (s_out s ++ [frame]) (s_polls s) (s_sent s + 1) stNum sqNum))
  else Ret (Leave Failed (mkSender (s_out s) (s_polls s) (s_sent s + 1) stNum sqNum)).

(** [for j := 0; j < 3; j++], [k] rounds to go *)
Fixpoint burst_loop (k : nat) (s : sender) : go ctl :=
  match k with
  | O => Ret (Continue s)
  | S k =>
      let! c := poll (fun s => transmit (s_stNum s) (u16 (s_sqNum s + 1)) s) s in
      match c with Continue s => burst_loop k s | Leave o s => Ret (Leave o s) end
  end.

(** [for i := 0; i < count; i++], [count] rounds to go *)
Fixpoint send_loop (count : nat) (s : sender) : go (outcome * sender) :=
  match count with
  | O => Ret (Done, s)
  | S count =>
      let! c := poll (fun s => transmit (u16 (s_stNum s + 1)) 1 s) s in
      match c with
      | Leave o s => Ret (o, s)
      | Continue s =>
          let! c := if burst then burst_loop 3 s else Ret (Continue s) in
          match c with Continue s => send_loop count s | Leave o s => Ret (o, s) end
      end
  end.

(** [send] after the socket is open; [--loop] runs it with the largest [int]
    as count *)
Definition send (count : nat) : go (outcome * sender) :=
  send_loop count (mkSender [] 0 0 1 1).
End sending.

(** The sending loop of [pingMode]: its [break] leaves the [select], not the
    loop, so the stop channel has no effect; [None] is [os.Exit(1)]. *)
Fixpoint ping_send {SE : SendEnv} (dstMAC srcMAC : bytes) (appid vid pcp : Z) (k : nat) (i : Z)
    (out : list bytes) : go (option (list bytes)) :=
  match k with
  | O => Ret (Some out)
  | S k =>
      let! frame := buildFrame dstMAC srcMAC (clock (length out)) appid (u16 (i + 1)) 1 vid pcp in
      if send_ok (length out) then ping_send dstMAC srcMAC appid vid pcp k (i + 1) (out ++ [frame])
      else Ret None
  end.

(** ** Reference definitions *)

(** The numbers of the frames of [count] events after event number [st]. *)
Fixpoint numbers (burst : bool) (st : Z) (count : nat) : list (Z * Z) :=
  match count with
  | O => []
  | S count =>
      let st := u16 (st + 1) in
      (st, 1) :: (if burst then [(st, 2); (st, 3); (st, 4)] else []) ++ numbers burst st count
  end.

(** What the receiver makes of its receptions, in order. *)
Fixpoint parse_all (appid : Z) (rs : list reception) : go (list (Z * parsed)) :=
  match rs with
  | [] => Ret []
  | r :: rs =>
      let! p := parseFrame (rx_buf r) (rx_len r) appid in
      let! ps := parse_all appid rs in
      Ret (if p_ok p then (rx_now r, p) :: ps else ps)
  end.

Definition key_of (e : Z * parsed) : Z * Z := (p_stNum e.2, p_sqNum e.2).

(** How often a tag was seen. *)
Definition tag_count (s : stats) (vid pcp : Z) : Z := default 0 (tags s !! vid ≫= (.!! pcp)).

(** ** Lemmas: statistics *)

Lemma frame_key_inj st sq st' sq' : frame_key st sq = frame_key st' sq' → (st, sq) = (st', sq').
Proof.
  unfold frame_key. intros H. apply bar_split in H as [H1 H2]; [|by apply pretty_Z_lacks..].
  apply (inj pretty) in H1. apply (inj pretty) in H2. by subst.
Qed.

Definition note (s : stats) (e : Z * parsed) : stats :=
  noteTagged (p_vid e.2) (p_pcp e.2)
    (noteFrame e.1 (frame_key (p_stNum e.2) (p_sqNum e.2)) (p_sentAt e.2) s).

Lemma recv_all_parse appid rs ps s :
  parse_all appid rs = Ret ps → recv_all appid rs s = Ret (foldl note s ps).
Proof.
  revert ps s. induction rs as [|r rs IH]; intros ps s; cbn [parse_all recv_all].
  - by intros [= <-].
  - unfold recv_frame. destruct (parseFrame _ _ _) as [p|]; cbn [go_bind]; [|discriminate].
    destruct (parse_all appid rs) as [ps'|]; cbn [go_bind]; [|discriminate]. intros [= <-].
    destruct (p_ok p); cbn [negb go_bind]; by rewrite (IH _ _ eq_refl).
Qed.

(** What one frame does to the counters, whatever its time stamp. *)
Lemma noteFrame_counts now key sentAt s :
  let s' := noteFrame now key sentAt s in
  let seen := bool_decide (key ∈ lastSeen s) in
  total s' = total s + 1 ∧
  unique s' = unique s + (if seen then 0 else 1) ∧
  dupes s' = dupes s + (if seen then 1 else 0) ∧
  lastSeen s' = {[key]} ∪ lastSeen s ∧ tags s' = tags s.
Proof.
  cbn zeta. unfold noteFrame.
  destruct (sentAt =? zeroTime); case_bool_decide; cbn; split_and!; try done; try lia; set_solver.
Qed.

Lemma noteTagged_counts vid pcp s :
  let s' := noteTagged vid pcp s in
  total s' = total s ∧ unique s' = unique s ∧ dupes s' = dupes s ∧ lastSeen s' = lastSeen s ∧
  latency s' = latency s.
Proof. cbn zeta. unfold noteTagged. by destruct (vid <? 0). Qed.

Lemma noteTagged_tags vid pcp s v p :
  tag_count (noteTagged vid pcp s) v p =
  tag_count s v p + (if bool_decide (0 <= vid ∧ vid = v ∧ pcp = p) then 1 else 0).
Proof.
  unfold noteTagged, tag_count. destruct (Z.ltb_spec vid 0).
  { rewrite bool_decide_false by lia. lia. }
  cbn [tags]. destruct (decide (vid = v)) as [->|Hv].
  - rewrite lookup_insert_eq. cbn. destruct (decide (pcp = p)) as [->|Hp].
    + rewrite lookup_insert_eq, bool_decide_true by done. by destruct (tags s !! v).
    + rewrite lookup_insert_ne, bool_decide_false by (done || tauto).
      rewrite Z.add_0_r. by destruct (tags s !! v).
  - rewrite lookup_insert_ne, bool_decide_false by (done || tauto). lia.
Qed.

(** The statistics as a function of the frames recognised so far. *)
Record stats_spec (s : stats) (ps : list (Z * parsed)) : Prop := {
  sp_total : total s = glen ps;
  sp_seen : ∀ st sq, frame_key st sq ∈ lastSeen s ↔ (st, sq) ∈ key_of <$> ps;
  sp_unique : unique s = Z.of_nat (size (list_to_set (key_of <$> ps) : gset (Z * Z)));
  sp_dupes : dupes s = total s - unique s;
  sp_tags : ∀ v p, tag_count s v p =
    glen (filter (fun e => 0 <= p_vid e.2 ∧ p_vid e.2 = v ∧ p_pcp e.2 = p) ps);
}.

Lemma stats_spec_new : stats_spec new_stats [].
Proof.
  split; try done. intros st sq. cbn. split; intros H.
  - by apply elem_of_empty in H.
  - by apply elem_of_nil in H.
Qed.

Lemma stats_spec_note s ps e : stats_spec s ps → stats_spec (note s e) (ps ++ [e]).
Proof.
  intros [Ht Hs Hu Hd Hg]. unfold note. set (k := frame_key _ _).
  destruct (noteTagged_counts (p_vid e.2) (p_pcp e.2) (noteFrame e.1 k (p_sentAt e.2) s))
    as (T1 & T2 & T3 & T4 & _).
  destruct (noteFrame_counts e.1 k (p_sentAt e.2) s) as (F1 & F2 & F3 & F4 & F5).
  assert (Hk : bool_decide (k ∈ lastSeen s) = bool_decide (key_of e ∈ key_of <$> ps)).
  { apply bool_decide_ext. unfold k. by rewrite Hs. }
  rewrite Hk in F2, F3. split.
  - rewrite T1, F1, Ht, glen_app. len_lia.
  - intros st sq. rewrite T4, F4, elem_of_union, elem_of_singleton, Hs, fmap_app, elem_of_app.
    cbn [fmap list_fmap]. rewrite list_elem_of_singleton. unfold key_of at 3. unfold k.
    split; intros [H|H]; auto.
    + right. by apply frame_key_inj in H.
    + left. by injection H as <- <-.
  - rewrite T2, F2, Hu, fmap_app, list_to_set_app_L. cbn [fmap list_fmap list_to_set foldr].
    destruct (decide (key_of e ∈ key_of <$> ps)) as [Hin|Hin];
      [rewrite bool_decide_true by done|rewrite bool_decide_false by done].
    + rewrite Z.add_0_r, union_empty_r_L. do 2 f_equal. symmetry.
      rewrite union_comm_L. apply subseteq_union_1_L, singleton_subseteq_l.
      by rewrite elem_of_list_to_set.
    + rewrite union_empty_r_L, size_union, size_singleton; [lia|].
      apply disjoint_singleton_r. by rewrite elem_of_list_to_set.
  - rewrite T1, T2, T3, F1, F2, F3, Hd. destruct (bool_decide (key_of e ∈ _)); lia.
  - intros v p. rewrite noteTagged_tags. unfold tag_count in *. rewrite F5, Hg.
    rewrite filter_app, glen_app. f_equal. rewrite filter_cons, filter_nil.
    destruct (decide (0 <= p_vid e.2 ∧ p_vid e.2 = v ∧ p_pcp e.2 = p));
      [by rewrite bool_decide_true|by rewrite bool_decide_false].
Qed.

Lemma stats_spec_all ps : ∀ s ps0, stats_spec s ps0 → stats_spec (foldl note s ps) (ps0 ++ ps).
Proof.
  induction ps as [|e ps IH]; intros s ps0 Hs; cbn [foldl]; [by rewrite app_nil_r|].
  rewrite cons_middle, app_assoc. by apply IH, stats_spec_note.
Qed.

(** The receiver's statistics are exact.  Whatever frames arrive, the
    total is the number of frames recognised, the unique count is the number
    of distinct pairs of state and sequence number among them, the duplicate
    count is the rest, and every VLAN tag is counted as often as it was seen. *)
Theorem recv_counts appid rs ps :
  parse_all appid rs = Ret ps →
  ∃ s, recv_all appid rs new_stats = Ret s ∧
    total s = glen ps ∧
    unique s = Z.of_nat (size (list_to_set (key_of <$> ps) : gset (Z * Z))) ∧
    dupes s = total s - unique s ∧
    ∀ v p, tag_count s v p =
      glen (filter (fun e => 0 <= p_vid e.2 ∧ p_vid e.2 = v ∧ p_pcp e.2 = p) ps).
Proof.
  intros Hp. exists (foldl note new_stats ps). split; [by apply recv_all_parse|].
  pose proof (stats_spec_all ps new_stats [] stats_spec_new) as Hs. cbn [app] in Hs.
  by destruct Hs.
Qed.

(** A stream without state and sequence numbers (Sampled Values) counts as one
    frame and its duplicates. *)
Lemma sv_stream_counts appid rs ps :
  parse_all appid rs = Ret ps → ps ≠ [] → Forall (fun e => key_of e = (0, 0)) ps →
  ∃ s, recv_all appid rs new_stats = Ret s ∧ unique s = 1 ∧ dupes s = glen ps - 1.
Proof.
  intros Hp Hne Hall. exists (foldl note new_stats ps). split; [by apply recv_all_parse|].
  pose proof (stats_spec_all ps new_stats [] stats_spec_new) as [Ht _ Hu Hd _]. cbn [app] in *.
  assert (list_to_set (key_of <$> ps) = ({[(0, 0)]} : gset (Z * Z))) as Hset.
  { apply set_eq. intros x. rewrite elem_of_list_to_set, elem_of_singleton. split.
    - intros (e & -> & He)%list_elem_of_fmap. by apply (proj1 (Forall_forall _ _) Hall).
    - intros ->. destruct ps as [|e ps]; [done|]. apply Forall_cons in Hall as [He _].
      cbn [fmap list_fmap]. rewrite He. left. }
  rewrite Hset, size_singleton in Hu. lia.
Qed.

(** In ping mode every echo after the first is a duplicate, and the latency
    noted is the time between two readings of the clock at its arrival. *)
Lemma ping_frame_counts appid sentAt r p s :
  parseFrame (rx_buf r) (rx_len r) appid = Ret p → p_ok p = true → sentAt ≠ zeroTime →
  "ping"%string ∈ lastSeen s →
  ∃ s', ping_frame appid sentAt r s = Ret s' ∧ unique s' = unique s ∧ dupes s' = dupes s + 1 ∧
    latency s' = latency s ++ (if time_Sub (rx_now r) sentAt >? 0 then [time_Sub (rx_now r) sentAt] else []).
Proof.
  intros Hp Ho Hz Hs. unfold ping_frame. rewrite Hp. cbn [go_bind]. rewrite Ho. cbn [negb].
  eexists. split; [done|]. unfold noteFrame. rewrite (proj2 (Z.eqb_neq _ _) Hz).
  rewrite bool_decide_true by done. cbn [unique dupes latency]. split_and!; [done..|].
  destruct (_ >? 0); [done|by rewrite app_nil_r].
Qed.

(** ** Lemmas: sending *)

Lemma buildFrameEt_total d s now appid st sq vid pcp et dst :
  is_u16 st → is_u16 sq → et = etGOOSE ∨ et = etSV →
  ∃ f, buildFrameEt d s now appid st sq vid pcp et dst = Ret f.
Proof.
  intros Hst Hsq [-> | ->]; unfold buildFrameEt; cbn [Z.eqb Pos.eqb etGOOSE etSV].
  - destruct (goose_read_back st sq now false 1 gcbRef datSet gcbRef []) as (a & -> & _);
      [done|done|constructor|vm_compute; discriminate|]. by eexists.
  - destruct (sv_read_back st 1 "MU01" []) as (a & -> & _);
      [done|constructor|vm_compute; discriminate|]. by eexists.
Qed.

Section sent.
Context {SE : SendEnv}.
Context (dstMAC srcMAC : bytes) (appid vid pcp et : Z) (Het : et = etGOOSE ∨ et = etSV).

Local Notation build now st sq := (buildFrameEt dstMAC srcMAC now appid st sq vid pcp et dstMAC).

(** The frames written are the frames with the numbers [l], in order, each
    built at its own instant. *)
Definition written (l : list (Z * Z)) (out : list bytes) : Prop :=
  length out = length l ∧
  ∀ k st sq, l !! k = Some (st, sq) → ∃ f, out !! k = Some f ∧ build (clock k) st sq = Ret f.

Lemma written_snoc l out st sq f :
  written l out → build (clock (length out)) st sq = Ret f → written (l ++ [(st, sq)]) (out ++ [f]).
Proof.
  intros [Hl Hw] Hf. split; [rewrite !length_app; cbn; lia|]. intros k st' sq' Hk.
  destruct (decide (k < length l)%nat).
  - rewrite lookup_app_l in Hk by lia. destruct (Hw _ _ _ Hk) as (f' & Ho & Hb).
    exists f'. by rewrite lookup_app_l by lia.
  - rewrite lookup_app_r in Hk by lia. apply list_lookup_singleton_Some in Hk as [Hk [= <- <-]].
    exists f. assert (k = length out) as -> by lia. by rewrite lookup_app_r, Nat.sub_diag by lia.
Qed.

(** Sender states that have written [l] last. *)
Definition sent_ok (l : list (Z * Z)) (s : sender) : Prop :=
  written l (s_out s) ∧ is_u16 (s_stNum s).

(** What an environment without signals and failures looks like. *)
Definition undisturbed : Prop := (∀ k, stopped k = false) ∧ (∀ k, send_ok k = true).

(** One polled transmission: it either went out, or the loop ends. *)
Lemma poll_transmit (g h : sender → Z) l s :
  (∀ o p n, g (mkSender o p n (s_stNum s) (s_sqNum s)) = g s) →
  (∀ o p n, h (mkSender o p n (s_stNum s) (s_sqNum s)) = h s) →
  sent_ok l s → is_u16 (g s) → is_u16 (h s) →
  ∃ c, poll (fun s => transmit dstMAC srcMAC appid vid pcp et (g s) (h s) s) s = Ret c ∧
    match c with
    | Continue s' => sent_ok (l ++ [(g s, h s)]) s' ∧ s_stNum s' = g s ∧ s_sqNum s' = h s ∧
                     s_sent s' = s_sent s + 1
    | Leave o s' => o ≠ Done ∧ sent_ok l s' ∧ ¬ undisturbed
    end.
Proof.
  intros Hg Hh [Hw Hst] Hgs Hhs. unfold poll, transmit.
  destruct (stopped (s_polls s)) eqn:Es.
  { eexists. split; [done|]. split_and!; [done|done|]. intros [Hu _]. by rewrite Hu in Es. }
  cbn [s_out s_polls s_sent s_stNum s_sqNum]. rewrite Hg, Hh.
  destruct (buildFrameEt_total dstMAC srcMAC (clock (length (s_out s))) appid (g s) (h s) vid pcp et dstMAC)
    as [f Hf]; [done..|]. rewrite Hf. cbn [go_bind].
  destruct (send_ok (length (s_out s))) eqn:Eo; eexists; (split; [done|]).
  - split_and!; try done. split; [|done]. by apply written_snoc.
  - split_and!; [done|by split|]. intros [_ Hu]. by rewrite Hu in Eo.
Qed.

Fixpoint burst_numbers (st q : Z) (k : nat) : list (Z * Z) :=
  match k with O => [] | S k => (st, q + 1) :: burst_numbers st (q + 1) k end.

Lemma burst_loop_spec k : ∀ l s,
  sent_ok l s → 0 <= s_sqNum s → s_sqNum s + Z.of_nat k < 65536 →
  ∃ c, burst_loop dstMAC srcMAC appid vid pcp et k s = Ret c ∧
    match c with
    | Continue s' => sent_ok (l ++ burst_numbers (s_stNum s) (s_sqNum s) k) s' ∧ s_stNum s' = s_stNum s ∧
                     s_sent s' = s_sent s + Z.of_nat k
    | Leave o s' => o ≠ Done ∧ ¬ undisturbed ∧
                    ∃ m, sent_ok (l ++ take m (burst_numbers (s_stNum s) (s_sqNum s) k)) s'
    end.
Proof.
  induction k as [|k IH]; intros l s Hs Hq Hk; cbn [burst_loop burst_numbers].
  { eexists. split; [done|]. rewrite app_nil_r. split_and!; [done..|lia]. }
  assert (Hu : u16 (s_sqNum s + 1) = s_sqNum s + 1) by (apply u16_small; unfold is_u16; lia).
  destruct (poll_transmit s_stNum (fun s => u16 (s_sqNum s + 1)) l s) as (c & -> & Hc);
    [done|done|done|apply Hs|auto with go_db|]. cbn [go_bind]. destruct c as [s1|o s1].
  - destruct Hc as (H1 & H2 & H3 & H4). rewrite Hu in H1, H3.
    destruct (IH _ s1 H1) as (c & -> & Hc); [lia..|]. exists c. split; [done|].
    rewrite H2, H3, <-app_assoc in Hc. destruct c as [s2|o s2].
    + destruct Hc as (? & ? & ?). split_and!; [done..|lia].
    + destruct Hc as (? & ? & m & Hm). split_and!; [done..|]. exists (S m).
      by rewrite <-app_assoc in Hm.
  - destruct Hc as (H1 & H2 & H3). eexists. split; [done|]. split_and!; [done..|].
    exists 0%nat. by rewrite app_nil_r.
Qed.

Lemma numbers_cons burst st n :
  numbers burst st (S n) =
  ((u16 (st + 1), 1) :: (if burst then burst_numbers (u16 (st + 1)) 1 3 else [])) ++
  numbers burst (u16 (st + 1)) n.
Proof. by destruct burst. Qed.

Lemma send_loop_spec burst count : ∀ l s,
  sent_ok l s →
  ∃ o s' m, send_loop dstMAC srcMAC appid vid pcp et burst count s = Ret (o, s') ∧
    sent_ok (l ++ take m (numbers burst (s_stNum s) count)) s' ∧
    (o = Done → m = length (numbers burst (s_stNum s) count) ∧ s_sent s' = s_sent s + Z.of_nat m) ∧
    (undisturbed → o = Done).
Proof.
  induction count as [|count IH]; intros l s Hs; cbn [send_loop].
  { exists Done, s, 0%nat. split_and!; [done|by rewrite app_nil_r|cbn; lia|done]. }
  rewrite numbers_cons. set (st := u16 (s_stNum s + 1)).
  set (ev := (st, 1) :: (if burst then burst_numbers st 1 3 else [])).
  destruct (poll_transmit (fun s => u16 (s_stNum s + 1)) (fun _ => 1) l s) as (c & -> & Hc);
    [done|done|done|auto with go_db|unfold is_u16; lia|].
  cbn [go_bind]. destruct c as [s1|o s1].
  2:{ destruct Hc as (H1 & H2 & H3). exists o, s1, 0%nat. split_and!; [done|by rewrite app_nil_r|done|done]. }
  destruct Hc as (H1 & H2 & H3 & H4). fold st in H1, H2.
  assert (Hb : ∃ c, (if burst then burst_loop dstMAC srcMAC appid vid pcp et 3 s1 else Ret (Continue s1)) = Ret c ∧
    match c with
    | Continue s' => sent_ok (l ++ ev) s' ∧ s_stNum s' = st ∧ s_sent s' = s_sent s + glen ev
    | Leave o s' => o ≠ Done ∧ ¬ undisturbed ∧ ∃ m, sent_ok (l ++ take m ev) s'
    end).
  { unfold ev. destruct burst.
    - destruct (burst_loop_spec 3 _ s1 H1) as (c & -> & Hc); [lia..|]. exists c. split; [done|].
      rewrite H2, H3, <-app_assoc in Hc. destruct c as [s2|o s2].
      + destruct Hc as (? & ? & Hn). split_and!; [done..|]. rewrite Hn, H4. change (glen ((st, 1) :: burst_numbers st 1 3)) with 4. lia.
      + destruct Hc as (? & ? & m & Hm). split_and!; [done..|]. exists (S m).
        by rewrite <-app_assoc in Hm.
    - eexists. split; [done|]. split_and!; [done..|]. rewrite H4. change (glen [(st, 1)]) with 1. lia. }
  destruct Hb as (c & -> & Hc). cbn [go_bind]. destruct c as [s2|o s2].
  - destruct Hc as (K1 & K2 & K3). destruct (IH _ s2 K1) as (o & s' & m & -> & L1 & L2 & L3).
    rewrite K2 in L1, L2. exists o, s', (length ev + m)%nat. split_and!; [done| | |done].
    + by rewrite take_app_add, app_assoc.
    + intros Ho. destruct (L2 Ho) as [-> Hn]. rewrite length_app. split; [done|].
      rewrite Hn, K3. unfold glen. lia.
  - destruct Hc as (K1 & K2 & m & K3). exists o, s2, (m `min` length ev)%nat. split_and!; [done| |done|done].
    rewrite take_app_le, <-take_take, (take_ge ev) by lia. done.
Qed.
End sent.

(** *** The numbers are distinct *)

Lemma numbers_spec burst n : ∀ st x,
  x ∈ numbers burst st n →
  ∃ i, 0 <= i < Z.of_nat n ∧ x.1 = u16 (st + 1 + i) ∧ is_u16 x.2.
Proof.
  induction n as [|n IH]; intros st x; cbn [numbers]; intros Hx; [by apply elem_of_nil in Hx|].
  assert (Hx' : x ∈ [(u16 (st + 1), 1); (u16 (st + 1), 2); (u16 (st + 1), 3); (u16 (st + 1), 4)] ∨
    x ∈ numbers burst (u16 (st + 1)) n).
  { destruct burst; [by apply (elem_of_app [_; _; _; _])|].
    apply elem_of_cons in Hx as [-> |Hx]; [left; left|by right]. }
  destruct Hx' as [Hx'|Hx'].
  - exists 0. split; [lia|]. rewrite Z.add_0_r.
    repeat (apply elem_of_cons in Hx' as [-> |Hx']; [split; [done|unfold is_u16; cbn; lia]|]).
    by apply elem_of_nil in Hx'.
  - destruct (IH _ _ Hx') as (i & Hi & -> & Hq). exists (i + 1). split; [lia|]. split; [|done].
    unfold u16. zlia.
Qed.

Lemma numbers_NoDup burst n : ∀ st, Z.of_nat n <= 65536 → NoDup (numbers burst st n).
Proof.
  induction n as [|n IH]; intros st Hn; [constructor|].
  assert (Hfresh : ∀ q, (u16 (st + 1), q) ∉ numbers burst (u16 (st + 1)) n).
  { intros q Hin. apply numbers_spec in Hin as (i & Hi & He & _). cbn [fst] in He. unfold u16 in He. zlia. }
  assert (Hr : NoDup (numbers burst (u16 (st + 1)) n)) by (apply IH; lia).
  cbn [numbers]. destruct burst; cbn [app]; repeat (apply NoDup_cons; split); try done;
    rewrite ?not_elem_of_cons; split_and!; try done; congruence.
Qed.

(** Distinct numbers, distinct frames: how many different ones a list of
    indices names. *)
Lemma size_list_to_set_fmap {A B} `{Countable A, Countable B} (g : A → B) (l : list A) :
  (∀ x y, x ∈ l → y ∈ l → g x = g y → x = y) →
  size (list_to_set (g <$> l) : gset B) = size (list_to_set l : gset A).
Proof.
  induction l as [|a l IH]; intros Hg; [done|]. cbn [fmap list_fmap list_to_set foldr].
  assert (IH' : size (list_to_set (g <$> l) : gset B) = size (list_to_set l : gset A)).
  { apply IH. intros x y Hx Hy. apply Hg; by right. }
  destruct (decide (a ∈ l)) as [Ha|Ha].
  - rewrite !subseteq_union_1_L; [done| |];
      apply singleton_subseteq_l, elem_of_list_to_set; [done|by apply list_elem_of_fmap_2].
  - rewrite !size_union, !size_singleton, IH'; [done| |];
      apply disjoint_singleton_l; rewrite elem_of_list_to_set; [done|].
    intros (y & Hy & Hin)%list_elem_of_fmap. apply Hg in Hy; [by subst|left|by right].
Qed.

(** ** Properties: sending and receiving *)

(** What [send] puts on the wire, whatever the signal and the socket do: a
    prefix of the frames numbered (2,1), (3,1), ... modulo 2^16, with the three
    retransmissions (n,2), (n,3), (n,4) of each event in burst mode, each
    frame built with its number at its own instant; all of them, and counted
    right, when it ends by itself, which it does when it is left alone. *)
Theorem send_numbering {SE : SendEnv} dst src appid vid pcp et burst count :
  et = etGOOSE ∨ et = etSV →
  let l := numbers burst 1 count in
  ∃ o s m, send dst src appid vid pcp et burst count = Ret (o, s) ∧
    length (s_out s) = (m `min` length l)%nat ∧
    (∀ k st sq, take m l !! k = Some (st, sq) →
       ∃ f, s_out s !! k = Some f ∧
            buildFrameEt dst src (clock k) appid st sq vid pcp et dst = Ret f) ∧
    (o = Done → m = length l ∧ s_sent s = Z.of_nat (length l)) ∧
    ((∀ k, stopped k = false) → (∀ k, send_ok k = true) → o = Done).
Proof.
  intros Het l. unfold send.
  destruct (send_loop_spec dst src appid vid pcp et Het burst count [] (mkSender [] 0 0 1 1))
    as (o & s & m & -> & [[Hl Hw] _] & Hd & Hu).
  { split; [by split|unfold is_u16; cbn; lia]. }
  cbn [app s_stNum s_sent] in *. fold l in Hl, Hw, Hd.
  exists o, s, m. split_and!; [done|by rewrite Hl, length_take|done| |].
  - intros Ho. destruct (Hd Ho) as [-> Hn]. split; [done|lia].
  - intros H1 H2. by apply Hu.
Qed.

(** What one reception of the [k]-th frame looks like. *)
Record rx_of := mkOf { of_idx : nat; of_now : Z; of_pad : bytes; of_stale : bytes }.

Definition reception_of (out : list bytes) (e : rx_of) : reception :=
  let f := default [] (out !! of_idx e) in
  mkRx (of_now e) (f ++ of_pad e ++ of_stale e) (glen (f ++ of_pad e)).

Definition rx_ok (n : nat) (e : rx_of) : Prop :=
  (of_idx e < n)%nat ∧ bytes_ok (of_pad e) ∧ glen (of_pad e) <= 4096.

Lemma parse_all_keys {SE : SendEnv} dst src appid vid pcp l out es :
  bytes_ok dst → bytes_ok src → is_u16 appid →
  Forall (fun x => is_u16 x.1 ∧ is_u16 x.2) l →
  written dst src appid vid pcp etGOOSE l out → Forall (rx_ok (length l)) es →
  ∃ ps, parse_all appid (reception_of out <$> es) = Ret ps ∧
    key_of <$> ps = (fun e => l !!! of_idx e) <$> es.
Proof.
  intros Hd Hs Ha Hl [Hlen Hw]. induction 1 as [|e es (Hi & Hp & Hg) _ (ps & Hps & Hk)].
  { by exists []. }
  destruct (lookup_lt_is_Some_2 l (of_idx e) Hi) as [[st sq] Hle].
  destruct (Hw _ _ _ Hle) as (f & Hf & Hb).
  destruct (proj1 (Forall_lookup _ _) Hl _ _ Hle) as [Hst Hsq]. cbn [fst snd] in *.
  change (buildFrameEt dst src (clock (of_idx e)) appid st sq vid pcp etGOOSE dst)
    with (buildFrame dst src (clock (of_idx e)) appid st sq vid pcp) in Hb.
  destruct (goose_frame_read_back dst src (clock (of_idx e)) appid st sq vid pcp (of_pad e) (of_stale e) appid)
    as (apdu & Hb' & _ & _ & Hr); [try done; by right..|].
  rewrite Hb in Hb'. injection Hb' as Hff. rewrite <-Hff in Hr.
  assert (Hrx : reception_of out e =
    mkRx (of_now e) (f ++ of_pad e ++ of_stale e) (glen (f ++ of_pad e)))
    by (unfold reception_of; by rewrite Hf).
  rewrite !fmap_cons. cbn [parse_all]. rewrite Hrx. cbn [rx_buf rx_len rx_now].
  rewrite Hr. cbn [go_bind]. rewrite Hps. cbn [go_bind p_ok]. eexists.
  split; [done|]. rewrite fmap_cons. f_equal; [|done].
  by rewrite (list_lookup_total_correct _ _ _ Hle).
Qed.

(** The numbers read back from any receptions of a stream. *)
Lemma stream_counts {SE : SendEnv} dst src appid vid pcp burst count es :
  bytes_ok dst → bytes_ok src → is_u16 appid → Z.of_nat count <= 65536 →
  (∀ k, stopped k = false) → (∀ k, send_ok k = true) →
  Forall (rx_ok (length (numbers burst 1 count))) es →
  ∃ sd ps, send dst src appid vid pcp etGOOSE burst count = Ret (Done, sd) ∧
    length (s_out sd) = length (numbers burst 1 count) ∧
    parse_all appid (reception_of (s_out sd) <$> es) = Ret ps ∧
    glen ps = glen es ∧
    size (list_to_set (key_of <$> ps) : gset (Z * Z)) = size (list_to_set (of_idx <$> es) : gset nat).
Proof.
  intros Hd Hs Ha Hn H1 H2 Hes. set (l := numbers burst 1 count) in *. unfold send.
  destruct (send_loop_spec dst src appid vid pcp etGOOSE (or_introl eq_refl) burst count []
              (mkSender [] 0 0 1 1)) as (o & sd & m & Hsend & [Hw _] & Hdone & Hu).
  { split; [by split|unfold is_u16; cbn; lia]. }
  cbn [app s_stNum s_sent] in *. fold l in Hw, Hdone.
  assert (o = Done) as -> by by apply Hu.
  destruct (Hdone eq_refl) as [-> _]. rewrite take_ge in Hw by done.
  assert (Hl16 : Forall (fun x => is_u16 x.1 ∧ is_u16 x.2) l).
  { apply Forall_forall. intros x Hx. apply numbers_spec in Hx as (i & _ & -> & ?). auto with go_db. }
  destruct (parse_all_keys dst src appid vid pcp l (s_out sd) es) as (ps & Hps & Hk); [done..|].
  exists sd, ps.
  assert (Hlp : glen ps = glen es).
  { unfold glen. f_equal. apply (f_equal length) in Hk. by rewrite !length_fmap in Hk. }
  split_and!; [done|by destruct Hw|done|done|].
  rewrite Hk.
  change ((fun e => l !!! of_idx e) <$> es) with ((fun k => l !!! k) ∘ of_idx <$> es).
  rewrite list_fmap_compose.
  apply size_list_to_set_fmap. intros x y Hx Hy Hxy.
  assert (Hin : ∀ z, z ∈ of_idx <$> es → l !! z = Some (l !!! z)).
  { intros z (e & -> & He)%list_elem_of_fmap. apply list_lookup_lookup_total_lt.
    by apply (proj1 (Forall_forall _ _) Hes). }
  eapply NoDup_lookup; [by apply (numbers_NoDup burst count 1)|by apply Hin|].
  fold l. rewrite Hxy. by apply Hin.
Qed.

(** Sender and receiver agree.  A GOOSE stream of at most 2^16 events is
    sent; the receiver gets its frames any number of times, in any order, some
    not at all, padded and in a dirty buffer.  Its total is the number of
    receptions and its unique count the number of different frames among
    them: what is missing from it was lost, what is above it was duplicated. *)
Theorem stream_accounting {SE : SendEnv} dst src appid vid pcp burst count es :
  bytes_ok dst → bytes_ok src → is_u16 appid → Z.of_nat count <= 65536 →
  (∀ k, stopped k = false) → (∀ k, send_ok k = true) →
  Forall (rx_ok (length (numbers burst 1 count))) es →
  ∃ sd s, send dst src appid vid pcp etGOOSE burst count = Ret (Done, sd) ∧
    length (s_out sd) = length (numbers burst 1 count) ∧
    recv_all appid (reception_of (s_out sd) <$> es) new_stats = Ret s ∧
    total s = glen es ∧
    unique s = Z.of_nat (size (list_to_set (of_idx <$> es) : gset nat)) ∧
    dupes s = total s - unique s.
Proof.
  intros Hd Hs Ha Hn H1 H2 Hes.
  destruct (stream_counts dst src appid vid pcp burst count es) as (sd & ps & Hsend & Hl & Hps & Hg & Hz); [done..|].
  exists sd, (foldl note new_stats ps).
  pose proof (stats_spec_all ps new_stats [] stats_spec_new) as [Ht _ Hq Hdup _]. cbn [app] in *.
  split_and!; [done|done|by apply recv_all_parse|lia|by rewrite Hq, Hz|done].
Qed.

(** ** Ping mode *)

(** Ping mode sends all its frames whatever the stop channel says. *)
Lemma ping_ignores_stop {SE : SendEnv} dst src appid vid pcp k i out :
  0 <= i → (∀ k, send_ok k = true) →
  ∃ fs, ping_send dst src appid vid pcp k i out = Ret (Some (out ++ fs)) ∧ length fs = k.
Proof.
  intros Hi Hok. revert i out Hi. induction k as [|k IH]; intros i out Hi; cbn [ping_send].
  { exists []. by rewrite app_nil_r. }
  destruct (goose_read_back (u16 (i + 1)) 1 (clock (length out)) false 1 gcbRef datSet gcbRef [])
    as (a & Hb & _); [auto with go_db|unfold is_u16; lia|constructor|vm_compute; discriminate|].
  unfold buildFrame. rewrite Hb. cbn [go_bind]. rewrite Hok.
  set (f := assembleFrame _ _ _ _ _ _ _).
  destruct (IH (i + 1) (out ++ [f])) as (fs & -> & Hl); [lia|].
  exists (f :: fs). rewrite <-app_assoc. split; [done|]. cbn. lia.
Qed.

(** ** Concrete inputs *)

#[local] Instance demo_env_send : SendEnv :=
  {| stopped := fun _ => false; clock := fun k => 1700000000000000000 + Z.of_nat k; send_ok := fun _ => true |}.

Lemma send_numbering_witness :
  ∃ o s m, send demo_dst demo_src 0x1001 0 4 etGOOSE true 2 = Ret (o, s) ∧
    length (s_out s) = (m `min` length (numbers true 1 2))%nat ∧
    (∀ k st sq, take m (numbers true 1 2) !! k = Some (st, sq) →
       ∃ f, s_out s !! k = Some f ∧
            buildFrameEt demo_dst demo_src (clock k) 0x1001 st sq 0 4 etGOOSE demo_dst = Ret f) ∧
    (o = Done → m = length (numbers true 1 2) ∧ s_sent s = Z.of_nat (length (numbers true 1 2))) ∧
    ((∀ k, stopped k = false) → (∀ k, send_ok k = true) → o = Done).
Proof. apply (send_numbering demo_dst demo_src 0x1001 0 4 etGOOSE true 2). by left. Defined.

(** Two events without bursts; the second frame arrives twice, the first not. *)
Lemma stream_accounting_witness :
  let es := [mkOf 1 5 [] []; mkOf 1 6 [0] [9]] in
  ∃ sd s, send demo_dst demo_src 0x1001 0 4 etGOOSE false 2 = Ret (Done, sd) ∧
    length (s_out sd) = length (numbers false 1 2) ∧
    recv_all 0x1001 (reception_of (s_out sd) <$> es) new_stats = Ret s ∧
    total s = 2 ∧ unique s = 1 ∧ dupes s = total s - unique s.
Proof.
  apply (stream_accounting demo_dst demo_src 0x1001 0 4 false 2 [mkOf 1 5 [] []; mkOf 1 6 [0] [9]]).
  - apply demo_macs_ok.
  - apply demo_macs_ok.
  - unfold is_u16. lia.
  - lia.
  - done.
  - done.
  - repeat (apply Forall_cons_2; [split_and!; [cbn; lia| |vm_compute; discriminate]|]); [constructor| |constructor].
    apply Forall_cons_2; [unfold is_byte; lia|constructor].
Defined.

(** A minimal GOOSE frame with VLAN tag 5, priority 4, received twice. *)
Definition demo_goose : bytes :=
  assembleFrame demo_dst demo_src 0x1001
    [0x61; 13; 0x85; 2; 0; 7; 0x86; 2; 0; 1; 0xab; 3; 1; 1; 0xff] 5 4 etGOOSE.

Lemma recv_counts_witness :
  let p := mkParsed 0x1001 7 1 0 zeroTime true 5 4 true in
  let ps := [(5, p); (6, p)] in
  ∃ s, recv_all 0x1001 [mkRx 5 demo_goose 41; mkRx 6 demo_goose 41; mkRx 7 [1; 2; 3] 3] new_stats = Ret s ∧
    total s = 2 ∧ unique s = 1 ∧ dupes s = total s - unique s ∧
    ∀ v p, tag_count s v p =
      glen (filter (fun e => 0 <= p_vid e.2 ∧ p_vid e.2 = v ∧ p_pcp e.2 = p) ps).
Proof.
  intros p ps.
  apply (recv_counts 0x1001 [mkRx 5 demo_goose 41; mkRx 6 demo_goose 41; mkRx 7 [1; 2; 3] 3] ps).
  vm_compute. reflexivity.
Defined.
