(* ===== verification/Session.v ===== *)
(** * Session: the traffic generator as a program

    Models the command line of [src/cmd/trafficgen/main.go] ([main]) and the
    whole loop of [recv]: its deadline, its stop channel, read errors, time-outs
    and partial reports.  The last theorem runs both ends: a command line that
    sends, and a receiving session that hears what was sent. *)

From S2P Require Import Prelude Pattern Ber Iec GooseFrame Trafficgen.

(** ** Command line *)

(** The flags of [main] that decide what is sent or received.  The rate only
    sets the pace, the duration is the deadline of the session below. *)
Record flags := mkFlags {
  f_list : bool; f_mode : string; f_et : string; f_mcast : string; f_src : string;
  f_appid : Z; f_count : Z; f_vid : Z; f_pcp : Z; f_burst : bool; f_loop : bool }.

(** The ways [main] gives up with status 1. *)
Inductive flag_error := BadEt (et : string) | BadMcast (s : string) | BadSrc (s : string).

(** What [main] goes on to do. *)
Inductive action :=
| ListDevices
| DoSend (dst src : bytes) (appid count vid pcp : Z) (burst loop : bool) (et : Z)
| DoRecv (appid : Z) (loop : bool)
| DoPing (dst src : bytes) (appid count vid pcp : Z).

(** The switch on [--et]: EtherType and default destination *)
Definition et_default (et : string) : option (Z * string) :=
  let e := ToLower et in
  if String.eqb e "goose" then Some (etGOOSE, "01:0c:cd:01:00:01"%string)
  else if String.eqb e "sv" then Some (etSV, "01:0c:cd:04:00:00"%string)
  else None.

(** [main] *)
Definition main_action (f : flags) : result flag_error action :=
  if f_list f then Ok ListDevices
  else match et_default (f_et f) with
  | None => Err (BadEt (f_et f))
  | Some (etV, dflt) =>
      let mcast := if String.eqb (f_mcast f) "" then dflt else f_mcast f in
      match parseMAC mcast with
      | Err e => Err (BadMcast e)
      | Ok dst =>
          match parseMAC (f_src f) with
          | Err e => Err (BadSrc e)
          | Ok src =>
              let appidV := u16 (f_appid f) in
              if String.eqb (f_mode f) "send" then
                Ok (DoSend dst src appidV (f_count f) (f_vid f) (f_pcp f) (f_burst f) (f_loop f) etV)
              else if String.eqb (f_mode f) "recv" then Ok (DoRecv appidV (f_loop f))
              else Ok (DoPing dst src appidV (f_count f) (f_vid f) (f_pcp f))
          end
      end
  end.

(** The number of rounds of the loop of [send]. *)
Definition rounds_of_count (count : Z) (loop : bool) : nat :=
  Z.to_nat (if loop then maxInt else count).

(** ** The receiving loop *)

(** What one round observes: the clock at the deadline check, the stop channel,
    the result of [sock.Recv] (its error, or a reception; no bytes after a
    time-out) and the clock when a partial report is noted. *)
Record round := mkRound { rd_check : Z; rd_stop : bool; rd_recv : result Z reception; rd_report : Z }.

(** How a session ends. *)
Inductive recv_end := DeadlineReached | Interrupted | ReadError (e : Z).

(** Statistics, instant of the last partial report, lines printed. *)
Record listener := mkListener { l_stats : stats; l_last : Z; l_printed : list string }.

Section receiving.
Context (appid deadline : Z) (loop : bool).

(** The checks before [sock.Recv], and its error *)
Definition round_end (rd : round) : option recv_end :=
  if negb loop && (deadline <? rd_check rd) then Some DeadlineReached
  else if rd_stop rd then Some Interrupted
  else match rd_recv rd with Err e => Some (ReadError e) | Ok _ => None end.

(** A round without a frame: [time.Since(lastReport) > 10*time.Second] *)
Definition idle (r : reception) (rd : round) (st : listener) : listener :=
  if loop && (time_Sub (rx_now r) (l_last st) >? 10000000000) then
    mkListener (l_stats st) (rd_report rd)
      (l_printed st ++ [("recv: partial " +:+ partial (l_stats st))%string])
  else st.

(** The loop of [recv]; [None] while it is still listening *)
Fixpoint recv_loop (rds : list round) (st : listener) : go (option recv_end * listener) :=
  match rds with
  | [] => Ret (None, st)
  | rd :: rds =>
      match round_end rd, rd_recv rd with
      | Some e, _ => Ret (Some e, st)
      | None, Err e => Ret (Some (ReadError e), st)
      | None, Ok r =>
          if rx_len r =? 0 then recv_loop rds (idle r rd st)
          else
            let! s := recv_frame appid r (l_stats st) in
            recv_loop rds (mkListener s (l_last st) (l_printed st))
      end
  end.

(** [recv] after the socket is open; [start] is when the deadline is taken *)
Definition recv (start : Z) (rds : list round) : go (option recv_end * listener) :=
  recv_loop rds (mkListener new_stats start []).

(** ** Reference definitions *)

(** The frames heard before the session ends, and how it ends. *)
Fixpoint heard (rds : list round) : list reception :=
  match rds with
  | [] => []
  | rd :: rds =>
      match round_end rd, rd_recv rd with
      | None, Ok r => if rx_len r =? 0 then heard rds else r :: heard rds
      | _, _ => []
      end
  end.

Fixpoint first_end (rds : list round) : option recv_end :=
  match rds with
  | [] => None
  | rd :: rds => match round_end rd with Some e => Some e | None => first_end rds end
  end.

Lemma round_end_None rd : round_end rd = None → ∃ r, rd_recv rd = Ok r.
Proof.
  unfold round_end. destruct (_ && _); [done|]. destruct (rd_stop rd); [done|].
  destruct (rd_recv rd) as [r|]; [by exists r|done].
Qed.

Lemma idle_stats r rd st : l_stats (idle r rd st) = l_stats st.
Proof. unfold idle. by destruct (_ && _). Qed.

Lemma recv_loop_heard rds : ∀ st s,
  recv_all appid (heard rds) (l_stats st) = Ret s →
  ∃ st', recv_loop rds st = Ret (first_end rds, st') ∧ l_stats st' = s.
Proof.
  induction rds as [|rd rds IH]; intros st s; cbn [heard recv_loop first_end].
  { intros [= <-]. by exists st. }
  destruct (round_end rd) as [e|] eqn:Er.
  { intros [= <-]. by exists st. }
  destruct (round_end_None rd Er) as [r ->]. destruct (rx_len r =? 0).
  - intros Hs. apply IH. by rewrite idle_stats.
  - cbn [recv_all]. destruct (recv_frame appid r (l_stats st)) as [s'|]; cbn [go_bind]; [|discriminate].
    intros Hs. by apply IH.
Qed.

(** A session that is not told to run for ever ends by its deadline. *)
Lemma first_end_deadline rds rd :
  loop = false → rd ∈ rds → deadline < rd_check rd → first_end rds ≠ None.
Proof.
  intros Hl Hin Hd. induction Hin as [rds|rd' rds Hin IH]; cbn [first_end].
  - unfold round_end. rewrite Hl. cbn [negb andb]. by rewrite (proj2 (Z.ltb_lt _ _) Hd).
  - destruct (round_end _); [done|auto].
Qed.
End receiving.

(** ** Properties *)

(** C31: what a receiving session reports.  Whatever the rounds bring, the
    session ends at its first deadline, stop signal or read error (and, without
    [--loop], not later than the first round past the deadline); the counters
    it then reports are exact for the frames heard until then: the total is
    the number recognised, the unique count the number of distinct pairs of
    state and sequence number, the duplicates are the rest, and every VLAN tag
    is counted as often as it was seen. *)
Theorem recv_session appid deadline loop start rds ps :
  parse_all appid (heard deadline loop rds) = Ret ps →
  ∃ st, recv appid deadline loop start rds = Ret (first_end deadline loop rds, st) ∧
    total (l_stats st) = glen ps ∧
    unique (l_stats st) = Z.of_nat (size (list_to_set (key_of <$> ps) : gset (Z * Z))) ∧
    dupes (l_stats st) = total (l_stats st) - unique (l_stats st) ∧
    (∀ v p, tag_count (l_stats st) v p =
      glen (filter (fun e => 0 <= p_vid e.2 ∧ p_vid e.2 = v ∧ p_pcp e.2 = p) ps)) ∧
    (loop = false → (∃ rd, rd ∈ rds ∧ deadline < rd_check rd) → first_end deadline loop rds ≠ None).
Proof.
  intros Hp. pose proof (recv_all_parse appid _ ps new_stats Hp) as Hr.
  destruct (recv_loop_heard appid deadline loop rds (mkListener new_stats start []) _ Hr) as (st & Hst & Hs).
  exists st. split; [done|]. rewrite Hs.
  destruct (stats_spec_all ps new_stats [] stats_spec_new) as [Ht _ Hu Hd Hg]. cbn [app] in *.
  split_and!; [done..|]. intros Hl (rd & Hin & Hdl). by eapply first_end_deadline.
Qed.

(** An accepted command line always has two six-byte addresses and a known
    EtherType. *)
Lemma main_action_shape f dst src appid count vid pcp burst loop et :
  main_action f = Ok (DoSend dst src appid count vid pcp burst loop et) →
  bytes_ok dst ∧ bytes_ok src ∧ glen dst = 6 ∧ glen src = 6 ∧ is_u16 appid ∧ (et = etGOOSE ∨ et = etSV) ∧
  appid = u16 (f_appid f) ∧ count = f_count f ∧ vid = f_vid f ∧ pcp = f_pcp f ∧ burst = f_burst f ∧ loop = f_loop f.
Proof.
  unfold main_action. destruct (f_list f); [done|].
  destruct (et_default (f_et f)) as [[etV dflt]|] eqn:Ee; [|done].
  assert (Het : etV = etGOOSE ∨ etV = etSV).
  { unfold et_default in Ee. destruct (String.eqb _ _); [injection Ee; auto|].
    destruct (String.eqb _ _); [injection Ee; auto|done]. }
  destruct (parseMAC (if String.eqb (f_mcast f) "" then dflt else f_mcast f)) as [d|] eqn:Ed; [|done].
  destruct (parseMAC (f_src f)) as [sr|] eqn:Es; [|done].
  destruct (String.eqb (f_mode f) "send"); [|destruct (String.eqb (f_mode f) "recv"); discriminate].
  intros [= <- <- <- <- <- <- <- <- <-].
  destruct (parseMAC_shape _ _ Ed), (parseMAC_shape _ _ Es). split_and!; auto with go_db.
Qed.

(** C18: the generator measures loss and duplication.  A command line that is
    accepted in send mode for GOOSE, with at most 2^16 events, sends all its
    frames; a receiving session for the same APPID that hears any of them, any
    number of times, in any order, padded and in a dirty buffer, reports as
    total the receptions and as unique the different frames among them. *)
Theorem generator_session {SE : SendEnv} f dst src appid count vid pcp burst et deadline loop start rds es :
  main_action f = Ok (DoSend dst src appid count vid pcp burst false et) →
  et = etGOOSE → count <= 65536 →
  (∀ k, stopped k = false) → (∀ k, send_ok k = true) →
  Forall (rx_ok (length (numbers burst 1 (rounds_of_count count false)))) es →
  ∃ sd, send dst src appid vid pcp et burst (rounds_of_count count false) = Ret (Done, sd) ∧
    length (s_out sd) = length (numbers burst 1 (rounds_of_count count false)) ∧
    (heard deadline loop rds = reception_of (s_out sd) <$> es →
     ∃ st, recv appid deadline loop start rds = Ret (first_end deadline loop rds, st) ∧
       total (l_stats st) = glen es ∧
       unique (l_stats st) = Z.of_nat (size (list_to_set (of_idx <$> es) : gset nat)) ∧
       dupes (l_stats st) = glen es - unique (l_stats st)).
Proof.
  intros Hm -> Hc H1 H2 Hes.
  destruct (main_action_shape _ _ _ _ _ _ _ _ _ _ Hm) as (Hd & Hs & _ & _ & Ha & _).
  destruct (stream_counts dst src appid vid pcp burst (rounds_of_count count false) es)
    as (sd & ps & Hsend & Hl & Hps & Hg & Hz); [done|done|done|unfold rounds_of_count; lia|done|done|done|].
  exists sd. split_and!; [done|done|]. intros Hh. rewrite <-Hh in Hps.
  pose proof (recv_all_parse appid _ ps new_stats Hps) as Hr.
  destruct (recv_loop_heard appid deadline loop rds (mkListener new_stats start []) _ Hr) as (st & Hst & Hss).
  exists st. split; [done|]. rewrite Hss.
  destruct (stats_spec_all ps new_stats [] stats_spec_new) as [Ht _ Hu Hdup _]. cbn [app] in *.
  split_and!; [lia|by rewrite Hu, Hz|lia].
Qed.

(** ** Concrete inputs *)

#[local] Instance demo_env_session : SendEnv :=
  {| stopped := fun _ => false; clock := fun k => 1700000000000000000 + Z.of_nat k; send_ok := fun _ => true |}.

Definition demo_flags : flags :=
  mkFlags false "send" "GOOSE" "" "02:00:00:00:00:01" 0x1001 2 0 4 false false.

Example demo_flags_send :
  main_action demo_flags = Ok (DoSend demo_dst demo_src 0x1001 2 0 4 false false etGOOSE).
Proof. vm_compute. reflexivity. Qed.

(** A frame, a time-out, the same frame, and then the deadline. *)
Lemma recv_session_witness :
  let p := mkParsed 0x1001 7 1 0 zeroTime true 5 4 true in
  let ps := [(5, p); (8, p)] in
  let rds := [mkRound 1 false (Ok (mkRx 5 demo_goose 41)) 0; mkRound 2 false (Ok (mkRx 6 demo_goose 0)) 0;
              mkRound 7 false (Ok (mkRx 8 demo_goose 41)) 0; mkRound 11 false (Ok (mkRx 12 demo_goose 41)) 0] in
  ∃ st, recv 0x1001 10 false 0 rds = Ret (Some DeadlineReached, st) ∧
    total (l_stats st) = 2 ∧ unique (l_stats st) = 1 ∧
    dupes (l_stats st) = total (l_stats st) - unique (l_stats st) ∧
    (∀ v p, tag_count (l_stats st) v p =
      glen (filter (fun e => 0 <= p_vid e.2 ∧ p_vid e.2 = v ∧ p_pcp e.2 = p) ps)) ∧
    (false = false → (∃ rd, rd ∈ rds ∧ 10 < rd_check rd) → Some DeadlineReached ≠ None).
Proof.
  intros p ps rds. apply (recv_session 0x1001 10 false 0 rds ps). vm_compute. reflexivity.
Defined.

Lemma generator_session_witness :
  ∃ sd, send demo_dst demo_src 0x1001 0 4 etGOOSE false (rounds_of_count 2 false) = Ret (Done, sd) ∧
    length (s_out sd) = length (numbers false 1 (rounds_of_count 2 false)) ∧
    (heard 10 false [mkRound 1 false (Ok (reception_of (s_out sd) (mkOf 1 5 [] []))) 0] =
       reception_of (s_out sd) <$> [mkOf 1 5 [] []] →
     ∃ st, recv 0x1001 10 false 0 [mkRound 1 false (Ok (reception_of (s_out sd) (mkOf 1 5 [] []))) 0] =
       Ret (None, st) ∧
       total (l_stats st) = 1 ∧ unique (l_stats st) = 1 ∧ dupes (l_stats st) = 0).
Proof.
  destruct (send demo_dst demo_src 0x1001 0 4 etGOOSE false (rounds_of_count 2 false)) as [[o sd0]|] eqn:E;
    [|vm_compute in E; discriminate].
  destruct (generator_session demo_flags demo_dst demo_src 0x1001 2 0 4 false etGOOSE 10 false 0
              [mkRound 1 false (Ok (reception_of (s_out sd0) (mkOf 1 5 [] []))) 0] [mkOf 1 5 [] []])
    as (sd & Hs & Hl & Hr).
  - vm_compute. reflexivity.
  - reflexivity.
  - lia.
  - done.
  - done.
  - apply Forall_cons_2; [split_and!; [apply Nat.ltb_lt; reflexivity|constructor|vm_compute; discriminate]|constructor].
  - rewrite E in Hs. injection Hs as -> ->. exists sd. split_and!; [done|done|].
    intros Hh. destruct (Hr Hh) as (st & H1 & H2 & H3 & H4).
    exists st. split_and!; [exact H1|exact H2|exact H3|]. rewrite H4, H3. reflexivity.
Defined.
