(* ===== verification/Report.v ===== *)
(** * Report: the final report of a receiver

    Models [stats.report] of [src/cmd/trafficgen/main.go]: the counter line,
    the latency line with its percentiles, and the line of observed VLAN tags.
    The percentile index goes through [float64]; positive doubles are modelled
    as mantissa and exponent with rounding to 53 bits, to nearest, ties to
    even.  How durations are printed is not modelled: the latency line is the
    record of its values. *)

From stdpp Require Import sorting.
From S2P Require Import Prelude Trafficgen.

(** ** float64 *)

(** A positive double [fm * 2^fe], or zero. *)
Record float64 := mkFloat { fm : Z; fe : Z }.

(** [p * 2^e] rounded to 53 significant bits.  The exponents here are far
    from both ends of the range. *)
Definition round53 (p e : Z) : float64 :=
  let k := Z.max 0 (Z.log2 p + 1 - 53) in
  let q := p / 2 ^ k in
  let r := p mod 2 ^ k in
  mkFloat (if (2 * r >? 2 ^ k) || ((2 * r =? 2 ^ k) && Z.odd q) then q + 1 else q) (e + k).

(** [float64(n)], [x * y], [int(x)] *)
Definition float_of_int (n : Z) : float64 := round53 n 0.
Definition fmul (x y : float64) : float64 := round53 (fm x * fm y) (fe x + fe y).
Definition int_of (x : float64) : Z := Z.shiftl (fm x) (fe x).

(** The constants 0.50 and 0.95 as doubles. *)
Definition q50 : float64 := mkFloat 1 (-1).
Definition q95 : float64 := mkFloat 8556839292003942 (-53).

(** ** The report *)

(** [int(float64(len(s.latency)-1) * q)] *)
Definition pct_index (n : Z) (q : float64) : Z := int_of (fmul (float_of_int (n - 1)) q).

(** [l[i]] *)
Definition elem {A} (l : list A) (i : Z) : go A :=
  if (0 <=? i) && (i <? glen l) then match l !! Z.to_nat i with Some a => Ret a | None => Panic end else Panic.

(** The closure [p] *)
Definition p_latency (l : list Z) (q : float64) : go Z := elem l (pct_index (glen l) q).

(** The values of the latency line. *)
Record latency_row := mkRow { lr_min : Z; lr_p50 : Z; lr_p95 : Z; lr_max : Z; lr_n : Z }.

(** [fmt.Sprintf("vid=%d pcp=%d (n=%d)", vid, pcp, n)] *)
Definition tag_text (e : Z * Z * Z) : string :=
  ("vid=" +:+ pretty e.1.1 +:+ " pcp=" +:+ pretty e.1.2 +:+ " (n=" +:+ pretty e.2 +:+ ")")%string.

(** The two nested loops over [tags]; the order of a map range does not matter
    after the sort *)
Definition tag_entries (t : gmap Z (gmap Z Z)) : list (Z * Z * Z) :=
  '(vid, pcps) ← map_to_list t; '(pcp, n) ← map_to_list pcps; [(vid, pcp, n)].

(** [report]: counter line, latency line, tag line, and the latencies, which
    are sorted in place.  Any correct sort of numbers gives the same list. *)
Definition report (label : string) (s : stats) : go (string * option latency_row * option string * list Z) :=
  let head := (label +:+ ": total=" +:+ pretty (total s) +:+ " unique=" +:+ pretty (unique s) +:+
               " dupes=" +:+ pretty (dupes s))%string in
  let tail := if Z.of_nat (size (tags s)) >? 0 then
                Some (label +:+ ": observed tags: " +:+
                      Join ", " (merge_sort String.le (tag_text <$> tag_entries (tags s))))%string
              else None in
  if glen (latency s) >? 0 then
    let l := merge_sort Z.le (latency s) in
    let! lo := elem l 0 in
    let! p50 := p_latency l q50 in
    let! p95 := p_latency l q95 in
    let! hi := elem l (glen l - 1) in
    Ret (head, Some (mkRow lo p50 p95 hi (glen l)), tail, l)
  else Ret (head, None, tail, latency s).

(** ** Lemmas: rounding *)

Lemma round53_exact p e : 0 <= p < 2 ^ 53 → round53 p e = mkFloat p e.
Proof.
  intros Hp. unfold round53.
  assert (Z.max 0 (Z.log2 p + 1 - 53) = 0) as ->.
  { destruct (decide (p = 0)) as [->|]; [reflexivity|].
    assert (Z.log2 p < 53) by (apply Z.log2_lt_pow2; lia). lia. }
  change (2 ^ 0) with 1. rewrite Z.div_1_r, Z.mod_1_r. cbn. by rewrite Z.add_0_r.
Qed.

(** The rounded value is off by at most one part in 2^53. *)
Lemma round53_error p e :
  0 <= p → ∃ k, 0 <= k ∧ fe (round53 p e) = e + k ∧ (p < 2 ^ 106 → k <= 53) ∧
    (2 ^ 53 - 1) * p <= 2 ^ 53 * (fm (round53 p e) * 2 ^ k) <= (2 ^ 53 + 1) * p.
Proof.
  intros Hp. set (k := Z.max 0 (Z.log2 p + 1 - 53)). exists k.
  assert (Hk : 0 <= k) by lia. split; [done|]. split; [done|]. split.
  { intros Hb. destruct (decide (p = 0)) as [->|]; [unfold k; cbn; lia|].
    assert (Z.log2 p < 106) by (apply Z.log2_lt_pow2; lia). lia. }
  cbn [fm round53]. fold k.
  pose proof (Z.div_mod p (2 ^ k)) as Hdm. pose proof (Z.mod_pos_bound p (2 ^ k)) as Hr.
  assert (0 < 2 ^ k) as Hpos by (apply Z.pow_pos_nonneg; lia).
  specialize (Hdm ltac:(lia)). specialize (Hr Hpos).
  set (q := p / 2 ^ k) in *. set (r := p mod 2 ^ k) in *.
  destruct (decide (k = 0)) as [Hz|Hz].
  { assert (H1 : 2 ^ k = 1) by (rewrite Hz; reflexivity). clearbody q r. rewrite H1 in *.
    assert (r = 0) as -> by lia. assert (p = q) as <- by lia. change (2 * 0 >? 1) with false.
    change (2 * 0 =? 1) with false. cbn [orb andb]. lia. }
  assert (Hlow : 2 ^ 52 * 2 ^ k <= p).
  { rewrite <-Z.pow_add_r by lia. assert (0 < p).
    { destruct (decide (p = 0)) as [->|]; [|lia]. unfold k in Hz. cbn in Hz. lia. }
    pose proof (Z.log2_spec p) as Hl. replace (52 + k) with (Z.log2 p) by lia. lia. }
  change (2 ^ 53) with (2 * 2 ^ 52). set (h := 2 ^ 52) in *. assert (0 < h) by (unfold h; lia).
  clearbody h. clearbody q r.
  destruct (Z.gtb_spec (2 * r) (2 ^ k)); [cbn [orb]; nia|].
  destruct (Z.eqb_spec (2 * r) (2 ^ k)); cbn [andb orb]; [destruct (Z.odd q)|]; nia.
Qed.

(** The two indices. *)
Lemma pct_index_50 n : 1 <= n <= 2 ^ 53 → pct_index n q50 = (n - 1) / 2.
Proof.
  intros Hn. unfold pct_index, float_of_int, fmul. rewrite (round53_exact (n - 1) 0) by lia.
  cbn [fm fe q50]. rewrite Z.mul_1_r, round53_exact by lia.
  unfold int_of. cbn [fm fe]. change (0 + -1) with (-(1)). by rewrite Z.shiftl_opp_r, Z.shiftr_div_pow2 by lia.
Qed.

Lemma pct_index_95 n :
  1 <= n <= 2 ^ 48 → let i := pct_index n q95 in 0 <= i ∧ 20 * i <= 19 * (n - 1) <= 20 * (i + 1).
Proof.
  intros Hn i. assert (Hi : i = pct_index n q95) by done. clearbody i. revert Hi.
  unfold pct_index, float_of_int, fmul. rewrite (round53_exact (n - 1) 0) by lia.
  cbn [fm fe q95]. set (p := (n - 1) * 8556839292003942).
  destruct (round53_error p (0 + -53)) as (k & Hk0 & Hfe & Hk & He); [unfold p; lia|].
  specialize (Hk ltac:(unfold p; lia)). unfold int_of. rewrite Hfe.
  set (m := fm (round53 p (0 + -53))) in *. clearbody m.
  replace (0 + -53 + k) with (-(53 - k)) by lia. rewrite Z.shiftl_opp_r, Z.shiftr_div_pow2 by lia.
  intros Hi. set (d := 2 ^ (53 - k)) in *. assert (0 < d) by (apply Z.pow_pos_nonneg; lia).
  assert (Hdk : d * 2 ^ k = 2 ^ 53) by (unfold d; rewrite <-Z.pow_add_r by lia; f_equal; lia).
  assert (0 < 2 ^ k) by (apply Z.pow_pos_nonneg; lia). set (u := 2 ^ k) in *. clearbody u d.
  pose proof (Z.div_mod m d ltac:(lia)) as Hdm. pose proof (Z.mod_pos_bound m d ltac:(lia)) as Hr.
  rewrite <-Hi in Hdm. set (r := m mod d) in *. clearbody r.
  assert (Hlo : i * 2 ^ 53 <= m * u) by (rewrite <-Hdk; nia).
  assert (Hhi : m * u < (i + 1) * 2 ^ 53) by (rewrite <-Hdk; nia).
  set (v := m * u) in *. clearbody v. unfold p in He. clear -He Hlo Hhi Hn. lia.
Qed.

(** ** Lemmas: sorted lists and tags *)

Lemma elem_ok {A} (l : list A) i : 0 <= i < glen l → ∃ a, elem l i = Ret a ∧ l !! Z.to_nat i = Some a.
Proof.
  intros Hi. unfold elem. guard_true (0 <=? i). guard_true (i <? glen l). cbn [andb].
  destruct (lookup_lt_is_Some_2 l (Z.to_nat i)) as [a Ha]; [unfold glen in Hi; lia|].
  exists a. by rewrite Ha.
Qed.

Lemma sorted_lookup (l : list Z) i j a b :
  StronglySorted Z.le l → (i <= j)%nat → l !! i = Some a → l !! j = Some b → a <= b.
Proof.
  intros Hs. revert i j. induction Hs as [|x l Hs IH Hx]; intros i j Hij Ha Hb; [done|].
  destruct i as [|i], j as [|j]; cbn in Ha, Hb.
  - assert (a = b) by congruence. lia.
  - injection Ha as ->. rewrite Forall_forall in Hx. by eapply Hx, list_elem_of_lookup_2.
  - lia.
  - apply (IH i j); [lia|done..].
Qed.

Lemma elem_of_tag_entries t v p n :
  (v, p, n) ∈ tag_entries t ↔ ∃ pcps, t !! v = Some pcps ∧ pcps !! p = Some n.
Proof.
  unfold tag_entries. rewrite list_elem_of_bind. split.
  - intros ([v' pcps] & Hin & Ht%elem_of_map_to_list).
    apply list_elem_of_bind in Hin as ([p' n'] & He & Hp%elem_of_map_to_list).
    apply list_elem_of_singleton in He. injection He as -> -> ->. eauto.
  - intros (pcps & Ht & Hp). exists (v, pcps). split; [|by apply elem_of_map_to_list].
    apply list_elem_of_bind. exists (p, n). split; [by apply list_elem_of_singleton|].
    by apply elem_of_map_to_list.
Qed.

(** What the latency line says about the latencies. *)
Definition row_ok (lat l : list Z) (r : latency_row) : Prop :=
  lr_n r = glen lat ∧ lr_min r ∈ lat ∧ lr_max r ∈ lat ∧
  (∀ x, x ∈ lat → lr_min r <= x <= lr_max r) ∧
  lr_min r <= lr_p50 r <= lr_p95 r ∧ lr_p95 r <= lr_max r ∧
  l !! Z.to_nat ((glen lat - 1) / 2) = Some (lr_p50 r) ∧
  ∃ i, l !! Z.to_nat i = Some (lr_p95 r) ∧ 0 <= i ∧ 20 * i <= 19 * (glen lat - 1) <= 20 * (i + 1).

Lemma report_row lat (l := merge_sort Z.le lat) :
  0 < glen lat <= 2 ^ 48 →
  ∃ r, (let! lo := elem l 0 in let! p50 := p_latency l q50 in let! p95 := p_latency l q95 in
        let! hi := elem l (glen l - 1) in Ret (mkRow lo p50 p95 hi (glen l))) = Ret r ∧ row_ok lat l r.
Proof.
  intros Hn. assert (Hp : l ≡ₚ lat) by apply merge_sort_Permutation.
  assert (Hs : StronglySorted Z.le l) by apply (StronglySorted_merge_sort Z.le).
  assert (Hg : glen l = glen lat) by (unfold glen; by rewrite Hp). clearbody l.
  destruct (elem_ok l 0) as (lo & -> & Hlo); [lia|]. cbn [go_bind].
  pose proof (pct_index_50 (glen l)) as H50. pose proof (pct_index_95 (glen l)) as H95. cbn zeta in H95.
  specialize (H50 ltac:(lia)). specialize (H95 ltac:(lia)). unfold p_latency. rewrite H50.
  set (i := pct_index (glen l) q95) in *. clearbody i.
  destruct (elem_ok l ((glen l - 1) / 2)) as (a & -> & Ha); [zlia|]. cbn [go_bind].
  destruct (elem_ok l i) as (b & -> & Hb); [lia|]. cbn [go_bind].
  destruct (elem_ok l (glen l - 1)) as (hi & -> & Hhi); [lia|]. cbn [go_bind].
  assert (Hmono : ∀ x, x ∈ l → lo <= x <= hi).
  { intros x (j & Hj)%list_elem_of_lookup. pose proof (lookup_lt_Some _ _ _ Hj).
    split; [apply (sorted_lookup l 0 j)|apply (sorted_lookup l j (Z.to_nat (glen l - 1)))];
      try done; unfold glen in *; lia. }
  eexists. split; [done|]. unfold row_ok. cbn [lr_n lr_min lr_max lr_p50 lr_p95]. rewrite <-Hg.
  split_and!; try done.
  - rewrite <-Hp. by eapply list_elem_of_lookup_2.
  - rewrite <-Hp. by eapply list_elem_of_lookup_2.
  - intros x Hx. rewrite <-Hp in Hx. by apply Hmono.
  - apply Hmono. by eapply list_elem_of_lookup_2.
  - eapply (sorted_lookup l); [done| |exact Ha|exact Hb]. apply Z2Nat.inj_le; [zlia|lia|zlia].
  - apply Hmono. by eapply list_elem_of_lookup_2.
  - exists i. split_and!; [done|lia..].
Qed.

(** C40: the report of a receiver.  It never panics; it gives the counters; the
    latency line is there exactly when a latency was measured and shows the
    least and the greatest, the lower median, and a value at rank 0.95 (n - 1)
    rounded down, or one rank below, in order; the tag line is there exactly
    when a tag was seen and lists every tag with its count, sorted. *)
Theorem report_exact (label : string) (s : stats) :
  glen (latency s) <= 2 ^ 48 →
  ∃ row line l,
    report label s =
      Ret ((label +:+ ": total=" +:+ pretty (total s) +:+ " unique=" +:+ pretty (unique s) +:+
            " dupes=" +:+ pretty (dupes s))%string, row, line, l) ∧
    l ≡ₚ latency s ∧
    match row with None => latency s = [] | Some r => row_ok (latency s) l r end ∧
    match line with
    | None => tags s = ∅
    | Some t => ∃ parts, t = (label +:+ ": observed tags: " +:+ Join ", " parts)%string ∧
        Sorted String.le parts ∧
        ∀ x, x ∈ parts ↔ ∃ v p n, tags s !! v ≫= (.!! p) = Some n ∧ x = tag_text (v, p, n)
    end.
Proof.
  intros Hn. unfold report.
  set (line := if Z.of_nat (size (tags s)) >? 0 then _ else _). set (head := (label +:+ _)%string).
  assert (Hline : match line with
    | None => tags s = ∅
    | Some t => ∃ parts, t = (label +:+ ": observed tags: " +:+ Join ", " parts)%string ∧
        Sorted String.le parts ∧
        ∀ x, x ∈ parts ↔ ∃ v p n, tags s !! v ≫= (.!! p) = Some n ∧ x = tag_text (v, p, n)
    end).
  { unfold line. destruct (Z.gtb_spec (Z.of_nat (size (tags s))) 0).
    2:{ apply map_size_empty_inv. lia. }
    eexists. split; [done|]. split; [apply Sorted_merge_sort, _|].
    intros x. rewrite merge_sort_Permutation, list_elem_of_fmap. split.
    - intros ([[v p] n] & -> & (pcps & Hv & Hp)%elem_of_tag_entries). exists v, p, n. by rewrite Hv.
    - intros (v & p & n & Hv & ->). exists (v, p, n). split; [done|]. apply elem_of_tag_entries.
      destruct (tags s !! v) as [pcps|]; [|done]. by exists pcps. }
  clearbody line. destruct (Z.gtb_spec (glen (latency s)) 0) as [Hp|Hp].
  - destruct (report_row (latency s)) as (r & Hr & Hok); [lia|]. cbn zeta in Hr.
    exists (Some r), line, (merge_sort Z.le (latency s)).
    split_and!; [|apply merge_sort_Permutation|done|done].
    destruct (elem _ 0) as [lo|]; cbn [go_bind] in *; [|done].
    destruct (p_latency _ q50); cbn [go_bind] in *; [|done].
    destruct (p_latency _ q95); cbn [go_bind] in *; [|done].
    destruct (elem _ (_ - 1)); cbn [go_bind] in *; [|done]. by injection Hr as <-.
  - exists None, line, (latency s). split_and!; [done..| |done].
    destruct (latency s); [done|len_lia].
Qed.

Lemma report_exact_witness :
  let s := mkStats 4 3 1 [30; 10; 20] "k" ∅ {[5 := {[4 := 2]}; 0 := {[4 := 1]}]} in
  glen (latency s) <= 2 ^ 48 ∧
  ∃ row line l, report "recv" s = Ret ("recv: total=4 unique=3 dupes=1"%string, row, line, l) ∧
    l ≡ₚ latency s ∧
    match row with None => latency s = [] | Some r => row_ok (latency s) l r end ∧
    match line with
    | None => tags s = ∅
    | Some t => ∃ parts, t = ("recv" +:+ ": observed tags: " +:+ Join ", " parts)%string ∧
        Sorted String.le parts ∧
        ∀ x, x ∈ parts ↔ ∃ v p n, tags s !! v ≫= (.!! p) = Some n ∧ x = tag_text (v, p, n)
    end.
Proof. intros s. split; [done|]. apply (report_exact "recv" s). done. Defined.

(** Twenty values: the index of 0.95 is 18; the tags come out sorted. *)
Example report_demo :
  report "recv" (mkStats 2 1 1 (seqZ 1 20) "k" ∅ {[5 := {[4 := 2]}; 0 := {[4 := 1]}]}) =
  Ret ("recv: total=2 unique=1 dupes=1"%string, Some (mkRow 1 10 19 20 20),
       Some "recv: observed tags: vid=0 pcp=4 (n=1), vid=5 pcp=4 (n=2)"%string, seqZ 1 20).
Proof. vm_compute. reflexivity. Qed.
