(* ===== verification/Ping.v ===== *)
(** * Ping: the ping mode of the traffic generator

    Models [pingMode] of [src/cmd/trafficgen/main.go]: the sending loop, the
    receiving goroutine and the final report.  The goroutine's rounds are what
    it does before the report is printed; a panic in it ends the program. *)

From stdpp Require Import sorting.
From S2P Require Import Prelude Iec GooseFrame Trafficgen Report.

(** What one round of the goroutine observes: whether [done] is closed, the
    result of [sock.Recv], and the reading of [time.Now()]. *)
Record pround := mkPRound { pr_done : bool; pr_recv : result Z reception; pr_note : Z }.

(** The goroutine: whether it has returned, and the statistics. *)
Fixpoint ping_listen (appid : Z) (rds : list pround) (s : stats) : go (bool * stats) :=
  match rds with
  | [] => Ret (false, s)
  | rd :: rds =>
      if pr_done rd then Ret (true, s)
      else match pr_recv rd with
           | Err _ => ping_listen appid rds s
           | Ok r =>
               if rx_len r =? 0 then ping_listen appid rds s
               else
                 let! s := ping_frame appid (pr_note rd) r s in
                 ping_listen appid rds s
           end
  end.

(** How the mode ends: exit status 1 without a report, or the frames sent and
    the report printed. *)
Inductive ping_end :=
| PingNoSocket
| PingSendFailed
| PingReported (sent : list bytes) (r : string * option latency_row * option string * list Z).

(** [pingMode]; [opened] says whether [openSocket] succeeded *)
Definition pingMode {SE : SendEnv} (opened : bool) (dstMAC srcMAC : bytes) (appid count vid pcp : Z)
    (rds : list pround) : go ping_end :=
  if negb opened then Ret PingNoSocket
  else
    let! l := ping_listen appid rds new_stats in
    let! out := ping_send dstMAC srcMAC appid vid pcp (Z.to_nat count) 0 [] in
    match out with
    | None => Ret PingSendFailed
    | Some fs =>
        let! r := report "ping" l.2 in
        Ret (PingReported fs r)
    end.

(** ** Reference: the echoes *)

(** The receptions of the rounds until [done] is seen. *)
Fixpoint echoes (rds : list pround) : list (Z * reception) :=
  match rds with
  | [] => []
  | rd :: rds =>
      if pr_done rd then []
      else match pr_recv rd with
           | Err _ => echoes rds
           | Ok r => if rx_len r =? 0 then echoes rds else (pr_note rd, r) :: echoes rds
           end
  end.

(** The statistics of ping mode as a function of the number of echoes. *)
Record ping_spec (n : Z) (s : stats) : Prop := {
  pg_total : total s = n;
  pg_unique : unique s = Z.min 1 n;
  pg_dupes : dupes s = n - Z.min 1 n;
  pg_seen : "ping"%string ∈ lastSeen s ↔ 0 < n;
  pg_tags : tags s = ∅;
  pg_latency : glen (latency s) <= n;
}.

Lemma ping_spec_new : ping_spec 0 new_stats.
Proof. by split. Qed.

Lemma ping_spec_note n now sentAt s :
  0 <= n → ping_spec n s → ping_spec (n + 1) (noteFrame now "ping" sentAt s).
Proof.
  intros Hn [Ht Hu Hd Hs Hg Hl].
  destruct (noteFrame_counts now "ping" sentAt s) as (F1 & F2 & F3 & F4 & F5).
  assert (Hseen : bool_decide ("ping"%string ∈ lastSeen s) = (0 <? n)).
  { apply eq_true_iff_eq. rewrite bool_decide_eq_true, Z.ltb_lt. exact Hs. }
  rewrite Hseen in F2, F3. split.
  - lia.
  - rewrite F2, Hu. destruct (Z.ltb_spec 0 n); lia.
  - rewrite F3, Hd. destruct (Z.ltb_spec 0 n); lia.
  - rewrite F4, elem_of_union, elem_of_singleton. split; [lia|by left].
  - by rewrite F5.
  - unfold noteFrame. cbv zeta. destruct (sentAt =? zeroTime); [destruct (bool_decide _); cbn [latency]; lia|].
    assert (glen (if time_Sub now sentAt >? 0 then latency s ++ [time_Sub now sentAt] else latency s) <= n + 1).
    { destruct (_ >? 0); [rewrite glen_app; change (glen [time_Sub now sentAt]) with 1|]; lia. }
    destruct (bool_decide _); cbn [latency]; lia.
Qed.

(** The goroutine notes exactly the echoes it recognises. *)
Lemma ping_listen_spec appid rds : ∀ s n ps,
  0 <= n → ping_spec n s → parse_all appid (echoes rds).*2 = Ret ps →
  ∃ b s', ping_listen appid rds s = Ret (b, s') ∧ ping_spec (n + glen ps) s'.
Proof.
  induction rds as [|rd rds IH]; intros s n ps Hn Hs; cbn [echoes ping_listen].
  { cbn. intros [= <-]. exists false, s. split; [done|]. by rewrite Z.add_0_r. }
  destruct (pr_done rd).
  { cbn. intros [= <-]. exists true, s. split; [done|]. by rewrite Z.add_0_r. }
  destruct (pr_recv rd) as [r|e]; [|by apply IH]. destruct (rx_len r =? 0); [by apply IH|].
  rewrite fmap_cons. cbn [snd parse_all]. unfold ping_frame.
  destruct (parseFrame _ _ _) as [p|]; cbn [go_bind]; [|discriminate].
  destruct (parse_all appid (echoes rds).*2) as [ps'|] eqn:Hp; cbn [go_bind]; [|discriminate]. intros [= <-].
  destruct (p_ok p); cbn [negb go_bind]; [|by apply IH].
  destruct (IH (noteFrame (rx_now r) "ping" (pr_note rd) s) (n + 1) ps') as (b & s' & Hl & Hs');
    [lia|by apply ping_spec_note|done|].
  exists b, s'. split; [done|].
  assert (glen ((rx_now r, p) :: ps') = 1 + glen ps') as -> by len_lia.
  by replace (n + (1 + glen ps')) with (n + 1 + glen ps') by lia.
Qed.

(** A report does not panic and starts with the counters. *)
Lemma report_runs label s :
  glen (latency s) <= 2 ^ 48 →
  ∃ row tail l, report label s =
    Ret ((label +:+ ": total=" +:+ pretty (total s) +:+ " unique=" +:+ pretty (unique s) +:+
          " dupes=" +:+ pretty (dupes s))%string, row, tail, l) ∧ (tags s = ∅ → tail = None).
Proof.
  intros Hn. unfold report. set (line := if Z.of_nat (size (tags s)) >? 0 then _ else _).
  assert (Hline : tags s = ∅ → line = None) by (intros He; unfold line; by rewrite He).
  clearbody line. destruct (Z.gtb_spec (glen (latency s)) 0) as [Hp|Hp]; [|by eexists _, _, _].
  destruct (report_row (latency s)) as (r & Hr & _); [lia|]. cbn zeta in Hr.
  exists (Some r), line, (merge_sort Z.le (latency s)). split; [|done].
  destruct (elem _ 0) as [lo|]; cbn [go_bind] in *; [|done].
  destruct (p_latency _ q50); cbn [go_bind] in *; [|done].
  destruct (p_latency _ q95); cbn [go_bind] in *; [|done].
  destruct (elem _ (_ - 1)); cbn [go_bind] in *; [|done]. by injection Hr as <-.
Qed.

(** What ping mode reports.  With a socket that works it sends all its frames,
    whatever the stop channel says, and then reports the number of echoes its
    goroutine recognised until the report as total, at most one of them as
    unique, and the others as duplicates, without a tag line. *)
Theorem ping_session {SE : SendEnv} dst src appid count vid pcp rds ps :
  0 <= count → (∀ k, send_ok k = true) → parse_all appid (echoes rds).*2 = Ret ps → glen ps <= 2 ^ 48 →
  ∃ fs row l, pingMode true dst src appid count vid pcp rds =
    Ret (PingReported fs (("ping: total=" +:+ pretty (glen ps) +:+ " unique=" +:+ pretty (Z.min 1 (glen ps)) +:+
                           " dupes=" +:+ pretty (glen ps - Z.min 1 (glen ps)))%string, row, None, l)) ∧
    glen fs = count.
Proof.
  intros Hc Hok Hp Hn. unfold pingMode. cbn [negb].
  destruct (ping_listen_spec appid rds new_stats 0 ps) as (b & s & -> & [Ht Hu Hd _ Hg Hl]); [lia|apply ping_spec_new|done|].
  rewrite Z.add_0_l in *. cbn [go_bind snd].
  destruct (ping_ignores_stop dst src appid vid pcp (Z.to_nat count) 0 []) as (fs & -> & Hfs); [lia|done|].
  cbn [go_bind app]. destruct (report_runs "ping" s) as (row & tail & l & -> & Htail); [lia|].
  cbn [go_bind]. rewrite Htail, Ht, Hu, Hd by done. exists fs, row, l. split; [done|]. unfold glen. lia.
Qed.

(** ** Concrete inputs *)

#[local] Instance demo_env_ping : SendEnv :=
  {| stopped := fun _ => true; clock := fun k => 1700000000000000000 + Z.of_nat k; send_ok := fun _ => true |}.

(** A time-out, two echoes, and one that comes after [done]. *)
Definition demo_rounds : list pround :=
  [mkPRound false (Ok (mkRx 0 [] 0)) 0; mkPRound false (Ok (mkRx 6 demo_goose 41)) 5;
   mkPRound false (Err 11) 0; mkPRound false (Ok (mkRx 8 demo_goose 41)) 7; mkPRound true (Ok (mkRx 9 demo_goose 41)) 9].

Lemma ping_session_witness :
  ∃ fs row l, pingMode true demo_dst demo_src 0x1001 3 0 4 demo_rounds =
    Ret (PingReported fs ("ping: total=2 unique=1 dupes=1"%string, row, None, l)) ∧ glen fs = 3.
Proof.
  apply (ping_session demo_dst demo_src 0x1001 3 0 4 demo_rounds
    [(6, mkParsed 0x1001 7 1 0 zeroTime true 5 4 true); (8, mkParsed 0x1001 7 1 0 zeroTime true 5 4 true)]).
  - lia.
  - done.
  - vm_compute. reflexivity.
  - vm_compute. discriminate.
Defined.
