(* ===== verification/EndToEnd.v ===== *)
(** * EndToEnd: generated traffic through the redundancy network

    Puts the traffic generator ([GooseFrame], [Trafficgen]) on the SAN side of
    two RedBoxes ([Redundancy]): the test the generator exists for.  The
    frames it builds are ordinary SAN frames for the RedBoxes, and what the
    second RedBox hands to its SAN is recognised by the receiver. *)

From S2P Require Import Prelude Engine Hsr NodeTable Supervision Role Pattern Node PrpPath HsrPath Dispatch Redundancy Ber Iec GooseFrame Trafficgen.

Section end_to_end.
Context {MR : MapRange} {E : Env}.

(** An assembled frame is a SAN frame of its EtherType. *)
Lemma assembled_ethertype d s appid apdu vid pcp et :
  is_u16 et → is_tpid et = false → ethertype (assembleFrame d s appid apdu vid pcp et) = Some et.
Proof.
  intros Het Htp. set (f := assembleFrame d s appid apdu vid pcp et).
  pose proof (eth_hdr_words d s vid pcp et (apdu_hdr appid apdu ++ apdu) Het) as Hw.
  cbn zeta in Hw. rewrite <-assembleFrame_eq in Hw. fold f in Hw.
  pose proof (glen_assembleFrame d s appid apdu vid pcp et) as Hg. fold f in Hg.
  pose proof (glen_nonneg apdu). unfold eth_len in Hg.
  assert (Hn : ∃ n, length f = S n) by (destruct (length f) eqn:El; [unfold glen in *; destruct (vid >=? 0); lia|eauto]).
  destruct Hn as [n Hn]. unfold ethertype. rewrite Hn. cbn [et_scan]. destruct (vid >=? 0).
  - destruct Hw as (H12 & _ & H16). guard_false (glen f <? 12 + 2). rewrite H12.
    cbn [is_tpid Z.eqb Pos.eqb orb]. change (is_tpid 33024) with true. cbv iota.
    change (12 + 4) with 16. guard_false (glen f <? 16 + 2). by rewrite H16, Htp.
  - guard_false (glen f <? 12 + 2). by rewrite Hw, Htp.
Qed.

Lemma goose_san_frame d s appid apdu vid pcp :
  bytes_ok (assembleFrame d s appid apdu vid pcp etGOOSE) → glen apdu <= 300 →
  san_frame (assembleFrame d s appid apdu vid pcp etGOOSE).
Proof.
  intros Hb Hg. split; [done| |].
  - rewrite glen_assembleFrame. pose proof (hdr_len_bounds (assembleFrame d s appid apdu vid pcp etGOOSE)).
    unfold eth_len, RCTLen. destruct (vid >=? 0); lia.
  - exists etGOOSE. split; [apply assembled_ethertype; [unfold is_u16, etGOOSE; lia|done]|discriminate].
Qed.

(** C2: a GOOSE frame crosses the network.  The frame [f] the generator builds
    goes into RedBox [a]; for every non-empty sequence of arrivals of its two
    LAN copies at RedBox [b] within the entry lifetime, exactly one frame
    comes out of [b] towards the SAN, and the receiver there recognises it
    with the APPID, numbers, tag and time stamp of the sender, whatever its
    buffer held before. *)
Theorem goose_through_prp dst src now appid st sq vid pcp f (a b : Node) (t t0 : Z) (p0 : port)
    (l : list (Z * port)) (stale : bytes) :
  bytes_ok dst → bytes_ok src → is_u16 appid → is_u16 st → is_u16 sq →
  buildFrame dst src now appid st sq vid pcp = Ret f →
  prp_sender a f → prp_receiver b f t0 →
  let q := next_seq a (mac_of f 6) in
  Find (n_dupTable b) t0 (mac_of f 6) q = false → is_lan p0 = true →
  Forall (fun r => is_lan r.2 = true ∧
                   time_Sub r.1 t0 <= Milliseconds (entryForgetMs (n_Config b))) l →
  ∃ a' b' g,
    handleFrame t (mkEvent Interlink f) a = Ret (tt, a') ∧
    handle_all (arrivals f q ((t0, p0) :: l)) b = Ret (tt, b') ∧
    frames_of (n_sent b') = frames_of (n_sent b) ++ [(Interlink, g)] ∧
    parseFrame (g ++ stale) (glen g) appid =
    Ret (mkParsed appid st sq 0 (DecodeUtcTime (EncodeUtcTime now)) false
           (if vid >=? 0 then vid mod 4096 else -1) (if vid >=? 0 then pcp mod 8 else 0) true).
Proof.
  intros Hd Hs Ha Hst Hsq Hf Hsnd Hrcv q Hfind Hp0 Hall.
  set (z := zeros (Z.max (glen f) (min_len f) - glen f)).
  assert (Hz : bytes_ok z ∧ glen z <= 4096).
  { split; [unfold z; auto with go_db|]. pose proof (min_len_bounds f). pose proof (glen_nonneg f).
    unfold z. rewrite glen_zeros; lia. }
  destruct (goose_frame_read_back dst src now appid st sq vid pcp z stale appid)
    as (apdu & Hb & Hok & Hg & Hr); [try done; apply Hz || by right..|].
  rewrite Hb in Hf. injection Hf as Hf. rewrite Hf in *.
  destruct (prp_delivery t t0 f a b p0 l) as (a' & b' & H1 & _ & H2 & H3); [|done..|].
  { rewrite <-Hf. apply goose_san_frame; [by rewrite Hf|done]. }
  exists a', b', (pad f). split_and!; [done..|].
  unfold pad. fold z. rewrite <-app_assoc. exact Hr.
Qed.
End end_to_end.

(** ** A concrete network *)

#[local] Existing Instance sorted_range.
#[local] Existing Instance demo_env.

Definition demo_goose_frame : bytes :=
  match buildFrame demo_dst demo_src 1700000000000000000 0x1001 5 1 0 4 with Ret f => f | Panic => [] end.

Lemma demo_goose_sender : prp_sender demo_a demo_goose_frame.
Proof. split; [apply demo_node_ok|done..]. Qed.

Lemma demo_goose_receiver : prp_receiver demo_b demo_goose_frame 10.
Proof.
  split; [apply demo_node_ok|done|done|vm_compute; discriminate|vm_compute; reflexivity|].
  intros k e H. cbn in H. by rewrite lookup_empty in H.
Qed.

(** The copy of LAN B first, then that of LAN A. *)
Lemma goose_through_prp_witness :
  ∃ a' b' g,
    handleFrame 0 (mkEvent Interlink demo_goose_frame) demo_a = Ret (tt, a') ∧
    handle_all (arrivals demo_goose_frame 65535 [(10, LanB); (11, LanA)]) demo_b = Ret (tt, b') ∧
    frames_of (n_sent b') = [(Interlink, g)] ∧
    parseFrame (g ++ [7]) (glen g) 0x1001 =
    Ret (mkParsed 0x1001 5 1 0 (DecodeUtcTime (EncodeUtcTime 1700000000000000000)) false 0 4 true).
Proof.
  apply (goose_through_prp demo_dst demo_src 1700000000000000000 0x1001 5 1 0 4 demo_goose_frame
           demo_a demo_b 0 10 LanB [(11, LanA)] [7]).
  - apply demo_macs_ok.
  - apply demo_macs_ok.
  - unfold is_u16. lia.
  - unfold is_u16. lia.
  - unfold is_u16. lia.
  - vm_compute. reflexivity.
  - exact demo_goose_sender.
  - exact demo_goose_receiver.
  - vm_compute. reflexivity.
  - reflexivity.
  - constructor; [|constructor]. split; [reflexivity|vm_compute; discriminate].
Defined.
