(* ===== verification/RingBuf.v ===== *)
(** * RingBuf: the bounded log buffer of the console

    Models [src/internal/tui/ringbuf.go]: a line buffer that keeps the newest
    [capacity] non-empty lines of the bytes written to it and passes every
    write on to a sink.  Text is a byte string; the sink is the list of the
    writes it got.  Specification: the state is a function of the byte stream
    written so far, however it was cut into writes. *)

From S2P Require Import Prelude.

Definition newline : Z := 10.

(** [RingBuffer]; [tee] tells whether a sink was given, [teed] what it got *)
Record RingBuffer := mkRing {
  lines : list bytes; pending : bytes; capacity : Z; tee : bool; teed : list bytes }.

(** [NewRingBuffer] *)
Definition NewRingBuffer (capacity : Z) (tee : bool) : RingBuffer :=
  let capacity := if capacity <=? 0 then 200 else capacity in
  mkRing [] [] capacity tee [].

(** [push]: after the [copy], the first [capacity] lines are the newest *)
Definition push (line : bytes) (b : RingBuffer) : RingBuffer :=
  let l := lines b ++ [line] in
  let l := if glen l >? capacity b then sub l (glen l - capacity b) (glen l) else l in
  mkRing l (pending b) (capacity b) (tee b) (teed b).

(** The loop of [Write] over [s] from index [i], [k] bytes to go; it returns
    [start] too. *)
Fixpoint write_loop (k : nat) (s : bytes) (i start : Z) (b : RingBuffer) : Z * RingBuffer :=
  match k with
  | O => (start, b)
  | S k =>
      if s !!! Z.to_nat i =? newline then
        let line := sub s start i in
        let b := if bool_decide (line = []) then b else push line b in
        write_loop k s (i + 1) (i + 1) b
      else write_loop k s (i + 1) start b
  end.

(** [Write]: the number of bytes taken and the buffer *)
Definition Write (p : bytes) (b : RingBuffer) : Z * RingBuffer :=
  let s := pending b ++ p in
  let b := mkRing (lines b) [] (capacity b) (tee b) (teed b) in
  let '(start, b) := write_loop (length s) s 0 0 b in
  let pend := if start <? glen s then sub s start (glen s) else pending b in
  let out := if tee b then teed b ++ [p] else teed b in
  (glen p, mkRing (lines b) pend (capacity b) (tee b) out).

(** [Lines] *)
Definition Lines (n : Z) (b : RingBuffer) : list bytes :=
  let n := if (n <=? 0) || (n >? glen (lines b)) then glen (lines b) else n in
  sub (lines b) (glen (lines b) - n) (glen (lines b)).

(** [Len] *)
Definition Len (b : RingBuffer) : Z := glen (lines b).

(** ** Specification: the lines of a byte stream *)

(** The complete lines of a stream, and the unfinished last one; [cur] is
    what the current line has so far. *)
Fixpoint split_lines (cur stream : bytes) : list bytes * bytes :=
  match stream with
  | [] => ([], cur)
  | c :: stream =>
      if c =? newline then
        let '(ls, r) := split_lines [] stream in (cur :: ls, r)
      else split_lines (cur ++ [c]) stream
  end.

(** The last [n] elements. *)
Definition newest {A} (n : Z) (l : list A) : list A := drop (length l - Z.to_nat n) l.

(** The lines the buffer has to hold after [stream]. *)
Definition log_lines (n : Z) (stream : bytes) : list bytes :=
  newest n (filter (.≠ []) (split_lines [] stream).1).

Definition writes (ws : list bytes) (b : RingBuffer) : RingBuffer :=
  foldl (fun b p => (Write p b).2) b ws.

(** ** Lemmas *)

Lemma split_lines_app cur s t :
  split_lines cur (s ++ t) =
  let '(l1, r1) := split_lines cur s in
  let '(l2, r2) := split_lines r1 t in (l1 ++ l2, r2).
Proof.
  revert cur. induction s as [|c s IH]; intros cur; cbn [app split_lines].
  - by destruct (split_lines cur t).
  - destruct (c =? newline).
    + rewrite IH. destruct (split_lines [] s) as [l1 r1]. by destruct (split_lines r1 t).
    + apply IH.
Qed.

Lemma glen_newest {A} n (l : list A) : 0 <= n → glen (newest n l) = Z.min n (glen l).
Proof. intros. unfold newest. len_simpl. lia. Qed.

Lemma newest_newest {A} n (l k : list A) : newest n (newest n l ++ k) = newest n (l ++ k).
Proof.
  unfold newest. rewrite !length_app, length_drop.
  rewrite <-(drop_app_le l k) by lia. rewrite drop_drop. f_equal. lia.
Qed.

Lemma push_newest line b :
  0 < capacity b → glen (lines b) <= capacity b →
  push line b = mkRing (newest (capacity b) (lines b ++ [line])) (pending b) (capacity b) (tee b) (teed b).
Proof.
  intros Hc Hl. unfold push. f_equal. unfold newest.
  destruct (Z.gtb_spec (glen (lines b ++ [line])) (capacity b)).
  - unfold sub. rewrite take_ge by len_lia. f_equal. unfold glen in *. lia.
  - replace (length (lines b ++ [line]) - Z.to_nat (capacity b))%nat with 0%nat; [done|].
    unfold glen in *. lia.
Qed.

(** The buffer after the lines [ls] were pushed, empty ones left out. *)
Definition pushed (ls : list bytes) (b : RingBuffer) : RingBuffer :=
  mkRing (newest (capacity b) (lines b ++ filter (.≠ []) ls)) (pending b) (capacity b) (tee b) (teed b).

Definition ring_ok (b : RingBuffer) : Prop := 0 < capacity b ∧ glen (lines b) <= capacity b.

Lemma newest_all {A} n (l : list A) : glen l <= n → newest n l = l.
Proof. intros. unfold newest. replace (length l - Z.to_nat n)%nat with 0%nat; [done|]. unfold glen in *. lia. Qed.

Lemma pushed_nil b : ring_ok b → pushed [] b = b.
Proof.
  intros [_ Hl]. unfold pushed. change (filter (.≠ []) ([] : list bytes)) with ([] : list bytes).
  rewrite app_nil_r, newest_all by done. by destruct b.
Qed.

Lemma pushed_ok ls b : ring_ok b → ring_ok (pushed ls b).
Proof. intros [Hc Hl]. split; [done|]. cbn [pushed lines capacity]. rewrite glen_newest; lia. Qed.

Lemma pushed_pushed ls ls' b : pushed ls' (pushed ls b) = pushed (ls ++ ls') b.
Proof.
  unfold pushed. cbn [lines pending capacity tee teed]. f_equal.
  by rewrite newest_newest, <-app_assoc, filter_app.
Qed.

Lemma push_pushed line b :
  ring_ok b → (if bool_decide (line = []) then b else push line b) = pushed [line] b.
Proof.
  intros Hb. case_bool_decide as Hl.
  - subst. by rewrite <-(pushed_nil b) at 1.
  - rewrite push_newest by apply Hb. unfold pushed. by rewrite filter_cons, decide_True, filter_nil.
Qed.

(** The loop cuts [s] into lines as the specification does. *)
Lemma write_loop_spec k s i start b :
  ring_ok b → 0 <= start <= i → i + Z.of_nat k = glen s →
  let '(ls, r) := split_lines (sub s start i) (drop (Z.to_nat i) s) in
  write_loop k s i start b = (glen s - glen r, pushed ls b) ∧ sub s (glen s - glen r) (glen s) = r.
Proof.
  revert i start b. induction k as [|k IH]; intros i start b Hb Hs Hi.
  - rewrite drop_ge by (unfold glen in *; lia). cbn [split_lines write_loop].
    assert (i = glen s) as -> by lia. rewrite glen_sub by lia.
    replace (glen s - (glen s - start)) with start by lia. by rewrite pushed_nil.
  - assert (Hlt : (Z.to_nat i < length s)%nat) by (unfold glen in *; lia).
    rewrite (drop_S s (s !!! Z.to_nat i)) by (by apply list_lookup_lookup_total_lt).
    replace (S (Z.to_nat i)) with (Z.to_nat (i + 1)) by lia.
    cbn [split_lines write_loop]. destruct (s !!! Z.to_nat i =? newline) eqn:E.
    + rewrite push_pushed by done.
      specialize (IH (i + 1) (i + 1) (pushed [sub s start i] b)).
      assert (He : sub s (i + 1) (i + 1) = []) by (unfold sub; by rewrite Z.sub_diag).
      rewrite He in IH. destruct (split_lines [] _) as [ls r].
      rewrite pushed_pushed in IH. apply IH; [by apply pushed_ok|lia..].
    + assert (Hsn : sub s start i ++ [s !!! Z.to_nat i] = sub s start (i + 1)).
      { rewrite <-(sub_app_split s start i (i + 1)) by lia. f_equal. unfold sub.
        rewrite (drop_S s (s !!! Z.to_nat i)) by (by apply list_lookup_lookup_total_lt).
        by replace (Z.to_nat (i + 1 - i)) with 1%nat by lia. }
      rewrite Hsn. apply IH; [done|lia..].
Qed.

Lemma Write_spec p b :
  ring_ok b →
  let '(ls, r) := split_lines [] (pending b ++ p) in
  Write p b = (glen p, mkRing (lines (pushed ls b)) r (capacity b) (tee b)
                         (if tee b then teed b ++ [p] else teed b)).
Proof.
  intros Hb. unfold Write. set (s := pending b ++ p).
  set (b0 := mkRing (lines b) [] (capacity b) (tee b) (teed b)).
  pose proof (write_loop_spec (length s) s 0 0 b0 Hb ltac:(lia) ltac:(unfold glen; lia)) as Hw.
  change (sub s 0 0) with ([] : bytes) in Hw. rewrite drop_0 in Hw.
  destruct (split_lines [] s) as [ls r]. destruct Hw as [-> Hr].
  assert ((if glen s - glen r <? glen s then sub s (glen s - glen r) (glen s) else pending (pushed ls b0)) = r)
    as ->; [|done].
  destruct (Z.ltb_spec (glen s - glen r) (glen s)); [done|]. cbn. destruct r; [done|len_lia].
Qed.

(** *** The unfinished line *)

Lemma split_lines_plain c0 r t : newline ∉ r → split_lines c0 (r ++ t) = split_lines (c0 ++ r) t.
Proof.
  revert c0. induction r as [|c r IH]; intros c0 Hr; cbn [app split_lines]; [by rewrite app_nil_r|].
  apply not_elem_of_cons in Hr as [Hc Hr]. rewrite (proj2 (Z.eqb_neq _ _)) by done.
  by rewrite IH, <-app_assoc.
Qed.

Lemma split_lines_rest cur s : newline ∉ cur → newline ∉ (split_lines cur s).2.
Proof.
  revert cur. induction s as [|c s IH]; intros cur Hc; cbn [split_lines]; [done|].
  destruct (Z.eqb_spec c newline).
  - specialize (IH [] (not_elem_of_nil _)). by destruct (split_lines [] s).
  - apply IH. rewrite not_elem_of_app, list_elem_of_singleton. auto.
Qed.

(** ** Properties *)

(** The state after a sequence of writes, as a function of the stream. *)
Definition ring_of (n : Z) (t : bool) (ws : list bytes) : RingBuffer :=
  mkRing (log_lines n (concat ws)) (split_lines [] (concat ws)).2 n t (if t then ws else []).

Lemma ring_of_ok n t ws : 0 < n → ring_ok (ring_of n t ws).
Proof.
  intros Hn. split; [done|]. unfold ring_of, log_lines. cbn [lines capacity].
  rewrite glen_newest; lia.
Qed.

Lemma Write_ring_of n t ws p :
  0 < n → Write p (ring_of n t ws) = (glen p, ring_of n t (ws ++ [p])).
Proof.
  intros Hn. pose proof (Write_spec p (ring_of n t ws) (ring_of_ok n t ws Hn)) as Hw.
  cbn [ring_of pending] in Hw.
  rewrite split_lines_plain in Hw by (apply split_lines_rest, not_elem_of_nil). cbn [app] in Hw.
  set (w := Write p (ring_of n t ws)) in *. clearbody w.
  unfold ring_of, log_lines in *. rewrite concat_app, split_lines_app. cbn [concat]. rewrite app_nil_r.
  destruct (split_lines [] (concat ws)) as [l1 r1]. cbn [fst snd] in *.
  destruct (split_lines r1 p) as [l2 r2]. cbn [fst snd]. rewrite Hw. f_equal.
  cbn [pushed lines capacity tee teed]. unfold log_lines.
  rewrite newest_newest, <-filter_app. f_equal. by destruct t.
Qed.

Lemma writes_ring_of n t ws : ∀ ws0,
  0 < n → writes ws (ring_of n t ws0) = ring_of n t (ws0 ++ ws).
Proof.
  induction ws as [|p ws IH]; intros ws0 Hn; cbn [writes foldl]; [by rewrite app_nil_r|].
  rewrite Write_ring_of by done. cbn [snd]. fold (writes ws (ring_of n t (ws0 ++ [p]))).
  by rewrite IH, <-app_assoc.
Qed.

Definition effective (capacity : Z) : Z := if capacity <=? 0 then 200 else capacity.

Lemma New_ring_of c t ws : writes ws (NewRingBuffer c t) = ring_of (effective c) t ws.
Proof.
  assert (Hn : 0 < effective c) by (unfold effective; destruct (Z.leb_spec c 0); lia).
  assert (NewRingBuffer c t = ring_of (effective c) t []) as -> by by destruct t.
  by apply writes_ring_of.
Qed.

(** C32: the log buffer implements its specification for every sequence of
    writes: it holds exactly the newest [capacity] non-empty complete lines of
    the byte stream and its unfinished last line, however the stream was cut
    into writes; it never holds more than [capacity] lines; the sink, if any,
    got every write unchanged; and a write always reports its full length. *)
Theorem ringbuf_refines c t (ws : list bytes) (p : bytes) :
  let b := writes ws (NewRingBuffer c t) in
  let stream := concat ws in
  lines b = log_lines (effective c) stream ∧
  pending b = (split_lines [] stream).2 ∧
  Len b <= effective c ∧
  teed b = (if t then ws else []) ∧
  (Write p b).1 = glen p.
Proof.
  cbn zeta. rewrite New_ring_of.
  assert (Hn : 0 < effective c) by (unfold effective; destruct (Z.leb_spec c 0); lia).
  split_and!; [done|done| |done|].
  - by destruct (ring_of_ok (effective c) t ws Hn).
  - by rewrite Write_ring_of.
Qed.

(** A snapshot of [k] lines is the newest [k] non-empty lines of the
    stream, oldest first, as far as the buffer reaches; a count of zero or
    less, or more than there are, gives the whole buffer. *)
Lemma Lines_newest c t (ws : list bytes) (k : Z) :
  let n := effective c in
  Lines k (writes ws (NewRingBuffer c t)) =
  log_lines (if k <=? 0 then n else Z.min k n) (concat ws).
Proof.
  cbn zeta. rewrite New_ring_of. unfold Lines, ring_of, log_lines. cbn [lines].
  assert (Hn : 0 < effective c) by (unfold effective; destruct (Z.leb_spec c 0); lia).
  set (l := filter _ _). set (n := effective c) in *.
  pose proof (glen_newest n l ltac:(lia)) as Hg. pose proof (glen_nonneg l).
  destruct (Z.leb_spec k 0); cbn [orb].
  { rewrite Z.sub_diag. by apply sub_all. }
  destruct (Z.gtb_spec k (glen (newest n l))).
  - rewrite Z.sub_diag, sub_all by done. unfold newest. f_equal. unfold glen in *. lia.
  - unfold sub. rewrite take_ge by (rewrite length_drop; unfold glen; lia).
    rewrite Hg in *. unfold newest. rewrite drop_drop. f_equal. unfold glen in *. lia.
Qed.

Example ringbuf_demo :
  Lines 2 (writes [[97; 10; 98]; [98; 10; 10; 99]; [10; 100]] (NewRingBuffer 2 false)) =
  [[98; 98]; [99]].
Proof. vm_compute. reflexivity. Qed.
