(* ===== verification/ConfigLoad.v ===== *)
(** * ConfigLoad: from the configuration file to the running node

    Models [Load] and [validateCIDR] of [src/internal/config/config.go] and
    the part of [main] in [src/cmd/prpd/main.go] that turns the loaded
    configuration into the node's [prp.Config] and into the supervision
    ticker.  What the host provides is a parameter: file contents, the YAML
    decoder, the environment, the host name, SHA-256, [net.ParseCIDR] and
    [time.ParseDuration]; every theorem holds for all of them. *)

From S2P Require Import Prelude Pattern Role.

(** ** The configuration file ([config.Config]) *)

Record FileConfig := mkFile {
  Node_Name : string; Node_Role : string;
  If_LanA : string; If_LanB : string; If_Interlink : string;
  IPv4_LanA : string; IPv4_LanB : string; IPv4_Interlink : string;
  HSR_PRPID : Z; HSR_LanID : string;
  PRP_PRPID : Z; PRP_TrailerEnabled : bool;
  Sup_Enabled : bool; Sup_LifeCheckInterval : string; Sup_NodeForgetTime : string;
  Sup_ProxyNodeForgetTime : string;
  DD_EntryForgetTime : string; DD_MaxNodeTableSize : Z;
  MC_FirstOctet : string;
  IL_ForwardAll : bool; IL_VLANFilter : list Z }.

(** Field updates. *)
Definition set_role (r : string) (c : FileConfig) : FileConfig :=
  let '(mkFile n _ a b i x y z hp hl p t e l nf pf ef m mc fa vf) := c in
  mkFile n r a b i x y z hp hl p t e l nf pf ef m mc fa vf.
Definition set_prpid (q : Z) (c : FileConfig) : FileConfig :=
  let '(mkFile n r a b i x y z hp hl _ t e l nf pf ef m mc fa vf) := c in
  mkFile n r a b i x y z hp hl q t e l nf pf ef m mc fa vf.
Definition set_name (n : string) (c : FileConfig) : FileConfig :=
  let '(mkFile _ r a b i x y z hp hl p t e l nf pf ef m mc fa vf) := c in
  mkFile n r a b i x y z hp hl p t e l nf pf ef m mc fa vf.
Definition set_hsr (hp : Z) (hl : string) (c : FileConfig) : FileConfig :=
  let '(mkFile n r a b i x y z _ _ p t e l nf pf ef m mc fa vf) := c in
  mkFile n r a b i x y z hp hl p t e l nf pf ef m mc fa vf.
Definition set_ips (x y z : string) (c : FileConfig) : FileConfig :=
  let '(mkFile n r a b i _ _ _ hp hl p t e l nf pf ef m mc fa vf) := c in
  mkFile n r a b i x y z hp hl p t e l nf pf ef m mc fa vf.

(** ** The host *)

Class Host := {
  (** [os.ReadFile]; [None] is an error *)
  ReadFile : string → option string;
  (** [yaml.Unmarshal] into a zero [Config] *)
  Unmarshal : string → option FileConfig;
  (** [os.Getenv] *)
  Getenv : string → string;
  (** [os.Hostname] with its error ignored *)
  Hostname : string;
  (** [sha256.Sum256] *)
  Sum256 : string → bytes;
  (** [net.ParseCIDR]: whether the address is IPv4, whether a network is returned *)
  ParseCIDR : string → option (bool * bool);
  (** [time.ParseDuration], in nanoseconds *)
  ParseDuration : string → option Z;
  (** the order in which [range] visits the three ports *)
  range_ports : list (string * string) → list (string * string);
  range_ports_perm l : range_ports l ≡ₚ l;
}.

Inductive cidr_error := BadCIDR | NotIPv4 | NoNetwork.

Inductive load_error :=
| ReadConfig (path : string)
| ParseConfig
| BadRole (r : string)
| NoLanInterfaces
| CouplingNoInterlink
| CouplingLanID (l : string)
| CouplingNetID (n : Z)
| BadMulticast (s : string)
| BadPortIP (port : string) (e : cidr_error)
| BadRoleEnv (r : string)
| BadLanIDEnv (l : string)
| BadNetIDEnv (n : string).

Definition rbind {E A B} (m : result E A) (k : A → result E B) : result E B :=
  match m with Ok a => k a | Err e => Err e end.
Notation "'try!' x := m 'in' k" := (rbind m (fun x => k))
  (at level 10, x pattern, m at level 100, k at level 200) : go_scope.

Definition guard {E} (ok : bool) (e : E) : result E unit := if ok then Ok tt else Err e.

(** [strconv.Atoi]: an optional sign and decimal digits, within an [int] *)
Fixpoint digits_val (s : string) (acc : Z) : option Z :=
  match s with
  | EmptyString => Some acc
  | String c s => if in_range "0" c "9" then digits_val s (acc * 10 + (Z.of_nat (nat_of_ascii c) - 48)) else None
  end.

Definition Atoi (s : string) : option Z :=
  let '(neg, ds) := match s with
                    | String "-" s' => (true, s')
                    | String "+" s' => (false, s')
                    | _ => (false, s)
                    end in
  if String.eqb ds "" then None
  else
    v ← digits_val ds 0;
    let v := if neg : bool then - v else v in
    if (minDuration <=? v) && (v <=? maxDuration) then Some v else None.

Section load.
Context {H : Host}.

(** [validateCIDR]: [None] is the nil error *)
Definition validateCIDR (s : string) : option cidr_error :=
  match ParseCIDR s with
  | None => Some BadCIDR
  | Some (v4, net) => if negb v4 then Some NotIPv4 else if negb net then Some NoNetwork else None
  end.

(** The [switch] on a role name, with [redbox] as an alias. *)
Definition normalise_role (r : string) (e : load_error) : result load_error string :=
  if String.eqb r "redbox" then Ok "prp-san"%string
  else if String.eqb r "prp-san" || String.eqb r "hsr-san" || String.eqb r "hsr-prp" || String.eqb r "hsr-hsr"
  then Ok r else Err e.

(** The loop over the ports' static addresses. *)
Fixpoint check_ips (l : list (string * string)) : result load_error unit :=
  match l with
  | [] => Ok tt
  | (port, cidr) :: l =>
      if String.eqb cidr "" then check_ips l
      else match validateCIDR cidr with
           | Some e => Err (BadPortIP port e)
           | None => check_ips l
           end
  end.

Definition port_ips (c : FileConfig) : list (string * string) :=
  [("interfaces.ipv4.lan_a", IPv4_LanA c); ("interfaces.ipv4.lan_b", IPv4_LanB c);
   ("interfaces.ipv4.interlink", IPv4_Interlink c)]%string.

(** The coupling role needs an interlink, a LAN and a network. *)
Definition check_coupling (c : FileConfig) : result load_error unit :=
  if String.eqb (Node_Role c) "hsr-prp" then
    try! _ := guard (negb (String.eqb (If_Interlink c) "")) CouplingNoInterlink in
    try! _ := guard (String.eqb (HSR_LanID c) "A" || String.eqb (HSR_LanID c) "B")
                (CouplingLanID (HSR_LanID c)) in
    guard (negb ((HSR_PRPID c <? 1) || (HSR_PRPID c >? 6))) (CouplingNetID (HSR_PRPID c))
  else Ok tt.

(** The checks after the role, in order. *)
Definition check_settings (c : FileConfig) : result load_error unit :=
  try! _ := guard (negb (String.eqb (If_LanA c) "" || String.eqb (If_LanB c) "")) NoLanInterfaces in
  try! _ := check_coupling c in
  try! _ := guard (negb (negb (String.eqb (MC_FirstOctet c) "") && negb (validMulticastPattern (MC_FirstOctet c))))
              (BadMulticast (MC_FirstOctet c)) in
  check_ips (range_ports (port_ips c)).

(** The checks on the file's contents. *)
Definition check_file (c : FileConfig) : result load_error FileConfig :=
  try! role := normalise_role (Node_Role c) (BadRole (Node_Role c)) in
  let c := set_role role c in
  try! _ := check_settings c in
  Ok c.

(** [(int(sum[0])<<8|int(sum[1]))%65535 + 1] *)
Definition hash_id (sum : bytes) : Z := w16 sum 0 mod 65535 + 1.

(** A PRP ID of 0 is derived from the host name, which also names the node. *)
Definition derive_id (c : FileConfig) : FileConfig :=
  if PRP_PRPID c =? 0 then
    if negb (String.eqb Hostname "") then
      let c := set_prpid (hash_id (Sum256 Hostname)) c in
      if String.eqb (Node_Name c) "" then set_name Hostname c else c
    else c
  else c.

(** [PRP_ROLE], [HSR_LAN_ID], [HSR_PRP_ID] and [PRP_PRP_ID]. *)
Definition env_ids (c : FileConfig) : result load_error FileConfig :=
  let role := Getenv "PRP_ROLE" in
  try! c := (if String.eqb role "" then Ok c
             else try! r := normalise_role role (BadRoleEnv role) in Ok (set_role r c)) in
  let lanID := Getenv "HSR_LAN_ID" in
  try! c := (if String.eqb lanID "" then Ok c
             else if negb (String.eqb lanID "A") && negb (String.eqb lanID "B") then Err (BadLanIDEnv lanID)
             else Ok (set_hsr (HSR_PRPID c) lanID c)) in
  let netID := Getenv "HSR_PRP_ID" in
  try! c := (if String.eqb netID "" then Ok c
             else match Atoi netID with
                  | Some id => if (id <? 1) || (id >? 6) then Err (BadNetIDEnv netID)
                               else Ok (set_hsr id (HSR_LanID c) c)
                  | None => Err (BadNetIDEnv netID)
                  end) in
  let prpID := Getenv "PRP_PRP_ID" in
  if String.eqb prpID "" then Ok c
  else match Atoi prpID with
       | Some id => if id >? 0 then Ok (set_prpid id c) else Ok c
       | None => Ok c
       end.

(** One round of the loop over the address overrides: the new value. *)
Definition env_ip (env old : string) : result load_error string :=
  let v := Getenv env in
  if String.eqb v "" then Ok old
  else match validateCIDR v with
       | Some e => Err (BadPortIP env e)
       | None => Ok v
       end.

Definition env_ips (c : FileConfig) : result load_error FileConfig :=
  try! a := env_ip "PRP_LAN_A_IP" (IPv4_LanA c) in
  try! b := env_ip "PRP_LAN_B_IP" (IPv4_LanB c) in
  try! i := env_ip "PRP_INTERLINK_IP" (IPv4_Interlink c) in
  Ok (set_ips a b i c).

(** [Load] *)
Definition Load (path : string) : result load_error FileConfig :=
  match ReadFile path with
  | None => Err (ReadConfig path)
  | Some data =>
      match Unmarshal data with
      | None => Err ParseConfig
      | Some c =>
          try! c := check_file c in
          try! c := env_ids (derive_id c) in
          env_ips c
      end
  end.

(** ** [cmd/prpd]: the node's configuration *)

(** [if d, err := time.ParseDuration(s); err == nil && d > 0 { int(d / time.Millisecond) }],
    over a field that starts at 0 *)
Definition forget_ms (s : string) : Z :=
  match ParseDuration s with
  | Some d => if d >? 0 then Z.quot d 1000000 else 0
  | None => 0
  end.

Definition prp_config (c : FileConfig) : Config :=
  mkConfig (Node_Name c) (Node_Role c) (If_LanA c) (If_LanB c) (If_Interlink c)
    (HSR_LanID c) (HSR_PRPID c) (PRP_PRPID c) (PRP_TrailerEnabled c)
    (String.eqb (Getenv "DEBUG_FRAMES") "1") (IL_ForwardAll c) (IL_VLANFilter c) (MC_FirstOctet c)
    (forget_ms (DD_EntryForgetTime c)) (DD_MaxNodeTableSize c)
    (forget_ms (Sup_ProxyNodeForgetTime c)) (forget_ms (Sup_NodeForgetTime c)).

(** The period of the supervision ticker. *)
Definition life_check_interval (c : FileConfig) : Z :=
  if negb (String.eqb (Sup_LifeCheckInterval c) "") then
    match ParseDuration (Sup_LifeCheckInterval c) with Some d => d | None => 2000000000 end
  else 2000000000.

(** The supervision goroutine up to its loop: [time.NewTicker] panics on a
    period that is not positive.  [None]: supervision is off. *)
Definition supervision_ticker (c : FileConfig) : go (option Z) :=
  if Sup_Enabled c then
    if life_check_interval c <=? 0 then Panic else Ret (Some (life_check_interval c))
  else Ret None.
End load.

(** ** What a valid configuration is *)

Section load_props.
Context {H : Host}.

Definition ip_ok (s : string) : Prop := s = ""%string ∨ validateCIDR s = None.

Definition role_ok (r : string) : Prop := ∃ R, r = role_name R.

(** The settings of a coupling RedBox. *)
Definition coupling_ok (c : FileConfig) : Prop :=
  Node_Role c = "hsr-prp"%string →
  If_Interlink c ≠ ""%string ∧ (HSR_LanID c = "A"%string ∨ HSR_LanID c = "B"%string) ∧ 1 <= HSR_PRPID c <= 6.

(** The rest of the demands on a configuration. *)
Record base_ok (c : FileConfig) : Prop := {
  ok_role : role_ok (Node_Role c);
  ok_lanA : If_LanA c ≠ ""%string;
  ok_lanB : If_LanB c ≠ ""%string;
  ok_mc : MC_FirstOctet c = ""%string ∨ validMulticastPattern (MC_FirstOctet c) = true;
  ok_ips : ip_ok (IPv4_LanA c) ∧ ip_ok (IPv4_LanB c) ∧ ip_ok (IPv4_Interlink c);
}.

(** A file that passes, before the legacy role name is replaced. *)
Definition file_ok (c : FileConfig) : Prop :=
  base_ok (set_role (if String.eqb (Node_Role c) "redbox" then "prp-san" else Node_Role c) c) ∧ coupling_ok c.

(** ** Lemmas *)

Lemma rbind_Ok {E A B} (m : result E A) (k : A → result E B) b :
  rbind m k = Ok b ↔ ∃ a, m = Ok a ∧ k a = Ok b.
Proof.
  destruct m as [a|e]; cbn; split.
  - eauto.
  - by intros (a' & [= <-] & ?).
  - discriminate.
  - by intros (a' & ? & _).
Qed.

Lemma guard_Ok {E} b (e : E) u : guard b e = Ok u ↔ b = true.
Proof. unfold guard. destruct u, b; split; congruence. Qed.

Lemma normalise_role_Ok r e r' :
  normalise_role r e = Ok r' ↔
  r' = (if String.eqb r "redbox" then "prp-san" else r)%string ∧ role_ok r'.
Proof.
  unfold normalise_role, role_ok. destruct (String.eqb_spec r "redbox") as [->|Hr].
  { split; [intros [= <-]; split; [done|by exists RolePRPSan]|by intros [-> _]]. }
  destruct (String.eqb_spec r "prp-san") as [->|H1]; cbn [orb];
    [split; [intros [= <-]; split; [done|by exists RolePRPSan]|by intros [-> _]]|].
  destruct (String.eqb_spec r "hsr-san") as [->|H2]; cbn [orb];
    [split; [intros [= <-]; split; [done|by exists RoleHSRSan]|by intros [-> _]]|].
  destruct (String.eqb_spec r "hsr-prp") as [->|H3]; cbn [orb];
    [split; [intros [= <-]; split; [done|by exists RoleHSRPRP]|by intros [-> _]]|].
  destruct (String.eqb_spec r "hsr-hsr") as [->|H4]; cbn [orb];
    [split; [intros [= <-]; split; [done|by exists RoleHSRHSR]|by intros [-> _]]|].
  split; [discriminate|]. intros [-> [[] HR]]; contradiction.
Qed.

Lemma check_ips_Ok l u : check_ips l = Ok u ↔ Forall (fun p => ip_ok p.2) l.
Proof.
  destruct u. induction l as [|[port cidr] l IH]; cbn [check_ips]; [by split; [constructor|]|].
  rewrite Forall_cons. cbn [snd]. unfold ip_ok at 1.
  destruct (String.eqb_spec cidr "") as [->|Hne]; [tauto|].
  destruct (validateCIDR cidr); [|tauto]. split; [discriminate|]. intros [[?|?] _]; congruence.
Qed.

Lemma check_ips_range c u :
  check_ips (range_ports (port_ips c)) = Ok u ↔
  ip_ok (IPv4_LanA c) ∧ ip_ok (IPv4_LanB c) ∧ ip_ok (IPv4_Interlink c).
Proof.
  rewrite check_ips_Ok, range_ports_perm. unfold port_ips.
  rewrite !Forall_cons, Forall_nil. cbn [snd]. tauto.
Qed.

Lemma eqb_empty s : negb (String.eqb s "") = true ↔ s ≠ ""%string.
Proof. destruct (String.eqb_spec s ""); split; try done; congruence. Qed.

Lemma rbind_unit {E B} (m : result E unit) (k : unit → result E B) b :
  rbind m k = Ok b ↔ m = Ok tt ∧ k tt = Ok b.
Proof. rewrite rbind_Ok. split; [intros ([] & ? & ?); done|intros []; eauto]. Qed.

Lemma eqb_eq_iff s t : String.eqb s t = true ↔ s = t.
Proof. apply String.eqb_eq. Qed.

Lemma check_coupling_Ok c : check_coupling c = Ok tt ↔ coupling_ok c.
Proof.
  unfold check_coupling, coupling_ok.
  destruct (String.eqb_spec (Node_Role c) "hsr-prp") as [Hr|Hr]; [|tauto].
  rewrite !rbind_unit, !guard_Ok, eqb_empty, orb_true_iff, !eqb_eq_iff, negb_true_iff, orb_false_iff.
  rewrite Z.ltb_ge, Z.gtb_ltb, Z.ltb_ge. tauto.
Qed.

Lemma check_mc_Ok s :
  negb (negb (String.eqb s "") && negb (validMulticastPattern s)) = true ↔
  s = ""%string ∨ validMulticastPattern s = true.
Proof.
  rewrite negb_true_iff, andb_false_iff, !negb_false_iff, eqb_eq_iff. tauto.
Qed.

Lemma check_settings_Ok c :
  check_settings c = Ok tt ∧ role_ok (Node_Role c) ↔ base_ok c ∧ coupling_ok c.
Proof.
  unfold check_settings.
  rewrite !rbind_unit, !guard_Ok, check_coupling_Ok, check_mc_Ok, check_ips_range.
  rewrite negb_true_iff, orb_false_iff, <-!not_true_iff_false, !eqb_eq_iff.
  split; [intros [([??]&?&?&?) ?]; split; [by split|done]|]. intros [[???? ?] ?]. tauto.
Qed.

(** What the checks on the file accept, and what they return. *)
Lemma check_file_Ok c c' :
  check_file c = Ok c' ↔
  c' = set_role (if String.eqb (Node_Role c) "redbox" then "prp-san" else Node_Role c) c ∧ file_ok c.
Proof.
  unfold check_file, file_ok.
  set (r := (if String.eqb (Node_Role c) "redbox" then "prp-san" else Node_Role c)%string).
  assert (Hcp : coupling_ok (set_role r c) ↔ coupling_ok c).
  { unfold coupling_ok, r. destruct c as [n role ? ? ? ? ? ? ? ? ? ? ? ? ? ? ? ? ? ? ?]. cbn.
    destruct (String.eqb_spec role "redbox") as [->|]; [|done]. split; intros _ [=]. }
  assert (Hr : Node_Role (set_role r c) = r) by by destruct c.
  rewrite <-Hcp, <-check_settings_Ok, Hr, rbind_Ok. split.
  - intros (r' & [-> Hok]%normalise_role_Ok & [Hs [= <-]]%rbind_unit). done.
  - intros (-> & Hs & Hok). exists r. rewrite normalise_role_Ok, rbind_unit. done.
Qed.

(** *** Overrides *)

Lemma env_ip_Ok env old v :
  env_ip env old = Ok v ↔ v = (if String.eqb (Getenv env) "" then old else Getenv env) ∧ ip_ok (Getenv env).
Proof.
  unfold env_ip, ip_ok. destruct (String.eqb_spec (Getenv env) "") as [->|Hne].
  - split; [intros [= <-]; auto|by intros [-> _]].
  - destruct (validateCIDR (Getenv env)); split; try discriminate.
    + intros [_ [|]]; congruence.
    + intros [= <-]. auto.
    + by intros [-> _].
Qed.

(** The addresses after the overrides. *)
Definition override (env old : string) : string :=
  if String.eqb (Getenv env) "" then old else Getenv env.

Lemma env_ips_Ok c c' :
  env_ips c = Ok c' ↔
  c' = set_ips (override "PRP_LAN_A_IP" (IPv4_LanA c)) (override "PRP_LAN_B_IP" (IPv4_LanB c))
         (override "PRP_INTERLINK_IP" (IPv4_Interlink c)) c ∧
  ip_ok (Getenv "PRP_LAN_A_IP") ∧ ip_ok (Getenv "PRP_LAN_B_IP") ∧ ip_ok (Getenv "PRP_INTERLINK_IP").
Proof.
  unfold env_ips. rewrite rbind_Ok. split.
  - intros (a & [-> Ha]%env_ip_Ok & (b & [-> Hb]%env_ip_Ok & (i & [-> Hi]%env_ip_Ok & [= <-])%rbind_Ok)%rbind_Ok).
    done.
  - intros (-> & Ha & Hb & Hi). eexists. rewrite env_ip_Ok, rbind_Ok. split; [done|].
    eexists. rewrite env_ip_Ok, rbind_Ok. split; [done|].
    eexists. rewrite env_ip_Ok. done.
Qed.

Lemma override_ok env old : ip_ok (Getenv env) → ip_ok old → ip_ok (override env old).
Proof. unfold override. by destruct (String.eqb (Getenv env) ""). Qed.

(** The identifiers after the overrides. *)
Definition env_role (old : string) : string :=
  let r := Getenv "PRP_ROLE" in
  if String.eqb r "" then old else if String.eqb r "redbox" then "prp-san" else r.
Definition env_net (old : Z) : Z :=
  let s := Getenv "HSR_PRP_ID" in if String.eqb s "" then old else default old (Atoi s).
Definition env_prp (old : Z) : Z :=
  let s := Getenv "PRP_PRP_ID" in
  if String.eqb s "" then old
  else match Atoi s with Some id => if id >? 0 then id else old | None => old end.

Definition with_ids (c : FileConfig) : FileConfig :=
  set_prpid (env_prp (PRP_PRPID c))
    (set_hsr (env_net (HSR_PRPID c)) (override "HSR_LAN_ID" (HSR_LanID c))
       (set_role (env_role (Node_Role c)) c)).

Definition ids_ok : Prop :=
  (Getenv "PRP_ROLE" = ""%string ∨ role_ok (env_role "")) ∧
  Getenv "HSR_LAN_ID" ∈ [""; "A"; "B"]%string ∧
  (Getenv "HSR_PRP_ID" = ""%string ∨ ∃ id, Atoi (Getenv "HSR_PRP_ID") = Some id ∧ 1 <= id <= 6).

Lemma env_role_stage c c' :
  (if String.eqb (Getenv "PRP_ROLE") "" then Ok c
   else try! r := normalise_role (Getenv "PRP_ROLE") (BadRoleEnv (Getenv "PRP_ROLE")) in Ok (set_role r c)) = Ok c' ↔
  c' = set_role (env_role (Node_Role c)) c ∧ (Getenv "PRP_ROLE" = ""%string ∨ role_ok (env_role "")).
Proof.
  unfold env_role. destruct (String.eqb_spec (Getenv "PRP_ROLE") "") as [->|Hne].
  - split; [intros [= <-]|intros [-> _]]; [split; [by destruct c|auto]|by destruct c].
  - rewrite rbind_Ok. split.
    + intros (r & [-> Hr]%normalise_role_Ok & [= <-]). auto.
    + intros [-> [|Hr]]; [done|]. eexists. by rewrite normalise_role_Ok.
Qed.

Lemma env_lan_stage c c' :
  (if String.eqb (Getenv "HSR_LAN_ID") "" then Ok c
   else if negb (String.eqb (Getenv "HSR_LAN_ID") "A") && negb (String.eqb (Getenv "HSR_LAN_ID") "B")
   then Err (BadLanIDEnv (Getenv "HSR_LAN_ID"))
   else Ok (set_hsr (HSR_PRPID c) (Getenv "HSR_LAN_ID") c)) = Ok c' ↔
  c' = set_hsr (HSR_PRPID c) (override "HSR_LAN_ID" (HSR_LanID c)) c ∧
  Getenv "HSR_LAN_ID" ∈ [""; "A"; "B"]%string.
Proof.
  unfold override. rewrite !elem_of_cons, elem_of_nil.
  destruct (String.eqb_spec (Getenv "HSR_LAN_ID") "") as [->|H1].
  { split; [intros [= <-]|intros [-> _]]; [split; [by destruct c|auto]|by destruct c]. }
  destruct (String.eqb_spec (Getenv "HSR_LAN_ID") "A") as [->|H2]; cbn [negb andb].
  { split; [by intros [= <-]; auto|by intros [-> _]]. }
  destruct (String.eqb_spec (Getenv "HSR_LAN_ID") "B") as [->|H3]; cbn [negb].
  { split; [by intros [= <-]; auto|by intros [-> _]]. }
  split; [discriminate|tauto].
Qed.

Lemma env_net_stage c c' :
  (if String.eqb (Getenv "HSR_PRP_ID") "" then Ok c
   else match Atoi (Getenv "HSR_PRP_ID") with
        | Some id => if (id <? 1) || (id >? 6) then Err (BadNetIDEnv (Getenv "HSR_PRP_ID"))
                     else Ok (set_hsr id (HSR_LanID c) c)
        | None => Err (BadNetIDEnv (Getenv "HSR_PRP_ID"))
        end) = Ok c' ↔
  c' = set_hsr (env_net (HSR_PRPID c)) (HSR_LanID c) c ∧
  (Getenv "HSR_PRP_ID" = ""%string ∨ ∃ id, Atoi (Getenv "HSR_PRP_ID") = Some id ∧ 1 <= id <= 6).
Proof.
  unfold env_net. destruct (String.eqb_spec (Getenv "HSR_PRP_ID") "") as [->|H1].
  { split; [intros [= <-]|intros [-> _]]; [split; [by destruct c|auto]|by destruct c]. }
  destruct (Atoi _) as [id|]; cbn [default].
  - destruct ((id <? 1) || (id >? 6)) eqn:E; split.
    + discriminate.
    + intros [_ [?|(id' & [= <-] & Hid)]]; [done|]. apply orb_true_iff in E as [E|E]; zb; lia.
    + intros [= <-]. split; [done|]. right. exists id. split; [done|].
      apply orb_false_iff in E as [E1 E2]. zb. rewrite Z.gtb_ltb in E2. zb. lia.
    + by intros [-> _].
  - split; [discriminate|]. intros [_ [?|(id' & [=] & _)]]. done.
Qed.

Lemma env_ids_Ok c c' : env_ids c = Ok c' ↔ c' = with_ids c ∧ ids_ok.
Proof.
  unfold env_ids, ids_ok. cbn zeta. rewrite rbind_Ok. split.
  - intros (c1 & [-> H1]%env_role_stage & (c2 & [-> H2]%env_lan_stage & (c3 & [-> H3]%env_net_stage & Hk)%rbind_Ok)%rbind_Ok).
    split; [|done]. revert Hk. unfold with_ids, env_prp. destruct c. cbn.
    destruct (String.eqb (Getenv "PRP_PRP_ID") ""); [by intros [= <-]|].
    destruct (Atoi (Getenv "PRP_PRP_ID")) as [id|]; [destruct (id >? 0)|]; by intros [= <-].
  - intros (-> & H1 & H2 & H3). eexists. split; [by apply env_role_stage|].
    rewrite rbind_Ok. eexists. split; [by apply env_lan_stage|].
    rewrite rbind_Ok. eexists. split; [by apply env_net_stage|].
    unfold with_ids, env_prp. destruct c. cbn.
    destruct (String.eqb (Getenv "PRP_PRP_ID") ""); [done|].
    by destruct (Atoi (Getenv "PRP_PRP_ID")) as [id|]; [destruct (id >? 0)|].
Qed.

(** *** The whole load *)

(** What a load returns, from the decoded file. *)
Definition finished (c0 : FileConfig) : FileConfig :=
  let c := set_role (if String.eqb (Node_Role c0) "redbox" then "prp-san" else Node_Role c0) c0 in
  let c := with_ids (derive_id c) in
  set_ips (override "PRP_LAN_A_IP" (IPv4_LanA c)) (override "PRP_LAN_B_IP" (IPv4_LanB c))
    (override "PRP_INTERLINK_IP" (IPv4_Interlink c)) c.

Definition ips_env_ok : Prop :=
  ip_ok (Getenv "PRP_LAN_A_IP") ∧ ip_ok (Getenv "PRP_LAN_B_IP") ∧ ip_ok (Getenv "PRP_INTERLINK_IP").

Lemma Load_Ok path c :
  Load path = Ok c ↔
  ∃ data c0, ReadFile path = Some data ∧ Unmarshal data = Some c0 ∧
    file_ok c0 ∧ ids_ok ∧ ips_env_ok ∧ c = finished c0.
Proof.
  unfold Load, ips_env_ok, finished. split.
  - destruct (ReadFile path) as [data|]; [|discriminate].
    destruct (Unmarshal data) as [c0|] eqn:Eu; [|discriminate].
    intros (c1 & [-> Hf]%check_file_Ok & (c2 & [-> Hi]%env_ids_Ok & [-> Hp]%env_ips_Ok)%rbind_Ok)%rbind_Ok.
    exists data, c0. split_and!; first [done|apply Hp].
  - intros (data & c0 & -> & -> & Hf & Hi & Hp & ->). rewrite rbind_Ok. eexists.
    split; [by apply check_file_Ok|]. rewrite rbind_Ok. eexists. split; [by apply env_ids_Ok|].
    by apply env_ips_Ok.
Qed.

(** The fields of the result. *)
Lemma derive_id_fields c :
  Node_Role (derive_id c) = Node_Role c ∧ If_LanA (derive_id c) = If_LanA c ∧
  If_LanB (derive_id c) = If_LanB c ∧ If_Interlink (derive_id c) = If_Interlink c ∧
  MC_FirstOctet (derive_id c) = MC_FirstOctet c ∧ HSR_LanID (derive_id c) = HSR_LanID c ∧
  HSR_PRPID (derive_id c) = HSR_PRPID c ∧ IPv4_LanA (derive_id c) = IPv4_LanA c ∧
  IPv4_LanB (derive_id c) = IPv4_LanB c ∧ IPv4_Interlink (derive_id c) = IPv4_Interlink c ∧
  PRP_PRPID (derive_id c) =
    if (PRP_PRPID c =? 0) && negb (String.eqb Hostname "") then hash_id (Sum256 Hostname) else PRP_PRPID c.
Proof.
  unfold derive_id. destruct (PRP_PRPID c =? 0); [|by split_and!].
  destruct (negb (String.eqb Hostname "")); [|by split_and!].
  cbn zeta. set (h := hash_id (Sum256 Hostname)).
  destruct c. cbn. by destruct (String.eqb Node_Name0 ""); split_and!.
Qed.

Lemma finished_fields c0 :
  let c := finished c0 in
  Node_Role c = env_role (if String.eqb (Node_Role c0) "redbox" then "prp-san" else Node_Role c0) ∧
  If_LanA c = If_LanA c0 ∧ If_LanB c = If_LanB c0 ∧ If_Interlink c = If_Interlink c0 ∧
  MC_FirstOctet c = MC_FirstOctet c0 ∧
  HSR_LanID c = override "HSR_LAN_ID" (HSR_LanID c0) ∧ HSR_PRPID c = env_net (HSR_PRPID c0) ∧
  IPv4_LanA c = override "PRP_LAN_A_IP" (IPv4_LanA c0) ∧ IPv4_LanB c = override "PRP_LAN_B_IP" (IPv4_LanB c0) ∧
  IPv4_Interlink c = override "PRP_INTERLINK_IP" (IPv4_Interlink c0) ∧
  PRP_PRPID c = env_prp (if (PRP_PRPID c0 =? 0) && negb (String.eqb Hostname "")
                         then hash_id (Sum256 Hostname) else PRP_PRPID c0).
Proof.
  cbn zeta. unfold finished. cbn zeta.
  set (r := (if String.eqb (Node_Role c0) "redbox" then "prp-san" else Node_Role c0)%string).
  destruct (derive_id_fields (set_role r c0)) as (F1 & F2 & F3 & F4 & F5 & F6 & F7 & F8 & F9 & F10 & F11).
  set (d := derive_id (set_role r c0)) in *. unfold with_ids.
  destruct d. cbn in *. subst. destruct c0. by split_and!.
Qed.

Lemma hash_id_range s : 1 <= hash_id (Sum256 s) <= 65535.
Proof. unfold hash_id. pose proof (Z.mod_pos_bound (w16 (Sum256 s) 0) 65535). lia. Qed.

Lemma env_prp_range old : 0 < old → 0 < env_prp old.
Proof.
  intros Ho. unfold env_prp. destruct (String.eqb _ _); [done|].
  destruct (Atoi _) as [id|]; [|done]. destruct (Z.gtb_spec id 0); lia.
Qed.

Lemma role_not_empty : ¬ role_ok "".
Proof. by intros [[] HR]. Qed.

(** A load that succeeds gives a configuration that is valid; the settings of
    the coupling role are only guaranteed when the role comes from the file. *)
Lemma Load_valid path c :
  Load path = Ok c → base_ok c ∧ (Getenv "PRP_ROLE" = ""%string → coupling_ok c).
Proof.
  intros (data & c0 & _ & _ & [Hb Hc] & (Hr & Hl & Hn) & (Ia & Ib & Ii) & ->)%Load_Ok.
  destruct (finished_fields c0) as (F1 & F2 & F3 & F4 & F5 & F6 & F7 & F8 & F9 & F10 & _).
  set (r := (if String.eqb (Node_Role c0) "redbox" then "prp-san" else Node_Role c0)%string) in *.
  assert (Hbr : role_ok r ∧ If_LanA c0 ≠ ""%string ∧ If_LanB c0 ≠ ""%string ∧
    (MC_FirstOctet c0 = ""%string ∨ validMulticastPattern (MC_FirstOctet c0) = true) ∧
    ip_ok (IPv4_LanA c0) ∧ ip_ok (IPv4_LanB c0) ∧ ip_ok (IPv4_Interlink c0)).
  { destruct Hb as [B1 B2 B3 B4 B5]. destruct c0. cbn in *. tauto. }
  destruct Hbr as (B1 & B2 & B3 & B4 & B5 & B6 & B7). split.
  - split; [|congruence|congruence|by rewrite F5|rewrite F8, F9, F10; auto using override_ok].
    rewrite F1. unfold env_role in *. destruct (String.eqb_spec (Getenv "PRP_ROLE") ""); [done|].
    by destruct Hr.
  - intros He. unfold coupling_ok. rewrite F1, F4, F6, F7. unfold env_role. rewrite He. cbn [String.eqb].
    intros Hrole. assert (Hr0 : Node_Role c0 = "hsr-prp"%string).
    { unfold r in Hrole. by destruct (String.eqb_spec (Node_Role c0) "redbox"). }
    destruct (Hc Hr0) as (C1 & C2 & C3). split_and!; [done| | |].
    + unfold override. destruct (String.eqb_spec (Getenv "HSR_LAN_ID") ""); [done|].
      rewrite !elem_of_cons, elem_of_nil in Hl. tauto.
    + unfold env_net. destruct (String.eqb_spec (Getenv "HSR_PRP_ID") ""); [lia|].
      destruct Hn as [|(id & -> & ?)]; [done|]. cbn. lia.
    + unfold env_net. destruct (String.eqb_spec (Getenv "HSR_PRP_ID") ""); [lia|].
      destruct Hn as [|(id & -> & ?)]; [done|]. cbn. lia.
Qed.

(** ** Properties *)

(** C25: which configurations start.  [Load] succeeds exactly when the file can
    be read and decoded, its role is known, both LAN interfaces are named, the
    coupling role comes with an interlink, a LAN (A or B) and a network (1 to
    6), the multicast pattern is well formed, the static addresses are IPv4
    prefixes, and every override that is set is well formed too; in whatever
    order the ports are visited.  [PRP_PRP_ID] alone may hold anything. *)
Theorem load_accepts_iff path :
  (∃ c, Load path = Ok c) ↔
  ∃ data c0, ReadFile path = Some data ∧ Unmarshal data = Some c0 ∧ file_ok c0 ∧
    (Getenv "PRP_ROLE" = ""%string ∨ Getenv "PRP_ROLE" = "redbox"%string ∨ role_ok (Getenv "PRP_ROLE")) ∧
    Getenv "HSR_LAN_ID" ∈ [""; "A"; "B"]%string ∧
    (Getenv "HSR_PRP_ID" = ""%string ∨ ∃ id, Atoi (Getenv "HSR_PRP_ID") = Some id ∧ 1 <= id <= 6) ∧
    ip_ok (Getenv "PRP_LAN_A_IP") ∧ ip_ok (Getenv "PRP_LAN_B_IP") ∧ ip_ok (Getenv "PRP_INTERLINK_IP").
Proof.
  setoid_rewrite Load_Ok. unfold ids_ok, ips_env_ok.
  assert (Hr : (Getenv "PRP_ROLE" = ""%string ∨ role_ok (env_role "")) ↔
    (Getenv "PRP_ROLE" = ""%string ∨ Getenv "PRP_ROLE" = "redbox"%string ∨ role_ok (Getenv "PRP_ROLE"))).
  { unfold env_role. destruct (String.eqb_spec (Getenv "PRP_ROLE") ""); [tauto|].
    destruct (String.eqb_spec (Getenv "PRP_ROLE") "redbox"); [|tauto].
    split; [tauto|]. intros _. right. by exists RolePRPSan. }
  split.
  - intros (c & data & c0 & R & U & F & (H1 & H2 & H3) & (H4 & H5 & H6) & _).
    exists data, c0. rewrite <-Hr. split_and!; done.
  - intros (data & c0 & R & U & F & H1 & H2 & H3 & H4 & H5 & H6). rewrite <-Hr in H1.
    eexists _, data, c0. split_and!; done.
Qed.

(** C19: what a loaded configuration guarantees the node: a canonical role that
    the run-time parser accepts, two LAN interfaces, a multicast pattern that
    is empty or filters, a positive PRP ID whenever the file gives none and the
    host has a name, and, unless [PRP_ROLE] overrode the role, a coupling node
    with an interlink whose PathId fits its four bits. *)
Theorem load_sound path c :
  Load path = Ok c →
  let k := prp_config c in
  c_Role k = role_name (role_of k) ∧
  c_LanAInterface k ≠ ""%string ∧ c_LanBInterface k ≠ ""%string ∧
  (c_MulticastFirstOctet k = ""%string ∨ parseMulticastPattern (c_MulticastFirstOctet k) ≠ []) ∧
  (c_PRPID k = 0 → Hostname = ""%string) ∧
  (Getenv "PRP_ROLE" = ""%string → IsHSRPRPCoupling k = true →
   c_InterlinkInterface k ≠ ""%string ∧ 2 <= PathId k <= 13).
Proof.
  intros HL. destruct (Load_valid path c HL) as [[[R HR] HA HB HM _] HC]. cbn zeta.
  assert (Hrole : role_of (prp_config c) = R).
  { unfold role_of, roleInfo. cbn [prp_config c_Role]. rewrite HR, ParseRole_name. by destruct R. }
  rewrite Hrole. split_and!; [done..| | |].
  - cbn [prp_config c_MulticastFirstOctet]. destruct HM; [auto|]. right. by apply valid_parsed.
  - cbn [prp_config c_PRPID].
    apply Load_Ok in HL as (data & c0 & _ & _ & _ & _ & _ & ->).
    destruct (finished_fields c0) as (_ & _ & _ & _ & _ & _ & _ & _ & _ & _ & ->).
    destruct (String.eqb_spec Hostname "") as [|Hh]; [done|]. rewrite andb_true_r.
    destruct (Z.eqb_spec (PRP_PRPID c0) 0).
    + pose proof (env_prp_range (hash_id (Sum256 Hostname))). pose proof (hash_id_range Hostname). lia.
    + unfold env_prp. destruct (String.eqb _ _); [done|]. destruct (Atoi _) as [id|]; [|done].
      destruct (Z.gtb_spec id 0); lia.
  - intros He Hcp. rewrite IsHSRPRPCoupling_role, Hrole in Hcp. apply bool_decide_eq_true in Hcp as ->.
    destruct (HC He HR) as (C1 & _ & C3). split; [done|].
    rewrite PathId_eq. pose proof (LanID_cases (prp_config c)).
    unfold NetID. rewrite IsHSRPRPCoupling_role, Hrole. cbn [prp_config c_NetID].
    rewrite bool_decide_true by done. guard_true (true && (HSR_PRPID c >? 0)). lia.
Qed.

(** The supervision goroutine of a loaded daemon panics in
    [time.NewTicker] exactly when supervision is on and the configured
    interval parses to a duration that is not positive; no check of [Load]
    looks at the interval. *)
Theorem ticker_panics_iff c :
  supervision_ticker c = Panic ↔
  Sup_Enabled c = true ∧ Sup_LifeCheckInterval c ≠ ""%string ∧
  ∃ d, ParseDuration (Sup_LifeCheckInterval c) = Some d ∧ d <= 0.
Proof.
  unfold supervision_ticker, life_check_interval. destruct (Sup_Enabled c); [|split; [discriminate|by intros [? _]]].
  destruct (String.eqb_spec (Sup_LifeCheckInterval c) "") as [|Hne]; cbn [negb].
  { split; [discriminate|tauto]. }
  destruct (ParseDuration _) as [d|].
  - destruct (Z.leb_spec d 0); split; [eauto|done|discriminate|].
    intros (_ & _ & d' & [= <-] & ?). lia.
  - split; [discriminate|]. by intros (_ & _ & d' & ? & _).
Qed.

(** Lifetimes shorter than a millisecond become 0, which the node reads as
    "use the default". *)
Lemma forget_ms_submillisecond s d : ParseDuration s = Some d → 0 < d < 1000000 → forget_ms s = 0.
Proof. intros Hd Hr. unfold forget_ms. rewrite Hd. guard_true (d >? 0). apply Z.quot_small. lia. Qed.
End load_props.

(** ** A concrete host *)

Definition demo_file : FileConfig :=
  mkFile "" "hsr-prp" "eth0" "eth1" "eth2" "10.0.0.1/24" "" "" 3 "B" 0 true true "0s" "64s" "64s"
    "400us" 256 "01-0c-cd" true [].

(** No overrides, or the role only. *)
Definition demo_host (file : FileConfig) (role : string) : Host := {|
  ReadFile _ := Some ""%string;
  Unmarshal _ := Some file;
  Getenv v := if String.eqb v "PRP_ROLE" then role else ""%string;
  Hostname := "prp-sim-1";
  Sum256 _ := [1; 2];
  ParseCIDR _ := Some (true, true);
  ParseDuration s := if String.eqb s "0s" then Some 0 else if String.eqb s "400us" then Some 400000 else None;
  range_ports l := l;
  range_ports_perm l := Permutation_refl l;
|}.

Lemma load_sound_witness :
  let c := finished (H := demo_host demo_file "") demo_file in
  let k := prp_config (H := demo_host demo_file "") c in
  c_Role k = role_name (role_of k) ∧
  c_LanAInterface k ≠ ""%string ∧ c_LanBInterface k ≠ ""%string ∧
  (c_MulticastFirstOctet k = ""%string ∨ parseMulticastPattern (c_MulticastFirstOctet k) ≠ []) ∧
  (c_PRPID k = 0 → Hostname (Host := demo_host demo_file "") = ""%string) ∧
  (Getenv (Host := demo_host demo_file "") "PRP_ROLE" = ""%string → IsHSRPRPCoupling k = true →
   c_InterlinkInterface k ≠ ""%string ∧ 2 <= PathId k <= 13).
Proof.
  apply (load_sound (H := demo_host demo_file "") "/etc/prp/config.yaml").
  vm_compute. reflexivity.
Defined.

(** The role override is not checked against the other settings: a file for
    prp-san without interlink and HSR settings becomes a coupling node. *)
Example role_override_bypass :
  let file := mkFile "" "prp-san" "eth0" "eth1" "" "" "" "" 0 "" 1 true false "" "" "" "" 0 "" true [] in
  ∃ c, Load (H := demo_host file "hsr-prp") "" = Ok c ∧ base_ok (H := demo_host file "hsr-prp") c ∧
    ¬ coupling_ok c ∧ If_Interlink c = ""%string.
Proof.
  intros file. eexists. split; [vm_compute; reflexivity|].
  split; [|split; [|done]].
  - apply (Load_valid (H := demo_host file "hsr-prp") ""). vm_compute. reflexivity.
  - intros Hc. by destruct (Hc eq_refl) as (? & _).
Qed.

Example zero_interval_panics : supervision_ticker (H := demo_host demo_file "") demo_file = Panic.
Proof. reflexivity. Qed.

Example submillisecond_default : forget_ms (H := demo_host demo_file "") "400us" = 0.
Proof. reflexivity. Qed.
