(* ===== verification/Iface.v ===== *)
(** * Iface: raw sockets and interface set-up

    Models [src/internal/iface/iface.go], the socket of the traffic generator
    ([src/cmd/trafficgen/socket_linux.go]) and [applyStaticIPs] of
    [src/cmd/prpd/main.go].  The kernel is an environment that
    answers each system call knowing all calls before it; a function of the
    package is a computation that extends the history of calls.  The [msgs]
    of a reception are what [unix.ParseSocketControlMessage] returns. *)

From S2P Require Import Prelude Engine.

(** ** Byte order *)

(** [iface.htons] *)
Definition htons (v : Z) : Z := Z.lor (Z.land (u16 (Z.shiftl v 8)) 0xFF00) (Z.shiftr v 8).

(** [htons] of the traffic generator *)
Definition htons_tg (v : Z) : Z := Z.lor (u16 (Z.shiftl v 8)) (Z.shiftr v 8).

(** [binary.LittleEndian.Uint16(s[off:off+2])] *)
Definition le16 (s : bytes) (off : Z) : go Z :=
  let! b := slice s off (off + 2) in
  Ret (Z.lor (b !!! 0%nat) (Z.shiftl (b !!! 1%nat) 8)).

(** [binary.LittleEndian.Uint32(s[off:off+4])] *)
Definition le32 (s : bytes) (off : Z) : go Z :=
  let! b := slice s off (off + 4) in
  Ret (Z.lor (Z.lor (Z.lor (b !!! 0%nat) (Z.shiftl (b !!! 1%nat) 8)) (Z.shiftl (b !!! 2%nat) 16))
             (Z.shiftl (b !!! 3%nat) 24)).

(** ** Reception: restoring the VLAN tag *)

(** The Linux constants of [golang.org/x/sys/unix]. *)
Definition SOL_PACKET : Z := 263.
Definition PACKET_AUXDATA : Z := 8.
Definition TP_STATUS_VLAN_VALID : Z := 0x10.

(** [unix.SocketControlMessage] *)
Record cmsg := mkCmsg { m_Level : Z; m_Type : Z; m_Data : bytes }.

(** [buf[i] = v] *)
Definition set_byte (i v : Z) (buf : bytes) : go bytes :=
  if (0 <=? i) && (i <? glen buf) then Ret (<[Z.to_nat i := v]> buf) else Panic.

(** [copy(buf[16:n+4], buf[12:n])] and the four assignments *)
Definition insert_tag (buf : bytes) (n tpid tci : Z) : go bytes :=
  let! _ := slice buf 16 (n + 4) in
  let! payload := slice buf 12 n in
  let buf := take 16 buf ++ payload ++ drop (Z.to_nat (n + 4)) buf in
  let! buf := set_byte 12 (u8 (Z.shiftr tpid 8)) buf in
  let! buf := set_byte 13 (u8 tpid) buf in
  let! buf := set_byte 14 (u8 (Z.shiftr tci 8)) buf in
  set_byte 15 (u8 tci) buf.

(** The loop of [RawSocket.Read] over the control messages: the frame length
    and the buffer. *)
Fixpoint read_msgs (msgs : list cmsg) (buf : bytes) (n : Z) : go (Z * bytes) :=
  match msgs with
  | [] => Ret (n, buf)
  | m :: msgs =>
      if negb (m_Level m =? SOL_PACKET) || negb (m_Type m =? PACKET_AUXDATA) then read_msgs msgs buf n
      else if glen (m_Data m) <? 20 then read_msgs msgs buf n
      else
        let! status := le32 (m_Data m) 0 in
        if Z.land status TP_STATUS_VLAN_VALID =? 0 then read_msgs msgs buf n
        else
          let! tci := le16 (m_Data m) 16 in
          let! tpid := le16 (m_Data m) 18 in
          let tpid := if tpid =? 0 then 0x8100 else tpid in
          if (n <? 12) || (glen buf <? n + 4) then Ret (n, buf)
          else
            let! buf := insert_tag buf n tpid tci in
            Ret (n + 4, buf)
  end.

(** What [unix.Recvmsg] left behind: the buffer, the frame length, the
    length of the ancillary data and its messages ([None]: they do not parse). *)
Record recvd := mkRecvd { r_buf : bytes; r_n : Z; r_oobn : Z; r_msgs : option (list cmsg) }.

(** [RawSocket.Read] *)
Definition Read (r : result Z recvd) : go (result Z (Z * bytes)) :=
  match r with
  | Err errno => Ret (Err errno)
  | Ok r =>
      if r_oobn r =? 0 then Ret (Ok (r_n r, r_buf r))
      else match r_msgs r with
           | None => Ret (Ok (r_n r, r_buf r))
           | Some msgs => let! o := read_msgs msgs (r_buf r) (r_n r) in Ret (Ok o)
           end
  end.

(** The loop of the generator's [restoreVLANTag], which is written again. *)
Fixpoint restore_msgs (msgs : list cmsg) (buf : bytes) (n : Z) : go (Z * bytes) :=
  match msgs with
  | [] => Ret (n, buf)
  | m :: rest =>
      if negb (m_Level m =? SOL_PACKET) || negb (m_Type m =? PACKET_AUXDATA) then restore_msgs rest buf n
      else if glen (m_Data m) <? 20 then restore_msgs rest buf n
      else
        let! status := le32 (m_Data m) 0 in
        if Z.land status TP_STATUS_VLAN_VALID =? 0 then restore_msgs rest buf n
        else
          let! tci := le16 (m_Data m) 16 in
          let! tpid := le16 (m_Data m) 18 in
          let tpid := if tpid =? 0 then 0x8100 else tpid in
          if (n <? 12) || (glen buf <? n + 4) then Ret (n, buf)
          else let! buf := insert_tag buf n tpid tci in Ret (n + 4, buf)
  end.

(** [restoreVLANTag(buf, n, oob)] *)
Definition restoreVLANTag (r : recvd) : go (Z * bytes) :=
  if r_oobn r =? 0 then Ret (r_n r, r_buf r)
  else match r_msgs r with
       | None => Ret (r_n r, r_buf r)
       | Some msgs => restore_msgs msgs (r_buf r) (r_n r)
       end.

Definition EAGAIN : Z := 11.
Definition EINTR : Z := 4.

(** [linuxSocket.Recv]: a timeout is a reception of 0 bytes *)
Definition Recv (r : result Z recvd) : go (result Z (Z * bytes)) :=
  match r with
  | Err errno => Ret (if (errno =? EAGAIN) || (errno =? EINTR) then Ok (0, []) else Err errno)
  | Ok r => let! o := restoreVLANTag r in Ret (Ok o)
  end.

(** ** Reference: what the messages say *)

(** The tag the first usable message reports. *)
Fixpoint reported (msgs : list cmsg) : option (Z * Z) :=
  match msgs with
  | [] => None
  | m :: msgs =>
      if (m_Level m =? SOL_PACKET) && (m_Type m =? PACKET_AUXDATA) && (20 <=? glen (m_Data m)) &&
         Z.testbit (m_Data m !!! 0%nat) 4
      then
        let tci := m_Data m !!! 16%nat + 256 * m_Data m !!! 17%nat in
        let tpid := m_Data m !!! 18%nat + 256 * m_Data m !!! 19%nat in
        Some (if tpid =? 0 then 0x8100 else tpid, tci)
      else reported msgs
  end.

(** The wire frame of which the kernel delivered [buf[:n]]. *)
Definition with_tag (buf : bytes) (n tpid tci : Z) : bytes :=
  sub buf 0 12 ++ PutUint16 tpid ++ PutUint16 tci ++ sub buf 12 n.

(** ** Lemmas *)

Lemma set_byte_app (l k : bytes) x i v :
  i = glen l → set_byte i v (l ++ x :: k) = Ret (l ++ v :: k).
Proof.
  intros ->. unfold set_byte. pose proof (glen_nonneg l).
  assert (Hg : glen (l ++ x :: k) = glen l + 1 + glen k) by (rewrite glen_app; len_lia).
  pose proof (glen_nonneg k).
  guard_true ((0 <=? glen l) && (glen l <? glen (l ++ x :: k))).
  f_equal. unfold glen. rewrite Nat2Z.id. by rewrite <-(Nat.add_0_r (length l)), insert_app_r.
Qed.

Lemma insert_tag_eq buf n tpid tci :
  12 <= n → n + 4 <= glen buf →
  insert_tag buf n tpid tci = Ret (with_tag buf n tpid tci ++ drop (Z.to_nat (n + 4)) buf).
Proof.
  intros Hn Hg. unfold insert_tag. rewrite !slice_ok by lia. cbn [go_bind].
  set (t := drop (Z.to_nat (n + 4)) buf). set (p := sub buf 12 n).
  assert (H16 : ∃ a b c d, take 16 buf = sub buf 0 12 ++ [a; b; c; d]).
  { assert (Hl : length (take 4 (drop 12 buf)) = 4%nat)
      by (rewrite length_take, length_drop; unfold glen in *; lia).
    destruct (take 4 (drop 12 buf)) as [|a [|b [|c [|d [|]]]]] eqn:E; try discriminate Hl.
    exists a, b, c, d. rewrite <-E. unfold sub. change (Z.to_nat (12 - 0)) with 12%nat.
    change (drop (Z.to_nat 0) buf) with buf. by rewrite take_take_drop. }
  destruct H16 as (a & b & c & d & ->).
  assert (Hm : glen (sub buf 0 12) = 12) by (rewrite glen_sub; lia). set (m := sub buf 0 12) in *.
  rewrite <-app_assoc. cbn [app].
  rewrite set_byte_app by done. cbn [go_bind].
  replace (m ++ u8 (Z.shiftr tpid 8) :: b :: c :: d :: p ++ t)
    with ((m ++ [u8 (Z.shiftr tpid 8)]) ++ b :: c :: d :: p ++ t) by by rewrite <-app_assoc.
  rewrite set_byte_app by (rewrite glen_app, Hm; done). cbn [go_bind].
  replace ((m ++ [u8 (Z.shiftr tpid 8)]) ++ u8 tpid :: c :: d :: p ++ t)
    with ((m ++ PutUint16 tpid) ++ c :: d :: p ++ t) by by rewrite <-!app_assoc.
  rewrite set_byte_app by (rewrite glen_app, Hm; done). cbn [go_bind].
  replace ((m ++ PutUint16 tpid) ++ u8 (Z.shiftr tci 8) :: d :: p ++ t)
    with ((m ++ PutUint16 tpid ++ [u8 (Z.shiftr tci 8)]) ++ d :: p ++ t) by by rewrite <-!app_assoc.
  rewrite set_byte_app by (rewrite !glen_app, Hm; done).
  unfold with_tag. fold m p. by rewrite <-!app_assoc.
Qed.

Lemma sub_nth (s : bytes) lo hi (k : nat) :
  0 <= lo → Z.of_nat k < hi - lo → sub s lo hi !!! k = s !!! Z.to_nat (lo + Z.of_nat k).
Proof. intros. rewrite <-(sub_total s lo hi) by lia. by rewrite Nat2Z.id. Qed.

Lemma le16_ok s off :
  bytes_ok s → 0 <= off → off + 2 <= glen s →
  le16 s off = Ret (s !!! Z.to_nat off + 256 * s !!! Z.to_nat (off + 1)).
Proof.
  intros Hb H0 Hl. unfold le16. rewrite slice_ok by lia. cbn [go_bind].
  rewrite !sub_nth by lia. cbn [Z.of_nat Pos.of_succ_nat].
  rewrite Z.add_0_r, Z.lor_comm, lor_shiftl_add; [change (2 ^ 8) with 256; change (Z.of_nat 1) with 1; f_equal; lia|lia|].
  by apply bytes_ok_total.
Qed.

Lemma testbit_land x : (Z.land x TP_STATUS_VLAN_VALID =? 0) = negb (Z.testbit x 4).
Proof.
  change TP_STATUS_VLAN_VALID with (2 ^ 4). destruct (Z.testbit x 4) eqn:E.
  - apply Z.eqb_neq. intros H0. apply (f_equal (fun y => Z.testbit y 4)) in H0.
    rewrite Z.land_spec, E, Z.bits_0 in H0. discriminate.
  - apply Z.eqb_eq, Z.bits_inj'. intros i Hi. rewrite Z.land_spec, Z.bits_0.
    destruct (decide (i = 4)) as [->|Hne]; [by rewrite E|].
    rewrite (Z.pow2_bits_false 4 i) by done. apply andb_false_r.
Qed.

(** The status flag is in the first byte. *)
Lemma le32_flag s :
  bytes_ok s → 4 <= glen s →
  ∃ v, le32 s 0 = Ret v ∧ Z.testbit v 4 = Z.testbit (s !!! 0%nat) 4.
Proof.
  intros Hb Hl. unfold le32. rewrite slice_ok by lia. cbn [go_bind]. eexists. split; [done|].
  rewrite !sub_nth by lia.
  rewrite !Z.lor_spec, !Z.shiftl_spec_low by lia. by rewrite !orb_false_r.
Qed.

Definition msgs_ok (msgs : list cmsg) : Prop := Forall (fun m => bytes_ok (m_Data m)) msgs.

(** The loop implements the reference. *)
Lemma read_msgs_spec msgs buf n :
  msgs_ok msgs → 0 <= n <= glen buf →
  read_msgs msgs buf n =
  Ret (match reported msgs with
       | Some (tpid, tci) =>
           if (12 <=? n) && (n + 4 <=? glen buf)
           then (n + 4, with_tag buf n tpid tci ++ drop (Z.to_nat (n + 4)) buf)
           else (n, buf)
       | None => (n, buf)
       end).
Proof.
  intros Hm Hn. induction Hm as [|m msgs Hd Hm IH]; cbn [read_msgs reported]; [done|].
  destruct (m_Level m =? SOL_PACKET); cbn [negb orb andb]; [|done].
  destruct (m_Type m =? PACKET_AUXDATA); cbn [negb andb]; [|done].
  destruct (Z.ltb_spec (glen (m_Data m)) 20).
  { by guard_false (20 <=? glen (m_Data m)). }
  guard_true (20 <=? glen (m_Data m)). cbn [andb].
  destruct (le32_flag (m_Data m) Hd) as (v & -> & Hv); [lia|]. cbn [go_bind].
  rewrite testbit_land, Hv. destruct (Z.testbit (m_Data m !!! 0%nat) 4); cbn [negb]; [|done].
  rewrite !le16_ok by (done || lia). cbn [go_bind].
  change (Z.to_nat 16) with 16%nat. change (Z.to_nat (16 + 1)) with 17%nat.
  change (Z.to_nat 18) with 18%nat. change (Z.to_nat (18 + 1)) with 19%nat.
  set (tpid := if _ =? 0 then _ else _).
  destruct ((12 <=? n) && (n + 4 <=? glen buf)) eqn:E; zb.
  - guard_false ((n <? 12) || (glen buf <? n + 4)). by rewrite insert_tag_eq.
  - apply andb_false_iff in E. guard_true ((n <? 12) || (glen buf <? n + 4)). done.
Qed.

Lemma restore_msgs_read msgs buf n : restore_msgs msgs buf n = read_msgs msgs buf n.
Proof.
  induction msgs as [|m msgs IH]; [done|]. cbn [restore_msgs read_msgs]. by rewrite IH.
Qed.

(** ** Properties of reception *)

(** The message a kernel sends with a stripped tag: status, lengths and
    offsets, then the tag in the host's (little-endian) order. *)
Definition aux_msg (status pad : bytes) (tpid tci : Z) : cmsg :=
  mkCmsg SOL_PACKET PACKET_AUXDATA
    (status ++ pad ++ [u8 tci; u8 (Z.shiftr tci 8)] ++ [u8 tpid; u8 (Z.shiftr tpid 8)]).

Lemma reported_aux pre post status pad tpid tci :
  reported pre = None → glen status = 4 → glen pad = 12 → Z.testbit (status !!! 0%nat) 4 = true →
  is_u16 tpid → is_u16 tci →
  reported (pre ++ aux_msg status pad tpid tci :: post) = Some (if tpid =? 0 then 0x8100 else tpid, tci).
Proof.
  intros Hpre Hs Hp Hf Ht Hc. induction pre as [|m pre IH]; cbn [app reported] in *.
  2:{ destruct (_ && _); [discriminate|]. by apply IH. }
  cbn [aux_msg m_Level m_Type m_Data]. rewrite !Z.eqb_refl. cbn [andb].
  set (t := [u8 tci; u8 (Z.shiftr tci 8)] ++ [u8 tpid; u8 (Z.shiftr tpid 8)]).
  assert (Hk : ∀ k, (status ++ pad ++ t) !!! (16 + k)%nat = t !!! k).
  { intros k. rewrite !lookup_total_app_r by (unfold glen in *; lia).
    f_equal. unfold glen in *. lia. }
  pose proof (Hk 0%nat) as K0. pose proof (Hk 1%nat) as K1. pose proof (Hk 2%nat) as K2.
  pose proof (Hk 3%nat) as K3. cbn [Nat.add] in K0, K1, K2, K3. rewrite K0, K1, K2, K3.
  rewrite lookup_total_app_l by (unfold glen in *; lia). rewrite Hf.
  assert (Hg : glen (status ++ pad ++ t) = 20) by (rewrite !glen_app, Hs, Hp; done). rewrite Hg.
  change (20 <=? 20) with true.
  unfold t. cbv [lookup_total list_lookup_total app]. cbn [andb].
  unfold is_u16, u8 in *. rewrite !shiftr_8.
  assert (tpid mod 256 + 256 * (tpid / 256 mod 256) = tpid) as -> by zlia.
  assert (tci mod 256 + 256 * (tci / 256 mod 256) = tci) as -> by zlia. done.
Qed.

(** C33: the tag a network card strips comes back.  A frame [macs ++ tag ++
    rest] is on the wire; the kernel delivers it without the tag and reports
    the tag in one of the control messages, none before it usable.  [Read]
    returns the wire frame, byte for byte, if the buffer has room for it. *)
Theorem vlan_wire_roundtrip macs tpid tci rest junk pre post status pad oobn :
  glen macs = 12 → is_u16 tpid → tpid ≠ 0 → is_u16 tci → 4 <= glen junk → oobn ≠ 0 →
  msgs_ok (pre ++ aux_msg status pad tpid tci :: post) → reported pre = None →
  glen status = 4 → glen pad = 12 → Z.testbit (status !!! 0%nat) 4 = true →
  let wire := macs ++ PutUint16 tpid ++ PutUint16 tci ++ rest in
  let r := mkRecvd (macs ++ rest ++ junk) (glen (macs ++ rest)) oobn
             (Some (pre ++ aux_msg status pad tpid tci :: post)) in
  ∃ buf, Read (Ok r) = Ret (Ok (glen wire, buf)) ∧ glen buf = glen (r_buf r) ∧
    sub buf 0 (glen wire) = wire ∧ Recv (Ok r) = Ret (Ok (glen wire, buf)).
Proof.
  intros Hm Ht Ht0 Hc Hj Ho Hok Hpre Hs Hp Hf wire r.
  pose proof (glen_nonneg rest).
  set (buf := macs ++ rest ++ junk) in *. set (n := glen (macs ++ rest)) in *.
  assert (Hn : n = 12 + glen rest) by (unfold n; rewrite glen_app; lia).
  assert (Hb : glen buf = n + glen junk) by (unfold buf; rewrite !glen_app; lia).
  assert (Hwt : with_tag buf n tpid tci = wire).
  { unfold with_tag, wire, buf. rewrite sub_app_l by done. do 3 f_equal.
    unfold sub. rewrite drop_app_length' by (unfold glen in *; lia).
    apply take_app_length'. unfold glen in *. lia. }
  assert (Hrd : read_msgs (pre ++ aux_msg status pad tpid tci :: post) buf n =
    Ret (n + 4, wire ++ drop (Z.to_nat (n + 4)) buf)).
  { rewrite read_msgs_spec, reported_aux by (done || lia).
    rewrite (proj2 (Z.eqb_neq tpid 0) Ht0).
    guard_true ((12 <=? n) && (n + 4 <=? glen buf)). by rewrite Hwt. }
  assert (Hw : glen wire = n + 4) by (unfold wire; rewrite !glen_app, !glen_PutUint16; lia).
  exists (wire ++ drop (Z.to_nat (n + 4)) buf). rewrite Hw. unfold r, Read, Recv, restoreVLANTag.
  cbn [r_buf r_n r_oobn r_msgs].
  rewrite (proj2 (Z.eqb_neq oobn 0) Ho). change restore_msgs with read_msgs. cbv beta iota. rewrite !Hrd. cbn [go_bind]. split_and!; [done| | |done].
  - rewrite glen_app, Hw. unfold glen in *. rewrite length_drop. lia.
  - by apply sub_app_l.
Qed.

(** Reception in general: [Read] never panics on what the kernel delivers, and
    without a usable report, or without room, the frame is left as it is. *)
Lemma Read_total buf n oobn msgs :
  (∀ l, msgs = Some l → msgs_ok l) → 0 <= n <= glen buf →
  ∃ n' buf', Read (Ok (mkRecvd buf n oobn msgs)) = Ret (Ok (n', buf')) ∧ 
    (n' = n ∧ buf' = buf ∨ n' = n + 4 ∧ 12 <= n).
Proof.
  intros Hm Hn. cbn [Read r_oobn r_msgs r_buf r_n].
  destruct (oobn =? 0); [eauto 10|]. destruct msgs as [l|]; [|eauto 10].
  rewrite read_msgs_spec by auto. cbn [go_bind].
  destruct (reported l) as [[tpid tci]|]; [|eauto 10].
  destruct ((12 <=? n) && _) eqn:E; [|eauto 10]. zb. eauto 10.
Qed.

Lemma lor_mul_256 a b : 0 <= b < 256 → Z.lor (a * 256) b = a * 256 + b.
Proof.
  intros Hb. replace (a * 256) with (Z.shiftl a 8) at 1 by (rewrite Z.shiftl_mul_pow2; lia).
  rewrite lor_shiftl_add; [done|lia|done].
Qed.

(** The two byte swaps agree, undo themselves, and put a value in network
    order into a little-endian host word. *)
Lemma htons_agree v : is_u16 v → htons v = htons_tg v ∧ htons (htons v) = v ∧ PutUint16 v = [u8 (htons v); u8 (Z.shiftr (htons v) 8)].
Proof.
  intros Hv. unfold is_u16 in Hv.
  assert (H1 : u16 (Z.shiftl v 8) = v mod 256 * 256).
  { rewrite Z.shiftl_mul_pow2 by lia. change (2 ^ 8) with 256. unfold u16. zlia. }
  assert (Hsw : ∀ x, 0 <= x < 65536 → htons x = x mod 256 * 256 + x / 256).
  { intros x Hx. unfold htons.
    assert (u16 (Z.shiftl x 8) = x mod 256 * 2 ^ 8 + 0) as ->.
    { rewrite Z.shiftl_mul_pow2 by lia. change (2 ^ 8) with 256. unfold u16. zlia. }
    change 0xFF00 with (255 * 2 ^ 8 + 0). rewrite land_fields by (change (2 ^ 8) with 256; lia).
    change (Z.land 0 0) with 0. change 255 with (Z.ones 8). rewrite Z.land_ones by lia.
    rewrite shiftr_8, Z.add_0_r. change (2 ^ 8) with 256. rewrite Z.mod_mod by lia.
    apply lor_mul_256. zlia. }
  split_and!.
  - rewrite Hsw by done. unfold htons_tg. rewrite H1, shiftr_8.
    symmetry. apply lor_mul_256. zlia.
  - rewrite (Hsw v) by done. rewrite Hsw by zlia. zlia.
  - rewrite Hsw by done. unfold PutUint16, u8. rewrite !shiftr_8. f_equal; [zlia|f_equal; zlia].
Qed.

(** ** System calls *)

Inductive sockopt := RcvBuf | IgnoreOutgoing | AuxData.

(** The calls the package makes, with the arguments the kernel sees. *)
Inductive call :=
| CSocket (fd : Z)
| CBind (fd ifIndex : Z)
| CSetsockopt (fd : Z) (o : sockopt) (v : Z)
| CSendto (fd ifIndex : Z) (frame : bytes)
| CSend (fd : Z) (frame : bytes)
| CRcvTimeo (fd sec usec : Z)
| CIoctl (fd req : Z) (ifreq : bytes)
| CGetFlags (fd : Z) (name : string)
| CSetFlags (fd : Z) (name : string) (flags : Z)
| CExec (args : list string)
| CClose (fd : Z).

(** The kernel: how it answers, given the calls so far.  A new descriptor is
    not in use. *)
Fixpoint open_fds (h : list call) : gset Z :=
  match h with
  | [] => ∅
  | CSocket fd :: h => {[fd]} ∪ open_fds h
  | CClose fd :: h => open_fds h ∖ {[fd]}
  | _ :: h => open_fds h
  end.

(** Histories are kept newest call first. *)
Class Kernel := {
  k_socket : list call → option Z;
  k_socket_fresh h fd : k_socket h = Some fd → fd ∉ open_fds h;
  k_ok : list call → call → bool;
  k_iface : list call → string → option (Z * Z);
  k_flags : list call → Z;
}.

(** A computation over the history. *)
Definition SysM (A : Type) : Type := list call → A * list call.
#[export] Instance SysM_ret : MRet SysM := fun A a h => (a, h).
#[export] Instance SysM_bind : MBind SysM := fun A B k m h => let '(a, h') := m h in k a h'.

Inductive iface_error :=
| NoInterface (name : string) | SocketFailed | BindFailed (name : string) | IgnoreOutgoingFailed | AuxDataFailed
| IoctlFailed (req : Z) | BadName (name : string) | BadMAC | BadCIDRArg (cidr : string) | NotIPv4Arg (cidr : string)
| SetAddressFailed | SetNetmaskFailed | CommandFailed | SendFailed.

(** [RawSocket] *)
Record RawSocket := mkRaw { rs_name : string; rs_ifIndex : Z; rs_fd : Z; rs_mtu : Z }.

(** [linuxSocket] *)
Record linuxSocket := mkLinux { ls_fd : Z; ls_ifIndex : Z; ls_timeout : Z }.

Definition SIOCSIFMTU : Z := 0x8922.
Definition SIOCSIFHWADDR : Z := 0x8924.
Definition SIOCSIFADDR : Z := 0x8916.
Definition SIOCSIFNETMASK : Z := 0x891c.
Definition IFNAMSIZ : Z := 16.

(** The bytes of a Go string. *)
Fixpoint name_bytes (s : string) : bytes :=
  match s with EmptyString => [] | String c s => Z.of_nat (nat_of_ascii c) :: name_bytes s end.

Section syscalls.
Context {K : Kernel}.

Definition sys (c : call) : SysM bool := fun h => (k_ok h c, c :: h).
Definition close (fd : Z) : SysM unit := fun h => (tt, CClose fd :: h).

(** [unix.Socket]; also [ioctlSocket] *)
Definition ioctlSocket : SysM (option Z) := fun h =>
  match k_socket h with Some fd => (Some fd, CSocket fd :: h) | None => (None, h) end.

(** [net.InterfaceByName] *)
Definition InterfaceByName (name : string) : SysM (option (Z * Z)) := fun h => (k_iface h name, h).

(** [fd, err := ioctlSocket(); defer unix.Close(fd)] around [k] *)
Definition with_socket {A} (k : Z → SysM (result iface_error A)) : SysM (result iface_error A) :=
  fd ← ioctlSocket;
  match fd with
  | None => mret (Err SocketFailed)
  | Some fd => r ← k fd; _ ← close fd; mret r
  end.

(** [CreateRawSocket] *)
Definition CreateRawSocket (iface : string) : SysM (result iface_error RawSocket) :=
  i ← InterfaceByName iface;
  match i with
  | None => mret (Err (NoInterface iface))
  | Some (ifIndex, _) =>
      j ← InterfaceByName iface;
      match j with
      | None => mret (Err (NoInterface iface))
      | Some (_, mtu) =>
          s ← ioctlSocket;
          match s with
          | None => mret (Err SocketFailed)
          | Some fd =>
              ok ← sys (CBind fd ifIndex);
              if negb ok then (_ ← close fd; mret (Err (BindFailed iface)))
              else
                _ ← sys (CSetsockopt fd RcvBuf (128 * 1024));
                ok ← sys (CSetsockopt fd IgnoreOutgoing 1);
                if negb ok then (_ ← close fd; mret (Err IgnoreOutgoingFailed))
                else
                  ok ← sys (CSetsockopt fd AuxData 1);
                  if negb ok then (_ ← close fd; mret (Err AuxDataFailed))
                  else mret (Ok (mkRaw iface ifIndex fd mtu))
          end
      end
  end.

(** [RawSocket.Write]: [&frame[0]] panics on an empty frame *)
Definition Write (r : RawSocket) (frame : bytes) : SysM (go (result iface_error Z)) :=
  match frame with
  | [] => mret Panic
  | _ =>
      ok ← sys (CSendto (rs_fd r) (rs_ifIndex r) frame);
      mret (Ret (if negb ok then Err SendFailed else Ok (glen frame)))
  end.

(** [RawSocket.Close] *)
Definition Close (r : RawSocket) : SysM bool := sys (CClose (rs_fd r)).

(** [SetMTU]: the ifreq is the name, the MTU in host order and padding *)
Definition mtu_ifreq (name : string) (mtu : Z) : bytes :=
  slot 16 (name_bytes name) ++
  [u8 mtu; u8 (Z.shiftr mtu 8); u8 (Z.shiftr mtu 16); u8 (Z.shiftr mtu 24)] ++ zeros 20.

Definition SetMTU (name : string) (mtu : Z) : SysM (result iface_error unit) :=
  with_socket (fun fd =>
    ok ← sys (CIoctl fd SIOCSIFMTU (mtu_ifreq name mtu));
    mret (if negb ok then Err (IoctlFailed SIOCSIFMTU) else Ok tt)).

(** [setInterfaceMAC]; [mac] is the result of [net.ParseMAC] *)
Definition mac_ifreq (name : string) (mac : bytes) : bytes :=
  slot 16 (name_bytes name) ++ [1; 0] ++ slot 6 mac ++ zeros 16.

Definition setInterfaceMAC (name : string) (mac : option bytes) : SysM (result iface_error unit) :=
  match mac with
  | None => mret (Err BadMAC)
  | Some hwAddr =>
      with_socket (fun fd =>
        if negb (glen hwAddr =? 6) then mret (Err BadMAC)
        else
          ok ← sys (CIoctl fd SIOCSIFHWADDR (mac_ifreq name hwAddr));
          mret (if negb ok then Err (IoctlFailed SIOCSIFHWADDR) else Ok tt))
  end.

(** [SetInterfaceUp] *)
Definition SetInterfaceUp (name : string) : SysM (result iface_error unit) :=
  with_socket (fun fd =>
    if Z.of_nat (String.length name) >=? IFNAMSIZ then mret (Err (BadName name))
    else
      ok ← sys (CGetFlags fd name);
      if negb ok then mret (Err (IoctlFailed 0x8913))
      else
        cur ← (fun h => (k_flags h, h));
        ok ← sys (CSetFlags fd name (Z.lor cur 1));
        mret (if negb ok then Err (IoctlFailed 0x8914) else Ok tt)).

(** [setIPWithCmd] *)
Definition setIPWithCmd (name cidr : string) : SysM (result iface_error unit) :=
  ok ← sys (CExec ["ip"; "addr"; "add"; cidr; "dev"; name]%string);
  mret (if negb ok then Err CommandFailed else Ok tt).

(** The ifreq of [apply]: name, family, port, address, padding. *)
Definition addr_ifreq (name : string) (addr : bytes) : bytes :=
  slot 16 (name_bytes name) ++ PutUint16 2 ++ zeros 2 ++ slot 4 addr ++ zeros 16.

(** [SetInterfaceIP]; [parsed] is the result of [net.ParseCIDR]: the address
    as IPv4, if it is one, and the mask *)
Definition SetInterfaceIP (name cidr : string) (parsed : option (option bytes * bytes)) : SysM (result iface_error unit) :=
  match parsed with
  | None => mret (Err (BadCIDRArg cidr))
  | Some (None, _) => mret (Err (NotIPv4Arg cidr))
  | Some (Some ip4, mask) =>
      with_socket (fun fd =>
        ok ← sys (CIoctl fd SIOCSIFADDR (addr_ifreq name ip4));
        if negb ok then
          r ← setIPWithCmd name cidr;
          mret (match r with Err _ => Err SetAddressFailed | Ok _ => Ok tt end)
        else
          ok ← sys (CIoctl fd SIOCSIFNETMASK (addr_ifreq name mask));
          mret (if negb ok then Err SetNetmaskFailed else Ok tt))
  end.

(** [applyStaticIPs] of [cmd/prpd]: name and address of each port, with what
    the address parses to; errors are only logged *)
Fixpoint applyStaticIPs (ports : list (string * string * option (option bytes * bytes))) : SysM unit :=
  match ports with
  | [] => mret tt
  | (name, cidr, parsed) :: ports =>
      if String.eqb name "" || String.eqb cidr "" then applyStaticIPs ports
      else
        _ ← SetInterfaceUp name;
        _ ← SetInterfaceIP name cidr parsed;
        applyStaticIPs ports
  end.

(** *** The generator's socket ([src/cmd/trafficgen/socket_linux.go]) *)

(** [openSocket]: the two socket options are best effort *)
Definition openSocket (iface : string) : SysM (result iface_error linuxSocket) :=
  i ← InterfaceByName iface;
  match i with
  | None => mret (Err (NoInterface iface))
  | Some (ifIndex, _) =>
      s ← ioctlSocket;
      match s with
      | None => mret (Err SocketFailed)
      | Some fd =>
          ok ← sys (CBind fd ifIndex);
          if negb ok then (_ ← close fd; mret (Err (BindFailed iface)))
          else
            _ ← sys (CSetsockopt fd RcvBuf (512 * 1024));
            _ ← sys (CSetsockopt fd AuxData 1);
            mret (Ok (mkLinux fd ifIndex 0))
      end
  end.

(** [linuxSocket.Send] *)
Definition Send (s : linuxSocket) (frame : bytes) : SysM (go (result iface_error unit)) :=
  match frame with
  | [] => mret Panic
  | _ =>
      ok ← sys (CSend (ls_fd s) frame);
      mret (Ret (if negb ok then Err SendFailed else Ok tt))
  end.

(** [linuxSocket.SetRecvTimeout]; Go's division truncates *)
Definition SetRecvTimeout (s : linuxSocket) (d : Z) : SysM (bool * linuxSocket) :=
  ok ← sys (CRcvTimeo (ls_fd s) (Z.quot d 1000000000) (Z.quot (Z.rem d 1000000000) 1000));
  mret (ok, mkLinux (ls_fd s) (ls_ifIndex s) d).

(** [linuxSocket.Close] *)
Definition CloseLinux (s : linuxSocket) : SysM bool := sys (CClose (ls_fd s)).
End syscalls.

(** [listDevices]: the lines printed for [net.Interfaces] (name and hardware
    address), or exit status 1 *)
Definition listDevices (ifaces : option (list (string * string))) : option (list string) :=
  match ifaces with
  | None => None
  | Some l => Some ((fun i => (i.1 +:+ String "009" i.2)%string) <$> l)
  end.

(** ** Properties of the set-up *)

Section safety.
Context {K : Kernel}.

(** Descriptors are as before. *)
Definition keeps {A} (m : SysM A) : Prop := ∀ h, open_fds (m h).2 = open_fds h.

Definition plain (c : call) : bool :=
  match c with CSocket _ | CClose _ => false | _ => true end.

Lemma keeps_ret {A} (a : A) : keeps (mret a).
Proof. done. Qed.

Lemma keeps_bind {A B} (m : SysM A) (k : A → SysM B) :
  keeps m → (∀ a, keeps (k a)) → keeps (m ≫= k).
Proof.
  intros Hm Hk h. unfold mbind, SysM_bind. specialize (Hm h).
  destruct (m h) as [a h']. cbn [snd] in Hm. by rewrite Hk.
Qed.

Lemma keeps_sys c : plain c = true → keeps (sys c).
Proof. intros Hc h. by destruct c. Qed.

Lemma keeps_read {A} (f : list call → A) : keeps (fun h => (f h, h)).
Proof. done. Qed.

Lemma keeps_if {A} (b : bool) (m m' : SysM A) : keeps m → keeps m' → keeps (if b then m else m').
Proof. by destruct b. Qed.

Lemma close_fresh fd (X : gset Z) : fd ∉ X → ({[fd]} ∪ X) ∖ {[fd]} = X.
Proof.
  intros Hf. rewrite difference_union_distr_l_L, difference_diag_L, union_empty_l_L.
  by apply difference_disjoint_L, disjoint_singleton_r.
Qed.

(** A socket that is opened for one operation is closed on every path. *)
Lemma keeps_with_socket {A} (k : Z → SysM (result iface_error A)) :
  (∀ fd, keeps (k fd)) → keeps (with_socket k).
Proof.
  intros Hk h. unfold with_socket, ioctlSocket, close, mbind, SysM_bind, mret, SysM_ret.
  destruct (k_socket h) as [fd|] eqn:E; [|done].
  pose proof (k_socket_fresh h fd E) as Hf. pose proof (Hk fd (CSocket fd :: h)) as Hk'.
  destruct (k fd (CSocket fd :: h)) as [r h']. cbn [snd] in *. cbn [open_fds]. rewrite Hk'. by apply close_fresh.
Qed.

Ltac keeps_tac :=
  repeat match goal with
  | |- keeps (with_socket _) => apply keeps_with_socket; intros ?
  | |- keeps (mbind _ _) => apply keeps_bind; [|intros ?]
  | |- keeps (mret _) => apply keeps_ret
  | |- keeps (sys _) => by apply keeps_sys
  | |- keeps (if _ then _ else _) => apply keeps_if
  | |- keeps (fun h => (_, h)) => apply keeps_read
  end.

Lemma SetMTU_keeps name mtu : keeps (SetMTU name mtu).
Proof. unfold SetMTU. keeps_tac. Qed.

Lemma setInterfaceMAC_keeps name mac : keeps (setInterfaceMAC name mac).
Proof. unfold setInterfaceMAC. destruct mac; keeps_tac. Qed.

Lemma SetInterfaceUp_keeps name : keeps (SetInterfaceUp name).
Proof. unfold SetInterfaceUp. keeps_tac. Qed.

Lemma SetInterfaceIP_keeps name cidr parsed : keeps (SetInterfaceIP name cidr parsed).
Proof. unfold SetInterfaceIP, setIPWithCmd. destruct parsed as [[[ip4|] mask]|]; keeps_tac. Qed.

Lemma applyStaticIPs_keeps ports : keeps (applyStaticIPs ports).
Proof.
  induction ports as [|[[name cidr] parsed] ports IH]; cbn [applyStaticIPs]; [keeps_tac|].
  destruct (_ || _); [done|].
  apply keeps_bind; [apply SetInterfaceUp_keeps|intros _].
  apply keeps_bind; [apply SetInterfaceIP_keeps|intros _]. done.
Qed.

Ltac unfold_sys :=
  unfold InterfaceByName, ioctlSocket, close, sys, mbind, SysM_bind, mret, SysM_ret.

(** What the node's socket constructor leaves behind. *)
Lemma CreateRawSocket_fds name h :
  match CreateRawSocket name h with
  | (Err _, h') => open_fds h' = open_fds h
  | (Ok s, h') =>
      rs_fd s ∉ open_fds h ∧ rs_name s = name ∧
      h' = [CSetsockopt (rs_fd s) AuxData 1; CSetsockopt (rs_fd s) IgnoreOutgoing 1;
            CSetsockopt (rs_fd s) RcvBuf 131072; CBind (rs_fd s) (rs_ifIndex s);
            CSocket (rs_fd s)] ++ h
  end.
Proof.
  unfold CreateRawSocket. unfold_sys.
  destruct (k_iface h name) as [[idx m]|] eqn:Ei; cbv beta iota; [|done]. rewrite Ei. cbv beta iota.
  destruct (k_socket h) as [fd|] eqn:E; cbv beta iota; [|done].
  pose proof (k_socket_fresh h fd E) as Hf. pose proof (close_fresh fd _ Hf) as Hcl.
  destruct (k_ok _ (CBind fd idx)); cbn [negb]; [|exact Hcl].
  destruct (k_ok _ (CSetsockopt fd IgnoreOutgoing 1)); cbn [negb]; [|exact Hcl].
  destruct (k_ok _ (CSetsockopt fd AuxData 1)); cbn [negb]; [|exact Hcl].
  by split_and!.
Qed.

(** What the generator's leaves behind. *)
Lemma openSocket_fds name h :
  match openSocket name h with
  | (Err _, h') => open_fds h' = open_fds h
  | (Ok s, h') =>
      ls_fd s ∉ open_fds h ∧
      h' = [CSetsockopt (ls_fd s) AuxData 1; CSetsockopt (ls_fd s) RcvBuf 524288;
            CBind (ls_fd s) (ls_ifIndex s); CSocket (ls_fd s)] ++ h
  end.
Proof.
  unfold openSocket. unfold_sys.
  destruct (k_iface h name) as [[idx m]|]; cbv beta iota; [|done].
  destruct (k_socket h) as [fd|] eqn:E; cbv beta iota; [|done].
  pose proof (k_socket_fresh h fd E) as Hf. pose proof (close_fresh fd _ Hf) as Hcl.
  destruct (k_ok _ (CBind fd idx)); cbn [negb]; [|exact Hcl].
  by split_and!.
Qed.

(** C34: no descriptor leaks.  The functions that configure an interface leave
    the open descriptors as they were on every path.  The node's and the
    generator's socket constructors do so when they fail; when they succeed
    exactly one descriptor more is open, bound to the interface and told to
    report stripped VLAN tags (the node's also not to return its own frames),
    and closing the socket restores the descriptors. *)
Theorem fd_safety (name cidr : string) (mtu : Z) (mac : option bytes) (parsed : option (option bytes * bytes))
    (ports : list (string * string * option (option bytes * bytes))) (h : list call) :
  open_fds (SetMTU name mtu h).2 = open_fds h ∧
  open_fds (setInterfaceMAC name mac h).2 = open_fds h ∧
  open_fds (SetInterfaceUp name h).2 = open_fds h ∧
  open_fds (SetInterfaceIP name cidr parsed h).2 = open_fds h ∧
  open_fds (applyStaticIPs ports h).2 = open_fds h ∧
  match CreateRawSocket name h with
  | (Err _, h') => open_fds h' = open_fds h
  | (Ok s, h') =>
      open_fds h' = {[rs_fd s]} ∪ open_fds h ∧ rs_fd s ∉ open_fds h ∧ open_fds (Close s h').2 = open_fds h ∧
      h' = [CSetsockopt (rs_fd s) AuxData 1; CSetsockopt (rs_fd s) IgnoreOutgoing 1;
            CSetsockopt (rs_fd s) RcvBuf 131072; CBind (rs_fd s) (rs_ifIndex s);
            CSocket (rs_fd s)] ++ h
  end ∧
  match openSocket name h with
  | (Err _, h') => open_fds h' = open_fds h
  | (Ok s, h') =>
      open_fds h' = {[ls_fd s]} ∪ open_fds h ∧ ls_fd s ∉ open_fds h ∧ open_fds (CloseLinux s h').2 = open_fds h
  end.
Proof.
  split_and!; [apply SetMTU_keeps|apply setInterfaceMAC_keeps|apply SetInterfaceUp_keeps|
               apply SetInterfaceIP_keeps|apply applyStaticIPs_keeps| |].
  - pose proof (CreateRawSocket_fds name h) as Hc. destruct (CreateRawSocket name h) as [[s|e] h']; [|exact Hc].
    destruct Hc as (Hf & _ & ->). split_and!; [done..|exact (close_fresh _ _ Hf)|done].
  - pose proof (openSocket_fds name h) as Hc. destruct (openSocket name h) as [[s|e] h']; [|exact Hc].
    destruct Hc as (Hf & ->). split_and!; [done..|exact (close_fresh _ _ Hf)].
Qed.

(** Ports without a name or an address are not touched. *)
Lemma applyStaticIPs_idle ports h :
  Forall (fun p => p.1.1 = ""%string ∨ p.1.2 = ""%string) ports → applyStaticIPs ports h = (tt, h).
Proof.
  induction 1 as [|[[name cidr] parsed] ports Hp _ IH]; [done|]. cbn [fst snd] in Hp. cbn [applyStaticIPs].
  destruct Hp as [-> | ->]; [done|]. by rewrite orb_true_r.
Qed.
End safety.

(** The address family is written in network order; a little-endian kernel
    reads 512, which is not [AF_INET]. *)
Lemma addr_family_swapped name addr : le16 (addr_ifreq name addr) 16 = Ret 512.
Proof.
  unfold addr_ifreq.
  assert (Hs : glen (slot 16 (name_bytes name)) = 16) by (apply glen_slot; lia).
  unfold le16. rewrite slice_ok by (rewrite ?glen_app, ?Hs; len_simpl; lia). cbn [go_bind].
  rewrite !sub_nth by lia.
  rewrite (total_app_r _ _ (16 + Z.of_nat 0)), (total_app_r _ _ (16 + Z.of_nat 1)) by lia.
  rewrite Hs. reflexivity.
Qed.

(** ** Concrete inputs *)

Definition demo_macs : bytes := [1; 0x0c; 0xcd; 1; 0; 1; 2; 0; 0; 0; 0; 1].

#[local] Program Instance demo_kernel : Kernel := {|
  k_socket h := Some (fresh (open_fds h));
  k_ok _ _ := true;
  k_iface _ _ := Some (2, 1500);
  k_flags _ := 0;
|}.
Next Obligation. intros h fd [= <-]. apply is_fresh. Qed.

Lemma fd_safety_witness :
  open_fds (CreateRawSocket "eth0" []).2 ≠ ∅ ∧ open_fds (SetMTU "eth0" 1506 []).2 = ∅.
Proof.
  split; [vm_compute; discriminate|].
  exact (proj1 (fd_safety "eth0" "10.0.0.1/24" 1506 None None [] [])).
Defined.

Lemma vlan_wire_roundtrip_witness :
  let wire := demo_macs ++ [0x81; 0; 0x80; 5] ++ [8; 0; 1; 2] in
  let aux := aux_msg [0x11; 0; 0; 0] (zeros 12) 0x8100 0x8005 in
  let r := mkRecvd (demo_macs ++ [8; 0; 1; 2] ++ zeros 8) 16 32 (Some [mkCmsg 1 2 []; aux]) in
  ∃ buf, Read (Ok r) = Ret (Ok (20, buf)) ∧ glen buf = 24 ∧ sub buf 0 20 = wire ∧
    Recv (Ok r) = Ret (Ok (20, buf)).
Proof.
  apply (vlan_wire_roundtrip demo_macs 0x8100 0x8005 [8; 0; 1; 2] (zeros 8) [mkCmsg 1 2 []] []
           [0x11; 0; 0; 0] (zeros 12) 32).
  - reflexivity.
  - unfold is_u16. lia.
  - discriminate.
  - unfold is_u16. lia.
  - vm_compute. discriminate.
  - discriminate.
  - apply Forall_cons_2; [constructor|]. apply Forall_cons_2; [|constructor].
    repeat (apply Forall_cons_2; [unfold is_byte; vm_compute; split; [discriminate|reflexivity]|]). constructor.
  - reflexivity.
  - reflexivity.
  - reflexivity.
  - reflexivity.
Defined.
