(* ===== verification/Daemon.v ===== *)
(** * Daemon: the whole program, from the configuration file to shutdown

    Models [main] of [src/cmd/prpd/main.go] up to the wait for a signal, and
    [Start], [closePorts] and [Stop] of [src/internal/prp/prp.go] with the
    system calls they make ([Iface]).  [Runtime.Start] abstracts the sockets
    to success bits; [start_refines] relates the two.  [daemon_boot] composes
    the loader, the interface set-up, start-up and the running system. *)

From S2P Require Import Prelude Engine NodeTable Supervision Role Pattern Node PrpPath HsrPath Dispatch Runtime ConfigLoad Iface.

(** ** The sockets of the node *)

(** The fields [LanA], [LanB] and [Interlink] of the node: nil or a socket. *)
Record sockets := mkSockets {
  sk_LanA : option RawSocket;
  sk_LanB : option RawSocket;
  sk_Interlink : option RawSocket;
}.

Definition no_sockets : sockets := mkSockets None None None.

Definition sock (p : port) (k : sockets) : option RawSocket :=
  match p with LanA => sk_LanA k | LanB => sk_LanB k | Interlink => sk_Interlink k end.

Definition set_sock (p : port) (s : RawSocket) (k : sockets) : sockets :=
  match p with
  | LanA => mkSockets (Some s) (sk_LanB k) (sk_Interlink k)
  | LanB => mkSockets (sk_LanA k) (Some s) (sk_Interlink k)
  | Interlink => mkSockets (sk_LanA k) (sk_LanB k) (Some s)
  end.

(** The descriptor of a port, if it is bound. *)
Definition fd_set (s : option RawSocket) : gset Z :=
  match s with Some s => {[rs_fd s]} | None => ∅ end.

Definition sock_fds (k : sockets) : gset Z :=
  fd_set (sk_LanA k) ∪ fd_set (sk_LanB k) ∪ fd_set (sk_Interlink k).

(** What start-up leaves: the outcome of [Runtime] and the sockets. *)
Record kstart := mkKstart { ks_started : started; ks_socks : sockets }.

Section start.
Context {K : Kernel} {E : Env}.

Definition close_sock (s : option RawSocket) : SysM unit :=
  match s with None => mret tt | Some s => _ ← Iface.Close s; mret tt end.

(** [closePorts]; also the end of [Stop] *)
Definition close_ports (k : sockets) : SysM unit :=
  _ ← close_sock (sk_LanA k); _ ← close_sock (sk_LanB k); close_sock (sk_Interlink k).

(** [Stop]: the argument and the result say whether [stopChan] is closed *)
Definition StopK (stopped : bool) (k : sockets) : SysM bool :=
  if stopped then mret true else (_ ← close_ports k; mret true).

Definition kfailed (n : Node) (e : start_error) (k : sockets) : SysM kstart :=
  _ ← close_ports k; mret (mkKstart (failed n e) k).

(** [Start] on a node whose ports are nil *)
Definition StartK (n : Node) : SysM kstart :=
  let c := n_Config n in
  a ← Iface.CreateRawSocket (c_LanAInterface c);
  match a with
  | Err _ => mret (mkKstart (mkStarted n [] [] (Some BindLanA)) no_sockets)
  | Ok lanA =>
      let n := bind_one LanA n in
      let k := set_sock LanA lanA no_sockets in
      let n := set_mac (nodeMAC n) n in
      ma ← Iface.SetMTU (c_LanAInterface c) 1506;
      match ma with
      | Err _ => kfailed n MTULanA k
      | Ok _ =>
      mb ← Iface.SetMTU (c_LanBInterface c) 1506;
      match mb with
      | Err _ => kfailed n MTULanB k
      | Ok _ =>
      b ← Iface.CreateRawSocket (c_LanBInterface c);
      match b with
      | Err _ => kfailed n BindLanB k
      | Ok lanB =>
          let n := bind_one LanB n in
          let k := set_sock LanB lanB k in
          if negb (String.eqb (c_InterlinkInterface c) "") then
            i ← Iface.CreateRawSocket (c_InterlinkInterface c);
            match i with
            | Err _ => kfailed n BindInterlink k
            | Ok interlink =>
                let n := bind_one Interlink n in
                let k := set_sock Interlink interlink k in
                mi ← Iface.SetMTU (c_InterlinkInterface c) 1506;
                match mi with
                | Err _ => kfailed n MTUInterlink k
                | Ok _ => mret (mkKstart (mkStarted (set_cleanupTimer true n) [] [LanA; LanB; Interlink] None) k)
                end
            end
          else mret (mkKstart (mkStarted (set_cleanupTimer true n) [] ([LanA; LanB] ++ if n_Interlink n then [Interlink] else []) None) k)
      end
      end
      end
  end.

(** *** The sockets are the only descriptors the node holds *)

(** [k]'s descriptors are distinct, were not open before, and are what was
    opened since [h0]. *)
Record holds (h0 : list call) (k : sockets) (h : list call) : Prop := {
  hd_open : open_fds h = sock_fds k ∪ open_fds h0;
  hd_fresh : ∀ p s, sock p k = Some s → rs_fd s ∉ open_fds h0;
  hd_distinct : ∀ p q s t, sock p k = Some s → sock q k = Some t → rs_fd s = rs_fd t → p = q;
}.

Lemma holds_none h : holds h no_sockets h.
Proof.
  split.
  - unfold sock_fds. cbn [no_sockets sk_LanA sk_LanB sk_Interlink fd_set].
    by rewrite !(union_empty_l_L (C := gset Z)).
  - by intros [] s.
  - by intros [] ? ? ?.
Qed.

Lemma holds_nothing h0 h : holds h0 no_sockets h → open_fds h = open_fds h0.
Proof. intros [-> _ _]. symmetry. apply holds_none. Qed.

Lemma sock_in k p s : sock p k = Some s → rs_fd s ∈ sock_fds k.
Proof.
  unfold sock_fds. rewrite !elem_of_union.
  destruct p; cbn [sock]; intros ->; cbn [fd_set]; rewrite elem_of_singleton; auto.
Qed.

Lemma fd_set_in x o : x ∈ fd_set o → ∃ s, o = Some s ∧ x = rs_fd s.
Proof.
  destruct o as [s|]; cbn [fd_set]; [|by intros ?%elem_of_empty].
  intros ->%elem_of_singleton. by exists s.
Qed.

Lemma sock_fds_in x k : x ∈ sock_fds k → ∃ p s, sock p k = Some s ∧ x = rs_fd s.
Proof.
  unfold sock_fds. rewrite !elem_of_union.
  intros [[(s & ? & ->)%fd_set_in|(s & ? & ->)%fd_set_in]|(s & ? & ->)%fd_set_in].
  - by exists LanA, s.
  - by exists LanB, s.
  - by exists Interlink, s.
Qed.

Lemma holds_keep {A} (m : SysM A) h0 k h : keeps m → holds h0 k h → holds h0 k (m h).2.
Proof. intros Hm [Ho Hf Hd]. split; [by rewrite Hm|done|done]. Qed.

Lemma sock_set p q s k : sock q (set_sock p s k) = if bool_decide (p = q) then Some s else sock q k.
Proof. by destruct p, q. Qed.

Lemma sock_fds_set p s k :
  sock p k = None → sock_fds (set_sock p s k) = {[rs_fd s]} ∪ sock_fds k.
Proof.
  unfold sock_fds. destruct p; cbn [sock set_sock sk_LanA sk_LanB sk_Interlink]; intros ->;
    cbn [fd_set]; rewrite ?union_empty_l_L, ?union_empty_r_L.
  - by rewrite union_assoc_L.
  - by rewrite (union_comm_L (fd_set _) {[_]}), <-union_assoc_L.
  - by rewrite union_comm_L.
Qed.

Lemma holds_open p s h0 k h h' :
  holds h0 k h → sock p k = None → rs_fd s ∉ open_fds h → open_fds h' = {[rs_fd s]} ∪ open_fds h →
  holds h0 (set_sock p s k) h'.
Proof.
  intros [Ho Hf Hd] Hp Hn He. split.
  - by rewrite He, Ho, sock_fds_set, union_assoc_L.
  - intros q t. rewrite sock_set. case_bool_decide as Ep; [|apply Hf].
    intros [= <-] Hin. apply Hn. rewrite Ho. by apply elem_of_union_r.
  - assert (Hfr : ∀ q t, sock q k = Some t → rs_fd t ≠ rs_fd s).
    { intros q t Ht He'. apply Hn. rewrite Ho, <-He'. apply elem_of_union_l. by eapply sock_in. }
    intros q1 q2 t1 t2. rewrite !sock_set.
    case_bool_decide as P1; case_bool_decide as P2; subst; intros H1 H2 H3.
    + done.
    + injection H1 as <-. by destruct (Hfr _ _ H2).
    + injection H2 as <-. by destruct (Hfr _ _ H1).
    + by eapply Hd.
Qed.

Lemma bind_run {A B} (m : SysM A) (f : A → SysM B) h : (m ≫= f) h = f (m h).1 (m h).2.
Proof. unfold mbind, SysM_bind. by destruct (m h). Qed.

(** Closing every port restores the descriptors. *)
Lemma close_sock_fds s h : open_fds (close_sock s h).2 = open_fds h ∖ fd_set s.
Proof. destruct s as [s|]; [done|]. cbn [close_sock fd_set]. by rewrite difference_empty_L. Qed.

Lemma close_ports_fds k h : open_fds (close_ports k h).2 = open_fds h ∖ sock_fds k.
Proof.
  unfold close_ports, sock_fds. rewrite !bind_run, !close_sock_fds. by rewrite !difference_difference_l_L, union_assoc_L.
Qed.

Lemma holds_close h0 k h : holds h0 k h → open_fds (close_ports k h).2 = open_fds h0.
Proof.
  intros [Ho Hf _]. rewrite close_ports_fds, Ho, difference_union_distr_l_L, difference_diag_L, union_empty_l_L.
  apply difference_disjoint_L, elem_of_disjoint. intros x Hx (p & s & Hp & ->)%sock_fds_in.
  by apply (Hf p s Hp).
Qed.

Lemma holds_create p name h0 k h :
  holds h0 k h → sock p k = None →
  match Iface.CreateRawSocket name h with
  | (Ok s, h') => holds h0 (set_sock p s k) h'
  | (Err _, h') => holds h0 k h'
  end.
Proof.
  intros Hh Hp. pose proof (CreateRawSocket_fds name h) as Hc.
  destruct (Iface.CreateRawSocket name h) as [[s|e] h'].
  - destruct Hc as (Hf & _ & ->). by eapply holds_open.
  - destruct Hh as [Ho Hf Hd]. split; [by rewrite Hc|done|done].
Qed.

(** *** Refinement *)

(** The abstract system calls that succeed as told. *)
Definition told (create mtu : port → bool) : Sys :=
  {| Runtime.CreateRawSocket := fun p _ => create p; Runtime.SetMTU := fun p _ _ => mtu p |}.

(** What holds of the concrete outcome. *)
Definition start_sound (h0 : list call) (r : kstart) (h : list call) : Prop :=
  match sd_err (ks_started r) with
  | Some _ => open_fds h = open_fds h0
  | None =>
      holds h0 (ks_socks r) h ∧
      ∀ p, is_Some (sock p (ks_socks r)) ↔ bound (sd_node (ks_started r)) p = true
  end.

Definition start_refined (n : Node) (h0 : list call) (o : kstart * list call) : Prop :=
  (∃ create mtu, ks_started o.1 = Start (S := told create mtu) n) ∧ start_sound h0 o.1 o.2.

Lemma kfailed_refined n m e k create mtu h0 h :
  Start (S := told create mtu) m = failed n e → holds h0 k h → start_refined m h0 (kfailed n e k h).
Proof.
  intros Hs Hh. unfold kfailed. rewrite bind_run. split; [by exists create, mtu|].
  by apply holds_close.
Qed.

(** The abstract calls succeed exactly on the ports [yes]. *)
Definition only (yes : list port) (p : port) : bool := bool_decide (p ∈ yes).

Ltac run_create p Hh :=
  rewrite bind_run;
  match goal with |- context [Iface.CreateRawSocket ?name ?h] =>
    let Hc := fresh "Hc" in
    pose proof (holds_create p name _ _ h Hh eq_refl) as Hc; clear Hh; rename Hc into Hh;
    destruct (Iface.CreateRawSocket name h) as [[?|?] ?]; cbn [fst snd]
  end.

Ltac run_mtu Hh :=
  rewrite bind_run;
  match goal with |- context [Iface.SetMTU ?name ?v ?h] =>
    apply (holds_keep (Iface.SetMTU name v)) in Hh; [|apply SetMTU_keeps];
    destruct (Iface.SetMTU name v h) as [[?|?] ?]; cbn [fst snd] in Hh |- *
  end.

(** The tail of the proof on a branch that fails. *)
Ltac refine_fail create mtu Hh :=
  apply (kfailed_refined _ _ _ _ create mtu); [|exact Hh].

Lemma StartK_refined (cfg : Config) (st : Z) (h : list call) :
  start_refined (NewNode (Some cfg) st) h (StartK (NewNode (Some cfg) st) h).
Proof.
  pose proof (holds_none h) as Hh. unfold StartK. cbn [NewNode n_Config].
  run_create LanA Hh.
  2:{ split; [by exists (only []), (only [])|]. by apply holds_nothing. }
  run_mtu Hh; [|by refine_fail (only [LanA]) (only []) Hh].
  run_mtu Hh; [|by refine_fail (only [LanA]) (only [LanA]) Hh].
  run_create LanB Hh; [|by refine_fail (only [LanA]) (only [LanA; LanB]) Hh].
  destruct (String.eqb (c_InterlinkInterface cfg) "") eqn:Ei; cbn [negb].
  { split; [exists (only [LanA; LanB]), (only [LanA; LanB])|].
    - unfold Start. cbn [NewNode n_Config]. by rewrite Ei.
    - split; [exact Hh|]. intros []; cbn; split; done || by intros []. }
  run_create Interlink Hh.
  2:{ refine_fail (only [LanA; LanB]) (only [LanA; LanB]) Hh.
      unfold Start. cbn [NewNode n_Config]. by rewrite Ei. }
  run_mtu Hh.
  2:{ refine_fail (only [LanA; LanB; Interlink]) (only [LanA; LanB]) Hh.
      unfold Start. cbn [NewNode n_Config]. by rewrite Ei. }
  split; [exists (only [LanA; LanB; Interlink]), (only [LanA; LanB; Interlink])|].
  - unfold Start. cbn [NewNode n_Config]. by rewrite Ei.
  - split; [exact Hh|]. intros []; cbn; split; done || by eexists.
Qed.

(** C16: start-up refines its abstraction.  Whatever the kernel answers, [Start]
    with its system calls ends as [Runtime.Start] does for some outcome of
    each abstract call.  If it fails, every descriptor it opened is closed; if
    it succeeds, exactly the bound ports have sockets, whose descriptors are
    distinct, fresh and all that is open besides what was before. *)
Theorem start_refines (cfg : Config) (st : Z) (h : list call) :
  let '(r, h') := StartK (NewNode (Some cfg) st) h in
  (∃ create mtu, ks_started r = Start (S := told create mtu) (NewNode (Some cfg) st)) ∧
  match sd_err (ks_started r) with
  | Some _ => open_fds h' = open_fds h
  | None =>
      open_fds h' = sock_fds (ks_socks r) ∪ open_fds h ∧
      (∀ p s, sock p (ks_socks r) = Some s → rs_fd s ∉ open_fds h) ∧
      (∀ p q s t, sock p (ks_socks r) = Some s → sock q (ks_socks r) = Some t → rs_fd s = rs_fd t → p = q) ∧
      ∀ p, is_Some (sock p (ks_socks r)) ↔ bound (sd_node (ks_started r)) p = true
  end.
Proof.
  destruct (StartK_refined cfg st h) as [Hr Hs]. destruct (StartK _ h) as [r h']. split; [exact Hr|].
  unfold start_sound in Hs. cbn [fst snd] in Hs. destruct (sd_err (ks_started r)); [exact Hs|].
  destruct Hs as [[Ho Hf Hd] Hb]. by split_and!.
Qed.
End start.

(** ** [main] *)

(** [randSeqStart]: what [rand.Read] filled in, or the clock if it failed *)
Definition randSeqStart (random : option bytes) (nano : Z) : Z :=
  match random with
  | Some b => w16 b 0
  | None => u16 (Z.land nano 0xffff)
  end.

Lemma randSeqStart_u16 random nano : (∀ b, random = Some b → bytes_ok b ∧ glen b = 2) → is_u16 (randSeqStart random nano).
Proof.
  intros Hr. destruct random as [b|]; cbn [randSeqStart].
  - apply is_u16_w16. by apply Hr.
  - unfold u16, is_u16. zlia.
Qed.

(** How [main] ends up: it exits on a configuration or start-up error, a
    goroutine panics in [time.NewTicker], or the daemon runs: its node, its
    sockets, the period of the supervision ticker ([None]: off) and whether
    it draws the full-screen display. *)
Inductive daemon :=
| ConfigExit (e : load_error)
| StartExit (e : start_error)
| TickerPanic
| Up (r : kstart) (ticker : option Z) (fullscreen : bool).

Section main.
Context {K : Kernel} {E : Env} {H : Host}.

(** [net.ParseCIDR] as [SetInterfaceIP] uses it: the address as IPv4 and the
    mask.  [isatty] is the answer of [tui.IsTerminal(1)]. *)
Context (cidr_of : string → option (option bytes * bytes)) (isatty : bool).
Context (random : option bytes) (nano : Z).

Definition config_path : string :=
  let p := Getenv "PRP_CONFIG_PATH" in
  if negb (String.eqb p "") then p else "/etc/prp/config.yaml"%string.

(** The ports [applyStaticIPs] visits: name and address. *)
Definition static_ips (c : FileConfig) : list (string * string * option (option bytes * bytes)) :=
  [(If_LanA c, IPv4_LanA c, cidr_of (IPv4_LanA c));
   (If_LanB c, IPv4_LanB c, cidr_of (IPv4_LanB c));
   (If_Interlink c, IPv4_Interlink c, cidr_of (IPv4_Interlink c))].

Definition main : SysM daemon :=
  match Load config_path with
  | Err e => mret (ConfigExit e)
  | Ok cfg =>
      let prpCfg := prp_config cfg in
      _ ← applyStaticIPs (static_ips cfg);
      let node := NewNode (Some prpCfg) (randSeqStart random nano) in
      r ← StartK node;
      match sd_err (ks_started r) with
      | Some e => mret (StartExit e)
      | None =>
          match supervision_ticker cfg with
          | Panic => mret TickerPanic
          | Ret ticker => mret (Up r ticker (isatty && String.eqb (Getenv "PRP_NO_TUI") ""))
          end
      end
  end.

Lemma Start_Config {S : Sys} n : n_Config (sd_node (Start n)) = n_Config n.
Proof.
  assert (Hb : ∀ p m, n_Config (bind_one p m) = n_Config m) by by intros [].
  unfold Start. repeat (case_match; try done).
Qed.

(** A loaded configuration has an interlink where the role needs one. *)
Lemma loaded_interlink path c :
  Load path = Ok c → Getenv "PRP_ROLE" = ""%string → (Node_Role c = "hsr-san"%string → If_Interlink c ≠ ""%string) →
  IsHSRNode (prp_config c) = true → IsHSRHSR (prp_config c) = false → If_Interlink c ≠ ""%string.
Proof.
  intros HL He Hs. destruct (Load_valid path c HL) as [[[R HR] _ _ _ _] HC].
  rewrite IsHSRNode_role, IsHSRHSR_role.
  assert (Hrole : role_of (prp_config c) = R).
  { unfold role_of, roleInfo. cbn [prp_config c_Role]. rewrite HR, ParseRole_name. by destruct R. }
  rewrite Hrole. destruct R; cbn; try discriminate; intros _ _.
  - by apply Hs.
  - by apply (HC He HR).
Qed.

(** C6: the daemon from its configuration file to shutdown.  [main] ends in one
    of four ways.  It exits without a system call when the configuration does
    not load.  It exits with every descriptor closed when start-up fails.  A
    goroutine panics when supervision is on with an interval that is not
    positive.  Or the daemon is up with the loaded configuration: it has bound
    both LANs, and the interlink exactly if one is configured, runs one read
    loop per bound port, holds one new descriptor per port and nothing else,
    and [Stop] closes exactly these.  Unless [PRP_ROLE] overrode the role, and
    given an interlink when the role is hsr-san, no run of the daemon then
    panics on frames of at least 26 bytes and every state keeps the node's
    invariant. *)
Theorem daemon_boot (h h' : list call) (o : daemon) :
  (∀ b, random = Some b → bytes_ok b ∧ glen b = 2) → main h = (o, h') →
  match o with
  | ConfigExit e => Load config_path = Err e ∧ h' = h
  | StartExit _ => open_fds h' = open_fds h
  | TickerPanic => ∃ c, Load config_path = Ok c ∧ Sup_Enabled c = true ∧ life_check_interval c <= 0
  | Up r ticker _ => ∃ c, Load config_path = Ok c ∧
      let n := sd_node (ks_started r) in
      n_Config n = prp_config c ∧
      (∀ p, bound n p = match p with Interlink => negb (String.eqb (If_Interlink c) "") | _ => true end) ∧
      (∀ p, bound n p = true ↔ p ∈ sd_loops (ks_started r)) ∧
      (∀ p, bound n p = true ↔ is_Some (sock p (ks_socks r))) ∧
      open_fds h' = sock_fds (ks_socks r) ∪ open_fds h ∧
      open_fds (StopK false (ks_socks r) h').2 = open_fds h ∧
      (∀ d, ticker = Some d → 0 < d) ∧
      (Getenv "PRP_ROLE" = ""%string → (Node_Role c = "hsr-san"%string → If_Interlink c ≠ ""%string) →
       ∀ (MR : MapRange) (wire : port → bytes → Prop) (s : System),
         (∀ p f, wire p f → 26 <= glen f) → reachable wire n s → s_crashed s = false ∧ node_ok (s_node s))
  end.
Proof.
  intros Hr. unfold main. destruct (Load config_path) as [c|e] eqn:HL; [|by intros [= <- <-]].
  rewrite !bind_run. pose proof (applyStaticIPs_keeps (static_ips c) h) as Hk.
  destruct (applyStaticIPs _ h) as [u h1]. cbn [fst snd] in Hk |- *.
  pose proof (randSeqStart_u16 random nano Hr) as Hu. set (st := randSeqStart random nano) in *.
  destruct (StartK_refined (prp_config c) st h1) as [(cr & mt & Hs) Hd]. unfold start_sound in Hd.
  pose proof (Start_spec (S := told cr mt) (prp_config c) st Hu) as Hsp. cbn zeta in Hsp.
  pose proof (Start_Config (S := told cr mt) (NewNode (Some (prp_config c)) st)) as Hcfg.
  rewrite <-Hs in Hsp, Hcfg. destruct (StartK _ h1) as [r h2]. cbn [fst snd] in *.
  destruct (sd_err (ks_started r)) as [e|].
  { intros [= <- <-]. by rewrite Hd, Hk. }
  destruct Hd as [Hh Hb]. destruct Hsp as (_ & HA & HB & HI & Hl & Hok).
  destruct (supervision_ticker c) as [t|] eqn:Ht.
  2:{ intros [= <- <-]. exists c. revert Ht. unfold supervision_ticker.
      destruct (Sup_Enabled c); [|done]. destruct (Z.leb_spec (life_check_interval c) 0); done. }
  intros [= <- <-]. exists c. split; [done|]. split_and!.
  - done.
  - by intros [].
  - intros p. by rewrite Hl.
  - intros p. by rewrite Hb.
  - by rewrite (hd_open _ _ _ Hh), Hk.
  - unfold StopK. rewrite bind_run. cbn [snd mret SysM_ret]. rewrite <-Hk. by apply holds_close.
  - intros d ->. revert Ht. unfold supervision_ticker.
    destruct (Sup_Enabled c); [|done]. destruct (Z.leb_spec (life_check_interval c) 0); [done|].
    intros [= <-]. done.
  - intros He Hsan MR wire s Hw Hre.
    assert (Hn : node_ok (sd_node (ks_started r))) by by apply Hok, (loaded_interlink config_path).
    split; [by eapply reachable_alive|]. by apply (reachable_ok wire _ _ Hn Hre).
Qed.

(** Nothing fails for no reason: with a configuration that loads, a positive
    supervision interval and a kernel that grants every call, it is up. *)
Lemma main_up (c : FileConfig) (ticker : option Z) (h : list call) :
  (∀ h c, k_ok h c = true) → (∀ h name, is_Some (k_iface h name)) → (∀ h, is_Some (k_socket h)) →
  Load config_path = Ok c → supervision_ticker c = Ret ticker →
  ∃ r h', main h = (Up r ticker (isatty && String.eqb (Getenv "PRP_NO_TUI") ""), h').
Proof.
  intros Hok Hif Hsk HL Ht.
  assert (Hc : ∀ name h, ∃ s, (Iface.CreateRawSocket name h).1 = Ok s).
  { intros name h0. unfold Iface.CreateRawSocket. rewrite bind_run. unfold Iface.InterfaceByName. cbn [fst snd].
    destruct (Hif h0 name) as [[idx mtu] Hi]. rewrite Hi, bind_run. cbn [fst snd]. rewrite Hi, bind_run.
    unfold ioctlSocket. destruct (Hsk h0) as [fd ->]. cbn [fst snd]. rewrite bind_run. unfold sys. cbn [fst snd].
    rewrite Hok. cbn [negb]. rewrite !bind_run. cbn [fst snd]. rewrite Hok. cbn [negb].
    rewrite bind_run. cbn [fst snd]. rewrite Hok. by eexists. }
  assert (Hm : ∀ name mtu h, (Iface.SetMTU name mtu h).1 = Ok tt).
  { intros name mtu h0. unfold Iface.SetMTU, with_socket. rewrite bind_run.
    unfold ioctlSocket. destruct (Hsk h0) as [fd ->]. cbn [fst snd]. rewrite !bind_run. unfold sys. cbn [fst snd].
    by rewrite Hok. }
  unfold main. rewrite HL, !bind_run.
  assert (Hs : ∀ n h, sd_err (ks_started (StartK n h).1) = None).
  { intros n h0. unfold StartK.
    repeat (rewrite bind_run;
      match goal with
      | |- context [match (Iface.CreateRawSocket ?name ?h).1 with _ => _ end] =>
          let s := fresh "s" in destruct (Hc name h) as [s ->]; cbv zeta
      | |- context [match (Iface.SetMTU ?name ?v ?h).1 with _ => _ end] => rewrite (Hm name v h)
      end; try case_match; try done). }
  rewrite Hs, Ht. by eexists _, _.
Qed.
End main.

(** ** Concrete daemons *)

#[local] Existing Instance demo_env.
#[local] Existing Instance demo_kernel.

(** The settings of a host without overrides: supervision every two seconds. *)
Definition role_file (role interlink : string) : FileConfig :=
  mkFile "gw" role "eth0" "eth1" interlink "10.0.0.1/24" "" "" 3 "B" 7 true true "" "64s" "64s"
    "" 256 "" true [].

(** What [main] does on such a host. *)
Definition demo_main (role interlink : string) : daemon * list call :=
  main (H := demo_host (role_file role interlink) "") (fun _ => None) false (Some [0x12; 0x34]) 0 [].

Definition up_node (o : daemon) : Node :=
  match o with Up r _ _ => sd_node (ks_started r) | _ => NewNode None 0 end.
Definition up_socks (o : daemon) : sockets :=
  match o with Up r _ _ => ks_socks r | _ => no_sockets end.

Lemma daemon_boot_witness :
  (demo_main "prp-san" "eth2").1 ≠ TickerPanic ∧
  open_fds (StopK false (up_socks (demo_main "prp-san" "eth2").1) (demo_main "prp-san" "eth2").2).2 = ∅ ∧
  bound (up_node (demo_main "prp-san" "eth2").1) Interlink = true.
Proof.
  assert (Hr : ∀ b, Some [0x12; 0x34] = Some b → bytes_ok b ∧ glen b = 2).
  { intros b [= <-]. split; [repeat constructor; lia|reflexivity]. }
  pose proof (daemon_boot (H := demo_host (role_file "prp-san" "eth2") "") (fun _ => None) false
    (Some [0x12; 0x34]) 0 [] (demo_main "prp-san" "eth2").2 (demo_main "prp-san" "eth2").1 Hr
    (surjective_pairing _)) as Hb.
  vm_compute in Hb. destruct Hb as (c & HL & _ & Hbd & _ & _ & _ & Hst & _).
  split; [vm_compute; discriminate|]. split; [vm_compute; exact Hst|reflexivity].
Defined.

(** A node can be given the role hsr-san without an interlink: only the
    coupling role is checked.  The first ring frame it delivers dereferences
    the nil port. *)
Definition goose_on_ring : bytes :=
  [0x01; 0x0c; 0xcd; 1; 0; 1; 0x02; 0; 0; 0; 0; 0x99; 0x89; 0x2f; 0; 46; 0; 1; 0x88; 0xb8] ++ zeros 40.

#[local] Existing Instance sorted_range.

Example hsr_san_crash :
  glen goose_on_ring = 60 ∧
  up_node (demo_main "hsr-san" "").1 ≠ NewNode None 0 ∧
  ∃ s, reachable (fun _ f => f = goose_on_ring) (up_node (demo_main "hsr-san" "").1) s ∧ s_crashed s = true.
Proof.
  split; [reflexivity|]. split; [vm_compute; discriminate|].
  set (n := up_node _). assert (Hn : n = up_node (demo_main "hsr-san" "").1) by done. clearbody n.
  eexists. split.
  - eapply rtc_l; [apply (step_check _ _ LanA); subst n; reflexivity|].
    eapply rtc_l; [apply (step_read _ _ LanA goose_on_ring)|].
    + reflexivity.
    + reflexivity.
    + reflexivity.
    + repeat constructor; vm_compute; congruence.
    + vm_compute. congruence.
    + eapply rtc_l; [eapply (step_work_panic _ _ 0 (mkEvent LanA goose_on_ring) [])|apply rtc_refl].
      * reflexivity.
      * reflexivity.
      * subst n. reflexivity.
      * subst n. vm_compute. reflexivity.
  - reflexivity.
Qed.
