(* ===== verification/Devices.v ===== *)
(** * Devices: choosing a capture device on Windows

    Models the device selection of [src/cmd/trafficgen/socket_windows.go]:
    [resolveDevice] over the list that [findDevices] returns, its string
    helpers, and the socket over a capture handle ([windowsSocket]).  The
    capture library answers each call knowing the calls before it.  Interface
    names and descriptions are taken as ASCII. *)

From S2P Require Import Prelude Pattern GooseFrame ConfigLoad.

(** ** String helpers *)

(** [lowerASCII]: the loop over the bytes *)
Fixpoint lowerASCII (s : string) : string :=
  match s with
  | EmptyString => EmptyString
  | String c s => String (if in_range "A" c "Z" then ascii_of_nat (nat_of_ascii c + 32) else c) (lowerASCII s)
  end.

(** [for i := 0; i+len(sub) <= len(s); i++ { if s[i:i+len(sub)] == sub ... }],
    [k] values of [i] to go *)
Fixpoint contains_loop (k : nat) (s sub : string) (i : nat) : bool :=
  match k with
  | O => false
  | Datatypes.S k =>
      if String.eqb (String.substring i (String.length sub) s) sub then true
      else contains_loop k s sub (Datatypes.S i)
  end.

(** [contains] *)
Definition contains (s sub : string) : bool :=
  contains_loop (String.length s + 1 - String.length sub) s sub 0.

(** [containsFold] *)
Definition containsFold (s lowerSub : string) : bool :=
  (0 <? slen lowerSub) && (slen lowerSub <=? slen s) && (slen lowerSub <=? slen (lowerASCII s)) &&
  contains (lowerASCII s) lowerSub.

(** ** Selection *)

(** [device] *)
Record device := mkDevice { d_name : string; d_description : string }.

(** The longest run of decimal digits; [None] without any. *)
Fixpoint scan_dec (s : string) (acc : option Z) : option Z :=
  match s with
  | EmptyString => acc
  | String c s' =>
      if in_range "0" c "9" then scan_dec s' (Some (default 0 acc * 10 + (Z.of_nat (nat_of_ascii c) - 48)))
      else acc
  end.

(** [fmt.Sscanf(s, "%d", &idx)]: white space, a sign, digits that fit an
    [int]; what follows is not looked at *)
Definition Sscanf_d (s : string) : option Z :=
  v ← match skip_space s with
      | String "+" s' => scan_dec s' None
      | String "-" s' => Z.opp <$> scan_dec s' None
      | s' => scan_dec s' None
      end;
  if (minDuration <=? v) && (v <=? maxDuration) then Some v else None.

(** How [resolveDevice] gives up ([os.Exit(1)]). *)
Inductive resolve_error := NoDevices | IndexOutOfRange (idx : Z) | Ambiguous (l : list device) | NoMatch.

(** The loop that collects [matches]. *)
Definition matches (devs : list device) (lower : string) : list device :=
  filter (fun d => containsFold (d_description d) lower = true) devs.

(** [resolveDevice] *)
Definition resolveDevice (devs : list device) (iface : string) : go (result resolve_error string) :=
  if glen devs =? 0 then Ret (Err NoDevices)
  else match filter (fun d => d_name d = iface) devs with
       | d :: _ => Ret (Ok (d_name d))
       | [] =>
           match Sscanf_d iface with
           | Some idx =>
               if (idx >=? 1) && (idx <=? glen devs) then
                 match devs !! Z.to_nat (idx - 1) with
                 | Some d => Ret (Ok (d_name d))
                 | None => Panic
                 end
               else Ret (Err (IndexOutOfRange idx))
           | None =>
               match matches devs (lowerASCII iface) with
               | [d] => Ret (Ok (d_name d))
               | [] => Ret (Err NoMatch)
               | l => Ret (Err (Ambiguous l))
               end
           end
       end.

(** [windowsSocket.Recv] on a captured frame: the length and the buffer *)
Definition pcap_copy (buf data : bytes) (caplen : Z) : Z * bytes :=
  let caplen := if caplen >? glen buf then u32 (glen buf) else caplen in
  let d := take (Z.to_nat caplen) data in
  (caplen, d ++ drop (length d) buf).

(** *** The socket *)

(** Calls into the capture library, newest first in a history. *)
Inductive pcall := PSend (handle : Z) (frame : bytes) | PNext (handle : Z) | PClose (handle : Z).

(** What [pcap_next_ex] brings. *)
Inductive captured := Captured (caplen : Z) (data : bytes) | TimedOut | CaptureFailed.

Class Pcap := { p_send : list pcall → bool; p_next : list pcall → captured }.

Inductive sock_error := SocketClosed | SendPacketFailed | NextFailed.

(** [windowsSocket] *)
Record windowsSocket := mkSocket { ws_handle : Z; ws_closed : bool }.

Section socket.
Context {P : Pcap}.

(** [windowsSocket.Send]; [&frame[0]] panics on an empty frame *)
Definition Send (s : windowsSocket) (frame : bytes) (h : list pcall) : go (result sock_error unit * list pcall) :=
  if ws_closed s then Ret (Err SocketClosed, h)
  else match frame with
       | [] => Panic
       | _ => Ret (if p_send h then Ok tt else Err SendPacketFailed, PSend (ws_handle s) frame :: h)
       end.

(** [windowsSocket.Recv]: the length and the buffer after it *)
Definition Recv (s : windowsSocket) (buf : bytes) (h : list pcall) : result sock_error (Z * bytes) * list pcall :=
  if ws_closed s then (Err SocketClosed, h)
  else
    (match p_next h with
     | Captured caplen data => Ok (pcap_copy buf data caplen)
     | TimedOut => Ok (0, buf)
     | CaptureFailed => Err NextFailed
     end, PNext (ws_handle s) :: h).

(** [windowsSocket.Close] *)
Definition Close (s : windowsSocket) (h : list pcall) : windowsSocket * list pcall :=
  if ws_closed s then (s, h) else (mkSocket (ws_handle s) true, PClose (ws_handle s) :: h).

(** A caller's use of a socket. *)
Inductive sock_op := OSend (frame : bytes) | ORecv (buf : bytes) | OClose.

(** The result of [Send], if the operation is one. *)
Definition sock_step (s : windowsSocket) (h : list pcall) (o : sock_op)
    : go (option (result sock_error unit) * windowsSocket * list pcall) :=
  match o with
  | OSend frame => let! (r, h') := Send s frame h in Ret (Some r, s, h')
  | ORecv buf => Ret (None, s, (Recv s buf h).2)
  | OClose => let '(s', h') := Close s h in Ret (None, s', h')
  end.

(** Frames reported as sent are collected in order. *)
Fixpoint sock_run (ops : list sock_op) (s : windowsSocket) (h : list pcall) (out : list bytes)
    : go (windowsSocket * list pcall * list bytes) :=
  match ops with
  | [] => Ret (s, h, out)
  | o :: ops =>
      let! (r, s', h') := sock_step s h o in
      sock_run ops s' h' (match o, r with OSend f, Some (Ok _) => out ++ [f] | _, _ => out end)
  end.
End socket.

(** ** Properties *)

Lemma substring_prefix b c : String.substring 0 (String.length b) (b +:+ c)%string = b.
Proof.
  induction b as [|x b IH]; [by destruct c|].
  change (String x (String.substring 0 (String.length b) (b +:+ c)%string) = String x b). by rewrite IH.
Qed.

Lemma substring_app a b c : String.substring (String.length a) (String.length b) (a +:+ b +:+ c)%string = b.
Proof. induction a as [|x a IH]; [exact (substring_prefix b c)|exact IH]. Qed.

Lemma substring_split i n s :
  (i + n <= String.length s)%nat →
  ∃ a c, s = (a +:+ String.substring i n s +:+ c)%string ∧ String.length a = i.
Proof.
  revert i n. induction s as [|x s IH]; intros i n Hl; cbn [String.length] in Hl.
  - assert (i = 0%nat) as -> by lia. assert (n = 0%nat) as -> by lia. by exists ""%string, ""%string.
  - destruct i as [|i]; [destruct n as [|n]|].
    + exists ""%string, (String x s). done.
    + destruct (IH 0%nat n) as (a & c & Hs & Ha); [lia|].
      destruct a; [|discriminate]. exists ""%string, c. split; [exact (f_equal (String x) Hs)|done].
    + destruct (IH i n) as (a & c & Hs & Ha); [lia|].
      exists (String x a), c. split; [exact (f_equal (String x) Hs)|by cbn; rewrite Ha].
Qed.

Lemma length_append a b : String.length (a +:+ b)%string = (String.length a + String.length b)%nat.
Proof. induction a as [|x a IH]; [done|exact (f_equal Datatypes.S IH)]. Qed.

Lemma contains_loop_iff k s sub : ∀ i,
  contains_loop k s sub i = true ↔
  ∃ j, (i <= j < i + k)%nat ∧ String.substring j (String.length sub) s = sub.
Proof.
  induction k as [|k IH]; intros i; cbn [contains_loop].
  - split; [discriminate|]. intros (j & Hj & _). lia.
  - destruct (String.eqb_spec (String.substring i (String.length sub) s) sub) as [He|He].
    + split; [|done]. intros _. exists i. split; [lia|done].
    + rewrite IH. split; intros (j & Hj & Hs).
      * exists j. split; [lia|done].
      * exists j. split; [|done]. destruct (decide (j = i)) as [->|]; [done|lia].
Qed.

(** The search finds a substring exactly when there is one. *)
Lemma contains_iff s sub : contains s sub = true ↔ ∃ a c, s = (a +:+ sub +:+ c)%string.
Proof.
  unfold contains. rewrite contains_loop_iff. split.
  - intros (j & Hj & Hs). destruct (substring_split j (String.length sub) s) as (a & c & Hac & _); [lia|].
    rewrite Hs in Hac. eauto.
  - intros (a & c & ->). exists (String.length a). rewrite substring_app. split; [|done].
    rewrite !length_append. lia.
Qed.

Lemma length_lowerASCII s : String.length (lowerASCII s) = String.length s.
Proof. induction s as [|x s IH]; [done|exact (f_equal Datatypes.S IH)]. Qed.

Lemma containsFold_iff s sub :
  containsFold s sub = true ↔ sub ≠ ""%string ∧ ∃ a c, lowerASCII s = (a +:+ sub +:+ c)%string.
Proof.
  unfold containsFold, slen. rewrite !andb_true_iff, contains_iff, length_lowerASCII.
  rewrite Z.ltb_lt, !Z.leb_le. split.
  - intros [[[H1 _] _] H2]. split; [|done]. by intros ->.
  - intros [Hne (a & c & Hs)]. split; [|eauto]. apply (f_equal String.length) in Hs.
    rewrite length_lowerASCII, !length_append in Hs.
    destruct sub; [done|]. cbn [String.length] in *. lia.
Qed.

(** The text occurs in the device's description, up to ASCII case. *)
Definition described (iface : string) (d : device) : Prop :=
  lowerASCII iface ≠ ""%string ∧ ∃ a c, lowerASCII (d_description d) = (a +:+ lowerASCII iface +:+ c)%string.

(** What a choice, or a refusal, says about the list of devices. *)
Definition resolved (devs : list device) (iface : string) (r : result resolve_error string) : Prop :=
  match r with
  | Ok name =>
      ∃ d, d ∈ devs ∧ d_name d = name ∧
        (name = iface ∨
         (∃ idx, Sscanf_d iface = Some idx ∧ 1 <= idx ∧ devs !! Z.to_nat (idx - 1) = Some d) ∨
         Sscanf_d iface = None ∧ ∀ e, e ∈ devs → described iface e ↔ e = d)
  | Err NoDevices => devs = []
  | Err (IndexOutOfRange idx) => Sscanf_d iface = Some idx ∧ ¬ 1 <= idx <= glen devs
  | Err NoMatch => Sscanf_d iface = None ∧ ∀ d, d ∈ devs → ¬ described iface d
  | Err (Ambiguous l) =>
      Sscanf_d iface = None ∧ (2 <= length l)%nat ∧ ∀ d, d ∈ l ↔ d ∈ devs ∧ described iface d
  end.

Lemma elem_of_matches devs iface d :
  d ∈ matches devs (lowerASCII iface) ↔ d ∈ devs ∧ described iface d.
Proof. unfold matches. rewrite list_elem_of_filter, containsFold_iff. unfold described. tauto. Qed.

Lemma resolveDevice_text devs iface :
  Sscanf_d iface = None →
  resolved devs iface
    match matches devs (lowerASCII iface) with
    | [d] => Ok (d_name d)
    | [] => Err NoMatch
    | l => Err (Ambiguous l)
    end.
Proof.
  intros Hs. pose proof (elem_of_matches devs iface) as Hin.
  destruct (matches devs (lowerASCII iface)) as [|d [|d' l]]; unfold resolved.
  - split; [done|]. intros d Hd Hc. apply (not_elem_of_nil d), Hin. done.
  - exists d. split; [apply Hin; left|]. split; [done|]. right; right. split; [done|].
    intros e He. rewrite <- list_elem_of_singleton, Hin. tauto.
  - split; [done|]. split; [cbn; lia|done].
Qed.

(** Selection by position. *)
Lemma resolve_by_index devs iface idx d :
  (∀ e, e ∈ devs → d_name e ≠ iface) → Sscanf_d iface = Some idx → 1 <= idx →
  devs !! Z.to_nat (idx - 1) = Some d → resolveDevice devs iface = Ret (Ok (d_name d)).
Proof.
  intros Hne Hs Hi Hd. pose proof (lookup_lt_Some _ _ _ Hd) as Hlt. unfold resolveDevice.
  assert (Hg : idx <= glen devs) by (unfold glen; lia).
  guard_false (glen devs =? 0).
  assert (filter (fun d => d_name d = iface) devs = []) as ->.
  { destruct (filter _ devs) as [|e l] eqn:E; [done|].
    assert (He : e ∈ filter (fun d => d_name d = iface) devs) by (rewrite E; left).
    apply list_elem_of_filter in He as [? He]. by destruct (Hne e He). }
  rewrite Hs, Z.geb_leb. guard_true (1 <=? idx). guard_true (idx <=? glen devs). cbn [andb]. by rewrite Hd.
Qed.

(** Device selection never panics and its outcome says exactly what the
    list holds: the first device with the given name; otherwise, if the text
    starts with a number, the device at that 1-based position or a refusal
    when there is none; otherwise the only device whose description contains
    the text up to the case of its letters, or a refusal when there are none
    or several. *)
Theorem resolveDevice_spec devs iface :
  ∃ r, resolveDevice devs iface = Ret r ∧ resolved devs iface r ∧
       ((∃ d, d ∈ devs ∧ d_name d = iface) → r = Ok iface).
Proof.
  unfold resolveDevice. destruct (Z.eqb_spec (glen devs) 0) as [Hz|Hz].
  { assert (devs = []) as -> by (destruct devs; [done|len_lia]).
    eexists. split; [done|]. split; [done|]. intros (d & Hd & _). by apply not_elem_of_nil in Hd. }
  pose proof (list_elem_of_filter (fun d => d_name d = iface) devs) as Hf.
  destruct (filter (fun d => d_name d = iface) devs) as [|d l].
  2:{ destruct (proj1 (Hf d)) as [Hn Hd]; [left|]. subst iface. eexists. split; [done|]. split; [|done].
      exists d. auto. }
  assert (Hno : (∃ d, d ∈ devs ∧ d_name d = iface) → ∀ r : result resolve_error string, r = Ok iface).
  { intros (d & Hd & Hn). exfalso. apply (not_elem_of_nil d), Hf. done. }
  destruct (Sscanf_d iface) as [idx|] eqn:Hs.
  - destruct ((idx >=? 1) && (idx <=? glen devs)) eqn:E.
    + apply andb_true_iff in E as [E1 E2]. rewrite Z.geb_leb in E1. zb.
      destruct (lookup_lt_is_Some_2 devs (Z.to_nat (idx - 1))) as [d Hd]; [unfold glen in *; lia|].
      rewrite Hd. eexists. split; [done|]. split; [|intros Hx; exact (Hno Hx _)].
      exists d. split; [by eapply list_elem_of_lookup_2|]. split; [done|]. right; left. exists idx. auto.
    + eexists. split; [done|]. split; [|intros Hx; exact (Hno Hx _)]. split; [done|]. intros Hi.
      apply andb_false_iff in E as [E|E]; [rewrite Z.geb_leb in E|]; zb; lia.
  - pose proof (resolveDevice_text devs iface Hs) as Hr.
    destruct (matches devs (lowerASCII iface)) as [|d [|d' l]] in Hr |- *;
      (eexists; split; [reflexivity|]; split; [exact Hr|]; intros Hx; exact (Hno Hx _)).
Qed.

(** A description that starts with a digit cannot be used: the digit is taken
    for an index. *)
Example digit_description :
  resolveDevice [mkDevice "a" "Loopback"; mkDevice "b" "2.5GbE Controller"; mkDevice "c" "10GbE"] "10GbE" =
  Ret (Err (IndexOutOfRange 10)).
Proof. vm_compute. reflexivity. Qed.

(** The copy stays inside the buffer. *)
Lemma pcap_copy_len buf data caplen :
  0 <= caplen → glen buf < 4294967296 → (Z.min caplen (glen buf)) <= glen data →
  let '(n, buf') := pcap_copy buf data caplen in
  n = Z.min caplen (glen buf) ∧ glen buf' = glen buf ∧ sub buf' 0 n = sub data 0 n.
Proof.
  intros Hc Hb Hd. unfold pcap_copy. pose proof (glen_nonneg buf).
  assert (Hn : (if caplen >? glen buf then u32 (glen buf) else caplen) = Z.min caplen (glen buf)).
  { unfold u32. destruct (Z.gtb_spec caplen (glen buf)); [rewrite Z.mod_small|]; lia. }
  rewrite Hn. set (n := Z.min caplen (glen buf)) in *.
  assert (Hl : length (take (Z.to_nat n) data) = Z.to_nat n) by (rewrite length_take; unfold glen in *; lia).
  split_and!; [done| |].
  - rewrite glen_app. unfold glen in *. rewrite length_drop, Hl. lia.
  - unfold sub. rewrite !Z.sub_0_r. change (drop (Z.to_nat 0) data) with data.
    change (drop (Z.to_nat 0) ?x) with x. by rewrite take_app_length' by lia.
Qed.

(** ** Properties of the socket *)

Section socket_safety.
Context {P : Pcap}.

(** All calls use the handle, and none but the newest closes it. *)
Definition live_call (handle : Z) (c : pcall) : Prop :=
  match c with PSend x _ | PNext x => x = handle | PClose _ => False end.

Definition history_ok (s : windowsSocket) (h : list pcall) : Prop :=
  if ws_closed s then ∃ l, h = PClose (ws_handle s) :: l ∧ Forall (live_call (ws_handle s)) l
  else Forall (live_call (ws_handle s)) h.

(** The frames passed to the library, oldest first. *)
Definition passed (h : list pcall) : list bytes :=
  rev (omap (fun c => match c with PSend _ f => Some f | _ => None end) h).

Lemma sock_step_ok s h o r s' h' :
  history_ok s h → sock_step s h o = Ret (r, s', h') →
  history_ok s' h' ∧ ws_handle s' = ws_handle s ∧ (ws_closed s = true → ws_closed s' = true ∧ h' = h) ∧
  (∀ f, o = OSend f → r = Some (Ok tt) → ws_closed s = false ∧ passed h' = passed h ++ [f]) ∧
  (∃ l, passed h' = passed h ++ l).
Proof.
  intros Hh. assert (Hid : ∃ l, passed h = passed h ++ l) by (exists []; by rewrite app_nil_r).
  destruct o as [f|buf|]; cbn [sock_step].
  - unfold Send. destruct (ws_closed s) eqn:Ec; [intros [= <- <- <-]; by split_and!|].
    destruct f as [|b f]; [discriminate|]. cbn [go_bind]. intros [= <- <- <-].
    unfold history_ok in *. rewrite Ec in *. split_and!; [by constructor|done|done| |by eexists].
    by intros f' [= <-].
  - unfold Recv, history_ok in *. intros [= <- <- <-].
    destruct (ws_closed s) eqn:Ec; split_and!; try done; by constructor.
  - unfold Close, history_ok in *.
    destruct (ws_closed s) eqn:Ec; intros [= <- <- <-]; [rewrite Ec; by split_and!|].
    cbn [ws_closed ws_handle]. split_and!; try done. by exists h.
Qed.

(** No call into the capture library uses a closed handle.  For any use of
    an opened socket the library sees sends and captures on its handle and
    then at most one close, as the last call of all; and a frame reported as
    sent was passed to the library, in order. *)
Theorem no_use_after_close (handle : Z) (ops : list sock_op) s h out :
  sock_run ops (mkSocket handle false) [] [] = Ret (s, h, out) →
  history_ok s h ∧ ws_handle s = handle ∧ out `sublist_of` passed h.
Proof.
  assert (Hg : ∀ ops s0 h0 out0, history_ok s0 h0 → ws_handle s0 = handle → out0 `sublist_of` passed h0 →
    sock_run ops s0 h0 out0 = Ret (s, h, out) →
    history_ok s h ∧ ws_handle s = handle ∧ out `sublist_of` passed h); [|by apply Hg; [constructor|..]].
  clear ops. induction ops as [|o ops IH]; intros s0 h0 out0 Hh Hn Ho; cbn [sock_run].
  { by intros [= <- <- <-]. }
  destruct (sock_step s0 h0 o) as [[[r s1] h1]|] eqn:E; cbn [go_bind]; [|discriminate].
  destruct (sock_step_ok _ _ _ _ _ _ Hh E) as (H1 & H2 & _ & H4 & l & Hl).
  apply IH; [done|congruence|].
  assert (Hk : out0 `sublist_of` passed h1) by (rewrite Hl; by apply sublist_inserts_r).
  destruct o as [f| |]; [|done..]. destruct r as [[[]|]|]; [|done..].
  destruct (H4 f) as [_ ->]; [done..|]. by apply sublist_app.
Qed.
End socket_safety.

Lemma no_use_after_close_witness :
  let P := {| p_send := fun _ => true; p_next := fun _ => TimedOut |} in
  let ops := [OSend [1]; ORecv []; OClose; OSend [2]; OClose] in
  sock_run (P := P) ops (mkSocket 7 false) [] [] =
    Ret (mkSocket 7 true, [PClose 7; PNext 7; PSend 7 [1]], [[1]]) ∧
  [[1]] `sublist_of` passed [PClose 7; PNext 7; PSend 7 [1]].
Proof.
  intros P ops. split; [reflexivity|].
  exact (proj2 (proj2 (no_use_after_close (P := P) 7 ops (mkSocket 7 true)
    [PClose 7; PNext 7; PSend 7 [1]] [[1]] eq_refl))).
Defined.
