(* ===== verification/Capture.v ===== *)
(** * Capture: reading the capture library's device list

    Models the part of [src/cmd/trafficgen/socket_windows.go] that walks C
    memory: [ptrStr], [cStr] and [findDevices] over the linked list that
    [pcap_findalldevs] fills in (next, name and description pointers at
    offsets 0, 8 and 16).  Memory is a finite map from addresses to bytes;
    reading an address that is not mapped is a fault.  The loops follow
    pointers, so they take fuel. *)

From S2P Require Import Prelude Pattern GooseFrame ConfigLoad Devices.

(** ** Memory *)

Abbreviation memory := (gmap Z Z) (only parsing).

(** [*( *byte)(p)] *)
Definition peek (m : memory) (a : Z) : go Z :=
  match m !! a with Some b => Ret b | None => Panic end.

(** [*( *unsafe.Pointer)(p)]: eight bytes, least significant first; [k] to go *)
Fixpoint peek_word (k : nat) (m : memory) (a : Z) : go Z :=
  match k with
  | O => Ret 0
  | Datatypes.S k => let! b := peek m a in let! v := peek_word k m (a + 1) in Ret (b + 256 * v)
  end.

Definition peek_ptr (m : memory) (a : Z) : go Z := peek_word 8 m a.

(** ** Strings *)

(** [string(b)] *)
Fixpoint string_of (b : bytes) : string :=
  match b with [] => EmptyString | c :: b => String (ascii_of_nat (Z.to_nat c)) (string_of b) end.

(** The loop of [ptrStr]; [len(b)] is the offset *)
Fixpoint ptrStr_loop (fuel : nat) (m : memory) (p : Z) (b : bytes) : go string :=
  match fuel with
  | O => Panic
  | Datatypes.S fuel =>
      let! c := peek m (p + glen b) in
      if c =? 0 then Ret (string_of b) else ptrStr_loop fuel m p (b ++ [c])
  end.

(** [ptrStr] *)
Definition ptrStr (fuel : nat) (m : memory) (p : Z) : go string :=
  if p =? 0 then Ret ""%string else ptrStr_loop fuel m p [].

(** [cStr]: up to the first NUL, or everything *)
Fixpoint cStr (b : bytes) : string :=
  match b with
  | [] => EmptyString
  | c :: b => if c =? 0 then EmptyString else String (ascii_of_nat (Z.to_nat c)) (cStr b)
  end.

(** ** The device list *)

(** The loop of [findDevices] from node [p] on. *)
Fixpoint device_loop (fuel : nat) (m : memory) (p : Z) (out : list device) : go (list device) :=
  match fuel with
  | O => Panic
  | Datatypes.S fuel =>
      if p =? 0 then Ret out
      else
        let! name := peek_ptr m (p + 8) in
        let! desc := peek_ptr m (p + 16) in
        let! n := ptrStr fuel m name in
        let! d := if negb (desc =? 0) then ptrStr fuel m desc else Ret ""%string in
        let! next := peek_ptr m p in
        device_loop fuel m next (out ++ [mkDevice n d])
  end.

(** [findDevices]; [r] is what [pcap_findalldevs] returns, [alldevs] the list
    and [errbuf] the error text it leaves; [Err] is [os.Exit(1)] *)
Definition findDevices (fuel : nat) (m : memory) (r alldevs : Z) (errbuf : bytes) : go (result string (list device)) :=
  if negb (r =? 0) then Ret (Err (cStr errbuf))
  else let! out := device_loop fuel m alldevs [] in Ret (Ok out).

(** ** What the library lays out *)

Definition is_ptr (v : Z) : Prop := 0 <= v < 256 ^ 8.

(** A pointer stored at [a]. *)
Definition stores_ptr (m : memory) (a v : Z) : Prop :=
  ∀ i, (i < 8)%nat → m !! (a + Z.of_nat i) = Some ((v / 256 ^ Z.of_nat i) mod 256).

(** NUL-terminated text at [p]. *)
Definition stores_text (m : memory) (p : Z) (s : bytes) : Prop :=
  (∀ i c, s !! i = Some c → m !! (p + Z.of_nat i) = Some c ∧ c ≠ 0) ∧ m !! (p + glen s) = Some 0.

(** A C string pointer: NULL, or a pointer to text. *)
Definition stores_str (m : memory) (p : Z) (s : bytes) : Prop :=
  p = 0 ∧ s = [] ∨ p ≠ 0 ∧ stores_text m p s.

(** A list of devices at [p]. *)
Inductive stores_list (m : memory) : Z → list (bytes * bytes) → Prop :=
| stores_nil : stores_list m 0 []
| stores_cons p next name desc n d l :
    p ≠ 0 → is_ptr next → is_ptr name → is_ptr desc →
    stores_ptr m p next → stores_ptr m (p + 8) name → stores_ptr m (p + 16) desc →
    stores_str m name n → stores_str m desc d →
    stores_list m next l → stores_list m p ((n, d) :: l).

Definition to_device (e : bytes * bytes) : device := mkDevice (string_of e.1) (string_of e.2).

(** ** Lemmas *)

Lemma peek_word_value k m : ∀ a v,
  0 <= v < 256 ^ Z.of_nat k →
  (∀ i, (i < k)%nat → m !! (a + Z.of_nat i) = Some ((v / 256 ^ Z.of_nat i) mod 256)) →
  peek_word k m a = Ret v.
Proof.
  induction k as [|k IH]; intros a v Hv Hm; cbn [peek_word].
  { cbn in Hv. f_equal. lia. }
  unfold peek. pose proof (Hm 0%nat ltac:(lia)) as H0. rewrite Z.add_0_r in H0. rewrite H0. cbn [go_bind].
  rewrite (IH (a + 1) (v / 256)).
  - cbn [go_bind]. f_equal. change (256 ^ Z.of_nat 0) with 1. zlia.
  - rewrite Nat2Z.inj_succ, Z.pow_succ_r in Hv by lia. zlia.
  - intros i Hi. replace (a + 1 + Z.of_nat i) with (a + Z.of_nat (Datatypes.S i)) by lia.
    rewrite Hm by lia. do 2 f_equal. rewrite Nat2Z.inj_succ, Z.pow_succ_r, Z.div_div by lia. done.
Qed.

Lemma peek_ptr_value m a v : is_ptr v → stores_ptr m a v → peek_ptr m a = Ret v.
Proof. intros Hv. apply (peek_word_value 8). exact Hv. Qed.

Lemma ptrStr_loop_reads m p s : ∀ b fuel,
  stores_text m p (b ++ s) → (length s < fuel)%nat → ptrStr_loop fuel m p b = Ret (string_of (b ++ s)).
Proof.
  induction s as [|c s IH]; intros b fuel [Hc Hz] Hf; (destruct fuel as [|fuel]; [cbn in Hf; lia|]);
    cbn [ptrStr_loop]; unfold peek.
  - rewrite app_nil_r in *. rewrite Hz. done.
  - destruct (Hc (length b) c) as [Hm Hne]; [by rewrite list_lookup_middle|].
    unfold glen. rewrite Hm. cbn [go_bind]. rewrite (proj2 (Z.eqb_neq _ _) Hne).
    rewrite (cons_middle c b s), app_assoc. apply IH; [|cbn in Hf; lia].
    by rewrite <-app_assoc.
Qed.

Lemma ptrStr_reads m p s fuel :
  stores_str m p s → (length s < fuel)%nat → ptrStr fuel m p = Ret (string_of s).
Proof.
  unfold ptrStr. intros [[-> ->]|[Hp Hs]] Hf; [done|].
  rewrite (proj2 (Z.eqb_neq _ _) Hp). by apply (ptrStr_loop_reads m p s []).
Qed.

(** The fuel a list needs. *)
Definition list_fuel (l : list (bytes * bytes)) : nat :=
  foldr (fun e k => length e.1 + length e.2 + k + 2)%nat 1%nat l.

Lemma device_loop_reads m p l :
  stores_list m p l →
  ∀ fuel out, (list_fuel l <= fuel)%nat → device_loop fuel m p out = Ret (out ++ (to_device <$> l)).
Proof.
  induction 1 as [|p next name desc n d l Hp Hn Ha Hd Hpn Hpa Hpd Hsn Hsd Hl IH]; intros fuel out Hf;
    (destruct fuel as [|fuel]; [cbn in Hf; lia|]); cbn [device_loop].
  { by rewrite app_nil_r. }
  rewrite (proj2 (Z.eqb_neq _ _) Hp). cbn [list_fuel foldr] in Hf. fold (list_fuel l) in Hf. cbn [fst snd] in Hf.
  rewrite (peek_ptr_value m (p + 8) name), (peek_ptr_value m (p + 16) desc) by done. cbn [go_bind].
  rewrite (ptrStr_reads m name n) by (done || lia). cbn [go_bind].
  assert (Hdesc : (if negb (desc =? 0) then ptrStr fuel m desc else Ret ""%string) = Ret (string_of d)).
  { destruct (Z.eqb_spec desc 0) as [->|Hne]; cbn [negb].
    - destruct Hsd as [[_ ->]|[? _]]; done.
    - by apply ptrStr_reads; [|lia]. }
  rewrite Hdesc. cbn [go_bind]. rewrite (peek_ptr_value m p next) by done. cbn [go_bind].
  rewrite IH by lia. cbn [fmap list_fmap]. by rewrite <-app_assoc.
Qed.

(** The program reads the device list the library laid out.  Whatever
    memory holds such a list, with any string pointers NULL or pointing to
    NUL-terminated text, the walk ends, touches only mapped memory and returns
    the devices in order; and the name chosen by a 1-based index is the name
    at that position. *)
Theorem findDevices_reads m p l errbuf :
  stores_list m p l →
  ∃ fuel0, ∀ fuel, (fuel0 <= fuel)%nat →
    findDevices fuel m 0 p errbuf = Ret (Ok (to_device <$> l)) ∧
    ∀ iface idx n d, Sscanf_d iface = Some idx → 1 <= idx → l !! Z.to_nat (idx - 1) = Some (n, d) →
      (∀ e, e ∈ l → string_of e.1 ≠ iface) →
      resolveDevice (to_device <$> l) iface = Ret (Ok (string_of n)).
Proof.
  intros Hl. exists (list_fuel l). intros fuel Hf. split.
  { unfold findDevices. cbn [Z.eqb negb]. by rewrite (device_loop_reads m p l Hl fuel [] Hf). }
  intros iface idx n d Hs Hi Hn Hne. pose proof (lookup_lt_Some _ _ _ Hn) as Hlt.
  apply (resolve_by_index _ iface idx (mkDevice (string_of n) (string_of d))); [|done|done|].
  - intros e (x & -> & Hx)%list_elem_of_fmap. by apply Hne.
  - by rewrite list_lookup_fmap, Hn.
Qed.

(** ** Concrete inputs *)

Definition mem_of (a : Z) (l : bytes) : memory := list_to_map (zip (seqZ a (glen l)) l).

(** One device at 16 with name [NPF] at 64 and no description. *)
Definition demo_memory : memory :=
  mem_of 16 (zeros 8 ++ [64; 0; 0; 0; 0; 0; 0; 0] ++ zeros 8) ∪ mem_of 64 [78; 80; 70; 0].

Definition demo_list : list (bytes * bytes) := [([78; 80; 70], [])].

Ltac stored := intros i Hi; do 8 (destruct i as [|i]; [vm_compute; reflexivity|]); lia.

Lemma demo_stored : stores_list demo_memory 16 demo_list.
Proof.
  apply (stores_cons demo_memory 16 0 64 0 [78; 80; 70] [] []).
  - lia.
  - unfold is_ptr. lia.
  - unfold is_ptr. lia.
  - unfold is_ptr. lia.
  - stored.
  - stored.
  - stored.
  - right. split; [lia|]. split; [|vm_compute; reflexivity].
    intros i c Hi. do 3 (destruct i as [|i]; [injection Hi as <-; split; [vm_compute; reflexivity|lia]|]). done.
  - left. done.
  - constructor.
Qed.

Lemma findDevices_reads_witness :
  ∃ fuel0, ∀ fuel, (fuel0 <= fuel)%nat →
    findDevices fuel demo_memory 0 16 [] = Ret (Ok [mkDevice "NPF" ""]) ∧
    ∀ iface idx n d, Sscanf_d iface = Some idx → 1 <= idx → demo_list !! Z.to_nat (idx - 1) = Some (n, d) →
      (∀ e, e ∈ demo_list → string_of e.1 ≠ iface) →
      resolveDevice [mkDevice "NPF" ""] iface = Ret (Ok (string_of n)).
Proof.
  apply (findDevices_reads demo_memory 16 demo_list []).
  exact demo_stored.
Defined.

Example findDevices_demo : findDevices 9 demo_memory 0 16 [] = Ret (Ok [mkDevice "NPF" ""]).
Proof. vm_compute. reflexivity. Qed.
