(* ===== verification/Npcap.v ===== *)
(** * Npcap: loading the capture library and opening a device

    Models the rest of [src/cmd/trafficgen/socket_windows.go]: [npcapDLL] and
    [loadWpcap], which run when the package is initialised, the calls into the
    library made by [findDevices], [listDevices] and [openSocket], the no-op
    [SetRecvTimeout] and the error texts.  The system's loader is the class
    [Loader]; the library is the class [Wpcap], which answers each call
    knowing the calls before it.  The memory is the one at the return of the
    call whose result is read. *)

From S2P Require Import Prelude Pattern Ber GooseFrame ConfigLoad Devices Capture.

(** ** Loading *)

(** [syscall.LoadDLL] and [DLL.FindProc]: a handle and an address. *)
Class Loader := { LoadDLL : string → option Z; FindProc : Z → string → option Z }.

(** [wpcap] *)
Record wpcap := mkWpcap {
  wp_dll : Z; wp_openLive : Z; wp_sendPkt : Z; wp_nextEx : Z;
  wp_findAll : Z; wp_freeAll : Z; wp_close : Z; wp_geterr : Z }.

(** Why the program exits with status 1 before [main]. *)
Inductive init_error := DLLNotFound | MissingExport (name : string).

Section loading.
Context {L : Loader}.

(** [npcapDLL] *)
Definition npcapDLL : option Z :=
  match LoadDLL "wpcap.dll" with
  | Some dll => Some dll
  | None => LoadDLL "Npcap\wpcap.dll"
  end.

(** The closure [proc], with what follows it *)
Definition proc {A} (dll : Z) (name : string) (k : Z → result init_error A) : result init_error A :=
  match FindProc dll name with
  | Some p => k p
  | None => Err (MissingExport name)
  end.

(** [loadWpcap] *)
Definition loadWpcap : result init_error wpcap :=
  match npcapDLL with
  | None => Err DLLNotFound
  | Some dll =>
      proc dll "pcap_open_live" (fun openLive =>
      proc dll "pcap_sendpacket" (fun sendPkt =>
      proc dll "pcap_next_ex" (fun nextEx =>
      proc dll "pcap_findalldevs" (fun findAll =>
      proc dll "pcap_freealldevs" (fun freeAll =>
      proc dll "pcap_close" (fun close =>
      proc dll "pcap_geterr" (fun geterr =>
      Ok (mkWpcap dll openLive sendPkt nextEx findAll freeAll close geterr))))))))
  end.

(** The exports the program needs, in the order it looks for them. *)
Definition exports : list string :=
  ["pcap_open_live"; "pcap_sendpacket"; "pcap_next_ex"; "pcap_findalldevs";
   "pcap_freealldevs"; "pcap_close"; "pcap_geterr"].

Ltac found :=
  intros x; rewrite ?elem_of_cons, elem_of_nil; intros Hx; destruct_or! Hx; subst; eauto; done.
Ltac missing dll k :=
  exists dll, (take k exports), (drop (S k) exports); split_and!; [done|done|done|cbn [take exports]; found].

(** Loading fails exactly when neither file is there, or on the first
    export the library does not have. *)
Lemma loadWpcap_spec :
  match loadWpcap with
  | Ok w => npcapDLL = Some (wp_dll w) ∧ ∀ name, name ∈ exports → is_Some (FindProc (wp_dll w) name)
  | Err DLLNotFound => LoadDLL "wpcap.dll" = None ∧ LoadDLL "Npcap\wpcap.dll" = None
  | Err (MissingExport name) => ∃ dll pre post,
      npcapDLL = Some dll ∧ exports = pre ++ name :: post ∧ FindProc dll name = None ∧
      ∀ x, x ∈ pre → is_Some (FindProc dll x)
  end.
Proof.
  unfold loadWpcap. destruct npcapDLL as [dll|] eqn:Ed.
  2:{ revert Ed. unfold npcapDLL. by destruct (LoadDLL "wpcap.dll"). }
  unfold proc.
  destruct (FindProc dll "pcap_open_live") eqn:?; [|missing dll 0%nat].
  destruct (FindProc dll "pcap_sendpacket") eqn:?; [|missing dll 1%nat].
  destruct (FindProc dll "pcap_next_ex") eqn:?; [|missing dll 2%nat].
  destruct (FindProc dll "pcap_findalldevs") eqn:?; [|missing dll 3%nat].
  destruct (FindProc dll "pcap_freealldevs") eqn:?; [|missing dll 4%nat].
  destruct (FindProc dll "pcap_close") eqn:?; [|missing dll 5%nat].
  destruct (FindProc dll "pcap_geterr") eqn:?; [|missing dll 6%nat].
  split; [done|]. cbn [wp_dll]. unfold exports. found.
Qed.
End loading.

(** ** Calls into the library *)

(** Calls outside an open handle, newest first in a history. *)
Inductive lcall :=
| LFindAll
| LFreeAll (alldevs : Z)
| LOpenLive (dev : bytes) (snaplen promisc timeout : Z).

(** What [pcap_findalldevs] returns and leaves in [alldevs] and [errbuf]. *)
Record found_devs := mkFound { fo_ret : Z; fo_devs : Z; fo_errbuf : bytes }.

Class Wpcap := {
  w_memory : list lcall → memory;                 (** memory after the calls *)
  w_findall : list lcall → found_devs;
  w_open : list lcall → bytes → Z * bytes;        (** handle and [errbuf] *)
  w_geterr : list pcall → Z → memory * Z;         (** memory and the text's address *)
}.

Section library.
Context {W : Wpcap}.

(** [findDevices] with its calls; the list is freed when it has been copied *)
Definition findDevicesL (fuel : nat) (h : list lcall) : go (result string (list device) * list lcall) :=
  let f := w_findall h in
  let h := LFindAll :: h in
  let! r := Capture.findDevices fuel (w_memory h) (fo_ret f) (fo_devs f) (fo_errbuf f) in
  Ret (r, match r with Ok _ => LFreeAll (fo_devs f) :: h | Err _ => h end).

(** [listDevices]: the lines printed, or exit status 1 *)
Definition listDevices (fuel : nat) (h : list lcall) : go (result string (list string) * list lcall) :=
  let! (r, h) := findDevicesL fuel h in
  Ret (match r with
       | Ok devs => Ok ((fun d => (d_name d +:+ String "009" (d_description d))%string) <$> devs)
       | Err e => Err e
       end, h).

(** How [openSocket] ends: exit status 1 while listing or choosing a device,
    an error, or a socket. *)
Inductive opened :=
| ListFailed (e : string)
| ResolveFailed (e : resolve_error)
| OpenFailed (dev text : string)
| Opened (s : windowsSocket).

(** [openSocket] *)
Definition openSocket (fuel : nat) (iface : string) (h : list lcall) : go (opened * list lcall) :=
  let! (devs, h) := findDevicesL fuel h in
  match devs with
  | Err e => Ret (ListFailed e, h)
  | Ok devs =>
      let! r := resolveDevice devs iface in
      match r with
      | Err e => Ret (ResolveFailed e, h)
      | Ok dev =>
          let devP := StringBytes dev ++ [0] in
          let '(r, errbuf) := w_open h devP in
          let h := LOpenLive devP 2048 1 1000 :: h in
          if r =? 0 then Ret (OpenFailed dev (cStr errbuf), h) else Ret (Opened (mkSocket r false), h)
      end
  end.

(** [windowsSocket.SetRecvTimeout] *)
Definition SetRecvTimeout (s : windowsSocket) (d : Z) : windowsSocket := s.

(** [wpcap.errstr] *)
Definition errstr (fuel : nat) (h : list pcall) (handle : Z) : go string :=
  let '(m, r) := w_geterr h handle in
  if r =? 0 then Ret "unknown pcap error"%string else ptrStr fuel m r.

(** The texts of the errors of [Send] and [Recv] *)
Definition error_text (fuel : nat) (h : list pcall) (handle : Z) (e : sock_error) : go string :=
  match e with
  | SocketClosed => Ret "socket closed"%string
  | SendPacketFailed => let! t := errstr fuel h handle in Ret ("pcap_sendpacket: " +:+ t)%string
  | NextFailed => let! t := errstr fuel h handle in Ret ("pcap_next_ex: " +:+ t)%string
  end.

(** ** Strings across the border *)

Lemma StringBytes_of b : bytes_ok b → StringBytes (string_of b) = b.
Proof.
  induction 1 as [|c b Hc _ IH]; [done|]. cbn [string_of StringBytes]. rewrite IH. f_equal.
  unfold is_byte in Hc. rewrite nat_ascii_embedding; lia.
Qed.

(** C reads the name it is given. *)
Lemma cStr_terminated b t : Forall (fun c => c ≠ 0) b → cStr (b ++ 0 :: t) = string_of b.
Proof.
  induction 1 as [|c b Hc _ IH]; [done|]. cbn [app cStr string_of]. by rewrite (proj2 (Z.eqb_neq c 0) Hc), IH.
Qed.

(** Every cell of memory is a byte. *)
Definition memory_ok (m : memory) : Prop := ∀ a b, m !! a = Some b → is_byte b.

Lemma stored_bytes m p s : memory_ok m → stores_str m p s → bytes_ok s ∧ Forall (fun c => c ≠ 0) s.
Proof.
  intros Hm [[_ ->]|[_ [Hs _]]]; [by split; constructor|].
  split; apply Forall_lookup; intros i c Hc; destruct (Hs i c Hc) as [Hi Hne]; [by eapply Hm|done].
Qed.

Lemma stored_list m p l e :
  memory_ok m → stores_list m p l → e ∈ l → bytes_ok e.1 ∧ Forall (fun c => c ≠ 0) e.1.
Proof.
  intros Hm Hl. revert e. induction Hl as [|p next name desc n d l _ _ _ _ _ _ _ Hn Hd _ IH]; intros e.
  { by intros ?%elem_of_nil. }
  intros [->|He]%elem_of_cons; [by eapply stored_bytes|by apply IH].
Qed.
(** ** Opening *)

(** What is known of the end of [openSocket] on a list of devices [l] at [p]
    after the calls [h]. *)
Definition open_outcome (iface : string) (p : Z) (l : list (bytes * bytes)) (h : list lcall)
    (o : opened) (h' : list lcall) : Prop :=
  let listed := LFreeAll p :: LFindAll :: h in
  let opening (n d : bytes) :=
    (n, d) ∈ l ∧ cStr (n ++ [0]) = string_of n ∧ resolved (to_device <$> l) iface (Ok (string_of n)) ∧
    h' = LOpenLive (n ++ [0]) 2048 1 1000 :: listed in
  match o with
  | ListFailed _ => False
  | ResolveFailed e => resolved (to_device <$> l) iface (Err e) ∧ h' = listed
  | OpenFailed dev text => ∃ n d, opening n d ∧ dev = string_of n ∧
      (w_open listed (n ++ [0])).1 = 0 ∧ text = cStr (w_open listed (n ++ [0])).2
  | Opened s => ∃ n d, opening n d ∧ ws_closed s = false ∧ ws_handle s ≠ 0 ∧
      ws_handle s = (w_open listed (n ++ [0])).1
  end.

(** Opening a device asks the library for what the user chose.  On any
    device list the library lays out in a memory of bytes, [openSocket] ends:
    it frees the list once, exactly then calls [pcap_open_live] if the choice
    names one device of the list, passing that device's name as the library
    stored it, byte for byte and NUL-terminated; a handle of zero is an error
    with the library's text, any other handle an open socket on it. *)
Theorem openSocket_spec (iface : string) (p : Z) (l : list (bytes * bytes)) (h : list lcall) :
  memory_ok (w_memory (LFindAll :: h)) → stores_list (w_memory (LFindAll :: h)) p l →
  fo_ret (w_findall h) = 0 → fo_devs (w_findall h) = p →
  ∃ fuel0, ∀ fuel, (fuel0 <= fuel)%nat →
    ∃ o h', openSocket fuel iface h = Ret (o, h') ∧ open_outcome iface p l h o h'.
Proof.
  intros Hm Hl Hr Hp. exists (list_fuel l). intros fuel Hf.
  unfold openSocket, findDevicesL, Capture.findDevices. rewrite Hr, Hp. cbn [Z.eqb negb].
  rewrite (device_loop_reads _ p l Hl fuel [] Hf). cbn [app go_bind].
  destruct (resolveDevice_spec (to_device <$> l) iface) as (r & -> & Hres & _). cbn [go_bind].
  destruct r as [dev|e]; [|by eexists _, _]. pose proof Hres as (d & Hd & <- & _).
  apply list_elem_of_fmap in Hd as ([n ds] & -> & Hin). cbn [to_device d_name fst snd] in Hres |- *.
  destruct (stored_list _ p l (n, ds) Hm Hl Hin) as [Hb Hz]. cbn [fst] in Hb, Hz.
  rewrite (StringBytes_of n Hb). cbn zeta.
  destruct (w_open _ (n ++ [0])) as [hd err] eqn:Eo.
  destruct (Z.eqb_spec hd 0) as [->|Hne]; eexists _, _; (split; [done|]); exists n, ds;
    rewrite Eo; (split; [|by split_and!]); split_and!; try done; by apply cStr_terminated.
Qed.
End library.

(** ** Concrete inputs *)

(** The library of [demo_memory]: one device, [NPF]. *)
Definition demo_pcap : Wpcap := {|
  w_memory := fun _ => demo_memory;
  w_findall := fun _ => mkFound 0 16 [];
  w_open := fun _ dev => if bool_decide (dev = [78; 80; 70; 0]) then (7, []) else (0, [110; 111; 0; 1]);
  w_geterr := fun _ _ => (demo_memory, 64);
|}.

Lemma demo_memory_ok : memory_ok demo_memory.
Proof.
  assert (Hm : map_Forall (fun _ b => (0 <=? b) && (b <? 256) = true) demo_memory).
  { apply (bool_decide_eq_true_1 _). vm_compute. reflexivity. }
  intros a b Hb. specialize (Hm a b Hb). cbn in Hm. zb. unfold is_byte. lia.
Qed.

Lemma openSocket_spec_witness :
  openSocket (W := demo_pcap) 9 "1" [] =
    Ret (Opened (mkSocket 7 false), [LOpenLive [78; 80; 70; 0] 2048 1 1000; LFreeAll 16; LFindAll]) ∧
  ∃ fuel0, ∀ fuel, (fuel0 <= fuel)%nat → ∃ o h',
    openSocket (W := demo_pcap) fuel "1" [] = Ret (o, h') ∧ open_outcome (W := demo_pcap) "1" 16 demo_list [] o h'.
Proof.
  split; [vm_compute; reflexivity|].
  apply (openSocket_spec (W := demo_pcap) "1" 16 demo_list []).
  - exact demo_memory_ok.
  - exact demo_stored.
  - reflexivity.
  - reflexivity.
Defined.

(** A refused open gives the library's text, a failed send the text that
    [pcap_geterr] points to. *)
Example open_refused :
  openSocket (W := {| w_memory := fun _ => demo_memory; w_findall := fun _ => mkFound 0 16 [];
                      w_open := fun _ _ => (0, [110; 111; 0; 1]); w_geterr := fun _ _ => (demo_memory, 0) |}) 9 "NPF" [] =
    Ret (OpenFailed "NPF" "no", [LOpenLive [78; 80; 70; 0] 2048 1 1000; LFreeAll 16; LFindAll]) ∧
  error_text (W := demo_pcap) 9 [] 7 SendPacketFailed = Ret "pcap_sendpacket: NPF"%string.
Proof. split; vm_compute; reflexivity. Qed.

(** The search path is asked before the directory of the capture library. *)
Example path_first :
  npcapDLL (L := {| LoadDLL := fun name => if String.eqb name "wpcap.dll" then Some 1 else Some 2;
                    FindProc := fun _ _ => None |}) = Some 1.
Proof. reflexivity. Qed.
