(* ===== verification/Tui.v ===== *)
(** * Tui: what the console shows

    Models the text of the status display: [formatDrops]
    ([src/internal/tui/prpd.go], written again in [src/cmd/prpd/main.go]), the
    settings row that [runTUILoop] prepares and the first rows of [Draw].
    The link to the node: every frame the node drops is shown. *)

From S2P Require Import Prelude NodeTable Supervision Role Pattern Node PrpPath HsrPath Dispatch Redundancy ConfigLoad.

(** ** Text *)

(** The drop reasons, in display order. *)
Definition drop_keys : list string := ["dup"; "own"; "path"; "filter"; "malformed"].

(** The loop of [formatDrops]: the parts to be joined. *)
Definition drop_parts (drops : gmap string Z) : list string :=
  omap (fun k => match drops !! k with
                 | Some v => if v >? 0 then Some (k +:+ "=" +:+ pretty v)%string else None
                 | None => None
                 end) drop_keys.

(** [formatDrops] *)
Definition formatDrops (drops : gmap string Z) : string :=
  if Z.of_nat (size drops) =? 0 then "-"
  else
    let parts := drop_parts drops in
    if glen parts =? 0 then "-" else Join " " parts.

(** [PrpdSettings] *)
Record PrpdSettings := mkSettings {
  ps_Interfaces : string; ps_TrailerEnabled : bool; ps_Supervision : string; ps_NodeForget : string;
  ps_ProxyForget : string; ps_EntryForget : string; ps_ForwardAll : bool; ps_VLANFilter : string;
  ps_Multicast : string; ps_DebugFrames : bool }.

(** [PrpdStats] *)
Record PrpdStats := mkPrpdStats {
  ps_Role : string; ps_Name : string; ps_PRPID : Z; ps_NetID : Z; ps_LanID : string;
  ps_LanAIn : Z; ps_LanAOut : Z; ps_LanBIn : Z; ps_LanBOut : Z; ps_InterIn : Z; ps_InterOut : Z;
  ps_SupSent : Z; ps_DupTableSize : Z; ps_Drops : gmap string Z }.

(** A setting or, when it is not set, what the display says instead. *)
Definition shown (s dflt : string) : string := if String.eqb s "" then dflt else s.

(** The settings [runTUILoop] computes before its loop. *)
Definition tui_settings {H : Host} (c : FileConfig) : PrpdSettings :=
  let interfaces := (If_LanA c +:+ " (A), " +:+ If_LanB c +:+ " (B), " +:+ If_Interlink c +:+ " (interlink)")%string in
  let vlan := if glen (IL_VLANFilter c) >? 0 then Join "," (pretty <$> IL_VLANFilter c) else "none"%string in
  let mc := if negb (String.eqb (MC_FirstOctet c) "") then MC_FirstOctet c else "none (allow all)"%string in
  let sup := if Sup_Enabled c then
               let s := ("on (" +:+ Sup_LifeCheckInterval c +:+ ")")%string in
               if String.eqb s "on ()" then "on (2s)"%string else s
             else "off"%string in
  mkSettings interfaces (PRP_TrailerEnabled c) sup (shown (Sup_NodeForgetTime c) "64s")
    (shown (Sup_ProxyNodeForgetTime c) "64s") (shown (DD_EntryForgetTime c) "640ms")
    (IL_ForwardAll c) vlan mc (String.eqb (Getenv "DEBUG_FRAMES") "1").

(** The statistics [runTUILoop] passes to [Draw]. *)
Definition tui_stats (c : FileConfig) (n : Node) : PrpdStats :=
  let st := Snapshot n in
  mkPrpdStats (st_Role st) (Node_Name c) (c_PRPID (n_Config n)) (st_NetID st) (st_LanID st)
    (st_LanAIn st) (st_LanAOut st) (st_LanBIn st) (st_LanBOut st) (st_InterIn st) (st_InterOut st)
    (st_SupSent st) (st_DupTableSize st) (st_Drops st).

(** ["%v"] of a bool *)
Definition bool_text (b : bool) : string := if b then "true" else "false".

(** The first four rows of [Draw]; [version] and [uptime] are texts. *)
Definition draw_rows (version uptime : string) (st : PrpdStats) (set : PrpdSettings) : list string :=
  let role := if String.eqb (ps_Role st) "hsr-prp"
              then (ps_Role st +:+ " N" +:+ pretty (ps_NetID st) +:+ " L" +:+ ps_LanID st)%string
              else ps_Role st in
  [(version +:+ " " +:+ ps_Name st +:+ " " +:+ role +:+ " prp=" +:+ pretty (ps_PRPID st) +:+ " up=" +:+ uptime)%string;
   ("A in=" +:+ pretty (ps_LanAIn st) +:+ " out=" +:+ pretty (ps_LanAOut st) +:+
    " | B in=" +:+ pretty (ps_LanBIn st) +:+ " out=" +:+ pretty (ps_LanBOut st) +:+
    " | I in=" +:+ pretty (ps_InterIn st) +:+ " out=" +:+ pretty (ps_InterOut st) +:+
    " | sup=" +:+ pretty (ps_SupSent st) +:+ " nt=" +:+ pretty (ps_DupTableSize st))%string;
   (ps_Interfaces set +:+ " trailer=" +:+ bool_text (ps_TrailerEnabled set) +:+ " fwd=" +:+ bool_text (ps_ForwardAll set) +:+
    " sup=" +:+ ps_Supervision set +:+ " nf=" +:+ ps_NodeForget set +:+ " pf=" +:+ ps_ProxyForget set +:+
    " ef=" +:+ ps_EntryForget set +:+ " vlan=" +:+ ps_VLANFilter set +:+ " mcast=" +:+ ps_Multicast set +:+
    " dbg=" +:+ bool_text (ps_DebugFrames set))%string;
   ("drops: " +:+ formatDrops (ps_Drops st))%string].

(** The line printed every five seconds without a terminal. *)
Definition status_line (st : Status) : string :=
  let role := if String.eqb (st_Role st) "hsr-prp"
              then ("hsr-prp (NetId " +:+ pretty (st_NetID st) +:+ ", LanId " +:+ st_LanID st +:+ ")")%string
              else st_Role st in
  ("status: role=" +:+ role +:+
   " ringA in=" +:+ pretty (st_LanAIn st) +:+ " out=" +:+ pretty (st_LanAOut st) +:+
   " ringB in=" +:+ pretty (st_LanBIn st) +:+ " out=" +:+ pretty (st_LanBOut st) +:+
   " inter in=" +:+ pretty (st_InterIn st) +:+ " out=" +:+ pretty (st_InterOut st) +:+
   " sup=" +:+ pretty (st_SupSent st) +:+ " ntable=" +:+ pretty (st_DupTableSize st) +:+
   " drops=" +:+ formatDrops (st_Drops st))%string.

(** ** Every drop has a known reason *)

Section drops.
Context {MR : MapRange} {E : Env}.

(** A step that counts at most one drop, for one of the displayed reasons. *)
Definition one_drop (n n' : Node) : Prop :=
  n_dropCounters n' = n_dropCounters n ∨
  ∃ r, r ∈ drop_keys ∧
    n_dropCounters n' = <[r := i64 (default 0 (n_dropCounters n !! r) + 1)]> (n_dropCounters n).

Lemma drops_wrote p f n : n_dropCounters (wrote p f n) = n_dropCounters n.
Proof. by destruct (wrote_cases p f n) as [-> | ->]. Qed.

Lemma one_drop_same n n' : n_dropCounters n' = n_dropCounters n → one_drop n n'.
Proof. by left. Qed.

Lemma one_drop_dropped r n n' :
  r ∈ drop_keys → n_dropCounters n' = n_dropCounters n → one_drop n (dropped r n').
Proof. intros Hr Hn. right. exists r. split; [done|]. cbn. by rewrite Hn. Qed.

Lemma drops_sup now p f n : n_dropCounters (sup_receive now p f n) = n_dropCounters n.
Proof.
  unfold sup_receive. destruct (Parse f) as [[sup|]|]; [|done..].
  unfold sup_learned. cbn zeta. by destruct (regressed n sup); destruct (_ && _).
Qed.

(** Split the branches of a handler and close each. *)
Ltac drop_cases :=
  repeat case_match; subst;
  first [apply one_drop_dropped; [apply (bool_decide_eq_true_1 _); reflexivity|]|apply one_drop_same];
  rewrite ?drops_wrote; try done.

Lemma frame_step_drops now p f n : one_drop n (frame_step now p f n).
Proof.
  unfold frame_step. destruct (_ <? 14); [by left|]. destruct (sup_dispatched _ _ _).
  { apply one_drop_same. unfold sup_relayed.
    repeat case_match; rewrite ?drops_wrote; apply drops_sup. }
  destruct (IsHSRNode _); destruct (is_lan p).
  - unfold ring_receive. destruct (ring_decide _ _ _); [drop_cases..|].
    unfold ring_deliver, ring_forward. drop_cases.
  - destruct (IsHSRHSR _).
    + unfold quad_receive. destruct (ring_decide _ _ _); drop_cases.
    + unfold interlink_receive, ring_inject. drop_cases.
  - unfold prp_receive. destruct (prp_verdict _ _ _ _); [drop_cases..|].
    unfold delivered. drop_cases.
  - unfold prp_inject. cbn zeta. drop_cases.
Qed.

(** Computations that count no drop. *)
Definition no_drop {A} (m : M A) : Prop :=
  ∀ n a n', m n = Ret (a, n') → n_dropCounters n' = n_dropCounters n.

Lemma no_drop_bind {A B} (m : M A) (k : A → M B) :
  no_drop m → (∀ a, no_drop (k a)) → no_drop (m ≫= k).
Proof.
  intros Hm Hk n b n'. unfold mbind, M_bind. destruct (m n) as [[a n1]|] eqn:E1; [|discriminate].
  intros E2. apply Hk in E2. rewrite E2. by eapply Hm.
Qed.

Lemma no_drop_Write p f : no_drop (Write p f).
Proof. intros n a n'. unfold Write. destruct (bound n p); [|discriminate]. by intros [= <- <-]. Qed.

Lemma no_drop_gets {A} (f : Node → A) : no_drop (gets f).
Proof. by intros n a n' [= <- <-]. Qed.

Lemma no_drop_mret {A} (a : A) : no_drop (mret a : M A).
Proof. by intros n a' n' [= <- <-]. Qed.

Lemma no_drop_modify f : (∀ n, n_dropCounters (f n) = n_dropCounters n) → no_drop (modify f).
Proof. intros Hf n a n' [= <- <-]. apply Hf. Qed.

Lemma SendSupervisionFrame_no_drop : no_drop SendSupervisionFrame.
Proof.
  unfold SendSupervisionFrame, countSup.
  repeat first [apply no_drop_bind; [|intros ?] | apply no_drop_Write | apply no_drop_gets
               | apply no_drop_mret | apply no_drop_modify; intros ?; reflexivity | case_match].
Qed.

Lemma step_drops now i n n' :
  node_ok n → match i with Received ev => bytes_ok (ev_frame ev) | _ => True end →
  step now i n = Ret n' → one_drop n n'.
Proof.
  intros Hn Hb Hs. destruct i as [[p f]| |]; cbn [step] in Hs.
  - destruct (out_of_range p f n) eqn:Er; [by rewrite handleFrame_panic in Hs|].
    rewrite handleFrame_eq in Hs by (done || apply Hn). injection Hs as <-. apply frame_step_drops.
  - injection Hs as <-. left. unfold periodicCleanup, cleanupSupervisionSeen. by destruct (_ =? 0).
  - destruct (SendSupervisionFrame n) as [[u n1]|] eqn:Es; [|discriminate]. injection Hs as <-.
    left. by eapply SendSupervisionFrame_no_drop.
Qed.

(** Only displayed reasons are counted. *)
Definition known_drops (n : Node) : Prop :=
  ∀ r v, n_dropCounters n !! r = Some v → r ∈ drop_keys.

Lemma run_known_drops l : ∀ n n',
  node_ok n → known_drops n →
  Forall (fun a => match a.2 with Received ev => bytes_ok (ev_frame ev) | _ => True end) l →
  run_inputs l n = Ret n' → known_drops n'.
Proof.
  induction l as [|[now i] l IH]; intros n n' Hn Hk Hl; cbn [run_inputs]; [by intros [= <-]|].
  apply Forall_cons in Hl as [Hi Hl]. cbn [snd] in Hi.
  destruct (step now i n) as [n1|] eqn:Es; cbn [go_bind]; [|discriminate].
  destruct (step_returned now i n n1 Hn Hi Es) as (Hn1 & _ & _).
  apply (IH n1 n'); [done| |done]. intros r v Hr.
  destruct (step_drops now i n n1 Hn Hi Es) as [Heq|(r' & Hr' & Heq)]; rewrite Heq in Hr.
  - by eapply Hk.
  - apply lookup_insert_Some in Hr as [[<- _]|[_ Hr]]; [done|by eapply Hk].
Qed.

Lemma drop_parts_shows drops r v :
  r ∈ drop_keys → drops !! r = Some v → 0 < v →
  (r +:+ "=" +:+ pretty v)%string ∈ drop_parts drops.
Proof.
  intros Hr Hv Hp. unfold drop_parts. apply list_elem_of_omap. exists r. split; [done|].
  rewrite Hv. by guard_true (v >? 0).
Qed.

Lemma formatDrops_parts drops :
  formatDrops drops = if bool_decide (drop_parts drops = []) then "-"%string else Join " " (drop_parts drops).
Proof.
  unfold formatDrops. destruct (Z.eqb_spec (Z.of_nat (size drops)) 0) as [Hs|Hs].
  - assert (drops = ∅) as -> by (apply map_size_empty_inv; lia). by vm_compute.
  - destruct (drop_parts drops); [done|]. case_bool_decide; [done|].
    replace (glen (s :: l) =? 0) with false; [done|]. symmetry. apply Z.eqb_neq. len_lia.
Qed.

(** The display hides no drop.  After any sequence of inputs handled by a
    freshly configured node, every counted drop has one of the five displayed
    reasons, the drops row joins exactly the entries of the positive counters
    in a fixed order, and a dash is shown exactly when there is none. *)
Theorem drops_displayed (cfg : option Config) (st : Z) (i : bool) (l : list (Z * input)) (n : Node) :
  is_u16 st →
  (∀ c, cfg = Some c → IsHSRNode c = true → IsHSRHSR c = false → i = true) →
  Forall (fun a => match a.2 with Received ev => bytes_ok (ev_frame ev) | _ => True end) l →
  run_inputs l (bind_ports true true i (NewNode cfg st)) = Ret n →
  formatDrops (st_Drops (Snapshot n)) =
    (if bool_decide (drop_parts (n_dropCounters n) = []) then "-"%string
     else Join " " (drop_parts (n_dropCounters n))) ∧
  ∀ r v, n_dropCounters n !! r = Some v → 0 < v →
    r ∈ drop_keys ∧ (r +:+ "=" +:+ pretty v)%string ∈ drop_parts (n_dropCounters n).
Proof.
  intros Hst Hi Hl Hrun. split; [apply formatDrops_parts|]. intros r v Hr Hv.
  assert (Hk : r ∈ drop_keys).
  { eapply (run_known_drops l _ n (NewNode_ok cfg st i Hst Hi)); [|done..].
    intros r' v' Hr'. cbn in Hr'. by rewrite lookup_empty in Hr'. }
  split; [done|]. by apply drop_parts_shows.
Qed.
End drops.

(** ** Concrete inputs *)

#[local] Existing Instance sorted_range.
#[local] Existing Instance demo_env.

(** A frame without trailer from LAN A, and its copy: both malformed. *)
Lemma drops_displayed_witness :
  let l := [(1, Received (mkEvent LanA demo_frame)); (2, CleanupTimer); (3, Received (mkEvent LanB demo_frame))] in
  match run_inputs l (bind_ports true true true (NewNode (Some (demo_config "prp-san" "" 0)) 7)) with
  | Ret n => formatDrops (st_Drops (Snapshot n)) = "malformed=2"%string ∧
      ∀ r v, n_dropCounters n !! r = Some v → 0 < v →
        r ∈ drop_keys ∧ (r +:+ "=" +:+ pretty v)%string ∈ drop_parts (n_dropCounters n)
  | Panic => False
  end.
Proof.
  intros l. destruct (run_inputs l _) as [n|] eqn:E; [|by vm_compute in E].
  assert (Hb : bytes_ok demo_frame) by apply demo_frame_san.
  pose proof (drops_displayed (Some (demo_config "prp-san" "" 0)) 7 true l n) as Hd.
  destruct Hd as [H1 H2]; [unfold is_u16; lia|done| |done|].
  - repeat (apply Forall_cons_2; [done|]). constructor.
  - split; [|done]. rewrite H1. clear -E. vm_compute in E. injection E as <-. vm_compute. reflexivity.
Defined.
