(* ===== verification/Screen.v ===== *)
(** * Screen: the console frame and its log rows

    Models [truncate] and the whole of [Draw] ([src/internal/tui/prpd.go]):
    the conversions between a Go string and its runes (UTF-8 with the
    replacement character for what is not), the cut of a log line to the
    width of the screen, and the frame of bytes that is written; and the rows
    of the generator's screen ([src/internal/tui/tui.go]). *)

From S2P Require Import Prelude Ber RingBuf ConfigLoad Tui.

(** ** Runes *)

Definition RuneError : Z := 0xFFFD.

Definition between (lo b hi : Z) : bool := (lo <=? b) && (b <=? hi).

(** The first rune of a string and its width; an invalid byte is
    [RuneError] of width 1. *)
Definition decode_rune (s : bytes) : Z * nat :=
  match s with
  | [] => (RuneError, 0%nat)
  | b0 :: s1 =>
      if b0 <? 0x80 then (b0, 1%nat)
      else if between 0xC2 b0 0xDF then
        match s1 with
        | b1 :: _ =>
            if between 0x80 b1 0xBF then
              (Z.lor (Z.shiftl (Z.land b0 0x1F) 6) (Z.land b1 0x3F), 2%nat)
            else (RuneError, 1%nat)
        | _ => (RuneError, 1%nat)
        end
      else if between 0xE0 b0 0xEF then
        match s1 with
        | b1 :: b2 :: _ =>
            if between (if b0 =? 0xE0 then 0xA0 else 0x80) b1 (if b0 =? 0xED then 0x9F else 0xBF) &&
               between 0x80 b2 0xBF then
              (Z.lor (Z.shiftl (Z.lor (Z.shiftl (Z.land b0 0x0F) 6) (Z.land b1 0x3F)) 6) (Z.land b2 0x3F), 3%nat)
            else (RuneError, 1%nat)
        | _ => (RuneError, 1%nat)
        end
      else if between 0xF0 b0 0xF4 then
        match s1 with
        | b1 :: b2 :: b3 :: _ =>
            if between (if b0 =? 0xF0 then 0x90 else 0x80) b1 (if b0 =? 0xF4 then 0x8F else 0xBF) &&
               between 0x80 b2 0xBF && between 0x80 b3 0xBF then
              (Z.lor (Z.shiftl (Z.lor (Z.shiftl (Z.lor (Z.shiftl (Z.land b0 0x07) 6) (Z.land b1 0x3F)) 6)
                 (Z.land b2 0x3F)) 6) (Z.land b3 0x3F), 4%nat)
            else (RuneError, 1%nat)
        | _ => (RuneError, 1%nat)
        end
      else (RuneError, 1%nat)
  end.

(** [[]rune(s)]; every rune takes at least one byte *)
Fixpoint runes_loop (fuel : nat) (s : bytes) : list Z :=
  match fuel, s with
  | S fuel, _ :: _ => let '(r, k) := decode_rune s in r :: runes_loop fuel (drop k s)
  | _, _ => []
  end.

Definition runes (s : bytes) : list Z := runes_loop (length s) s.

Definition is_surrogate (r : Z) : bool := between 0xD800 r 0xDFFF.

(** The bytes of one rune *)
Definition encode_rune (r : Z) : bytes :=
  if (r <? 0) || is_surrogate r || (0x10FFFF <? r) then [0xEF; 0xBF; 0xBD]
  else if r <? 0x80 then [r]
  else if r <? 0x800 then
    [Z.lor 0xC0 (Z.shiftr r 6); Z.lor 0x80 (Z.land r 0x3F)]
  else if r <? 0x10000 then
    [Z.lor 0xE0 (Z.shiftr r 12); Z.lor 0x80 (Z.land (Z.shiftr r 6) 0x3F); Z.lor 0x80 (Z.land r 0x3F)]
  else
    [Z.lor 0xF0 (Z.shiftr r 18); Z.lor 0x80 (Z.land (Z.shiftr r 12) 0x3F);
     Z.lor 0x80 (Z.land (Z.shiftr r 6) 0x3F); Z.lor 0x80 (Z.land r 0x3F)].

(** [string(r)] for a slice of runes *)
Definition runes_bytes (rs : list Z) : bytes := concat (encode_rune <$> rs).

(** ** Drawing *)

Definition ellipsis : bytes := [46; 46; 46].

(** [truncate]; a negative slice bound panics *)
Definition truncate (s : bytes) (n : Z) : go bytes :=
  if glen s <=? n then Ret s
  else
    let r := runes s in
    if glen r <=? n then Ret s
    else let! kept := slice r 0 (n - 3) in Ret (runes_bytes kept ++ ellipsis).

(** The text of a Go string literal with escapes, and of a row. *)
Definition clear_home : bytes := [27; 91; 50; 74; 27; 91; 72].
Definition clear_below : bytes := [27; 91; 48; 74; 13; 10].
Definition show_cursor : bytes := [27; 91; 63; 50; 53; 104].
Definition row (s : bytes) : bytes := s ++ [13; 10].

(** The loop over the log lines. *)
Fixpoint log_rows (logs : list bytes) : go bytes :=
  match logs with
  | [] => Ret []
  | l :: logs =>
      let! t := truncate l 76 in
      let! rest := log_rows logs in
      Ret (row ([32; 32] ++ t) ++ rest)
  end.

(** [Draw]: the bytes of its one write *)
Definition Draw (version uptime : string) (st : PrpdStats) (set : PrpdSettings) (logs : list bytes) : go bytes :=
  let! body := log_rows logs in
  Ret (clear_home ++ concat (row ∘ StringBytes <$> draw_rows version uptime st set) ++ body ++
       clear_below ++ show_cursor).

(** ** The generator's screen ([src/internal/tui/tui.go]) *)

(** ["%04x"] of a [uint16] *)
Definition hex4 (v : Z) : string := (hex2 (v / 256) +:+ hex2 (v mod 256))%string.

(** [render], one row per line *)
Definition render (version role ifaceName : string) (appid stNum : Z) (allData : bool)
    (total unique dupes latencyMs : Z) (errors : list string) : list string :=
  [("=== PRP IED TUI " +:+ version +:+ " === role=" +:+ role +:+ " iface=" +:+ ifaceName +:+ " appid=0x" +:+ hex4 appid)%string;
   "=== PRP-level === LAN-A/B frames | RCT errors | VLAN tags | supervision"%string;
   ("=== GOOSE/SV-level === stNum=" +:+ pretty stNum +:+ " allData=" +:+ bool_text allData +:+
    " total=" +:+ pretty total +:+ " unique=" +:+ pretty unique +:+ " dupes=" +:+ pretty dupes +:+
    " lat=" +:+ pretty latencyMs +:+ "ms")%string;
   "=== Last 5 malformed/rejected ==="%string] ++ ((fun e => ("  " +:+ e)%string) <$> errors).

(** [Start], [Update] *)
Definition Start (version role ifaceName : string) (appid : Z) : list string :=
  render version role ifaceName appid 0 false 0 0 0 0 [].
Definition Update (version : string) (stNum : Z) (allData : bool) (total unique dupes latencyMs : Z)
    (errors : list string) : list string :=
  render version "subscriber" "" 0 stNum allData total unique dupes latencyMs errors.

(** [Stop] *)
Definition tui_Stop : string := "=== TUI stopped === final stats reported ===".

(** A publisher's screen calls itself a subscriber after the first frame, and
    its APPID is gone. *)
Example update_role :
  Start "v1" "publisher" "eth0" 0x1001 !! 0%nat =
    Some "=== PRP IED TUI v1 === role=publisher iface=eth0 appid=0x1001"%string ∧
  Update "v1" 2 false 1 1 0 0 [] !! 0%nat =
    Some "=== PRP IED TUI v1 === role=subscriber iface= appid=0x0000"%string.
Proof. split; vm_compute; reflexivity. Qed.

(** ** Lemmas: arithmetic of the encoding *)

Definition valid_rune (r : Z) : Prop := 0 <= r < 0xD800 ∨ 0xDFFF < r <= 0x10FFFF.

Lemma land_3F x : Z.land x 0x3F = x mod 64.
Proof. exact (land_mod x 6 ltac:(lia)). Qed.
Lemma land_1F x : Z.land x 0x1F = x mod 32.
Proof. exact (land_mod x 5 ltac:(lia)). Qed.
Lemma land_07 x : Z.land x 0x07 = x mod 8.
Proof. exact (land_mod x 3 ltac:(lia)). Qed.

Lemma shift6_lor a b : 0 <= b < 64 → Z.lor (Z.shiftl a 6) b = a * 64 + b.
Proof. intros Hb. rewrite lor_shiftl_add; [done|lia|exact Hb]. Qed.

Lemma lor_lead a k b : 0 <= k → 0 <= b < 2 ^ k → Z.lor (a * 2 ^ k) b = a * 2 ^ k + b.
Proof. intros Hk Hb. rewrite <-Z.shiftl_mul_pow2 by lia. by rewrite lor_shiftl_add, Z.shiftl_mul_pow2 by lia. Qed.

Lemma lor_80 b : 0 <= b < 64 → Z.lor 0x80 b = 0x80 + b.
Proof. exact (lor_lead 2 6 b ltac:(lia)). Qed.
Lemma lor_C0 b : 0 <= b < 32 → Z.lor 0xC0 b = 0xC0 + b.
Proof. exact (lor_lead 6 5 b ltac:(lia)). Qed.
Lemma lor_E0 b : 0 <= b < 16 → Z.lor 0xE0 b = 0xE0 + b.
Proof. exact (lor_lead 14 4 b ltac:(lia)). Qed.
Lemma lor_F0 b : 0 <= b < 8 → Z.lor 0xF0 b = 0xF0 + b.
Proof. exact (lor_lead 30 3 b ltac:(lia)). Qed.

Lemma shr6 r : Z.shiftr r 6 = r / 64.
Proof. by rewrite Z.shiftr_div_pow2 by lia. Qed.
Lemma shr12 r : Z.shiftr r 12 = r / 4096.
Proof. by rewrite Z.shiftr_div_pow2 by lia. Qed.
Lemma shr18 r : Z.shiftr r 18 = r / 262144.
Proof. by rewrite Z.shiftr_div_pow2 by lia. Qed.

Lemma between_true lo b hi : lo <= b <= hi → between lo b hi = true.
Proof. intros H. unfold between. by guard_true (lo <=? b); guard_true (b <=? hi). Qed.
Lemma between_false lo b hi : ¬ lo <= b <= hi → between lo b hi = false.
Proof.
  intros H. unfold between. destruct (Z.leb_spec lo b), (Z.leb_spec b hi); try done. lia.
Qed.
Lemma between_spec lo b hi : reflect (lo <= b <= hi) (between lo b hi).
Proof.
  destruct (decide (lo <= b <= hi)); [rewrite between_true by done|rewrite between_false by done]; by constructor.
Qed.

(** Encoding in arithmetic, by size. *)
Lemma encode_rune_eq r :
  valid_rune r →
  encode_rune r =
    if r <? 0x80 then [r]
    else if r <? 0x800 then [0xC0 + r / 64; 0x80 + r mod 64]
    else if r <? 0x10000 then [0xE0 + r / 4096; 0x80 + r / 64 mod 64; 0x80 + r mod 64]
    else [0xF0 + r / 262144; 0x80 + r / 4096 mod 64; 0x80 + r / 64 mod 64; 0x80 + r mod 64].
Proof.
  unfold valid_rune. intros Hr. unfold encode_rune, is_surrogate.
  guard_false (r <? 0). rewrite between_false by lia. guard_false (0x10FFFF <? r). cbn [orb].
  destruct (Z.ltb_spec r 0x80); [done|]. rewrite !land_3F, !shr6, !shr12, !shr18.
  destruct (Z.ltb_spec r 0x800); [by rewrite lor_C0, lor_80 by zlia|].
  destruct (Z.ltb_spec r 0x10000); [by rewrite lor_E0, !lor_80 by zlia|].
  by rewrite lor_F0, !lor_80 by zlia.
Qed.

(** Every rune a string decodes to is valid, and takes between one and four
    bytes. *)
Lemma decode_rune_valid s r k :
  bytes_ok s → s ≠ [] → decode_rune s = (r, k) → valid_rune r ∧ (1 <= k <= 4)%nat.
Proof.
  assert (Herr : valid_rune RuneError ∧ (1 <= 1 <= 4)%nat) by (unfold valid_rune, RuneError; lia).
  intros Hb Hne. destruct s as [|b0 s]; [done|]. apply Forall_cons in Hb as [H0 Hb]. unfold is_byte in H0.
  cbn [decode_rune]. destruct (Z.ltb_spec b0 0x80); [intros [= <- <-]; unfold valid_rune; lia|].
  destruct (between_spec 0xC2 b0 0xDF).
  { destruct s as [|b1 s]; [by intros [= <- <-]|]. destruct (between_spec 0x80 b1 0xBF); [|by intros [= <- <-]].
    intros [= <- <-]. rewrite land_3F, land_1F, shift6_lor by zlia. unfold valid_rune. zlia. }
  destruct (between_spec 0xE0 b0 0xEF).
  { destruct s as [|b1 [|b2 s]]; try by intros [= <- <-].
    destruct (between_spec (if b0 =? 0xE0 then 0xA0 else 0x80) b1 (if b0 =? 0xED then 0x9F else 0xBF)) as [Hc|];
      cbn [andb]; [|by intros [= <- <-]].
    destruct (between_spec 0x80 b2 0xBF); [|by intros [= <- <-]].
    intros [= <- <-]. rewrite !land_3F, land_0x0F, !shift6_lor by zlia. unfold valid_rune.
    destruct (Z.eqb_spec b0 0xE0), (Z.eqb_spec b0 0xED); zlia. }
  destruct (between_spec 0xF0 b0 0xF4); [|by intros [= <- <-]].
  destruct s as [|b1 [|b2 [|b3 s]]]; try by intros [= <- <-].
  destruct (between_spec (if b0 =? 0xF0 then 0x90 else 0x80) b1 (if b0 =? 0xF4 then 0x8F else 0xBF)) as [Hc|];
    cbn [andb]; [|by intros [= <- <-]].
  destruct (between_spec 0x80 b2 0xBF); cbn [andb]; [|by intros [= <- <-]].
  destruct (between_spec 0x80 b3 0xBF); [|by intros [= <- <-]].
  intros [= <- <-]. rewrite !land_3F, land_07, !shift6_lor by zlia. unfold valid_rune.
  destruct (Z.eqb_spec b0 0xF0), (Z.eqb_spec b0 0xF4); zlia.
Qed.

(** Only an ASCII byte decodes to an ASCII rune. *)
Lemma decode_rune_high b0 s r k :
  bytes_ok (b0 :: s) → 0x80 <= b0 → decode_rune (b0 :: s) = (r, k) → 0x80 <= r.
Proof.
  assert (Herr : 0x80 <= RuneError) by (unfold RuneError; lia).
  intros Hb H0. apply Forall_cons in Hb as [_ Hb]. cbn [decode_rune]. guard_false (b0 <? 0x80).
  destruct (between_spec 0xC2 b0 0xDF).
  { destruct s as [|b1 s]; [by intros [= <- <-]|]. destruct (between_spec 0x80 b1 0xBF); [|by intros [= <- <-]].
    intros [= <- <-]. rewrite land_3F, land_1F, shift6_lor by zlia. zlia. }
  destruct (between_spec 0xE0 b0 0xEF).
  { destruct s as [|b1 [|b2 s]]; try by intros [= <- <-].
    destruct (between_spec (if b0 =? 0xE0 then 0xA0 else 0x80) b1 (if b0 =? 0xED then 0x9F else 0xBF)) as [Hc|];
      cbn [andb]; [|by intros [= <- <-]].
    destruct (between_spec 0x80 b2 0xBF); [|by intros [= <- <-]].
    intros [= <- <-]. rewrite !land_3F, land_0x0F, !shift6_lor by zlia.
    destruct (Z.eqb_spec b0 0xE0), (Z.eqb_spec b0 0xED); zlia. }
  destruct (between_spec 0xF0 b0 0xF4); [|by intros [= <- <-]].
  destruct s as [|b1 [|b2 [|b3 s]]]; try by intros [= <- <-].
  destruct (between_spec (if b0 =? 0xF0 then 0x90 else 0x80) b1 (if b0 =? 0xF4 then 0x8F else 0xBF)) as [Hc|];
    cbn [andb]; [|by intros [= <- <-]].
  destruct (between_spec 0x80 b2 0xBF); cbn [andb]; [|by intros [= <- <-]].
  destruct (between_spec 0x80 b3 0xBF); [|by intros [= <- <-]].
  intros [= <- <-]. rewrite !land_3F, land_07, !shift6_lor by zlia.
  destruct (Z.eqb_spec b0 0xF0), (Z.eqb_spec b0 0xF4); zlia.
Qed.

(** Decoding the bytes of a valid rune gives the rune. *)
Lemma decode_encode r s :
  valid_rune r → decode_rune (encode_rune r ++ s) = (r, length (encode_rune r)).
Proof.
  intros Hr. rewrite (encode_rune_eq r Hr). unfold valid_rune in Hr.
  destruct (Z.ltb_spec r 0x80); [cbn [app decode_rune]; by guard_true (r <? 0x80)|].
  destruct (Z.ltb_spec r 0x800); [|destruct (Z.ltb_spec r 0x10000)]; cbn [app decode_rune length];
    rewrite (proj2 (Z.ltb_ge _ _)) by zlia.
  - rewrite !between_true by zlia. rewrite land_3F, land_1F, shift6_lor by zlia. f_equal. zlia.
  - rewrite (between_false 0xC2) by zlia. rewrite (between_true 0xE0) by zlia.
    rewrite (between_true _ (0x80 + r / 64 mod 64)); cycle 1.
    { destruct (Z.eqb_spec (0xE0 + r / 4096) 0xE0), (Z.eqb_spec (0xE0 + r / 4096) 0xED); zlia. }
    rewrite between_true by zlia. cbn [andb].
    rewrite !land_3F, land_0x0F, !shift6_lor by zlia. f_equal. zlia.
  - rewrite (between_false 0xC2), (between_false 0xE0), (between_true 0xF0) by zlia.
    rewrite (between_true _ (0x80 + r / 4096 mod 64)); cycle 1.
    { destruct (Z.eqb_spec (0xF0 + r / 262144) 0xF0), (Z.eqb_spec (0xF0 + r / 262144) 0xF4); zlia. }
    rewrite !between_true by zlia. cbn [andb].
    rewrite !land_3F, land_07, !shift6_lor by zlia. f_equal. zlia.
Qed.

(** ** Lemmas: runes of a string *)

Lemma decode_width s : s ≠ [] → (1 <= (decode_rune s).2)%nat.
Proof.
  intros Hs. destruct s as [|b0 s]; [done|]. cbn [decode_rune].
  destruct (b0 <? 0x80); [cbn; lia|].
  destruct (between 0xC2 b0 0xDF); [destruct s; [cbn; lia|]; destruct (between _ _ _); cbn; lia|].
  destruct (between 0xE0 b0 0xEF); [destruct s as [|? [|? ?]]; try (cbn; lia); destruct (_ && _); cbn; lia|].
  destruct (between 0xF0 b0 0xF4); [|cbn; lia].
  destruct s as [|? [|? [|? ?]]]; try (cbn; lia). destruct (_ && _); cbn; lia.
Qed.

Lemma runes_loop_fuel f g s : (length s <= f)%nat → (length s <= g)%nat → runes_loop f s = runes_loop g s.
Proof.
  revert g s. induction f as [|f IH]; intros g s Hf Hg.
  { destruct s; [by destruct g|cbn in Hf; lia]. }
  destruct s as [|b s]; [by destruct g|]. destruct g as [|g]; [cbn in Hg; lia|].
  cbn [runes_loop]. pose proof (decode_width (b :: s) ltac:(done)) as Hw.
  destruct (decode_rune (b :: s)) as [r k]. cbn [snd] in Hw. f_equal.
  apply IH; rewrite length_drop; cbn [length] in *; lia.
Qed.

Lemma runes_step s r k : s ≠ [] → decode_rune s = (r, k) → runes s = r :: runes (drop k s).
Proof.
  intros Hs Hd. unfold runes. destruct s as [|b s]; [done|]. cbn [length runes_loop]. rewrite Hd. f_equal.
  pose proof (decode_width (b :: s) Hs) as Hw. rewrite Hd in Hw. cbn [snd] in Hw.
  apply runes_loop_fuel; rewrite length_drop; cbn [length]; lia.
Qed.

(** Induction on the decoding of a string. *)
Lemma runes_ind (P : bytes → Prop) :
  P [] →
  (∀ s r k, bytes_ok s → s ≠ [] → decode_rune s = (r, k) → (1 <= k)%nat → P (drop k s) → P s) →
  ∀ s, bytes_ok s → P s.
Proof.
  intros H0 Hstep s. remember (length s) as n eqn:Hn. revert s Hn.
  induction n as [n IH] using lt_wf_ind. intros s -> Hb. destruct (decide (s = [])) as [->|Hs]; [done|].
  pose proof (decode_width s Hs) as Hw. destruct (decode_rune s) as [r k] eqn:Hd. cbn [snd] in Hw.
  apply (Hstep s r k); [done..|]. eapply IH; [|done|by apply Forall_drop].
  rewrite length_drop. destruct s; [done|cbn; lia].
Qed.

Lemma runes_valid s : bytes_ok s → Forall valid_rune (runes s).
Proof.
  induction 1 as [|s r k Hb Hs Hd Hk IH] using runes_ind; [constructor|].
  rewrite (runes_step s r k Hs Hd). constructor; [by eapply decode_rune_valid|done].
Qed.

Lemma glen_runes s : bytes_ok s → glen (runes s) <= glen s.
Proof.
  induction 1 as [|s r k Hb Hs Hd Hk IH] using runes_ind; [done|].
  rewrite (runes_step s r k Hs Hd). destruct s as [|b s]; [done|]. destruct k as [|k]; [lia|].
  cbn [drop] in *. unfold glen in *. rewrite length_drop in IH. cbn [length]. lia.
Qed.

Lemma runes_encode rs t : Forall valid_rune rs → runes (runes_bytes rs ++ t) = rs ++ runes t.
Proof.
  induction 1 as [|r rs Hr _ IH]; [done|]. unfold runes_bytes. cbn [fmap list_fmap concat]. fold (runes_bytes rs).
  rewrite <-app_assoc, (runes_step _ r (length (encode_rune r))).
  - by rewrite drop_app_length, IH.
  - rewrite (encode_rune_eq r Hr). by repeat destruct (_ <? _).
  - by apply decode_encode.
Qed.

Lemma runes_ellipsis : runes ellipsis = ellipsis.
Proof. reflexivity. Qed.

Lemma runes_bytes_app a b : runes_bytes (a ++ b) = runes_bytes a ++ runes_bytes b.
Proof. unfold runes_bytes. by rewrite fmap_app, concat_app. Qed.

(** ** Properties *)

Lemma truncate_ok s n :
  bytes_ok s → 3 <= n →
  ∃ out, truncate s n = Ret out ∧ glen (runes out) <= n ∧
    (glen (runes s) <= n → out = s) ∧
    (n < glen (runes s) → out = runes_bytes (take (Z.to_nat (n - 3)) (runes s)) ++ ellipsis ∧
       runes out = take (Z.to_nat (n - 3)) (runes s) ++ ellipsis).
Proof.
  intros Hb Hn. unfold truncate. pose proof (glen_runes s Hb).
  destruct (Z.leb_spec (glen s) n); [exists s; split_and!; [done|lia|done|lia]|].
  destruct (Z.leb_spec (glen (runes s)) n); [exists s; split_and!; [done|lia|done|lia]|].
  rewrite slice_ok by lia. cbn [go_bind]. eexists. split; [done|].
  replace (sub (runes s) 0 (n - 3)) with (take (Z.to_nat (n - 3)) (runes s))
    by (unfold sub; by rewrite Z.sub_0_r).
  assert (Hv : Forall valid_rune (take (Z.to_nat (n - 3)) (runes s))) by by apply Forall_take, runes_valid.
  rewrite (runes_encode _ _ Hv), runes_ellipsis. split_and!; [|lia|done].
  rewrite glen_app. unfold glen at 1. rewrite length_take. unfold glen in *. cbn [ellipsis length]. lia.
Qed.

(** A control character below 0x80 appears in the cut line only if it was in
    the line. *)
Lemma truncate_lacks c s n t :
  0 <= c < 0x80 → c ≠ 46 → bytes_ok s → Forall (.≠ c) s → truncate s n = Ret t → Forall (.≠ c) t.
Proof.
  intros Hc Hdot Hb Hs.
  assert (Hr : Forall (fun r => valid_rune r ∧ r ≠ c) (runes s)).
  { revert Hs. induction Hb as [|s r k Hb Hne Hd Hk IH] using runes_ind; intros Hs; [constructor|].
    rewrite (runes_step s r k Hne Hd). constructor; [|by apply IH, Forall_drop].
    split; [by eapply decode_rune_valid|]. destruct s as [|b0 s]; [done|]. apply Forall_cons in Hs as [H0 _].
    destruct (Z.ltb_spec b0 0x80).
    - cbn [decode_rune] in Hd. revert Hd. guard_true (b0 <? 0x80). by intros [= <- <-].
    - pose proof (decode_rune_high b0 s r k Hb ltac:(lia) Hd). lia. }
  unfold truncate. destruct (glen s <=? n); [by intros [= <-]|].
  destruct (glen (runes s) <=? n); [by intros [= <-]|]. unfold slice.
  destruct (_ && _); cbn [go_bind]; [|discriminate]. intros [= <-]. apply Forall_app. split.
  2:{ unfold ellipsis. repeat (constructor; [lia|]). constructor. }
  unfold runes_bytes, sub. apply Forall_concat, Forall_fmap, Forall_take, Forall_drop.
  eapply Forall_impl; [exact Hr|]. intros r [Hv Hrc]. cbn. rewrite (encode_rune_eq r Hv).
  assert (0 <= r) by (unfold valid_rune in Hv; lia).
  destruct (Z.ltb_spec r 0x80); [repeat constructor; done|].
  destruct (Z.ltb_spec r 0x800); [|destruct (Z.ltb_spec r 0x10000)];
    repeat (constructor; [zlia|]); constructor.
Qed.

(** Cutting a log line to the screen.  [truncate] never panics for widths
    from three on; the result has at most that many runes, whatever bytes the
    line holds; a line that fits is unchanged, and a longer one keeps exactly
    its first [n - 3] runes and ends in three dots; of a well-formed UTF-8
    line it keeps a prefix, so no character is cut in two. *)
Theorem truncate_spec s n :
  bytes_ok s → 3 <= n →
  ∃ out, truncate s n = Ret out ∧ glen (runes out) <= n ∧
    (glen (runes s) <= n → out = s) ∧
    (n < glen (runes s) → runes out = take (Z.to_nat (n - 3)) (runes s) ++ ellipsis) ∧
    (n < glen (runes s) → runes_bytes (runes s) = s → ∃ p rest, s = p ++ rest ∧ out = p ++ ellipsis).
Proof.
  intros Hb Hn. destruct (truncate_ok s n Hb Hn) as (out & Ho & Hl & H1 & H2).
  exists out. split_and!; [done..| |].
  - intros Hlt. by apply H2.
  - intros Hlt Hw. destruct (H2 Hlt) as [-> _].
    exists (runes_bytes (take (Z.to_nat (n - 3)) (runes s))), (runes_bytes (drop (Z.to_nat (n - 3)) (runes s))).
    by rewrite <-runes_bytes_app, take_drop.
Qed.

Lemma split_lines_Forall (P : Z → Prop) s : ∀ cur,
  Forall P cur → Forall P s → Forall (Forall P) (split_lines cur s).1.
Proof.
  induction s as [|c s IH]; intros cur Hc Hs; cbn [split_lines]; [constructor|].
  apply Forall_cons in Hs as [Hb Hs]. destruct (c =? newline).
  - specialize (IH [] ltac:(constructor) Hs). destruct (split_lines [] s). by constructor.
  - apply IH; [|done]. apply Forall_app. split; [done|by constructor].
Qed.

Lemma log_lines_Forall (P : Z → Prop) n s : Forall P s → Forall (Forall P) (log_lines n s).
Proof.
  intros Hs. unfold log_lines, newest. apply Forall_drop, Forall_forall.
  intros x [_ Hx]%list_elem_of_filter. revert x Hx. apply Forall_forall.
  apply split_lines_Forall; [constructor|done].
Qed.

Lemma log_rows_ok logs :
  Forall bytes_ok logs →
  ∃ cut, log_rows logs = Ret (concat ((fun t => row ([32; 32] ++ t)) <$> cut)) ∧
    Forall2 (fun l t => truncate l 76 = Ret t ∧ glen (runes t) <= 76) logs cut.
Proof.
  induction 1 as [|l logs Hl _ (cut & Hc & Hf)]; [by exists []|].
  destruct (truncate_ok l 76 Hl ltac:(lia)) as (t & Ht & Hg & _).
  exists (t :: cut). cbn [log_rows]. rewrite Ht. cbn [go_bind]. rewrite Hc. cbn [go_bind].
  split; [done|by constructor].
Qed.

(** The console shows the end of the log.  After any sequence of log
    writes, however the output was cut into writes, drawing succeeds and the
    frame is the four head rows and one row for each of the newest eight
    non-empty lines of the log, oldest first, each at most 76 runes wide. *)
Theorem screen_shows_log version uptime st set t (ws : list bytes) :
  Forall bytes_ok ws →
  ∃ cut,
    Draw version uptime st set (Lines 8 (writes ws (NewRingBuffer 200 t))) =
    Ret (clear_home ++ concat (row ∘ StringBytes <$> draw_rows version uptime st set) ++
         concat ((fun t => row ([32; 32] ++ t)) <$> cut) ++ clear_below ++ show_cursor) ∧
    Forall2 (fun l t => truncate l 76 = Ret t ∧ glen (runes t) <= 76) (log_lines 8 (concat ws)) cut.
Proof.
  intros Hw. rewrite Lines_newest. change (if 8 <=? 0 then _ else Z.min 8 (effective 200)) with 8.
  destruct (log_rows_ok (log_lines 8 (concat ws))) as (cut & Hc & Hf).
  { apply (log_lines_Forall is_byte), Forall_concat. done. }
  exists cut. split; [|done]. unfold Draw. by rewrite Hc.
Qed.

(** ** Concrete inputs *)

(** Six letters of two bytes each, cut to five runes. *)
Lemma truncate_spec_witness :
  let s := [0xC3; 0xA9; 0xC3; 0xA9; 0xC3; 0xA9; 0xC3; 0xA9; 0xC3; 0xA9; 0xC3; 0xA9] in
  truncate s 5 = Ret [0xC3; 0xA9; 0xC3; 0xA9; 46; 46; 46] ∧
  ∃ out, truncate s 5 = Ret out ∧ glen (runes out) <= 5.
Proof.
  intros s. split; [vm_compute; reflexivity|].
  destruct (truncate_spec s 5) as (out & Ho & Hl & _).
  - repeat (apply Forall_cons_2; [unfold is_byte; lia|]). constructor.
  - lia.
  - by exists out.
Defined.

Lemma screen_shows_log_witness :
  let ws := [[97; 10; 98]; [99; 10]] in
  let st := mkPrpdStats "prp-san" "n1" 1 0 "" 0 0 0 0 0 0 0 0 ∅ in
  let set := mkSettings "" true "off" "64s" "64s" "640ms" false "none" "none" false in
  ∃ cut,
    Draw "v1" "1s" st set (Lines 8 (writes ws (NewRingBuffer 200 true))) =
    Ret (clear_home ++ concat (row ∘ StringBytes <$> draw_rows "v1" "1s" st set) ++
         concat ((fun t => row ([32; 32] ++ t)) <$> cut) ++ clear_below ++ show_cursor) ∧
    Forall2 (fun l t => truncate l 76 = Ret t ∧ glen (runes t) <= 76) [[97]; [98; 99]] cut.
Proof.
  intros ws st set. apply (screen_shows_log "v1" "1s" st set true ws).
  repeat (apply Forall_cons_2; [repeat (apply Forall_cons_2; [unfold is_byte; lia|]); constructor|]). constructor.
Defined.
