(* ===== verification/Console.v ===== *)
(** * Console: the display session of the daemon

    Models how [src/cmd/prpd/main.go] presents the node: the goroutine that
    runs [runTUILoop], or the plain status ticker, next to the running daemon
    of [Runtime], and the end of [main]; with [StartPrpd] and [StopPrpd] of
    [src/internal/tui/prpd.go].  Every write to standard output is one step,
    so that the end of the process can fall between two of them.  A small
    terminal says what the written bytes do. *)

From S2P Require Import Prelude Ber NodeTable Role Node Dispatch Runtime RingBuf ConfigLoad Tui Screen.

(** ** The terminal

    What a terminal does with the control sequences the program uses:
    [ESC \[ ? 1049 h] and [l] enter and leave the alternate screen,
    [ESC \[ ? 25 h] and [l] show and hide the cursor. *)

Inductive tmode := Ground | Escape | Csi (params : bytes).

Record terminal := mkTerm { t_mode : tmode; t_alt : bool; t_cursor : bool }.

Definition power_on : terminal := mkTerm Ground false true.

(** The end of a control sequence. *)
Definition control (params : bytes) (b : Z) (t : terminal) : terminal :=
  if bool_decide (params = [63; 49; 48; 52; 57]) && (b =? 104) then mkTerm Ground true (t_cursor t)
  else if bool_decide (params = [63; 49; 48; 52; 57]) && (b =? 108) then mkTerm Ground false (t_cursor t)
  else if bool_decide (params = [63; 50; 53]) && (b =? 104) then mkTerm Ground (t_alt t) true
  else if bool_decide (params = [63; 50; 53]) && (b =? 108) then mkTerm Ground (t_alt t) false
  else mkTerm Ground (t_alt t) (t_cursor t).

Definition term_byte (t : terminal) (b : Z) : terminal :=
  match t_mode t with
  | Ground => if b =? 27 then mkTerm Escape (t_alt t) (t_cursor t) else t
  | Escape => mkTerm (if b =? 91 then Csi [] else Ground) (t_alt t) (t_cursor t)
  | Csi ps => if between 0x40 b 0x7E then control ps b t else mkTerm (Csi (ps ++ [b])) (t_alt t) (t_cursor t)
  end.

Definition term (t : terminal) (out : bytes) : terminal := foldl term_byte t out.

(** ** The program's writes *)

Definition alt_on : bytes := [27; 91; 63; 49; 48; 52; 57; 104].
Definition alt_off : bytes := [27; 91; 63; 49; 48; 52; 57; 108].
Definition hide_cursor : bytes := [27; 91; 63; 50; 53; 108].

(** [StartPrpd], [StopPrpd]: one write per [Fprint] *)
Definition StartPrpd : list bytes := [alt_on; hide_cursor; clear_home].
Definition StopPrpd : list bytes := [show_cursor; alt_off].

Definition shutting_down : bytes := StringBytes "prpd: shutting down" ++ [10].

(** ** The display goroutine and [main]

    [Starting] and [Restoring] hold the writes still to be made; between
    [Snapshot] and the write of the frame the goroutine holds the statistics. *)
Inductive painter :=
| Starting (k : list bytes)
| Sampling
| Painting (st : PrpdStats)
| Waiting
| Restoring (k : list bytes)
| Gone
| Plain.

(** [main] after the goroutines are started. *)
Inductive main_pc := AwaitSignal | Announcing | Stopping | Closing | Returned.

(** A write to standard output, by the display or by [main]. *)
Inductive emission := Shown (w : bytes) | Said (w : bytes).

Definition emitted (e : emission) : bytes := match e with Shown w | Said w => w end.
Definition shown_of (e : emission) : option bytes := match e with Shown w => Some w | Said _ => None end.

Record desk := mkDesk {
  dk_sys : System;
  dk_log : list bytes;        (** what was written to the log so far *)
  dk_ring : RingBuffer;
  dk_painter : painter;
  dk_main : main_pc;
  dk_out : list emission;
}.

(** The bytes on standard output, and the writes of the display alone. *)
Definition stdout (d : desk) : bytes := concat (emitted <$> dk_out d).
Definition displayed (d : desk) : list bytes := omap shown_of (dk_out d).

Definition with_painter (p : painter) (d : desk) : desk :=
  mkDesk (dk_sys d) (dk_log d) (dk_ring d) p (dk_main d) (dk_out d).
Definition with_main (m : main_pc) (d : desk) : desk :=
  mkDesk (dk_sys d) (dk_log d) (dk_ring d) (dk_painter d) m (dk_out d).
Definition with_sys (s : System) (d : desk) : desk :=
  mkDesk s (dk_log d) (dk_ring d) (dk_painter d) (dk_main d) (dk_out d).
Definition emit (e : emission) (d : desk) : desk :=
  mkDesk (dk_sys d) (dk_log d) (dk_ring d) (dk_painter d) (dk_main d) (dk_out d ++ [e]).
Definition logged (w : bytes) (d : desk) : desk :=
  mkDesk (dk_sys d) (dk_log d ++ [w]) (RingBuf.Write w (dk_ring d)).2 (dk_painter d) (dk_main d) (dk_out d).

(** The character that starts a control sequence. *)
Definition ESC : ascii := "027".

Section desk.
Context {MR : MapRange} {E : Env} {H : Host}.
Context (wire : port → bytes → Prop) (cfg : FileConfig) (version : string).

(** The process runs: no goroutine panicked and [main] has not returned. *)
Definition running (d : desk) : Prop := s_crashed (dk_sys d) = false ∧ dk_main d ≠ Returned.

Inductive desk_step (d : desk) : desk → Prop :=
| desk_sys s :
    running d → sys_step wire (dk_sys d) s → s_stopped s = s_stopped (dk_sys d) → desk_step d (with_sys s d)
| desk_logged w : running d → bytes_ok w → desk_step d (logged w d)
(* [runTUILoop] *)
| desk_start w k :
    running d → dk_painter d = Starting (w :: k) → desk_step d (emit (Shown w) (with_painter (Starting k) d))
| desk_started : running d → dk_painter d = Starting [] → desk_step d (with_painter Sampling d)
| desk_sample :
    running d → dk_painter d = Sampling →
    desk_step d (with_painter (Painting (tui_stats cfg (s_node (dk_sys d)))) d)
| desk_paint st uptime frame :
    running d → dk_painter d = Painting st → lacks ESC uptime →
    Draw version uptime st (tui_settings cfg) (Lines 8 (dk_ring d)) = Ret frame →
    desk_step d (emit (Shown frame) (with_painter Waiting d))
| desk_paint_panic st uptime :
    running d → dk_painter d = Painting st →
    Draw version uptime st (tui_settings cfg) (Lines 8 (dk_ring d)) = Panic →
    desk_step d (with_sys (crash (dk_sys d)) d)
| desk_tick : running d → dk_painter d = Waiting → desk_step d (with_painter Sampling d)
| desk_stop_seen :
    running d → dk_painter d = Waiting → s_stopped (dk_sys d) = true →
    desk_step d (with_painter (Restoring StopPrpd) d)
| desk_restore w k :
    running d → dk_painter d = Restoring (w :: k) → desk_step d (emit (Shown w) (with_painter (Restoring k) d))
| desk_restored : running d → dk_painter d = Restoring [] → desk_step d (with_painter Gone d)
(* the plain status ticker *)
| desk_status :
    running d → dk_painter d = Plain →
    desk_step d (emit (Shown (StringBytes (status_line (Snapshot (s_node (dk_sys d)))) ++ [10])) d)
| desk_plain_stop :
    running d → dk_painter d = Plain → s_stopped (dk_sys d) = true → desk_step d (with_painter Gone d)
(* [main] *)
| desk_signal : running d → dk_main d = AwaitSignal → desk_step d (with_main Announcing d)
| desk_announce :
    running d → dk_main d = Announcing → desk_step d (emit (Said shutting_down) (with_main Stopping d))
| desk_stop :
    running d → dk_main d = Stopping → desk_step d (with_sys (Stop (dk_sys d)) (with_main Closing d))
| desk_return : running d → dk_main d = Closing → desk_step d (with_main Returned d).

(** The state when [main] has started its goroutines. *)
Definition desk_boot (fullscreen : bool) (n : Node) : desk :=
  mkDesk (boot n) [] (NewRingBuffer 200 true) (if fullscreen then Starting StartPrpd else Plain) AwaitSignal [].
End desk.

(** ** What the terminal shows *)

Lemma term_app t a b : term t (a ++ b) = term (term t a) b.
Proof. apply foldl_app. Qed.

Lemma term_text t b : t_mode t = Ground → Forall (.≠ 27) b → term t b = t.
Proof.
  intros Hm. induction 1 as [|c b Hc _ IH]; [done|]. unfold term in *. cbn [foldl].
  assert (term_byte t c = t) as ->; [|done]. unfold term_byte. rewrite Hm. by rewrite (proj2 (Z.eqb_neq c 27) Hc).
Qed.

Lemma term_clear a c : term (mkTerm Ground a c) clear_home = mkTerm Ground a c.
Proof. reflexivity. Qed.

Lemma term_frame a c body :
  Forall (.≠ 27) body →
  term (mkTerm Ground a c) (clear_home ++ body ++ clear_below ++ show_cursor) = mkTerm Ground a true.
Proof. intros Hb. rewrite term_app, term_clear, term_app, (term_text _ body) by done. reflexivity. Qed.

Lemma StringBytes_lacks c s : lacks c s → Forall (.≠ Z.of_nat (nat_of_ascii c)) (StringBytes s).
Proof.
  induction s as [|c' s IH]; cbn [StringBytes]; [constructor|]. intros [Hne Hs]. constructor; [|by apply IH].
  intros He. apply Hne. by rewrite <-(ascii_nat_embedding c'), <-(ascii_nat_embedding c), (Nat2Z.inj _ _ He).
Qed.

Lemma row_text s : lacks ESC s → Forall (.≠ 27) (row (StringBytes s)).
Proof.
  intros Hs. unfold row. apply Forall_app. split; [exact (StringBytes_lacks ESC s Hs)|].
  repeat (constructor; [lia|]). constructor.
Qed.

(** ** Texts without control sequences *)

(** The texts of the configuration that the display shows. *)
Definition config_texts (c : FileConfig) : list string :=
  [Node_Name c; Node_Role c; If_LanA c; If_LanB c; If_Interlink c; HSR_LanID c; Sup_LifeCheckInterval c;
   Sup_NodeForgetTime c; Sup_ProxyNodeForgetTime c; DD_EntryForgetTime c; MC_FirstOctet c].

Definition plain_config (c : FileConfig) : Prop := Forall (lacks ESC) (config_texts c).

Lemma pretty_plain (z : Z) : lacks ESC (pretty z).
Proof. by apply pretty_Z_lacks. Qed.

Ltac plain_literal := solve [repeat split; discriminate].

Lemma bool_plain b : lacks ESC (bool_text b).
Proof. destruct b; plain_literal. Qed.

#[local] Hint Resolve pretty_plain bool_plain : plain_db.

(** A text composed of literals, numbers and texts known to be plain. *)
Ltac plain :=
  repeat match goal with |- lacks ESC (_ +:+ _)%string => apply lacks_app; split end;
  first [assumption | solve [auto with plain_db] | plain_literal].

Lemma formatDrops_plain drops : lacks ESC (formatDrops drops).
Proof.
  unfold formatDrops. destruct (_ =? 0); [plain|]. cbv zeta. destruct (_ =? 0); [plain|].
  apply lacks_Join; [plain|]. unfold drop_parts. apply Forall_forall. intros x Hx.
  apply list_elem_of_omap in Hx as (k & Hk & Hv).
  assert (Hkeys : Forall (lacks ESC) drop_keys) by (repeat apply Forall_cons_2; [plain_literal..|constructor]).
  rewrite Forall_forall in Hkeys. pose proof (Hkeys k Hk) as Hkp.
  destruct (drops !! k) as [v|]; [|done]. destruct (v >? 0); [|done]. injection Hv as <-. plain.
Qed.

#[local] Hint Resolve formatDrops_plain : plain_db.

Section texts.
Context {H : Host} (cfg : FileConfig) (Hcfg : plain_config cfg).

Lemma config_plain s : s ∈ config_texts cfg → lacks ESC s.
Proof. intros Hs. revert s Hs. by apply Forall_forall. Qed.

Ltac of_config := apply config_plain; unfold config_texts; rewrite !elem_of_cons; tauto.

Lemma shown_plain s dflt : lacks ESC s → lacks ESC dflt → lacks ESC (shown s dflt).
Proof. intros ??. unfold shown. by destruct (String.eqb _ _). Qed.

Lemma settings_plain :
  let set := tui_settings cfg in
  lacks ESC (ps_Interfaces set) ∧ lacks ESC (ps_Supervision set) ∧ lacks ESC (ps_NodeForget set) ∧
  lacks ESC (ps_ProxyForget set) ∧ lacks ESC (ps_EntryForget set) ∧ lacks ESC (ps_VLANFilter set) ∧
  lacks ESC (ps_Multicast set).
Proof.
  cbn [tui_settings ps_Interfaces ps_Supervision ps_NodeForget ps_ProxyForget ps_EntryForget ps_VLANFilter ps_Multicast].
  assert (Ha : lacks ESC (If_LanA cfg)) by of_config. assert (Hb : lacks ESC (If_LanB cfg)) by of_config.
  assert (Hi : lacks ESC (If_Interlink cfg)) by of_config.
  assert (Hl : lacks ESC (Sup_LifeCheckInterval cfg)) by of_config.
  assert (Hm : lacks ESC (MC_FirstOctet cfg)) by of_config.
  split_and!.
  - plain.
  - destruct (Sup_Enabled cfg); [|plain]. cbv zeta. destruct (String.eqb _ _); plain.
  - apply shown_plain; [of_config|plain].
  - apply shown_plain; [of_config|plain].
  - apply shown_plain; [of_config|plain].
  - destruct (_ >? 0); [|plain]. apply lacks_Join; [plain|]. apply Forall_fmap, Forall_true. intros v. cbn. plain.
  - destruct (negb _); plain.
Qed.

(** The head rows of a frame. *)
Lemma draw_rows_plain version uptime n :
  n_Config n = prp_config cfg → lacks ESC version → lacks ESC uptime →
  Forall (lacks ESC) (draw_rows version uptime (tui_stats cfg n) (tui_settings cfg)).
Proof.
  intros Hn Hv Hu. destruct settings_plain as (H1 & H2 & H3 & H4 & H5 & H6 & H7).
  assert (Hname : lacks ESC (ps_Name (tui_stats cfg n))) by (cbn [tui_stats ps_Name]; of_config).
  assert (Hrole : lacks ESC (ps_Role (tui_stats cfg n))).
  { cbn [tui_stats ps_Role Snapshot st_Role]. rewrite Hn. cbn [prp_config c_Role]. of_config. }
  assert (Hlan : lacks ESC (ps_LanID (tui_stats cfg n))).
  { cbn [tui_stats ps_LanID Snapshot st_LanID]. rewrite Hn. cbn [prp_config c_LanID]. of_config. }
  unfold draw_rows. repeat apply Forall_cons_2; [..|constructor].
  - destruct (String.eqb _ _); plain.
  - plain.
  - plain.
  - plain.
Qed.

Lemma status_plain n : n_Config n = prp_config cfg → lacks ESC (status_line (Snapshot n)).
Proof.
  intros Hn.
  assert (Hrole : lacks ESC (st_Role (Snapshot n))).
  { cbn [Snapshot st_Role]. rewrite Hn. cbn [prp_config c_Role]. of_config. }
  assert (Hlan : lacks ESC (st_LanID (Snapshot n))).
  { cbn [Snapshot st_LanID]. rewrite Hn. cbn [prp_config c_LanID]. of_config. }
  unfold status_line. destruct (String.eqb _ _); plain.
Qed.
End texts.

(** ** What is displayed *)

Section session.
Context {MR : MapRange} {E : Env} {H : Host}.
Context (wire : port → bytes → Prop) (cfg : FileConfig) (version : string).
Context (n : Node) (Hok : node_ok n) (Hn : n_Config n = prp_config cfg).

Lemma sys_step_Config s s' : sys_ok wire s → sys_step wire s s' → n_Config (s_node s') = n_Config (s_node s).
Proof.
  intros [Hs _ Hf] Hst.
  destruct Hst as [s p|s p|s p f|s now [p f] q n' ? ? Hq Hh| | |s now|s n' ? Hh| |s]; try done; cbn [s_node with_node].
  - rewrite Hq in Hf. apply Forall_cons in Hf as [(Hb & _) _]. cbn [ev_frame] in Hb.
    destruct (out_of_range p f (s_node s)) eqn:Er; [by rewrite handleFrame_panic in Hh|].
    rewrite handleFrame_eq in Hh by (done || apply Hs). injection Hh as <-. apply static_Config, static_frame_step.
  - by apply static_Config, periodicCleanup_fields.
  - destruct (SendSupervisionFrame_eq (s_node s)) as (n1 & H1 & _ & _ & Hst & _); [apply Hs|].
    rewrite Hh in H1. injection H1 as ->. by apply static_Config.
  - unfold Stop. by destruct (s_stopped s).
Qed.

Lemma reachable_Config s : reachable wire n s → n_Config (s_node s) = prp_config cfg.
Proof.
  unfold reachable. rewrite <-Hn. revert s. apply rtc_ind_r; [done|]. intros s s' Hr Hs IH.
  rewrite <-IH. eapply sys_step_Config; [by eapply reachable_ok|done].
Qed.

(** A frame that shows a state the daemon reached and the end of the log as
    it then was. *)
Definition frame_shown (log : list bytes) (f : bytes) : Prop :=
  ∃ s ws uptime cut,
    reachable wire n s ∧ ws `prefix_of` log ∧ lacks ESC uptime ∧
    f = clear_home ++ (concat (row ∘ StringBytes <$> draw_rows version uptime (tui_stats cfg (s_node s)) (tui_settings cfg)) ++
                       concat ((fun t => row ([32; 32] ++ t)) <$> cut)) ++ clear_below ++ show_cursor ∧
    Forall2 (fun l t => truncate l 76 = Ret t ∧ glen (runes t) <= 76) (log_lines 8 (concat ws)) cut.

(** A status line of a state the daemon reached. *)
Definition status_shown (f : bytes) : Prop :=
  ∃ s, reachable wire n s ∧ f = StringBytes (status_line (Snapshot (s_node s))) ++ [10].

(** What the display has written when it is at [p]. *)
Definition session (fullscreen : bool) (log w : list bytes) (p : painter) : Prop :=
  match p with
  | Starting k => fullscreen = true ∧ w ++ k = StartPrpd
  | Sampling | Painting _ | Waiting =>
      fullscreen = true ∧ ∃ fs, w = StartPrpd ++ fs ∧ Forall (frame_shown log) fs
  | Restoring k =>
      fullscreen = true ∧ ∃ fs w', w = StartPrpd ++ fs ++ w' ∧ w' ++ k = StopPrpd ∧ Forall (frame_shown log) fs
  | Gone =>
      if fullscreen then ∃ fs, w = StartPrpd ++ fs ++ StopPrpd ∧ Forall (frame_shown log) fs
      else Forall status_shown w
  | Plain => fullscreen = false ∧ Forall status_shown w
  end.

Lemma frame_shown_mono log log' f : log `prefix_of` log' → frame_shown log f → frame_shown log' f.
Proof.
  intros Hl (s & ws & u & cut & ? & Hp & ?). exists s, ws, u, cut. split_and!; try naive_solver.
  by etrans.
Qed.

Lemma session_mono b log log' w p : log `prefix_of` log' → session b log w p → session b log' w p.
Proof.
  intros Hl. assert (Hm : ∀ fs, Forall (frame_shown log) fs → Forall (frame_shown log') fs).
  { intros fs Hf. eapply Forall_impl; [exact Hf|]. intros f. by apply frame_shown_mono. }
  destruct p; cbn [session]; try done.
  - intros (? & fs & ? & ?). eauto.
  - intros (? & fs & ? & ?). eauto.
  - intros (? & fs & ? & ?). eauto.
  - intros (? & fs & w' & ? & ? & ?). split; [done|]. exists fs, w'. auto.
  - destruct b; [|done]. intros (fs & ? & ?). eauto.
Qed.

(** Whether the display is on the alternate screen. *)
Definition alternate (p : painter) : bool :=
  match p with
  | Starting k => negb (bool_decide (k = StartPrpd))
  | Sampling | Painting _ | Waiting => true
  | Restoring k => negb (bool_decide (k = []))
  | Gone | Plain => false
  end.

(** The terminal when the display is at [p]. *)
Definition term_at (p : painter) (t : terminal) : Prop :=
  match p with
  | Starting k => ∃ w, w ++ k = StartPrpd ∧ t = term power_on (concat w)
  | Sampling | Painting _ | Waiting => ∃ c, t = mkTerm Ground true c
  | Restoring k => ∃ w c, w ++ k = StopPrpd ∧ t = term (mkTerm Ground true c) (concat w)
  | Gone | Plain => t = power_on
  end.

Lemma term_at_ground p t : term_at p t → t_mode t = Ground ∧ t_alt t = alternate p ∧ (p = Gone → t_cursor t = true).
Proof.
  destruct p as [k| |st| |k| |]; cbn [term_at alternate].
  - intros (w & Hw & ->). unfold StartPrpd in Hw.
    destruct w as [|? [|? [|? [|? w]]]]; cbn [app] in Hw; simplify_eq; split_and!; done.
  - by intros (c & ->).
  - by intros (c & ->).
  - by intros (c & ->).
  - intros (w & c & Hw & ->). unfold StopPrpd in Hw.
    destruct w as [|? [|? [|? w]]]; cbn [app] in Hw; simplify_eq; split_and!; done.
  - by intros ->.
  - by intros ->.
Qed.
(** *** The invariant *)

Context (Hver : lacks ESC version) (Hcfg : plain_config cfg).

Record desk_ok (fullscreen : bool) (d : desk) : Prop := {
  do_reach : reachable wire n (dk_sys d);
  do_log : Forall bytes_ok (dk_log d);
  do_ring : dk_ring d = writes (dk_log d) (NewRingBuffer 200 true);
  do_stats : ∀ st, dk_painter d = Painting st → ∃ s, reachable wire n s ∧ st = tui_stats cfg (s_node s);
  do_shape : session fullscreen (dk_log d) (displayed d) (dk_painter d);
  do_term : Forall (Forall (.≠ 27)) (dk_log d) → term_at (dk_painter d) (term power_on (stdout d));
  do_main : match dk_main d with AwaitSignal | Announcing | Stopping => s_stopped (dk_sys d) = false
                            | Closing | Returned => s_stopped (dk_sys d) = true end;
  do_end : match dk_painter d with Restoring _ | Gone => s_stopped (dk_sys d) = true | _ => True end;
}.

Lemma desk_boot_ok fullscreen : desk_ok fullscreen (desk_boot fullscreen n).
Proof.
  destruct fullscreen; (split; [apply rtc_refl|constructor|done|done| | |done|done]); cbn.
  - done.
  - intros _. by exists [].
  - by split; [|constructor].
  - done.
Qed.

Lemma displayed_emit w d : displayed (emit (Shown w) d) = displayed d ++ [w].
Proof. unfold displayed, emit. cbn [dk_out]. by rewrite omap_app. Qed.

Lemma displayed_said w d : displayed (emit (Said w) d) = displayed d.
Proof. unfold displayed, emit. cbn [dk_out]. rewrite omap_app. apply app_nil_r. Qed.

Lemma stdout_emit e d : stdout (emit e d) = stdout d ++ emitted e.
Proof. unfold stdout, emit. cbn [dk_out]. rewrite fmap_app, concat_app. cbn. by rewrite app_nil_r. Qed.

(** The frame drawn from what the goroutine sampled. *)
Lemma painted fullscreen d st uptime frame :
  desk_ok fullscreen d → dk_painter d = Painting st → lacks ESC uptime →
  Draw version uptime st (tui_settings cfg) (Lines 8 (dk_ring d)) = Ret frame →
  frame_shown (dk_log d) frame ∧
  (Forall (Forall (.≠ 27)) (dk_log d) → ∀ c, term (mkTerm Ground true c) frame = mkTerm Ground true true).
Proof.
  intros Hd Hp Hu Hf. destruct (do_stats _ _ Hd st Hp) as (s & Hs & ->). rewrite (do_ring _ _ Hd) in Hf.
  destruct (screen_shows_log version uptime (tui_stats cfg (s_node s)) (tui_settings cfg) true (dk_log d) (do_log _ _ Hd))
    as (cut & Hdraw & Hcut).
  assert (Hfr : frame = clear_home ++
    (concat (row ∘ StringBytes <$> draw_rows version uptime (tui_stats cfg (s_node s)) (tui_settings cfg)) ++
     concat ((fun t => row ([32; 32] ++ t)) <$> cut)) ++ clear_below ++ show_cursor).
  { rewrite <-(app_assoc (concat _)). congruence. }
  clear Hf Hdraw. rewrite Hfr. split.
  - exists s, (dk_log d), uptime, cut. by split_and!.
  - intros Hl c. apply term_frame, Forall_app. split; apply Forall_concat, Forall_fmap.
    + eapply Forall_impl; [apply (draw_rows_plain cfg Hcfg version uptime (s_node s)); [by apply reachable_Config|done..]|].
      intros x Hx. by apply row_text.
    + assert (Hlines : Forall (λ l, bytes_ok l ∧ Forall (.≠ 27) l) (log_lines 8 (concat (dk_log d)))).
      { apply Forall_and. split; apply (log_lines_Forall _ 8), Forall_concat; [apply Hd|done]. }
      clear Hfr. induction Hcut as [|l t ls cut [Ht _] _ IH]; [constructor|].
      apply Forall_cons in Hlines as [[Hb Hne] Hlines]. constructor; [|by apply IH]. cbn. unfold row.
      pose proof (truncate_lacks 27 l 76 t ltac:(lia) ltac:(lia) Hb Hne Ht) as Htt.
      repeat (constructor; [lia|]). apply Forall_app. split; [done|]. repeat (constructor; [lia|]). constructor.
Qed.

Lemma never_panics fullscreen d st uptime :
  desk_ok fullscreen d → dk_painter d = Painting st →
  Draw version uptime st (tui_settings cfg) (Lines 8 (dk_ring d)) ≠ Panic.
Proof.
  intros Hd Hp. rewrite (do_ring _ _ Hd).
  by destruct (screen_shows_log version uptime st (tui_settings cfg) true (dk_log d) (do_log _ _ Hd)) as (cut & -> & _).
Qed.
Definition ended (p : painter) : bool := match p with Restoring _ | Gone => true | _ => false end.

(** A move of the display that writes nothing. *)
Lemma desk_silent b d p :
  desk_ok b d →
  (∀ st, p = Painting st → ∃ s, reachable wire n s ∧ st = tui_stats cfg (s_node s)) →
  session b (dk_log d) (displayed d) p →
  (∀ t, term_at (dk_painter d) t → term_at p t) →
  (ended p = true → s_stopped (dk_sys d) = true) → desk_ok b (with_painter p d).
Proof.
  intros [Hr Hl Hg _ _ Ht Hm _] Hst Hse Hte He. split; try done; cbn [with_painter dk_painter dk_log].
  - intros Hc. by apply Hte, Ht.
  - destruct p; try done; by apply He.
Qed.

(** A move that writes. *)
Lemma desk_write b d w p :
  desk_ok b d → (∀ st, p ≠ Painting st) →
  session b (dk_log d) (displayed d ++ [w]) p →
  (Forall (Forall (.≠ 27)) (dk_log d) → ∀ t, term_at (dk_painter d) t → term_at p (term t w)) →
  (ended p = true → s_stopped (dk_sys d) = true) → desk_ok b (emit (Shown w) (with_painter p d)).
Proof.
  intros [Hr Hl Hg _ _ Ht Hm _] Hst Hse Hte He. split; try done; cbn [emit with_painter dk_painter dk_log].
  - intros st ->. by destruct (Hst st).
  - rewrite (displayed_emit w (with_painter p d)). exact Hse.
  - intros Hc. rewrite (stdout_emit (Shown w) (with_painter p d)), term_app. cbn [emitted].
    by apply Hte, Ht.
  - destruct p; try done; by apply He.
Qed.

(** The daemon or [main] moves and the display does not. *)
Lemma desk_other b d s m :
  desk_ok b d → sys_step wire (dk_sys d) s →
  match m with AwaitSignal | Announcing | Stopping => s_stopped s = false | Closing | Returned => s_stopped s = true end →
  (s_stopped (dk_sys d) = true → s_stopped s = true) → desk_ok b (with_sys s (with_main m d)).
Proof.
  intros [Hr Hl Hg Hst Hse Ht Hm He] Hs Hm' Hss. split; try done; cbn [with_sys with_main dk_painter dk_sys].
  - by eapply rtc_r.
  - destruct (dk_painter d); try done; by apply Hss.
Qed.

Lemma desk_logged_ok b d w : desk_ok b d → bytes_ok w → desk_ok b (logged w d).
Proof.
  intros [Hr Hl Hg Hst Hse Ht Hm He] Hw. split; try done; cbn [logged dk_log dk_ring dk_painter].
  - apply Forall_app. split; [done|by constructor].
  - rewrite Hg. unfold writes. by rewrite foldl_app.
  - eapply session_mono; [|exact Hse]. by apply prefix_app_r.
  - intros [Hc _]%Forall_app. by apply Ht.
Qed.

Lemma desk_main_ok b d m :
  desk_ok b d →
  match m with AwaitSignal | Announcing | Stopping => s_stopped (dk_sys d) = false
             | Closing | Returned => s_stopped (dk_sys d) = true end →
  desk_ok b (with_main m d).
Proof. intros [Hr Hl Hg Hst Hse Ht Hm He] Hm'. by split. Qed.

Lemma shutting_down_text t : t_mode t = Ground → term t shutting_down = t.
Proof.
  intros Ht. apply term_text; [done|]. apply Forall_app. split; [|by repeat constructor].
  apply (StringBytes_lacks ESC "prpd: shutting down"). plain_literal.
Qed.

Lemma desk_said b d m :
  desk_ok b d → s_stopped (dk_sys d) = false → m = Stopping → desk_ok b (emit (Said shutting_down) (with_main m d)).
Proof.
  intros [Hr Hl Hg Hst Hse Ht Hm He] Hs ->. split; try done.
  { rewrite (displayed_said shutting_down (with_main Stopping d)). exact Hse. }
  intros Hc. rewrite (stdout_emit (Said shutting_down) (with_main Stopping d)), term_app. cbn [emitted].
  specialize (Ht Hc). rewrite shutting_down_text; [done|]. by apply (term_at_ground _ _ Ht).
Qed.

Lemma term_start w k t : term_at (Starting (w :: k)) t → term_at (Starting k) (term t w).
Proof.
  intros (w1 & Hw1 & ->). exists (w1 ++ [w]).
  split; [by rewrite <-app_assoc|]. by rewrite concat_app, term_app, (concat_cons w []), app_nil_r.
Qed.

Lemma term_stop w k t : term_at (Restoring (w :: k)) t → term_at (Restoring k) (term t w).
Proof.
  intros (w1 & c & Hw1 & ->). exists (w1 ++ [w]), c.
  split; [by rewrite <-app_assoc|]. by rewrite concat_app, term_app, (concat_cons w []), app_nil_r.
Qed.

Lemma desk_step_ok b d d' : desk_ok b d → desk_step wire cfg version d d' → desk_ok b d'.
Proof.
  intros Hd Hs. pose proof (do_shape _ _ Hd) as Hse. pose proof (do_main _ _ Hd) as Hm.
  destruct Hs as [s [Hc _] Hs He|w _ Hw|w k _ Hp|_ Hp|_ Hp|st u frame _ Hp Hu Hf|st u _ Hp Hf|_ Hp|_ Hp Hst|w k _ Hp
                 |_ Hp|_ Hp|_ Hp Hst|_ Hp|_ Hp|[Hc _] Hp|_ Hp]; try rewrite Hp in Hse; try rewrite Hp in Hm; cbn [session] in Hse.
  - apply (desk_other b d s (dk_main d)); [done..| |congruence]. destruct (dk_main d); congruence.
  - by apply desk_logged_ok.
  - destruct Hse as [-> Hw]. apply desk_write; [done|done| | |done].
    + cbn [session]. split; [done|]. by rewrite <-app_assoc.
    + intros _ t. rewrite Hp. apply term_start.
  - destruct Hse as [-> Hw]. rewrite app_nil_r in Hw. apply desk_silent; [done|done| | |done].
    + split; [done|]. exists []. by rewrite app_nil_r.
    + intros t. rewrite Hp. intros (w & Hw' & ->). rewrite app_nil_r in Hw'. subst w. by exists false.
  - apply desk_silent; [done| |done| |done]; [|by rewrite Hp].
    intros st [= <-]. exists (dk_sys d). split; [apply Hd|done].
  - destruct (painted b d st u frame Hd Hp Hu Hf) as [Hfs Ht]. destruct Hse as (-> & fs & Hw & Hfr).
    apply desk_write; [done|done| | |done].
    + split; [done|]. exists (fs ++ [frame]). rewrite Hw, <-app_assoc. split; [done|].
      apply Forall_app. by split; [|constructor].
    + intros Hc t. rewrite Hp. intros (c & ->). exists true. by apply Ht.
  - by destruct (never_panics b d st u Hd Hp).
  - apply desk_silent; [done|done|done|by rewrite Hp|done].
  - destruct Hse as (-> & fs & Hw & Hfr). apply desk_silent; [done|done| | |done].
    + split; [done|]. exists fs, []. by rewrite app_nil_r.
    + intros t. rewrite Hp. intros (c & ->). by exists [], c.
  - destruct Hse as (-> & fs & w' & Hw & Hk & Hfr).
    pose proof (do_end _ _ Hd) as He. rewrite Hp in He. apply desk_write; [done|done| | |done].
    + split; [done|]. exists fs, (w' ++ [w]). rewrite Hw, <-!app_assoc. done.
    + intros _ t. rewrite Hp. apply term_stop.
  - destruct Hse as (-> & fs & w' & Hw & Hk & Hfr). rewrite app_nil_r in Hk. subst w'.
    pose proof (do_end _ _ Hd) as He. rewrite Hp in He. apply desk_silent; [done|done| | |done].
    + by exists fs.
    + intros t. rewrite Hp. intros (w1 & c & Hw1 & ->). rewrite app_nil_r in Hw1. by subst w1.
  - destruct Hse as [-> Hfr]. replace d with (with_painter Plain d) at 2 by (destruct d; cbn in Hp |- *; by subst).
    apply desk_write; [done|done| | |done].
    + split; [done|]. apply Forall_app. split; [done|]. constructor; [|done]. exists (dk_sys d). split; [apply Hd|done].
    + intros _ t. rewrite Hp. intros ->. apply term_text; [done|]. apply Forall_app. split; [|by repeat constructor].
      apply (StringBytes_lacks ESC), (status_plain cfg Hcfg), reachable_Config, Hd.
  - destruct Hse as [-> Hfr]. apply desk_silent; [done..| |done]. by rewrite Hp.
  - by apply desk_main_ok.
  - by apply desk_said.
  - apply (desk_other b d _ Closing); [done|by apply step_stop| |]; unfold Stop; by rewrite Hm.
  - by apply desk_main_ok.
Qed.
(** C17: The display session.  In every state of the daemon with its display,
    whatever the frames, log lines and the moment of the signal: the daemon's
    own state is one it reaches without a display; the display has written the
    entry sequence, then whole frames (without a terminal: status lines), each
    showing a state the daemon reached and the end of the log at that time,
    and it starts to leave only after [Stop].  If no log line contains a
    control character, the terminal is on the alternate screen exactly from
    the first write to the last, and when the goroutine returns the terminal
    is as it was. *)
Theorem console_session (fullscreen : bool) (d : desk) :
  rtc (desk_step wire cfg version) (desk_boot fullscreen n) d →
  reachable wire n (dk_sys d) ∧
  session fullscreen (dk_log d) (displayed d) (dk_painter d) ∧
  (match dk_painter d with Restoring _ | Gone => s_stopped (dk_sys d) = true | _ => True end) ∧
  (Forall (Forall (.≠ 27)) (dk_log d) →
     t_mode (term power_on (stdout d)) = Ground ∧
     t_alt (term power_on (stdout d)) = alternate (dk_painter d) ∧
     (dk_painter d = Gone → term power_on (stdout d) = power_on)).
Proof.
  intros Hr. assert (Hd : desk_ok fullscreen d).
  { revert d Hr. apply rtc_ind_r; [apply desk_boot_ok|]. intros d d' _ Hs Hd. by eapply desk_step_ok. }
  split_and!; [apply Hd|apply Hd|apply Hd|]. intros Hl. pose proof (do_term _ _ Hd Hl) as Ht.
  destruct (term_at_ground _ _ Ht) as (Hg & Ha & _). split_and!; [done..|]. intros Hp. by rewrite Hp in Ht.
Qed.
End session.

(** ** Concrete sessions *)

(** [version.Version] *)
Definition Version : string := "v0.5.3".

(** [IsTerminal]: on Linux whether the terminal attributes can be read *)
Definition IsTerminal (linux tcgets : bool) : bool := if linux then tcgets else true.

Definition demo_file : FileConfig :=
  mkFile "gw" "prp-san" "eth0" "eth1" "" "" "" "" 3 "B" 7 true true "" "64s" "64s" "" 256 "" true [].

Definition demo_Host : Host := demo_host demo_file "".

#[local] Existing Instance demo_Host.
#[local] Existing Instance demo_env.
#[local] Existing Instance sorted_range.

Definition demo_started : Node :=
  sd_node (Runtime.Start (S := {| CreateRawSocket := fun _ _ => true; SetMTU := fun _ _ _ => true |})
    (NewNode (Some (prp_config demo_file)) 0)).

Lemma demo_started_ok : node_ok demo_started.
Proof.
  pose proof (Start_spec (S := {| CreateRawSocket := fun _ _ => true; SetMTU := fun _ _ _ => true |})
    (prp_config demo_file) 0 ltac:(unfold is_u16; lia)) as Hs.
  cbn zeta in Hs. destruct Hs as (_ & _ & _ & _ & _ & Hs). apply Hs. discriminate.
Qed.

Definition quiet (p : port) (f : bytes) : Prop := False.

(** A run: the display draws one frame, then a signal comes and [main]
    returns right after [Stop]. *)
Definition demo_frame : bytes :=
  match Draw Version "0s" (tui_stats demo_file demo_started) (tui_settings demo_file) [] with
  | Ret f => f
  | Panic => []
  end.

Definition demo_desk : desk :=
  mkDesk (Stop (boot demo_started)) [] (NewRingBuffer 200 true) Waiting Returned
    [Shown alt_on; Shown hide_cursor; Shown clear_home; Shown demo_frame; Said shutting_down].

Lemma demo_desk_run : rtc (desk_step quiet demo_file Version) (desk_boot true demo_started) demo_desk.
Proof.
  assert (Hr : ∀ s l r p m o, s_crashed s = false → m ≠ Returned → running (mkDesk s l r p m o)) by done.
  eapply rtc_l; [eapply desk_start; [by apply Hr|reflexivity]|].
  eapply rtc_l; [eapply desk_start; [by apply Hr|reflexivity]|].
  eapply rtc_l; [eapply desk_start; [by apply Hr|reflexivity]|].
  eapply rtc_l; [eapply desk_started; [by apply Hr|reflexivity]|].
  eapply rtc_l; [eapply desk_sample; [by apply Hr|reflexivity]|].
  eapply rtc_l.
  { eapply (desk_paint _ _ _ _ _ "0s" demo_frame); [by apply Hr|reflexivity|repeat split; discriminate|].
    vm_compute. reflexivity. }
  eapply rtc_l; [eapply desk_signal; [by apply Hr|reflexivity]|].
  eapply rtc_l; [eapply desk_announce; [by apply Hr|reflexivity]|].
  eapply rtc_l; [eapply desk_stop; [by apply Hr|reflexivity]|].
  eapply rtc_l; [eapply desk_return; [by apply Hr|reflexivity]|].
  apply rtc_refl.
Qed.

Lemma console_session_witness :
  reachable quiet demo_started (dk_sys demo_desk) ∧
  t_alt (term power_on (stdout demo_desk)) = alternate (dk_painter demo_desk).
Proof.
  assert (Hcfg : plain_config demo_file).
  { repeat apply Forall_cons_2; [..|constructor]; repeat split; discriminate. }
  destruct (console_session quiet demo_file Version demo_started demo_started_ok eq_refl
    ltac:(repeat split; discriminate) Hcfg true demo_desk demo_desk_run) as (Hr & _ & _ & Ht).
  split; [exact Hr|]. apply Ht. constructor.
Defined.

(** [main] returns after [Stop] without waiting for the display: the process
    can end with the terminal on the alternate screen. *)
Example alternate_screen_left :
  ∃ d, rtc (desk_step quiet demo_file Version) (desk_boot true demo_started) d ∧
       dk_main d = Returned ∧ t_alt (term power_on (stdout d)) = true.
Proof. exists demo_desk. split; [exact demo_desk_run|]. split; vm_compute; reflexivity. Qed.
